(* ===== verification/_CoqProject ===== *)
-Q . S2P
Prelude.v
BigMath.v
Bytes.v
Types.v
Mongo.v
ListMongo.v
Json.v
Aggregation.v
Ticks.v
DepositTypes.v
Fixtures.v
Orders.v
MatchTypes.v
OrderCancels.v
OrderCodec.v
Payloads.v
TradeCodec.v
OrderDao.v
Collection.v
Pairs.v
Accounts.v
AccountDaoProps.v
Tokens.v
TokenDaoProps.v
OrderStore.v
OrderDaoRefine.v
DaoProps.v
TradeDao.v
Rabbit.v
ApiErrors.v
Consumers.v
Engine.v
Toy.v
EngineSpec.v
EngineProps.v
EngineWitness.v
ReplyProps.v
Ws.v
WsProps.v
Services.v
AccountService.v
PairService.v
PairServiceProps.v
MarketService.v
Validator.v
OrderService.v
OrderServiceProps.v
System.v
ServiceWitness.v
Operator.v
OperatorProps.v
OperatorWitness.v
OrderEndpoint.v
OhlcvService.v
Endpoints.v
Channels.v
EndpointProps.v
Wallets.v
WalletProps.v
WalletWitness.v
OperatorStart.v
Provider.v
Feeds.v
OhlcvProps.v
TickProps.v
TickWitness.v
OrderEndpointProps.v
SiteWitness.v
Deposits.v
DepositDaoProps.v
AddressGenerator.v
DepositService.v
DepositEndpoint.v
Configurator.v
Listeners.v
SwapEngine.v
DepositProps.v
ListenerProps.v
DepositWitness.v
