(* ===== verification/Prelude.v ===== *)
(** * Verification of dex-server

    The server of a decentralized exchange, in Go.  A client sends signed orders over
    a WebSocket; the order service checks them and puts them on a queue; the matching
    engine takes them off, matches them against the orders in MongoDB and answers with
    the trades; the order service checks the balances again and hands the trades to the
    operator, which sends them to the exchange contract in batches; what becomes of a
    batch comes back to the order service, which updates orders and trades and tells
    the clients.  Beside this there are the accounts, tokens and pairs, the statistics of
    the trades, and a swap that turns payments on other chains into tokens.

    The model is a shallow embedding.  A function of the program is a function here, of
    the same name; one that reads and writes a state is in the monad [M S], whose
    results are a value, an [error] or none (a panic, or a wait for ever), effects made
    before it staying.  A component of a larger state is reached by a [lens] ([zoom]).
    A slice, map or struct changed in place through a pointer is an argument and a
    result.  Theorems about runs are stated with [wp], which holds of every outcome, or
    on the equation of a run.

    ** Foundations

    - [Prelude] (this file): results, the monad, [wp] and its tactics, lists.
    - [BigMath] ([utils/math/big.go]): integers; a [*big.Int] is an [option Z].  [Bytes]:
      the bytes of a number and their text.
    - [Types] ([types/]): orders, trades, pairs, matches, responses; [EthCommon] is the
      interface of go-ethereum (addresses, hashes, Keccak, recovery of a signer).
    - [Json], [Mongo]: JSON and BSON values, the queries and pipelines the code builds,
      and the database's driver as a class whose laws are the server's documented
      behaviour.  Reads answer what the query says, in an order it allows; writes may
      fail, and then have or have not been done.  [ListMongo] is an instance.
    - [Collection]: collections of one record type, for any codec that is read back.

    ** Orders and matching

    - [Orders], [OrderCancels], [OrderCodec], [MatchTypes], [TradeCodec]
      ([types/order.go], [types/order_cancel.go], [types/trade.go], [types/engine.go]):
      methods and encodings.  [Payloads] ([types/payloads.go]): an older form of an order.
    - [Wallets], [WalletProps] ([types/wallet.go], [types/signature.go], [daos/wallet.go],
      [services/wallet.go], [services/tx.go], [endpoints/info.go]): keys and signatures.
    - [OrderDao] ([daos/order.go]), [TradeDao] ([daos/trade.go]): the collections, method
      by method.  [OrderStore] and the class in [TradeDao] are what the clients rely on,
      an abstract book of orders by hash and the multiset of trades; [OrderDaoRefine]
      and [TradeDao] prove that the methods implement it, and [DaoProps] states it on
      the collection itself.
    - [Rabbit], [Consumers] ([rabbitmq/]): the broker; [published] is what has been sent.
      What the consumers take from the queues and how they decode it.
    - [Engine] ([engine/orderbook.go], [engine/engine.go]): one operation of the book
      is one step, as each holds the book's mutex throughout.  [EngineSpec] allocates a
      taker among makers; [EngineProps] shows that the code's loop does that.
    - [Services], [Validator], [OrderService], [OrderServiceProps]
      ([services/validator.go], [services/order.go]): what is accepted, what reaches the
      engine, what reaches the operator and who is told.
    - [Operator], [OperatorProps], [OperatorStart] ([operator/], [contracts/exchange.go]):
      batches, queues and the messages about them; the queue of each operator's wallet.
    - [System], [ReplyProps]: order service, engine and queues together, as a transition
      system in which a message may be handled at any time and more than once; what the
      engine answers, at the other end of its queue.
    - [Ws], [WsProps] ([ws/]): the registries of connections as a transition system.
    - [OrderEndpoint], [OrderEndpointProps] ([endpoints/order.go]): the order channel.
    - [Feeds] ([GetFeed], [GetByTopic]): orders and associations kept in Swarm feeds.
    - [Provider] ([ethereum/provider.go], [contracts/token.go]): the calls to an Ethereum
      node and to the contract of a token, on which the balance checks rest.
    - [ApiErrors] ([errors/]): the templates of the errors that are answered.
    - [Endpoints] ([endpoints/pair.go] and the other requests), [Channels]
      ([ws/connection.go], [ws/channels.go]), [EndpointProps]: requests, the channels of
      the market, and the goroutines that read and write a connection.

    ** Accounts, tokens, pairs and statistics

    - [Pairs], [Accounts], [AccountDaoProps], [Tokens], [TokenDaoProps]: types, codecs and
      collections with their contracts; [AccountService] and [MarketService]
      ([services/account.go], [services/trade.go], [services/orderbook.go]).
    - [PairService], [PairServiceProps] ([services/pair.go]): creating pairs, and the
      statistics of their trades and orders.
    - [Aggregation]: pipelines that group by expressions, with what the database
      computes for them; [Ticks] ([types/ohlcv.go]): what they answer.
    - [OhlcvService], [OhlcvProps], [TickProps] ([services/ohlcv.go],
      [crons/tickStreaming.go], [endpoints/ohlcv.go]): the ticks of the trades of an
      interval; [OhlcvProps] follows the stages of the pipeline.

    ** The deposit swap

    - [DepositTypes], [Deposits], [DepositDaoProps] ([types/deposit.go],
      [daos/association.go], [daos/config.go]): associations of addresses with users,
      and counters.
    - [AddressGenerator], [DepositService], [DepositEndpoint]
      ([swap/ethereum/address_generator.go], [services/deposit.go],
      [endpoints/deposit.go]): addresses, payments that are seen, payments that are made.
    - [Listeners] ([swap/ethereum/listener.go], [swap/bitcoin/listener.go]) and
      [Configurator] ([swap/tomochain/]), which drive them; [ListenerProps],
      [DepositProps].
    - [SwapEngine] ([swap/main.go], [swap/config/main.go]): configuring and starting it all.

    ** What the theorems show

    - Matching: a taker trades the smaller of its amount and what the acceptable
      makers offer, in price-time priority, the book stays uncrossed and filled amounts
      stay within the amounts, on every outcome; what cancellation and invalidation do;
      what happens to an order that comes again.
    - The book of the engine is the one of the database: the lookups of [daos/order.go]
      refine the abstract book, saved orders are read back, encodings round-trip.
    - Service to engine to operator: only valid, signed and funded orders are
      published; the engine does with a published order what the book does with the
      order; only funded matches are sent on; a batch is announced once.
    - Whole server: every order that is ever stored passes [Validate], so it carries its
      user's signature; every batch of trades the operator is given is made of such orders,
      within their limits, and says what was agreed; the engine's answer is decoded to what the engine published.
    - What a wallet signs, [Validate] accepts.
    - Connections: a message reaches each subscriber once and nobody else, unless the
      [writeHandler] of one of them has returned, where the sender waits for ever; closing
      forgets a client.
    - Ticks: each successful trade of the time asked is counted by exactly one tick, of
      its pair and interval; a tick's prices are consistent.  Pairs are never made twice.
    - Deposits: no payment to a known address is missed while the listener goes on and
      the lookups of addresses answer, a payment is queued for the association it pays, and pays out at most once per
      message, to the user of the association; and where these fail.
    - Several theorems state behaviour the code can hardly mean, as it is.

    The files named [...Witness] apply every theorem with hypotheses to a concrete run,
    with the instances of [Fixtures], [Toy] and [ListMongo].

    ** Bounds and fuel

    Integers of the program that may wrap are wrapped ([int64], [uint64]).  Every loop
    over data is structural.  Two kinds of loop run on fuel: the listeners and the
    waiting loops of the configurator, which need not end in the code either; the fuel
    is a number of iterations, and the theorems hold for any.  [big_bytes] has one step
    more than the number has bits, and [big_bytes_ok] shows that this suffices.  Decimals
    of the database are exact below 10^34; beyond that the rounding is a parameter.

    ** Assumptions

    The laws of the database, the broker, the Ethereum node and the contracts are classes
    ([MongoLaws], [AmqpLaws], [AggregatorLaws], [EthCommonLaws], ...), with instances that
    show they can hold.  A query of the database is atomic, and the theorems about one
    operation are about that operation alone; where the code interleaves
    ([interleaved_same_address], [Ws]) the interleaving is modelled.  The time zone of the server is UTC.  [net/http]
    recovers from a panic of an HTTP handler; the goroutines of the WebSockets, queues
    and listeners do not, and a panic there ends the process.  A client's [writeHandler]
    receives what is sent until it returns, which it may at any time ([Ws.quits]); how
    its goroutine takes turns with the senders is not modelled further.

    ** Not modelled

    The generated contract bindings and the watchers of contract events, which hand the
    bindings' channels on; the start of the server, its configuration and logging, beyond
    that of the operator and the swap; the mocks and helpers of the tests and the programs
    under [utils/seed-data] and [e2e]. *)

From Stdlib Require Export ZArith Lia.
From stdpp Require Export base tactics numbers strings gmap sorting option list.

#[global] Open Scope Z_scope.

(** ** Go results

    A Go function returns a value and an [error], and may also come to no end, which is
    [Panic] here: a panic (a nil pointer dereference, an index out of range), from which
    the program does not recover, [log.Fatal], or a send on a channel from which nobody
    receives any more, which is kept in [Ws.stuck]. *)

Abbreviation error := string (only parsing).

Inductive outcome (A : Type) : Type :=
  | Ok (a : A)
  | Err (e : error)
  | Panic.
Arguments Ok {A} a.
Arguments Err {A} e.
Arguments Panic {A}.

#[export] Instance outcome_ret : MRet outcome := λ A a, Ok a.
#[export] Instance outcome_bind : MBind outcome := λ A B f m,
  match m with Ok a => f a | Err e => Err e | Panic => Panic end.
#[export] Instance outcome_fmap : FMap outcome := λ A B f m,
  match m with Ok a => Ok (f a) | Err e => Err e | Panic => Panic end.

#[export] Instance outcome_eq_dec `{EqDecision A} : EqDecision (outcome A).
Proof. solve_decision. Defined.

(** Using a Go pointer ([*big.Int], [*types.Order], ...) as a value. *)
Definition deref {A} (p : option A) : outcome A :=
  match p with Some a => Ok a | None => Panic end.

(** The early return [if c { return errors.New(e) }]. *)
Definition reject_if (c : bool) (e : error) : outcome unit :=
  if c then Err e else Ok tt.

(** ** Stateful code

    [M S A] is Go code that reads and writes a state [S] and returns an [A];
    effects made before an error or a panic stay. *)

Definition M (S A : Type) : Type := S → outcome A * S.

#[export] Instance M_ret S : MRet (M S) := λ A a s, (Ok a, s).
#[export] Instance M_bind S : MBind (M S) := λ A B f m s,
  match m s with
  | (Ok a, s') => f a s'
  | (Err e, s') => (Err e, s')
  | (Panic, s') => (Panic, s')
  end.

Definition lift {S A} (r : outcome A) : M S A := λ s, (r, s).
Definition fail {S A} (e : error) : M S A := λ s, (Err e, s).
Definition crash {S A} : M S A := λ s, (Panic, s).
Definition get {S} : M S S := λ s, (Ok s, s).
Definition put {S} (s' : S) : M S unit := λ _, (Ok tt, s').
Definition gets {S A} (f : S → A) : M S A := λ s, (Ok (f s), s).
Definition modify {S} (f : S → S) : M S unit := λ s, (Ok tt, f s).

(** [r, err := c]: the error is a value the caller looks at (or drops). *)
Definition attempt {S A} (m : M S A) : M S (error + A) := λ s,
  match m s with
  | (Ok a, s') => (Ok (inr a), s')
  | (Err e, s') => (Ok (inl e), s')
  | (Panic, s') => (Panic, s')
  end.

(** A call whose error is only logged: [if err != nil { logger.Error(err) }]. *)
Definition log_error {S A} (m : M S A) : M S unit := λ s,
  match m s with
  | (Panic, s') => (Panic, s')
  | (_, s') => (Ok tt, s')
  end.

(** Running code on one part of a larger state. *)
Record lens (S T : Type) := Lens { lget : S → T; lset : T → S → S }.
Arguments Lens {S T}. Arguments lget {S T}. Arguments lset {S T}.

Definition zoom {S T A} (l : lens S T) (m : M T A) : M S A := λ s,
  let '(r, t) := m (lget l s) in (r, lset l t s).

(** [for _, x := range l { b = f(b, x) }] *)
Fixpoint mfold {S A B} (f : B → A → M S B) (b : B) (l : list A) : M S B :=
  match l with
  | [] => mret b
  | x :: l' => b' ← f b x; mfold f b' l'
  end.

Fixpoint mforeach {S A} (f : A → M S unit) (l : list A) : M S unit :=
  match l with
  | [] => mret tt
  | x :: l' => f x ;; mforeach f l'
  end.

(** ** Weakest preconditions *)

Definition wp {S A} (m : M S A) (Q : outcome A → S → Prop) (s : S) : Prop :=
  Q (m s).1 (m s).2.

(** The postcondition of a continuation, after a step that may fail. *)
Definition wp_next {S A B} (f : A → M S B) (Q : outcome B → S → Prop)
    (r : outcome A) (s : S) : Prop :=
  match r with
  | Ok a => wp (f a) Q s
  | Err e => Q (Err e) s
  | Panic => Q Panic s
  end.

Section wp.
Context {S : Type}.
Implicit Types s : S.

Lemma wp_mono {A} (m : M S A) (P Q : outcome A → S → Prop) s :
    (∀ r s', P r s' → Q r s') → wp m P s → wp m Q s.
Proof. unfold wp. auto. Qed.

Lemma wp_run {A} (m : M S A) (Q : outcome A → S → Prop) s r s' :
    m s = (r, s') → wp m Q s → Q r s'.
Proof. unfold wp. by intros ->. Qed.

Lemma wp_bind {A B} (m : M S A) (f : A → M S B) Q s :
    wp m (wp_next f Q) s → wp (m ≫= f) Q s.
Proof.
    unfold wp, wp_next, mbind, M_bind.
    destruct (m s) as [[a|e|] s']; simpl; auto.
  Qed.

Lemma wp_ret {A} (a : A) Q s : Q (Ok a) s → wp (mret a : M S A) Q s.
Proof. done. Qed.

Lemma wp_lift {A} (r : outcome A) Q s : Q r s → wp (lift r : M S A) Q s.
Proof. done. Qed.

Lemma wp_fail {A} e Q s : Q (Err e) s → wp (fail e : M S A) Q s.
Proof. done. Qed.

Lemma wp_zoom {T A} (l : lens S T) (m : M T A) Q s :
    wp m (λ r t, Q r (lset l t s)) (lget l s) → wp (zoom l m) Q s.
Proof. unfold wp, zoom. destruct (m (lget l s)); done. Qed.

Lemma wp_attempt {A} (m : M S A) Q s :
    wp m (λ r s', match r with
                  | Ok a => Q (Ok (inr a)) s'
                  | Err e => Q (Ok (inl e)) s'
                  | Panic => Q Panic s' end) s →
    wp (attempt m) Q s.
Proof. unfold wp, attempt. destruct (m s) as [[]]; done. Qed.

Lemma wp_log_error {A} (m : M S A) Q s :
    wp m (λ r s', match r with Panic => Q Panic s' | _ => Q (Ok tt) s' end) s →
    wp (log_error m) Q s.
Proof. unfold wp, log_error. destruct (m s) as [[]]; done. Qed.

Lemma wp_and {A} (m : M S A) P Q s :
    wp m P s → wp m Q s → wp m (λ r s', P r s' ∧ Q r s') s.
Proof. done. Qed.

(** The run itself. *)
Lemma wp_self {A} (m : M S A) s : wp m (λ r s', r = (m s).1 ∧ s' = (m s).2) s.
Proof. done. Qed.

  (** A loop keeps its invariant: [I] holds of the accumulator and the state
      between iterations, [E] of the states in which an iteration fails. *)
Lemma wp_mforeach {A} (f : A → M S unit) (I : S → Prop)
      (E : outcome unit → S → Prop) l s :
    (∀ x s, x ∈ l → I s →
       wp (f x) (λ r s', match r with Ok _ => I s' | _ => E r s' end) s) →
    I s →
    wp (mforeach f l) (λ r s', match r with Ok _ => I s' | _ => E r s' end) s.
Proof.
    revert s. induction l as [|x l IH]; intros s Hf HI; [done|].
    apply wp_bind. eapply wp_mono; [|apply Hf; [constructor|done]].
    intros [[]|e|] s' Hs'; simpl; [|done|done].
    apply IH; [|done]. intros y s'' Hy. apply Hf. by constructor.
  Qed.
End wp.

(** ** Automation *)

(** From a property of the result and the final state of a run to the weakest
    precondition. *)
Ltac by_wp Hrun :=
  match type of Hrun with
  | ?m ?s = (?r, ?s') => pattern r, s'; apply (wp_run m _ s r s' Hrun)
  end.

Create HintDb dex.
Create Rewrite HintDb dex.

(** Case analysis on a comparison of integers. *)
Ltac zcase :=
  match goal with
  | |- context [?x <? ?y] => destruct (Z.ltb_spec x y)
  | |- context [?x <=? ?y] => destruct (Z.leb_spec x y)
  | |- context [?x =? ?y] => destruct (Z.eqb_spec x y)
  end.

(** A step of a run by its specification. *)
Tactic Notation "wp_step" uconstr(L) :=
  apply wp_bind; eapply wp_mono; [|eapply L]; cbn beta.

(** Inverting successful runs of pure [outcome] code. *)
Ltac go_inv_step :=
  match goal with
  | H : Ok _ = Ok _ |- _ => injection H as H; subst
  | H : Ok _ = Err _ |- _ => discriminate H
  | H : Ok _ = Panic |- _ => discriminate H
  | H : Err _ = Ok _ |- _ => discriminate H
  | H : Err _ = Panic |- _ => discriminate H
  | H : Panic = Ok _ |- _ => discriminate H
  | H : Panic = Err _ |- _ => discriminate H
  | H : mret _ = _ |- _ => progress unfold mret, outcome_ret in H
  | H : (?m ≫= _) = _ |- _ =>
      unfold mbind, outcome_bind in H; destruct m eqn:?; simpl in H
  | H : match ?m with Ok _ => _ | Err _ => _ | Panic => _ end = _ |- _ =>
      destruct m eqn:?; simpl in H
  | H : deref ?p = _ |- _ => unfold deref in H; destruct p eqn:?; simpl in H
  | H : reject_if ?c _ = _ |- _ =>
      unfold reject_if in H; destruct c eqn:?; simpl in H
  end.
Ltac go_inv := repeat go_inv_step.

(** ** Lists *)

Definition sumZ (l : list Z) : Z := foldr Z.add 0 l.

Lemma sumZ_app l k : sumZ (l ++ k) = sumZ l + sumZ k.
Proof. induction l as [|x l IH]; simpl; [done|]. rewrite IH. lia. Qed.

Lemma sumZ_nonneg l : Forall (λ x, 0 <= x) l → 0 <= sumZ l.
Proof. induction 1; simpl; lia. Qed.

Lemma sumZ_snoc l x : sumZ (l ++ [x]) = sumZ l + x.
Proof. rewrite sumZ_app. simpl. lia. Qed.

#[export] Instance sumZ_Permutation : Proper ((≡ₚ) ==> (=)) sumZ.
Proof. induction 1; simpl; lia. Qed.

#[export] Hint Rewrite sumZ_app : dex.
#[export] Hint Resolve sumZ_nonneg : dex.

(** Two related lists, filtered by equivalent predicates, stay related. *)
Lemma Forall2_filter {A B} (R : A → B → Prop) (P : A → Prop) (Q : B → Prop)
    `{∀ a, Decision (P a)} `{∀ b, Decision (Q b)} l k :
  (∀ a b, R a b → Q b ↔ P a) → Forall2 R l k →
  Forall2 R (base.filter P l) (base.filter Q k).
Proof.
  intros HPQ. induction 1 as [|a b l k Hr Hf IH]; [constructor|].
  rewrite !filter_cons. specialize (HPQ a b Hr).
  destruct (decide (P a)), (decide (Q b)); [by constructor|tauto..|done].
Qed.

Lemma StronglySorted_Forall2 {A B} (R : A → B → Prop) (le : A → A → Prop)
    (le' : B → B → Prop) l k :
  (∀ a b a' b', R a b → R a' b' → le' b b' → le a a') →
  Forall2 R l k → StronglySorted le' k → StronglySorted le l.
Proof.
  intros Hle. induction 1 as [|a b l k Hr Hf IH]; [constructor|].
  rewrite !StronglySorted_cons. intros [Hb Hk]. split; [|by apply IH].
  clear IH Hk. induction Hf; [constructor|]. apply Forall_cons in Hb as [? ?].
  constructor; [by eapply Hle|auto].
Qed.

Lemma Permutation_Forall2_r {A B} (R : A → B → Prop) l k k' :
  k ≡ₚ k' → Forall2 R l k → ∃ l', l ≡ₚ l' ∧ Forall2 R l' k'.
Proof.
  intros Hp Hf%Forall2_flip. destruct (Permutation_Forall2 Hp Hf) as (l' & ? & ?).
  exists l'. split; [done|]. by apply Forall2_flip.
Qed.

(** ** Strings *)
#[export] Instance string_app_assoc : Assoc (=) String.append.
Proof. intros x y z. induction x as [|c x IH]; [done|]. unfold String.append in *; simpl. f_equal. exact IH. Qed.

Lemma Forall_filter_all {A} (P Q : A → Prop) `{∀ x, Decision (Q x)} l :
  Forall P l → Forall P (base.filter Q l).
Proof. rewrite !Forall_forall. intros Hl x [_ Hx]%list_elem_of_filter. auto. Qed.
Lemma filter_all {A} (l : list A) : base.filter (λ _, True) l = l.
Proof. induction l as [|x l IH]; [done|]. by rewrite filter_cons_True, IH. Qed.
Lemma filter_none {A} (P : A → Prop) `{∀ x, Decision (P x)} l :
  Forall (λ x, ¬ P x) l → base.filter P l = [].
Proof. induction 1 as [|x l Hx _ IH]; [done|]. by rewrite filter_cons_False. Qed.
