(* ===== verification/BigMath.v ===== *)
(** Arbitrary-precision integers: [utils/math/big.go], [utils/units.go] and the
    part of Go's [math/big] they use ([Int.Cmp], [Int.Div], [Int.Exp],
    [Int.String], [Int.SetString] in base 10).  A [*big.Int] is an [option Z],
    [None] being the nil pointer; its value is a [Z], which Go never wraps. *)
From S2P Require Import Prelude.
From Stdlib Require Import Ascii.
From Stdlib Require DecimalString DecimalZ DecimalPos.

(** ** Go's math/big *)
Module Big.
  (** [x.Cmp(y)] *)
Definition Cmp (x y : Z) : Z :=
    match x ?= y with Lt => -1 | Eq => 0 | Gt => 1 end.

  (** [z.Div(x, y)] is Euclidean division and panics when [y] is zero. *)
Definition Div (x y : Z) : outcome Z :=
    if y =? 0 then Panic
    else if 0 <? y then Ok (x / y) else Ok (- (x / - y)).

  (** [z.Exp(x, y, nil)]: one for a negative or zero exponent. *)
Definition Exp (x y : Z) : Z := if y <=? 0 then 1 else x ^ y.

  (** [x.String()], which prints a nil pointer as ["<nil>"]. *)
Definition String_Z (x : Z) : string :=
    DecimalString.NilZero.string_of_int (Z.to_int x).
Definition Stringp (x : option Z) : string :=
    match x with Some x => String_Z x | None => "<nil>" end.

  (** [z.SetString(s, 10)]: an optional sign, then digits to the end. *)
Definition SetString (s : string) : option Z :=
    match s with
    | String "+"%char s' => Z.of_uint <$> DecimalString.NilZero.uint_of_string s'
    | _ => Z.of_int <$> DecimalString.NilZero.int_of_string s
    end.

  (** The value [z] is left with when [z.SetString] fails: the documentation
      leaves it undefined. *)
Class Undefined := undefined : string → Z.
End Big.

(** ** utils/math/big.go *)
Definition Mul (x y : Z) : Z := x * y.
Definition Div (x y : Z) : outcome Z := Big.Div x y.
Definition Add (x y : Z) : Z := x + y.
Definition Sub (x y : Z) : Z := x - y.
Definition Neg (x : Z) : Z := - x.
Definition Avg (x y : Z) : outcome Z := Div (Add x y) 2.
Definition ToBigInt `{Big.Undefined} (s : string) : Z :=
  match Big.SetString s with Some z => z | None => Big.undefined s end.
Definition Exp (x y : Z) : Z := Big.Exp x y.
Definition Max (a b : Z) : Z := if Big.Cmp a b =? 1 then a else b.

Definition IsZero (x : Z) : bool := Big.Cmp x 0 =? 0.
Definition IsEqual (x y : Z) : bool := Big.Cmp x y =? 0.
Definition IsNotEqual (x y : Z) : bool := negb (Big.Cmp x y =? 0).
Definition IsGreaterThan (x y : Z) : bool :=
  (Big.Cmp x y =? 1) || (Big.Cmp x y =? 0).
Definition IsStrictlyGreaterThan (x y : Z) : bool := Big.Cmp x y =? 1.
Definition IsSmallerThan (x y : Z) : bool :=
  (Big.Cmp x y =? -1) || (Big.Cmp x y =? 0).
Definition IsStrictlySmallerThan (x y : Z) : bool := Big.Cmp x y =? -1.
Definition IsEqualOrGreaterThan (x y : Z) : bool :=
  IsEqual x y || IsGreaterThan x y.
Definition IsEqualOrSmallerThan (x y : Z) : bool :=
  IsEqual x y || IsSmallerThan x y.

(** utils/units.go: [value] is an [int64]. *)
Definition Ethers (value : Z) : Z := Mul (10 ^ 18) value.

(** ** The comparisons as comparisons of integers *)

Lemma IsZero_spec x : IsZero x = (x =? 0).
Proof. unfold IsZero, Big.Cmp. destruct (Z.compare_spec x 0); lia. Qed.
Lemma IsEqual_spec x y : IsEqual x y = (x =? y).
Proof. unfold IsEqual, Big.Cmp. destruct (Z.compare_spec x y); lia. Qed.
Lemma IsNotEqual_spec x y : IsNotEqual x y = negb (x =? y).
Proof. unfold IsNotEqual, Big.Cmp. destruct (Z.compare_spec x y); lia. Qed.
Lemma IsGreaterThan_spec x y : IsGreaterThan x y = (y <=? x).
Proof. unfold IsGreaterThan, Big.Cmp. destruct (Z.compare_spec x y); lia. Qed.
Lemma IsStrictlyGreaterThan_spec x y : IsStrictlyGreaterThan x y = (y <? x).
Proof.
  unfold IsStrictlyGreaterThan, Big.Cmp. destruct (Z.compare_spec x y); lia.
Qed.
Lemma IsSmallerThan_spec x y : IsSmallerThan x y = (x <=? y).
Proof. unfold IsSmallerThan, Big.Cmp. destruct (Z.compare_spec x y); lia. Qed.
Lemma IsStrictlySmallerThan_spec x y : IsStrictlySmallerThan x y = (x <? y).
Proof.
  unfold IsStrictlySmallerThan, Big.Cmp. destruct (Z.compare_spec x y); lia.
Qed.
Lemma IsEqualOrGreaterThan_spec x y : IsEqualOrGreaterThan x y = (y <=? x).
Proof.
  unfold IsEqualOrGreaterThan. rewrite IsEqual_spec, IsGreaterThan_spec. lia.
Qed.
Lemma IsEqualOrSmallerThan_spec x y : IsEqualOrSmallerThan x y = (x <=? y).
Proof.
  unfold IsEqualOrSmallerThan. rewrite IsEqual_spec, IsSmallerThan_spec. lia.
Qed.
Lemma Max_spec a b : Max a b = Z.max a b.
Proof. unfold Max, Big.Cmp. destruct (Z.compare_spec a b); simpl; lia. Qed.

Create Rewrite HintDb bigmath.
#[export] Hint Rewrite IsZero_spec IsEqual_spec IsNotEqual_spec
  IsGreaterThan_spec IsStrictlyGreaterThan_spec IsSmallerThan_spec
  IsStrictlySmallerThan_spec IsEqualOrGreaterThan_spec
  IsEqualOrSmallerThan_spec Max_spec : bigmath.

(** Reduces the package's arithmetic to [Z]'s. *)
Ltac bigmath := autorewrite with bigmath in *; unfold Mul, Add, Sub, Neg in *.

Lemma Div_pos x y : 0 < y → Div x y = Ok (x / y).
Proof. intros ?. unfold Div, Big.Div. repeat zcase; done || lia. Qed.

Lemma Div_zero x : Div x 0 = Panic.
Proof. done. Qed.

Lemma Big_Div_euclidean x y q :
  Big.Div x y = Ok q → 0 <= x - q * y < Z.abs y.
Proof.
  unfold Big.Div. repeat zcase; intros [= <-].
  - pose proof (Z.mod_pos_bound x y). pose proof (Z.div_mod x y). lia.
  - pose proof (Z.mod_pos_bound x (-y)). pose proof (Z.div_mod x (-y)). lia.
Qed.

Lemma Exp_pos x y : 0 <= y → Exp x y = x ^ y.
Proof.
  intros ?. unfold Exp, Big.Exp. zcase; [|done].
  replace y with 0 by lia. done.
Qed.

Lemma Exp10_pos y : 0 < Exp 10 y.
Proof.
  unfold Exp, Big.Exp. zcase; [lia|]. apply Z.pow_pos_nonneg; lia.
Qed.
#[export] Hint Resolve Exp10_pos : dex.

(** ** Decimal notation *)

Lemma String_Z_head x c s : Big.String_Z x = String c s → c ≠ "+"%char.
Proof.
  unfold Big.String_Z, DecimalString.NilZero.string_of_int,
    DecimalString.NilZero.string_of_uint.
  destruct (Z.to_int x) as [[]|]; simpl; intros H;
    try discriminate; injection H as <- _; done.
Qed.

Lemma Z_to_int_nonnil x :
  Z.to_int x ≠ Decimal.Pos Decimal.Nil ∧ Z.to_int x ≠ Decimal.Neg Decimal.Nil.
Proof.
  destruct x as [|p|p]; simpl; [done| |];
    (split; [|intros H]; try done; try intros H; injection H as H;
     by eapply DecimalPos.Unsigned.to_uint_nonnil).
Qed.

Lemma int_of_String_Z x :
  Z.of_int <$> DecimalString.NilZero.int_of_string (Big.String_Z x) = Some x.
Proof.
  unfold Big.String_Z. destruct (Z_to_int_nonnil x).
  rewrite DecimalString.NilZero.isi by done. simpl. by rewrite DecimalZ.of_to.
Qed.

Lemma SetString_plain c s :
  c ≠ "+"%char →
  Big.SetString (String c s) =
  Z.of_int <$> DecimalString.NilZero.int_of_string (String c s).
Proof. destruct c as [[] [] [] [] [] [] [] []]; done. Qed.

Lemma SetString_String_Z x : Big.SetString (Big.String_Z x) = Some x.
Proof.
  pose proof (int_of_String_Z x) as E. revert E.
  destruct (Big.String_Z x) as [|c s] eqn:Hs; intros E; [done|].
  rewrite SetString_plain; [done|]. by eapply String_Z_head.
Qed.
Lemma SetString_Stringp z : is_Some z → Big.SetString (Big.Stringp z) = z.
Proof. intros [x ->]. apply SetString_String_Z. Qed.

Lemma String_Z_inj x y : Big.String_Z x = Big.String_Z y → x = y.
Proof.
  intros H. pose proof (SetString_String_Z x) as Hx.
  rewrite H, SetString_String_Z in Hx. congruence.
Qed.

Lemma ToBigInt_String_Z `{Big.Undefined} x : ToBigInt (Big.String_Z x) = x.
Proof. unfold ToBigInt. by rewrite SetString_String_Z. Qed.
#[export] Hint Rewrite @ToBigInt_String_Z : dex.

Lemma String_Z_not_empty x : Big.String_Z x ≠ "".
Proof.
  intros H. pose proof (SetString_String_Z x) as E. rewrite H in E. done.
Qed.
