(* ===== verification/Bytes.v ===== *)
(** Bytes, the numbers they spell and their hexadecimal text: [math/big]'s [Bytes] and
    [encoding/hex]. *)
From Stdlib Require Import Ascii.
From S2P Require Import Prelude.

(** [x.Bytes()]: big-endian, without leading zeros. *)
Fixpoint big_bytes (fuel : nat) (x : Z) (acc : list Z) : list Z :=
  match fuel with
  | O => acc
  | S fuel => if x <=? 0 then acc else big_bytes fuel (x / 256) (x `mod` 256 :: acc)
  end.
Definition Int_Bytes (x : Z) : list Z := big_bytes (S (Z.to_nat (Z.log2 x))) x [].

(** [hex.EncodeToString] *)
Definition nibble (n : Z) : ascii :=
  ascii_of_nat (Z.to_nat (if n <? 10 then 48 + n else 87 + n)).
Fixpoint hex_encode (l : list Z) : string :=
  match l with
  | [] => ""
  | b :: l => String (nibble (b / 16)) (String (nibble (b `mod` 16)) (hex_encode l))
  end.

(** ** The bytes of a number *)

(** The number that big-endian bytes spell. *)
Definition number (l : list Z) : Z := foldl (λ n b, n * 256 + b) 0 l.

Lemma number_snoc l b : number (l ++ [b]) = number l * 256 + b.
Proof. unfold number. by rewrite foldl_app. Qed.
Lemma number_app l k : number (l ++ k) = number l * 256 ^ Z.of_nat (length k) + number k.
Proof.
  induction k as [|b k IH] using rev_ind.
  - rewrite app_nil_r. unfold number. simpl. lia.
  - rewrite app_assoc, !number_snoc, IH, length_app. simpl.
    rewrite Nat2Z.inj_add, Z.pow_add_r by lia. lia.
Qed.
Lemma number_zeros n : number (replicate n 0) = 0.
Proof.
  induction n as [|n IH]; [done|]. rewrite replicate_S_end, number_app, IH. done.
Qed.

Lemma big_bytes_acc fuel x acc : big_bytes fuel x acc = big_bytes fuel x [] ++ acc.
Proof.
  revert x acc. induction fuel as [|fuel IH]; intros x acc; simpl; [done|].
  destruct (x <=? 0); [done|]. by rewrite IH, (IH _ [_]), <-app_assoc.
Qed.
(** Enough fuel: the bytes spell the number, and their count says where it lies. *)
Lemma big_bytes_ok fuel x : 0 < x < 256 ^ Z.of_nat fuel →
  number (big_bytes fuel x []) = x ∧
  256 ^ (Z.of_nat (length (big_bytes fuel x [])) - 1) <= x < 256 ^ Z.of_nat (length (big_bytes fuel x [])) ∧
  (1 ≤ length (big_bytes fuel x []))%nat.
Proof.
  revert x. induction fuel as [|fuel IH]; intros x Hx; [simpl in Hx; lia|].
  rewrite Nat2Z.inj_succ, Z.pow_succ_r in Hx by lia. simpl.
  destruct (Z.leb_spec x 0); [lia|]. rewrite big_bytes_acc, number_app, length_app. simpl.
  pose proof (Z.div_mod x 256 ltac:(lia)) as Hdm. pose proof (Z.mod_pos_bound x 256 ltac:(lia)) as Hb.
  change (number [x `mod` 256]) with (x `mod` 256).
  destruct (Z.eq_dec (x / 256) 0) as [H0|H0].
  - assert (big_bytes fuel (x / 256) [] = []) as -> by (rewrite H0; by destruct fuel).
    change (number []) with 0. change (Z.of_nat 1) with 1.
    change (Z.of_nat (length (@nil Z) + 1)) with 1. simpl. lia.
  - destruct (IH (x / 256)) as (Hn & Hl & Hlen); [split; [lia|apply Z.div_lt_upper_bound; lia]|].
    rewrite Hn. split; [lia|]. rewrite Nat2Z.inj_add. simpl. split; [|lia].
    set (n := Z.of_nat (length (big_bytes fuel (x / 256) []))) in *.
    rewrite Z.add_simpl_r. assert (256 ^ n = 256 ^ (n - 1) * 256) as Hp.
    { replace n with (n - 1 + 1) at 1 by lia. by rewrite Z.pow_add_r by lia. }
    rewrite Z.pow_add_r, Z.pow_1_r by lia. lia.
Qed.
Lemma Int_Bytes_ok x : 0 < x →
  number (Int_Bytes x) = x ∧
  256 ^ (Z.of_nat (length (Int_Bytes x)) - 1) <= x < 256 ^ Z.of_nat (length (Int_Bytes x)) ∧
  (1 ≤ length (Int_Bytes x))%nat.
Proof.
  intros Hx. apply big_bytes_ok. split; [done|].
  rewrite Nat2Z.inj_succ, Z2Nat.id by apply Z.log2_nonneg.
  apply (Z.lt_le_trans _ (2 ^ Z.succ (Z.log2 x))); [by apply Z.log2_spec|].
  apply Z.pow_le_mono_l. lia.
Qed.

