(* ===== verification/Types.v ===== *)
(** The data of package [types] and its methods: [Signature], [Pair], [Order],
    [Trade], [Matches], [EngineResponse], [OperatorMessage] ([types/*.go]).

    A pointer is an [option]; an address or a hash is the unsigned integer its
    bytes spell, so the zero value of the Go array is [0]; a [time.Time] is an
    integer instant, passed in where the code reads the clock. *)
From S2P Require Import Prelude BigMath.

Abbreviation Address := Z (only parsing).
Abbreviation Hash := Z (only parsing).

(** ** go-ethereum

    The [common] and [crypto] packages the code calls.  [Ecrecover] is
    [crypto.SigToPub] followed by [crypto.PubkeyToAddress]; [Address_Bytes] and
    [Hash_Bytes] are the 20 and 32 bytes of the arrays. *)
Class EthCommon := {
  Address_Hex : Address → string;
  HexToAddress : string → Address;
  Hash_Hex : Hash → string;
  HexToHash : string → Hash;
  IsHexAddress : string → bool;
  Address_Bytes : Address → list Z;
  Hash_Bytes : Hash → list Z;
  BigToHash : Z → Hash;
  Keccak256 : list Z → Hash;
  Ecrecover : Hash → list Z → outcome Address
}.

(** Printing an address or a hash in hexadecimal and reading it back. *)
Class EthCommonLaws `(EthCommon) := {
  HexToAddress_Hex a : HexToAddress (Address_Hex a) = a;
  IsHexAddress_Hex a : IsHexAddress (Address_Hex a) = true;
  HexToHash_Hex h : HexToHash (Hash_Hex h) = h;
  Hash_Hex_not_empty h : Hash_Hex h ≠ "";
  Ecrecover_no_panic h b : Ecrecover h b ≠ Panic
}.

#[export] Instance Address_Hex_inj `{EthCommonLaws} : Inj (=) (=) Address_Hex.
Proof. intros a b E. by rewrite <-(HexToAddress_Hex a), E, HexToAddress_Hex. Qed.
#[export] Instance Hash_Hex_inj `{EthCommonLaws} : Inj (=) (=) Hash_Hex.
Proof. intros a b E. by rewrite <-(HexToHash_Hex a), E, HexToHash_Hex. Qed.

(** [app.Config.Ethereum["exchange_address"]], read from the configuration. *)
Class AppConfig := exchange_address : string.

(** ** Constants *)
Definition BUY : string := "BUY".
Definition SELL : string := "SELL".

(** types/wsmsg.go and types/main.go *)
Definition FILLED : string := "FILLED".
Definition CANCELLED : string := "CANCELLED".
Definition ERROR_STATUS : string := "ERROR".
Definition ORDER_ADDED : string := "ORDER_ADDED".
Definition ORDER_FILLED : string := "ORDER_FILLED".
Definition ORDER_PARTIALLY_FILLED : string := "ORDER_PARTIALLY_FILLED".
Definition ORDER_CANCELLED : string := "ORDER_CANCELLED".
Definition TRADES_CANCELLED : string := "TRADES_CANCELLED".
Definition TRADE_ERROR : string := "TRADE_ERROR".
Definition TRADE_TX_PENDING : string := "TRADE_TX_PENDING".
Definition TRADE_TX_SUCCESS : string := "TRADE_TX_SUCCESS".
Definition TRADE_TX_ERROR : string := "TRADE_TX_ERROR".
Definition TRADE_INVALID : string := "TRADE_INVALID".
Definition PENDING : string := "PENDING".
Definition SUCCESS : string := "SUCCESS".
Definition FAILED : string := "FAILED".

(** ** Records *)

(** [types.Signature]; [V] is a byte. *)
Record Signature := mkSignature { sig_V : Z; sig_R : Hash; sig_S : Hash }.
#[export] Instance Signature_eq_dec : EqDecision Signature.
Proof. solve_decision. Defined.

(** [types.Pair]: a market. *)
Record Pair := mkPair {
  p_ID : string;
  p_BaseTokenSymbol : string;
  p_BaseTokenAddress : Address;
  p_BaseTokenDecimals : Z;
  p_QuoteTokenSymbol : string;
  p_QuoteTokenAddress : Address;
  p_QuoteTokenDecimals : Z;
  p_Listed : bool;
  p_Active : bool;
  p_Rank : Z;
  p_MakeFee : option Z;
  p_TakeFee : option Z;
  p_CreatedAt : Z;
  p_UpdatedAt : Z
}.
#[export] Instance Pair_eq_dec : EqDecision Pair.
Proof. solve_decision. Defined.
Definition set_p_ID (v : string) (x : Pair) : Pair :=
    mkPair v (p_BaseTokenSymbol x) (p_BaseTokenAddress x) (p_BaseTokenDecimals
    x) (p_QuoteTokenSymbol x) (p_QuoteTokenAddress x) (p_QuoteTokenDecimals x)
    (p_Listed x) (p_Active x) (p_Rank x) (p_MakeFee x) (p_TakeFee x)
    (p_CreatedAt x) (p_UpdatedAt x).
Definition set_p_CreatedAt (v : Z) (x : Pair) : Pair :=
    mkPair (p_ID x) (p_BaseTokenSymbol x) (p_BaseTokenAddress x)
    (p_BaseTokenDecimals x) (p_QuoteTokenSymbol x) (p_QuoteTokenAddress x)
    (p_QuoteTokenDecimals x) (p_Listed x) (p_Active x) (p_Rank x) (p_MakeFee
    x) (p_TakeFee x) v (p_UpdatedAt x).
Definition set_p_UpdatedAt (v : Z) (x : Pair) : Pair :=
    mkPair (p_ID x) (p_BaseTokenSymbol x) (p_BaseTokenAddress x)
    (p_BaseTokenDecimals x) (p_QuoteTokenSymbol x) (p_QuoteTokenAddress x)
    (p_QuoteTokenDecimals x) (p_Listed x) (p_Active x) (p_Rank x) (p_MakeFee
    x) (p_TakeFee x) (p_CreatedAt x) v.


(** [types.Order]: what a user signs, plus the state of its execution. *)
Record Order := mkOrder {
  o_ID : string;
  o_UserAddress : Address;
  o_ExchangeAddress : Address;
  o_BaseToken : Address;
  o_QuoteToken : Address;
  o_Status : string;
  o_Side : string;
  o_Hash : Hash;
  o_Signature : option Signature;
  o_PricePoint : option Z;
  o_Amount : option Z;
  o_FilledAmount : option Z;
  o_Nonce : option Z;
  o_MakeFee : option Z;
  o_TakeFee : option Z;
  o_PairName : string;
  o_CreatedAt : Z;
  o_UpdatedAt : Z
}.
#[export] Instance Order_eq_dec : EqDecision Order.
Proof. solve_decision. Defined.
Definition set_o_ID (v : string) (x : Order) : Order :=
    mkOrder v (o_UserAddress x) (o_ExchangeAddress x) (o_BaseToken x)
    (o_QuoteToken x) (o_Status x) (o_Side x) (o_Hash x) (o_Signature x)
    (o_PricePoint x) (o_Amount x) (o_FilledAmount x) (o_Nonce x) (o_MakeFee x)
    (o_TakeFee x) (o_PairName x) (o_CreatedAt x) (o_UpdatedAt x).
Definition set_o_Status (v : string) (x : Order) : Order :=
    mkOrder (o_ID x) (o_UserAddress x) (o_ExchangeAddress x) (o_BaseToken x)
    (o_QuoteToken x) v (o_Side x) (o_Hash x) (o_Signature x) (o_PricePoint x)
    (o_Amount x) (o_FilledAmount x) (o_Nonce x) (o_MakeFee x) (o_TakeFee x)
    (o_PairName x) (o_CreatedAt x) (o_UpdatedAt x).
Definition set_o_Hash (v : Hash) (x : Order) : Order :=
    mkOrder (o_ID x) (o_UserAddress x) (o_ExchangeAddress x) (o_BaseToken x)
    (o_QuoteToken x) (o_Status x) (o_Side x) v (o_Signature x) (o_PricePoint
    x) (o_Amount x) (o_FilledAmount x) (o_Nonce x) (o_MakeFee x) (o_TakeFee x)
    (o_PairName x) (o_CreatedAt x) (o_UpdatedAt x).
Definition set_o_Signature (v : option Signature) (x : Order) : Order :=
    mkOrder (o_ID x) (o_UserAddress x) (o_ExchangeAddress x) (o_BaseToken x)
    (o_QuoteToken x) (o_Status x) (o_Side x) (o_Hash x) v (o_PricePoint x)
    (o_Amount x) (o_FilledAmount x) (o_Nonce x) (o_MakeFee x) (o_TakeFee x)
    (o_PairName x) (o_CreatedAt x) (o_UpdatedAt x).
Definition set_o_FilledAmount (v : option Z) (x : Order) : Order :=
    mkOrder (o_ID x) (o_UserAddress x) (o_ExchangeAddress x) (o_BaseToken x)
    (o_QuoteToken x) (o_Status x) (o_Side x) (o_Hash x) (o_Signature x)
    (o_PricePoint x) (o_Amount x) v (o_Nonce x) (o_MakeFee x) (o_TakeFee x)
    (o_PairName x) (o_CreatedAt x) (o_UpdatedAt x).
Definition set_o_PairName (v : string) (x : Order) : Order :=
    mkOrder (o_ID x) (o_UserAddress x) (o_ExchangeAddress x) (o_BaseToken x)
    (o_QuoteToken x) (o_Status x) (o_Side x) (o_Hash x) (o_Signature x)
    (o_PricePoint x) (o_Amount x) (o_FilledAmount x) (o_Nonce x) (o_MakeFee x)
    (o_TakeFee x) v (o_CreatedAt x) (o_UpdatedAt x).
Definition set_o_CreatedAt (v : Z) (x : Order) : Order :=
    mkOrder (o_ID x) (o_UserAddress x) (o_ExchangeAddress x) (o_BaseToken x)
    (o_QuoteToken x) (o_Status x) (o_Side x) (o_Hash x) (o_Signature x)
    (o_PricePoint x) (o_Amount x) (o_FilledAmount x) (o_Nonce x) (o_MakeFee x)
    (o_TakeFee x) (o_PairName x) v (o_UpdatedAt x).
Definition set_o_UpdatedAt (v : Z) (x : Order) : Order :=
    mkOrder (o_ID x) (o_UserAddress x) (o_ExchangeAddress x) (o_BaseToken x)
    (o_QuoteToken x) (o_Status x) (o_Side x) (o_Hash x) (o_Signature x)
    (o_PricePoint x) (o_Amount x) (o_FilledAmount x) (o_Nonce x) (o_MakeFee x)
    (o_TakeFee x) (o_PairName x) (o_CreatedAt x) v.


(** [types.Trade]: one maker order matched with a taker order. *)
Record Trade := mkTrade {
  t_ID : string;
  t_Taker : Address;
  t_Maker : Address;
  t_BaseToken : Address;
  t_QuoteToken : Address;
  t_MakerOrderHash : Hash;
  t_TakerOrderHash : Hash;
  t_Hash : Hash;
  t_Side : string;
  t_Signature : option Signature;
  t_TxHash : Hash;
  t_PairName : string;
  t_CreatedAt : Z;
  t_UpdatedAt : Z;
  t_PricePoint : option Z;
  t_Status : string;
  t_Amount : option Z
}.
#[export] Instance Trade_eq_dec : EqDecision Trade.
Proof. solve_decision. Defined.
Definition set_t_ID (v : string) (x : Trade) : Trade :=
    mkTrade v (t_Taker x) (t_Maker x) (t_BaseToken x) (t_QuoteToken x)
    (t_MakerOrderHash x) (t_TakerOrderHash x) (t_Hash x) (t_Side x)
    (t_Signature x) (t_TxHash x) (t_PairName x) (t_CreatedAt x) (t_UpdatedAt
    x) (t_PricePoint x) (t_Status x) (t_Amount x).
Definition set_t_Hash (v : Hash) (x : Trade) : Trade :=
    mkTrade (t_ID x) (t_Taker x) (t_Maker x) (t_BaseToken x) (t_QuoteToken x)
    (t_MakerOrderHash x) (t_TakerOrderHash x) v (t_Side x) (t_Signature x)
    (t_TxHash x) (t_PairName x) (t_CreatedAt x) (t_UpdatedAt x) (t_PricePoint
    x) (t_Status x) (t_Amount x).
Definition set_t_Signature (v : option Signature) (x : Trade) : Trade :=
    mkTrade (t_ID x) (t_Taker x) (t_Maker x) (t_BaseToken x) (t_QuoteToken x)
    (t_MakerOrderHash x) (t_TakerOrderHash x) (t_Hash x) (t_Side x) v
    (t_TxHash x) (t_PairName x) (t_CreatedAt x) (t_UpdatedAt x) (t_PricePoint
    x) (t_Status x) (t_Amount x).
Definition set_t_TxHash (v : Hash) (x : Trade) : Trade :=
    mkTrade (t_ID x) (t_Taker x) (t_Maker x) (t_BaseToken x) (t_QuoteToken x)
    (t_MakerOrderHash x) (t_TakerOrderHash x) (t_Hash x) (t_Side x)
    (t_Signature x) v (t_PairName x) (t_CreatedAt x) (t_UpdatedAt x)
    (t_PricePoint x) (t_Status x) (t_Amount x).
Definition set_t_Status (v : string) (x : Trade) : Trade :=
    mkTrade (t_ID x) (t_Taker x) (t_Maker x) (t_BaseToken x) (t_QuoteToken x)
    (t_MakerOrderHash x) (t_TakerOrderHash x) (t_Hash x) (t_Side x)
    (t_Signature x) (t_TxHash x) (t_PairName x) (t_CreatedAt x) (t_UpdatedAt
    x) (t_PricePoint x) v (t_Amount x).
Definition set_t_CreatedAt (v : Z) (x : Trade) : Trade :=
    mkTrade (t_ID x) (t_Taker x) (t_Maker x) (t_BaseToken x) (t_QuoteToken x)
    (t_MakerOrderHash x) (t_TakerOrderHash x) (t_Hash x) (t_Side x)
    (t_Signature x) (t_TxHash x) (t_PairName x) v (t_UpdatedAt x)
    (t_PricePoint x) (t_Status x) (t_Amount x).
Definition set_t_UpdatedAt (v : Z) (x : Trade) : Trade :=
    mkTrade (t_ID x) (t_Taker x) (t_Maker x) (t_BaseToken x) (t_QuoteToken x)
    (t_MakerOrderHash x) (t_TakerOrderHash x) (t_Hash x) (t_Side x)
    (t_Signature x) (t_TxHash x) (t_PairName x) (t_CreatedAt x) v
    (t_PricePoint x) (t_Status x) (t_Amount x).


(** [types.Matches].  The lists hold pointers, which other components may
    leave nil. *)
Record Matches := mkMatches {
  MakerOrders : list (option Order);
  TakerOrder : option Order;
  Trades : list (option Trade)
}.

(** [types.EngineResponse]; a nil slice is an empty list. *)
Record EngineResponse := mkEngineResponse {
  er_Status : string;
  er_Order : option Order;
  er_Matches : option Matches;
  er_InvalidatedOrders : option (list Order);
  er_CancelledTrades : option (list Trade)
}.

(** [types.OperatorMessage] *)
Record OperatorMessage := mkOperatorMessage {
  om_MessageType : string;
  om_Matches : option Matches;
  om_ErrorType : string
}.

(** ** types/signature.go *)
Module Sig.
Section Sig.
Context `{EthCommon}.

    (** The three parts in order; [V] is shifted back by 27 on a byte. *)
Definition MarshalSignature (s : Signature) : list Z :=
      Hash_Bytes (sig_R s) ++ Hash_Bytes (sig_S s) ++ [(sig_V s - 27) `mod` 256].

Definition Verify (s : Signature) (hash : Hash) : outcome Address :=
      Ecrecover hash (MarshalSignature s).
End Sig.
End Sig.

(** The bytes of ["\x19Ethereum Signed Message:\n32"]. *)
Definition eth_prefix : list Z :=
  [25; 69; 116; 104; 101; 114; 101; 117; 109; 32; 83; 105; 103; 110; 101; 100;
   32; 77; 101; 115; 115; 97; 103; 101; 58; 10; 51; 50].

(** ** types/pair.go *)
Definition BaseTokenMultiplier (p : Pair) : Z := Exp 10 (p_BaseTokenDecimals p).
Definition QuoteTokenMultiplier (p : Pair) : Z := Exp 10 (p_QuoteTokenDecimals p).

Definition PairMultiplier (p : Pair) : Z :=
  let defaultMultiplier := Exp 10 18 in
  let baseTokenMultiplier := Exp 10 (p_BaseTokenDecimals p) in
  Mul defaultMultiplier baseTokenMultiplier.

Definition PricepointMultiplier (p : Pair) : outcome Z :=
  let baseTokenMultiplier := Exp 10 (p_BaseTokenDecimals p) in
  let quoteTokenMultiplier := Exp 10 (p_QuoteTokenDecimals p) in
  let defaultMultiplier := Exp 10 9 in
  Div (Mul baseTokenMultiplier defaultMultiplier) quoteTokenMultiplier.

Definition DecimalsMultiplier (p : Pair) : Z :=
  let decimalsDiff := Sub (p_BaseTokenDecimals p) (p_QuoteTokenDecimals p) in
  Exp 10 decimalsDiff.

Definition MinQuoteAmount (p : Pair) : outcome Z :=
  makeFee ← deref (p_MakeFee p);
  takeFee ← deref (p_TakeFee p);
  Ok (Add (Mul 2 makeFee) (Mul 2 takeFee)).

Definition Pair_Name (p : Pair) : string :=
  p_BaseTokenSymbol p +:+ "/" +:+ p_QuoteTokenSymbol p.

Section PairCode.
Context `{EthCommon}.
Definition Pair_Code (p : Pair) : string :=
    p_BaseTokenSymbol p +:+ "/" +:+ p_QuoteTokenSymbol p +:+ "::" +:+
    Address_Hex (p_BaseTokenAddress p) +:+ "::" +:+
    Address_Hex (p_QuoteTokenAddress p).
Definition Pair_AddressCode (p : Pair) : string :=
    Address_Hex (p_BaseTokenAddress p) +:+ "::" +:+
    Address_Hex (p_QuoteTokenAddress p).
End PairCode.

(** [&Pair{BaseTokenAddress: bt, QuoteTokenAddress: qt}] *)
Definition Pair_of_addresses (bt qt : Address) : Pair :=
  mkPair "" "" bt 0 "" qt 0 false false 0 None None 0 0.
