(* ===== verification/Mongo.v ===== *)
(** MongoDB as the daos use it: BSON documents, the query and pipeline values
    the code builds ([bson.M] literals), and the driver behind [daos/session.go]
    as a class whose laws are the server's documented behaviour.  [ListMongo]
    is a concrete instance the witnesses run on. *)
From S2P Require Import Prelude BigMath.
From Stdlib Require Import Ascii.

(** ** BSON *)
Inductive bval :=
  | BNull
  | BStr (s : string)
  | BInt (z : Z)
  | BDec (z : Z)
  | BBool (b : bool)
  | BDate (t : Z)
  | BId (id : string)
  | BBin (l : list Z)
  | BDoc (l : list (string * bval))
  | BArr (l : list bval).

#[export] Instance bval_eq_dec : EqDecision bval.
Proof.
  refine (fix go (x y : bval) : Decision (x = y) :=
    match x, y with
    | BNull, BNull => left eq_refl
    | BStr s, BStr s' => cast_if (decide (s = s'))
    | BInt z, BInt z' => cast_if (decide (z = z'))
    | BDec z, BDec z' => cast_if (decide (z = z'))
    | BBool b, BBool b' => cast_if (decide (b = b'))
    | BDate t, BDate t' => cast_if (decide (t = t'))
    | BId i, BId i' => cast_if (decide (i = i'))
    | BBin l, BBin l' => cast_if (decide (l = l'))
    | BDoc l, BDoc l' =>
      let _ : EqDecision bval := go in cast_if (decide (l = l'))
    | BArr l, BArr l' =>
      let _ : EqDecision bval := go in cast_if (decide (l = l'))
    | _, _ => right _
    end); congruence.
Defined.

Abbreviation doc := (list (string * bval)).

Fixpoint field (k : string) (d : doc) : option bval :=
  match d with
  | [] => None
  | (k', v) :: d' => if decide (k' = k) then Some v else field k d'
  end.

(** A dotted path, [account.tokenBalances.<address>.balance]. *)
Fixpoint field_path (ks : list string) (d : doc) : option bval :=
  match ks with
  | [] => None
  | [k] => field k d
  | k :: ks' =>
    match field k d with Some (BDoc d') => field_path ks' d' | _ => None end
  end.

(** ** Queries *)
Inductive cond :=
  | Equal (v : bval)
  | In_ (vs : list bval)
  | Nin (vs : list bval).

Abbreviation conds := (list (string * cond)).

Inductive query :=
  | Fields (l : conds)
  | Or (ls : list conds).

Definition cond_holds (c : cond) (v : option bval) : bool :=
  match c with
  | Equal w => bool_decide (v = Some w)
  | In_ vs => match v with Some w => bool_decide (w ∈ vs) | None => false end
  | Nin vs => match v with Some w => bool_decide (w ∉ vs) | None => true end
  end.

Definition conds_hold (l : conds) (d : doc) : bool :=
  forallb (λ '(k, c), cond_holds c (field k d)) l.

Definition matches (q : query) (d : doc) : bool :=
  match q with
  | Fields l => conds_hold l d
  | Or ls => existsb (λ l, conds_hold l d) ls
  end.

(** ** Updates *)
Inductive update :=
  | USet (set setOnInsert : doc)
  | UReplace (d : doc)
  | UInc (k : string) (n : Z)
  | UAddToSet (k : string) (v : bval)
  | USetPath (kvs : list (list string * bval)).

(** [$set] replaces the fields it names and keeps the others. *)
Definition set_fields (kvs d : doc) : doc :=
  kvs ++ base.filter (λ kv, field kv.1 kvs = None) d.

#[global] Arguments set_fields : simpl never.

(** [$set] of a dotted path makes the subdocuments that are missing. *)
Definition subdoc (v : option bval) : doc := match v with Some (BDoc d) => d | _ => [] end.
Fixpoint set_path (ks : list string) (v : bval) (d : doc) : doc :=
  match ks with
  | [] => d
  | [k] => set_fields [(k, v)] d
  | k :: ks' => set_fields [(k, BDoc (set_path ks' v (subdoc (field k d))))] d
  end.
Fixpoint path_free (ks : list string) (d : doc) : bool :=
  match ks with
  | [] | [_] => true
  | k :: ks' =>
    match field k d with
    | None => true | Some (BDoc d') => path_free ks' d' | Some _ => false
    end
  end.
Definition set_paths (kvs : list (list string * bval)) (d : doc) : doc :=
  foldl (λ d kv, set_path kv.1 kv.2 d) d kvs.

(** [$inc] of a missing field sets it; [$addToSet] of a missing field makes a
    singleton array. *)
Definition increment (n : Z) (v : option bval) : bval :=
  match v with Some (BInt z) => BInt (z + n) | _ => BInt n end.
Definition add_to_set (x : bval) (v : option bval) : bval :=
  match v with
  | Some (BArr l) => if decide (x ∈ l) then BArr l else BArr (l ++ [x])
  | _ => BArr [x]
  end.
Definition apply_update (u : update) (d : doc) : doc :=
  match u with
  | USet set _ => set_fields set d
  | UReplace d' => d'
  | UInc k n => set_fields [(k, increment n (field k d))] d
  | UAddToSet k v => set_fields [(k, add_to_set v (field k d))] d
  | USetPath kvs => set_paths kvs d
  end.
(** The server refuses to increment what is no number, to add to what is no array
    and to make a field in what is no document. *)
Definition updatable (u : update) (d : doc) : bool :=
  match u with
  | UInc k _ => match field k d with None | Some (BInt _) => true | _ => false end
  | UAddToSet k _ => match field k d with None | Some (BArr _) => true | _ => false end
  | USetPath kvs => forallb (λ kv, path_free kv.1 d) kvs
  | _ => true
  end.

(** The document an upsert inserts: the query's equalities, then the update. *)
Fixpoint equalities (l : conds) : doc :=
  match l with
  | [] => []
  | (k, Equal v) :: l' => (k, v) :: equalities l'
  | _ :: l' => equalities l'
  end.
Definition upsert_doc (q : query) (u : update) : doc :=
  match q, u with
  | Fields l, USet set ins => set_fields set (set_fields ins (equalities l))
  | Or _, USet set ins => set_fields set ins
  | _, UReplace d => d
  | Fields l, _ => apply_update u (equalities l)
  | Or _, _ => apply_update u []
  end.

(** ** Aggregation *)

(** [$toDecimal] of a numeral: exact below 34 digits, unspecified beyond. *)
Definition decimal_exact (x : Z) : bool := Z.abs x <? 10 ^ 34.
Definition to_decimal (v : option bval) : option Z :=
  match v with
  | Some (BStr s) =>
    match Big.SetString s with
    | Some x => if decimal_exact x then Some x else None
    | None => None
    end
  | Some (BDec z) => Some z
  | _ => None
  end.


(** [bson.ParseDecimal128], the value left when its error is dropped included;
    a parameter beyond the exact numerals. *)
Class Decimals := inexact_decimal : string → Z.
Definition ParseDecimal128 `{Decimals} (s : string) : Z :=
  match Big.SetString s with
  | Some x => if decimal_exact x then x else inexact_decimal s
  | None => inexact_decimal s
  end.

Inductive dir := Asc | Desc.
Inductive stage :=
  | Match (q : query)
  | AddDecimal (target source : string)
  | MatchGte (k : string) (v : Z)
  | MatchLte (k : string) (v : Z)
  | Sort (keys : list (string * dir))
  | GroupVolume
  | Project (keys : list string)
  | Limit (n : nat)
  | ObjectToArray (k : string)
  | FilterArray (k key : string)
  | ArrayToObject (k : string).

(** The server's ordering of values: by type, then by value. *)
Definition codes (s : string) : list Z :=
  (λ c, Z.of_N (Ascii.N_of_ascii c)) <$> String.list_ascii_of_string s.
Definition sort_key (v : option bval) : list Z :=
  match v with
  | None | Some BNull => [0]
  | Some (BInt z) | Some (BDec z) => [1; z]
  | Some (BStr s) => 2 :: codes s
  | Some (BDoc _) | Some (BArr _) => [3]
  | Some (BBin l) => 4 :: Z.of_nat (length l) :: l
  | Some (BId i) => 5 :: codes i
  | Some (BBool b) => [6; Z.b2z b]
  | Some (BDate t) => [7; t]
  end.

Fixpoint lex_lt (l k : list Z) : Prop :=
  match l, k with
  | _, [] => False
  | [], _ :: _ => True
  | x :: l', y :: k' => x < y ∨ (x = y ∧ lex_lt l' k')
  end.

Fixpoint keys_le (keys : list (string * dir)) (x y : doc) : Prop :=
  match keys with
  | [] => True
  | (k, dr) :: keys' =>
    let a := sort_key (field k x) in let b := sort_key (field k y) in
    match dr with Asc => lex_lt a b | Desc => lex_lt b a end ∨
    (a = b ∧ keys_le keys' x y)
  end.

Definition add_decimal (target source : string) (d : doc) : option doc :=
  x ← to_decimal (field source d); Some (set_fields [(target, BDec x)] d).
Definition decimal_holds (p : Z → bool) (v : option bval) : bool :=
  match v with Some (BDec z) => p z | _ => false end.

(** [$group] of the order book: one document per price (as a decimal) with the
    price's string and the sum of the remaining amounts. *)
Definition price_of (d : doc) : option Z := to_decimal (field "pricepoint" d).
Definition volume_of (d : doc) : option Z :=
  a ← to_decimal (field "amount" d); f ← to_decimal (field "filledAmount" d);
  Some (a - f).
Definition volume_group (ds : list doc) (x : Z) (g : doc) : Prop :=
  let members := base.filter (λ d, price_of d = Some x) ds in
  members ≠ [] ∧
  ∃ first vols,
    first ∈ members ∧ mapM volume_of members = Some vols ∧
    field "_id" g = Some (BDec x) ∧
    field "pricepoint" g = field "pricepoint" first ∧
    field "amount" g = Some (BDec (sumZ vols)).

(** [$project] of fields converted by [$toString]. *)
Definition to_string (v : option bval) : option string :=
  match v with
  | Some (BStr s) => Some s
  | Some (BDec z) => if decimal_exact z then Some (Big.String_Z z) else None
  | _ => None
  end.
Definition project (keys : list string) (d : doc) : option doc :=
  mapM (λ k, s ← to_string (field k d); Some (k, BStr s)) keys.

(** [$project] of [$objectToArray], [$addFields] of a [$filter] on the keys and of
    [$arrayToObject]: a missing field or a null gives a null, another type is an
    error. *)
Definition entry (kv : string * bval) : bval := BDoc [("k", BStr kv.1); ("v", kv.2)].
Definition object_to_array (k : string) (d : doc) : option doc :=
  match field k d with
  | None | Some BNull => Some [(k, BNull)]
  | Some (BDoc l) => Some [(k, BArr (entry <$> l))]
  | Some _ => None
  end.
Definition has_key (key : string) (e : bval) : bool :=
  match e with BDoc l => bool_decide (field "k" l = Some (BStr key)) | _ => false end.
Definition filter_array (k key : string) (d : doc) : option doc :=
  match field k d with
  | None | Some BNull => Some (set_fields [(k, BNull)] d)
  | Some (BArr l) => Some (set_fields [(k, BArr (base.filter (λ e, has_key key e = true) l))] d)
  | Some _ => None
  end.
Definition of_entry (e : bval) : option (string * bval) :=
  match e with
  | BDoc [("k", BStr k); ("v", v)] => Some (k, v)
  | _ => None
  end.
Definition array_to_object (k : string) (d : doc) : option doc :=
  match field k d with
  | None | Some BNull => Some (set_fields [(k, BNull)] d)
  | Some (BArr l) => kvs ← mapM of_entry l; Some (set_fields [(k, BDoc kvs)] d)
  | Some _ => None
  end.

(** What a stage may return on its input. *)
Definition stage_result (st : stage) (ds rs : list doc) : Prop :=
  match st with
  | Match q => rs = base.filter (λ d, matches q d = true) ds
  | AddDecimal t s => mapM (add_decimal t s) ds = Some rs
  | MatchGte k v => rs = base.filter (λ d, decimal_holds (Z.leb v) (field k d) = true) ds
  | MatchLte k v => rs = base.filter (λ d, decimal_holds (Z.geb v) (field k d) = true) ds
  | Sort keys => rs ≡ₚ ds ∧ StronglySorted (keys_le keys) rs
  | GroupVolume =>
    ∃ xs, NoDup xs ∧
      (∀ x, x ∈ xs ↔ ∃ d, d ∈ ds ∧ price_of d = Some x) ∧
      Forall2 (volume_group ds) xs rs
  | Project keys => mapM (project keys) ds = Some rs
  | Limit n => rs = take n ds
  | ObjectToArray k => mapM (object_to_array k) ds = Some rs
  | FilterArray k key => mapM (filter_array k key) ds = Some rs
  | ArrayToObject k => mapM (array_to_object k) ds = Some rs
  end.
Fixpoint pipeline_result (p : list stage) (ds rs : list doc) : Prop :=
  match p with
  | [] => rs = ds
  | st :: p' => ∃ ms, stage_result st ds ms ∧ pipeline_result p' ms rs
  end.

(** A pipeline runs when every numeral it converts is exact. *)
Fixpoint pipeline_exact (p : list stage) (ds : list doc) : Prop :=
  match p with
  | [] => True
  | AddDecimal t s :: p' =>
    Forall (λ d, is_Some (to_decimal (field s d))) ds ∧
    ∀ ms, mapM (add_decimal t s) ds = Some ms → pipeline_exact p' ms
  | GroupVolume :: p' =>
    Forall (λ d, is_Some (price_of d) ∧ is_Some (volume_of d)) ds ∧
    ∀ ms, stage_result GroupVolume ds ms → pipeline_exact p' ms
  | Project keys :: p' =>
    Forall (λ d, is_Some (project keys d)) ds ∧
    ∀ ms, mapM (project keys) ds = Some ms → pipeline_exact p' ms
  | st :: p' => ∀ ms, stage_result st ds ms → pipeline_exact p' ms
  end.

(** ** The driver *)

(** [time.Now] and [bson.NewObjectId], which the daos call between queries. *)
Class Runtime (W : Type) := {
  Now : M W Z;
  NewObjectId : M W string
}.

(** One collection, as the wrappers of [daos/session.go] use it.  [FindOne] and
    [UpdateOne] report [not_found] when no document matches. *)
Class Mongo (W : Type) := {
  Find : query → list (string * dir) → nat → nat → M W (list doc);
  FindOne : query → M W doc;
  Insert : list (option doc) → M W unit;
  UpdateOne : query → update → M W unit;
  UpdateMany : query → update → M W unit;
  UpsertOne : query → update → M W unit;
  FindAndModifyDoc : query → update → bool → M W doc;
  Pipe : list stage → M W (list doc);
  RemoveMany : query → M W unit;
  DropColl : M W unit;
  docs : W → list doc;
  unique_keys : list (list string)
}.

(** [skip] and [limit], where a limit of 0 is no limit. *)
Definition slice {A} (skip limit : nat) (l : list A) : list A :=
  let l' := drop skip l in if decide (limit = 0%nat) then l' else take limit l'.

(** An insert keeps the fields of the document and may add an [_id]; a nil
    document becomes an empty one. *)
Definition inserted (x : option doc) (d : doc) : Prop :=
  ∀ k, k ≠ "_id" ∨ is_Some (field k (default [] x)) →
       field k d = field k (default [] x).

(** A unique index is on several fields together. *)
Definition key_of (ks : list string) (d : doc) : list (option bval) := (λ k, field k d) <$> ks.
Definition unique_ok (keys : list (list string)) (ds : list doc) : Prop :=
  ∀ ks, ks ∈ keys → NoDup (key_of ks <$> ds).
Definition not_found : error := "not found".

(** What a write does to the documents. *)
Definition update_one (q : query) (u : update) (ds ds' : list doc) : Prop :=
  ∃ d rest, ds ≡ₚ d :: rest ∧ matches q d = true ∧ updatable u d = true ∧
    ds' ≡ₚ apply_update u d :: rest.
Definition update_many (q : query) (u : update) (ds ds' : list doc) : Prop :=
  ds' ≡ₚ (λ d, if matches q d then apply_update u d else d) <$> ds.
Definition upsert_one (q : query) (u : update) (ds ds' : list doc) (new : doc) : Prop :=
  (∃ d rest, ds ≡ₚ d :: rest ∧ matches q d = true ∧
     new = apply_update u d ∧ ds' ≡ₚ new :: rest) ∨
  (Forall (λ d, matches q d = false) ds ∧ inserted (Some (upsert_doc q u)) new ∧
   ds' ≡ₚ new :: ds).
Definition insert_docs (xs : list (option doc)) (ds ds' : list doc) : Prop :=
  ∃ new, Forall2 inserted xs new ∧ ds' ≡ₚ new ++ ds.
Definition remove_many (q : query) (ds ds' : list doc) : Prop :=
  ds' ≡ₚ base.filter (λ d, matches q d = false) ds.

(** A read leaves the documents alone; a write either takes effect and
    succeeds, or reports an error, after which it may or may not have taken
    effect.  Neither panics. *)
Definition reads {W A} `{Mongo W} (m : M W A) (post : list doc → A → Prop) : Prop :=
  ∀ s, wp m (λ r s', docs s' = docs s ∧
    match r with Ok a => post (docs s) a | Err _ => True | Panic => False end) s.
Definition writes {W A} `{Mongo W} (m : M W A) (eff : list doc → list doc → A → Prop) :
    Prop :=
  ∀ s, wp m (λ r s',
    match r with
    | Ok a => eff (docs s) (docs s') a ∧
              (unique_ok unique_keys (docs s) → unique_ok unique_keys (docs s'))
    | Err _ => docs s' = docs s ∨ ∃ a, eff (docs s) (docs s') a ∧
              (unique_ok unique_keys (docs s) → unique_ok unique_keys (docs s'))
    | Panic => False
    end) s.

Class MongoLaws (W : Type) `{Runtime W, Mongo W} := {
  Now_ok s : wp Now (λ r s', docs s' = docs s ∧ ∃ t, r = Ok t) s;
  NewObjectId_ok s :
    wp NewObjectId (λ r s', docs s' = docs s ∧ ∃ i, r = Ok i ∧ i ≠ "") s;
  Find_ok q keys sk lim : reads (Find q keys sk lim) (λ ds rs,
    ∃ l, l ≡ₚ base.filter (λ d, matches q d = true) ds ∧
         StronglySorted (keys_le keys) l ∧ rs = slice sk lim l);
  FindOne_ok q : reads (FindOne q) (λ ds d, d ∈ ds ∧ matches q d = true);
  FindOne_none q s : (FindOne q s).1 = Err not_found →
    Forall (λ d, matches q d = false) (docs s);
  Pipe_ok p s : pipeline_exact p (docs s) →
    wp (Pipe p) (λ r s', docs s' = docs s ∧
      match r with Ok rs => pipeline_result p (docs s) rs
              | Err _ => True | Panic => False end) s;
  Pipe_docs p s : wp (Pipe p) (λ r s', docs s' = docs s ∧ r ≠ Panic) s;
  Insert_ok xs : writes (Insert xs) (λ ds ds' _, insert_docs xs ds ds');
  UpdateOne_ok q u : writes (UpdateOne q u) (λ ds ds' _, update_one q u ds ds');
  UpdateMany_ok q u : writes (UpdateMany q u) (λ ds ds' _, update_many q u ds ds');
  UpsertOne_ok q u :
    writes (UpsertOne q u) (λ ds ds' _, ∃ new, upsert_one q u ds ds' new);
  FindAndModify_ok q u :
    writes (FindAndModifyDoc q u true) (λ ds ds' d, upsert_one q u ds ds' d);
  RemoveMany_ok q : writes (RemoveMany q) (λ ds ds' _, remove_many q ds ds');
  DropColl_ok : writes DropColl (λ _ ds' _, ds' = [])
}.
