(* ===== verification/ListMongo.v ===== *)
(** A concrete MongoDB collection: a list of documents, a clock and an
    identifier counter.  It satisfies [MongoLaws], and the witnesses run on it. *)
From S2P Require Import Prelude BigMath Mongo.

#[export] Instance lex_lt_dec l k : Decision (lex_lt l k).
Proof.
  revert k. induction l as [|x l IH]; intros [|y k]; simpl; [apply _..|].
  specialize (IH k). apply _.
Defined.

#[export] Instance keys_le_dec keys x y : Decision (keys_le keys x y).
Proof.
  induction keys as [|[k [|]] keys IH]; simpl; apply _.
Defined.

Lemma lex_lt_trans a b c : lex_lt a b → lex_lt b c → lex_lt a c.
Proof.
  revert b c. induction a as [|x a IH]; intros [|y b] [|z c]; simpl; try done.
  intros [?|[-> ?]] [?|[-> ?]]; [left; lia|left; lia|left; lia|right; eauto].
Qed.

Lemma lex_lt_total a b : lex_lt a b ∨ a = b ∨ lex_lt b a.
Proof.
  revert b. induction a as [|x a IH]; intros [|y b]; simpl; auto.
  destruct (Z.lt_trichotomy x y) as [?|[->|?]]; auto.
  destruct (IH b) as [?|[->|?]]; auto.
Qed.

#[export] Instance keys_le_trans keys : Transitive (keys_le keys).
Proof.
  intros x y z. induction keys as [|[k [|]] keys IH]; simpl; [done|..];
    intros [H1|[-> H1]] [H2|[H2' H2]]; try (rewrite <-H2' in * );
    eauto using lex_lt_trans.
Qed.

#[export] Instance keys_le_total keys : Total (keys_le keys).
Proof.
  intros x y. induction keys as [|[k d] keys IH]; simpl; [by left|].
  destruct (lex_lt_total (sort_key (field k x)) (sort_key (field k y)))
    as [?|[->|?]]; destruct d; tauto.
Qed.

(** ** The collection *)
Record coll := Coll { c_docs : list doc; c_clock : Z; c_fresh : Z }.

Section instance.
Context (keys : list (list string)).

#[export] Instance unique_ok_dec ds : Decision (unique_ok keys ds).
Proof.
  refine (cast_if (decide (Forall (λ ks, NoDup (key_of ks <$> ds)) keys)));
    unfold unique_ok; by rewrite <-Forall_forall.
Defined.

(** Writing back the documents, unless a unique index forbids it. *)
Definition commit {A} (ds : list doc) (a : A) : M coll A := λ s,
  if decide (unique_ok keys ds) then (Ok a, Coll ds (c_clock s) (c_fresh s))
  else (Err "E11000 duplicate key error", s).

Fixpoint take_first (p : doc → bool) (ds : list doc) : option (doc * list doc) :=
  match ds with
  | [] => None
  | d :: ds' => if p d then Some (d, ds')
               else '(d', r) ← take_first p ds'; Some (d', d :: r)
  end.

Definition list_upsert (q : query) (u : update) : M coll doc := λ s,
  match take_first (matches q) (c_docs s) with
  | Some (d, rest) => commit (apply_update u d :: rest) (apply_update u d) s
  | None => commit (upsert_doc q u :: c_docs s) (upsert_doc q u) s
  end.

Definition group_first (ds : list doc) (x : Z) : option doc :=
  let members := base.filter (λ d, price_of d = Some x) ds in
  first ← head members;
  pp ← field "pricepoint" first;
  vols ← mapM volume_of members;
  Some [("_id", BDec x); ("pricepoint", pp); ("amount", BDec (sumZ vols))].

Definition run_stage (st : stage) (ds : list doc) : option (list doc) :=
  match st with
  | Match q => Some (base.filter (λ d, matches q d = true) ds)
  | AddDecimal t s => mapM (add_decimal t s) ds
  | MatchGte k v => Some (base.filter (λ d, decimal_holds (Z.leb v) (field k d) = true) ds)
  | MatchLte k v => Some (base.filter (λ d, decimal_holds (Z.geb v) (field k d) = true) ds)
  | Sort ks => Some (merge_sort (keys_le ks) ds)
  | GroupVolume => mapM (group_first ds) (remove_dups (omap price_of ds))
  | Project ks => mapM (project ks) ds
  | Limit n => Some (take n ds)
  | ObjectToArray k => mapM (object_to_array k) ds
  | FilterArray k key => mapM (filter_array k key) ds
  | ArrayToObject k => mapM (array_to_object k) ds
  end.

Definition run_pipeline (p : list stage) (ds : list doc) : option (list doc) :=
  foldl (λ acc st, acc ≫= run_stage st) (Some ds) p.

#[export] Instance ListRuntime : Runtime coll := {|
  Now s := (Ok (c_clock s), Coll (c_docs s) (c_clock s + 1) (c_fresh s));
  NewObjectId s :=
    (Ok ("id" +:+ Big.String_Z (c_fresh s)),
     Coll (c_docs s) (c_clock s) (c_fresh s + 1))
|}.

#[export] Instance ListMongo : Mongo coll := {|
  Find q ks sk lim s :=
    (Ok (slice sk lim (merge_sort (keys_le ks)
           (base.filter (λ d, matches q d = true) (c_docs s)))), s);
  FindOne q s :=
    match take_first (matches q) (c_docs s) with
    | Some (d, _) => (Ok d, s) | None => (Err not_found, s)
    end;
  Insert xs s := commit ((default [] <$> xs) ++ c_docs s) tt s;
  UpdateOne q u s :=
    match take_first (matches q) (c_docs s) with
    | Some (d, rest) =>
      if updatable u d then commit (apply_update u d :: rest) tt s
      else (Err "Cannot apply the update", s)
    | None => (Err not_found, s)
    end;
  UpdateMany q u s :=
    commit ((λ d, if matches q d then apply_update u d else d) <$> c_docs s) tt s;
  UpsertOne q u s := (list_upsert q u ≫= λ _, mret tt) s;
  FindAndModifyDoc q u up s :=
    if up then list_upsert q u s
    else match take_first (matches q) (c_docs s) with
         | Some _ => list_upsert q u s | None => (Err not_found, s) end;
  Pipe p s :=
    match run_pipeline p (c_docs s) with
    | Some rs => (Ok rs, s) | None => (Err "Failed to parse number", s)
    end;
  RemoveMany q s := commit (base.filter (λ d, matches q d = false) (c_docs s)) tt s;
  DropColl s := (Ok tt, Coll [] (c_clock s) (c_fresh s));
  docs := c_docs;
  unique_keys := keys
|}.
End instance.

(** ** The laws *)
Lemma take_first_some p ds d r :
  take_first p ds = Some (d, r) → p d = true ∧ ds ≡ₚ d :: r.
Proof.
  revert d r. induction ds as [|x ds IH]; simpl; intros d r Hr; [done|].
  destruct (p x) eqn:Hp; [by simplify_eq|].
  destruct (take_first p ds) as [[d' r']|]; simplify_eq/=.
  destruct (IH d r') as [? ->]; [done|]. split; [done|]. constructor.
Qed.

Lemma take_first_none p ds :
  take_first p ds = None → Forall (λ d, p d = false) ds.
Proof.
  induction ds as [|x ds IH]; simpl; intros Hr; [constructor|].
  destruct (p x) eqn:Hp; [done|].
  destruct (take_first p ds) as [[]|]; simplify_eq/=. auto.
Qed.

Lemma inserted_refl x : inserted x (default [] x).
Proof. by intros k _. Qed.

Lemma commit_ok {A} keys ds (a : A) (Q : list doc → list doc → A → Prop) s :
  Q (c_docs s) ds a →
  wp (commit keys ds a) (λ r s',
    match r with
    | Ok a => Q (c_docs s) (c_docs s') a ∧
              (unique_ok keys (c_docs s) → unique_ok keys (c_docs s'))
    | Err _ => c_docs s' = c_docs s ∨ ∃ a, Q (c_docs s) (c_docs s') a ∧
              (unique_ok keys (c_docs s) → unique_ok keys (c_docs s'))
    | Panic => False
    end) s.
Proof. intros HQ. unfold wp, commit. case_decide; simpl; auto. Qed.

Lemma group_first_ok ds x g : group_first ds x = Some g → volume_group ds x g.
Proof.
  unfold group_first, volume_group.
  set (ms := base.filter _ ds).
  destruct ms as [|first ms'] eqn:Hms; simpl; [done|]. intros Hg.
  destruct (field "pricepoint" first) as [pp|] eqn:Hpp; simplify_eq/=.
  destruct (volume_of first) as [v|] eqn:Hv; simplify_eq/=.
  destruct (mapM volume_of ms') as [vs|] eqn:Hvs; simplify_eq/=.
  split; [done|]. eexists first, _. split_and!; [by left|done..].
Qed.

Lemma run_stage_ok st ds rs : run_stage st ds = Some rs → stage_result st ds rs.
Proof.
  destruct st as [q|t s|k v|k v|ks| |ks|n|k|k key|k]; simpl; try congruence.
  - intros [= <-]. split; [apply merge_sort_Permutation|].
    apply (StronglySorted_merge_sort _).
  - intros Hr. exists (remove_dups (omap price_of ds)).
    split; [apply NoDup_remove_dups|]. split.
    + intros x. by rewrite elem_of_remove_dups, list_elem_of_omap.
    + apply mapM_Some_1 in Hr. eapply Forall2_impl; [exact Hr|].
      apply group_first_ok.
Qed.

Lemma run_pipeline_none p : foldl (λ acc st, acc ≫= run_stage st) None p = None.
Proof. by induction p. Qed.

Lemma run_pipeline_ok p ds rs : run_pipeline p ds = Some rs → pipeline_result p ds rs.
Proof.
  unfold run_pipeline. revert ds. induction p as [|st p IH]; simpl; intros ds Hr.
  - by simplify_eq.
  - destruct (run_stage st ds) as [ms|] eqn:Hst.
    + exists ms. split; [by apply run_stage_ok|]. by apply IH.
    + by rewrite run_pipeline_none in Hr.
Qed.

Section laws.
Context (keys : list (list string)).
#[local] Instance mongo : Mongo coll := ListMongo keys.

Lemma list_upsert_ok q u :
  writes (list_upsert keys q u) (λ ds ds' d, upsert_one q u ds ds' d).
Proof.
  intros s. unfold wp, list_upsert. simpl.
  destruct (take_first (matches q) (c_docs s)) as [[d rest]|] eqn:Ht.
  - apply take_first_some in Ht as [Hm Hp].
    apply (commit_ok keys _ _ (λ ds ds' d, upsert_one q u ds ds' d)).
    left. eauto 10.
  - apply take_first_none in Ht.
    apply (commit_ok keys _ _ (λ ds ds' d, upsert_one q u ds ds' d)).
    right. split_and!; [done|apply (inserted_refl (Some _))|done].
Qed.

#[export] Instance ListMongo_laws : @MongoLaws coll ListRuntime (ListMongo keys).
Proof.
  constructor.
  - intros s. split; [done|by eexists].
  - intros s. split; [done|]. eexists. split; [done|]. by simpl.
  - intros q ks sk lim s. split; [done|]. simpl.
    eexists. split_and!; [apply (merge_sort_Permutation (keys_le ks))| |done].
    apply (StronglySorted_merge_sort _).
  - intros q s. unfold wp. simpl.
    destruct (take_first _ _) as [[d r]|] eqn:Ht; simpl; split_and!; try done.
    + apply take_first_some in Ht as [_ ->]. by left.
    + by apply take_first_some in Ht as [? _].
  - intros q s. simpl. destruct (take_first _ _) as [[d r]|] eqn:Ht; simpl; [done|].
    intros _. by apply take_first_none in Ht.
  - intros p s _. unfold wp. simpl.
    destruct (run_pipeline p (c_docs s)) as [rs|] eqn:Hr; simpl; split; try done.
    by apply run_pipeline_ok.
  - intros p s. unfold wp. simpl. by destruct (run_pipeline p (c_docs s)).
  - intros xs s. apply (commit_ok keys _ _ (λ ds ds' _, insert_docs xs ds ds')).
    eexists. split; [|done]. induction xs; constructor; [apply inserted_refl|done].
  - intros q u s. unfold wp. simpl.
    destruct (take_first _ _) as [[d r]|] eqn:Ht; simpl; [|by left].
    apply take_first_some in Ht as [Hm Hp]. destruct (updatable u d) eqn:Hu; [|by left].
    apply (commit_ok keys _ _ (λ ds ds' _, update_one q u ds ds')).
    eexists d, r. done.
  - intros q u s. apply (commit_ok keys _ _ (λ ds ds' _, update_many q u ds ds')).
    unfold update_many. reflexivity.
  - intros q u s. unfold wp. simpl. unfold mbind, M_bind.
    pose proof (list_upsert_ok q u s) as Hu. unfold wp in Hu.
    destruct (list_upsert keys q u s) as [[d|e|] s']; simpl in *; [|naive_solver..].
    destruct Hu. split; eauto.
  - intros q u s. apply list_upsert_ok.
  - intros q s. apply (commit_ok keys _ _ (λ ds ds' _, remove_many q ds ds')).
    unfold remove_many. reflexivity.
  - intros s. split; [done|]. simpl. intros _ k _. constructor.
Qed.
End laws.
