(* ===== verification/Json.v ===== *)
(** JSON values and the pieces of [encoding/json], [time] and [bson] that the
    codecs of package [types] rely on.  A [map[string]interface{}] is the list
    of its fields; a number is an integer, the only kind the codecs use. *)
From S2P Require Import Prelude BigMath Types Mongo.

Inductive json :=
  | JNull
  | JBool (b : bool)
  | JNum (z : Z)
  | JStr (s : string)
  | JArr (l : list json)
  | JObj (l : list (string * json)).

Abbreviation jmap := (list (string * json)).

Fixpoint jfield (k : string) (m : jmap) : option json :=
  match m with
  | [] => None
  | (k', v) :: m' => if decide (k' = k) then Some v else jfield k m'
  end.

(** [m[k]], where a missing key and [null] are both nil. *)
Definition jget (k : string) (m : jmap) : option json :=
  match jfield k m with Some JNull => None | r => r end.

(** The type assertions [v.(string)], [v.(float64)] and
    [v.(map[string]interface{})], which panic on another type. *)
Definition as_string (v : json) : outcome string :=
  match v with JStr s => Ok s | _ => Panic end.
Definition as_num (v : json) : outcome Z :=
  match v with JNum z => Ok z | _ => Panic end.
Definition as_map (v : json) : outcome jmap :=
  match v with JObj m => Ok m | _ => Panic end.
Definition field_string (k : string) (m : jmap) : outcome string :=
  v ← deref (jget k m); as_string v.

(** [if m[k] != nil { x = f(m[k].(string)) }] *)
Definition set_string {A} (k : string) (m : jmap) (cur : A) (f : string → A) : outcome A :=
  match jget k m with
  | None => Ok cur
  | Some v => s ← as_string v; Ok (f s)
  end.

(** [json.Unmarshal(b, &m)] into a map: [null] leaves it nil. *)
Definition unmarshal_map (j : json) : outcome jmap :=
  match j with
  | JObj m => Ok m
  | JNull => Ok []
  | _ => Err "json: cannot unmarshal into Go value of type map[string]interface {}"
  end.

(** [validation.ValidateStruct] with [validation.Required] fields ([go-ozzo]): the
    names of the blank ones, sorted, in one message. *)
Definition ValidateStruct (blank : list (string * bool)) : outcome unit :=
  match omap (λ kb : string * bool, if kb.2 then Some (kb.1 +:+ ": cannot be blank") else None) blank with
  | [] => Ok tt
  | es => Err (String.concat "; " es +:+ ".")
  end.

(** [time.Time.Format(time.RFC3339Nano)] and [time.Parse], whose error the code
    drops; [bson.IsObjectIdHex] and [bson.ObjectIdHex]; the JSON text of an
    address or a hash. *)
Class Codecs := {
  Format_RFC3339Nano : Z → string;
  Parse_RFC3339Nano : string → Z;
  IsObjectIdHex : string → bool;
  ObjectIdHex : string → string;
  Address_Text : Address → string;
  Hash_Text : Hash → string
}.
Class CodecLaws `(EthCommon, Codecs) := {
  Parse_Format t : Parse_RFC3339Nano (Format_RFC3339Nano t) = t;
  HexToAddress_Text a : HexToAddress (Address_Text a) = a;
  HexToHash_Text h : HexToHash (Hash_Text h) = h
}.

(** ** BSON fields, decoded into a Go struct *)

(** A missing field, a null and a value of a kind that the field's type does not
    take leave the zero value: [bson] skips what it cannot convert.  A binary is
    taken for a string; numbers and booleans are taken for each other. *)
Definition string_of_bytes (l : list Z) : string :=
  String.string_of_list_ascii ((λ x, Ascii.ascii_of_N (Z.to_N x)) <$> l).
Definition bson_string (k : string) (d : doc) : outcome string :=
  match field k d with
  | Some (BStr s) => Ok s
  | Some (BBin l) => Ok (string_of_bytes l)
  | _ => Ok ""
  end.
Definition bson_id (k : string) (d : doc) : outcome string :=
  match field k d with Some (BId s) => Ok s | _ => Ok "" end.

(** A date holds milliseconds; a [time.Time] nanoseconds. *)
Definition ms : Z := 1000000.
Definition bson_of_time (t : Z) : bval := BDate (t / ms).
Definition bson_time (k : string) (d : doc) : outcome Z :=
  match field k d with Some (BDate t) => Ok (t * ms) | _ => Ok 0 end.
Definition truncate_ms (t : Z) : Z := t / ms * ms.

Definition bson_int (k : string) (d : doc) : outcome Z :=
  match field k d with
  | Some (BInt z) => Ok z
  | Some (BBool b) => Ok (Z.b2z b)
  | _ => Ok 0
  end.
Definition bson_bool (k : string) (d : doc) : outcome bool :=
  match field k d with
  | Some (BBool b) => Ok b
  | Some (BInt z) => Ok (negb (z =? 0))
  | _ => Ok false
  end.
(** An array of strings: its other elements are skipped. *)
Definition bson_strings (k : string) (d : doc) : outcome (list string) :=
  match field k d with
  | Some (BArr l) => Ok (omap (λ v, match v with BStr s => Some s | _ => None end) l)
  | _ => Ok []
  end.

(** ** Signatures *)
Section signature.
Context `{EthCommon, Codecs}.

(** [&SignatureRecord{V, R, S}], as a subdocument. *)
Definition Signature_bson (s : Signature) : bval :=
  BDoc [("V", BInt (sig_V s)); ("R", BStr (Hash_Hex (sig_R s)));
        ("S", BStr (Hash_Hex (sig_S s)))].

Definition bson_signature (k : string) (d : doc) : outcome (option Signature) :=
  match field k d with
  | Some (BDoc d') =>
    v ← bson_int "V" d'; r ← bson_string "R" d'; s ← bson_string "S" d';
    Ok (Some (mkSignature (v `mod` 256) (HexToHash r) (HexToHash s)))
  | _ => Ok None
  end.

Definition Signature_json (s : Signature) : json :=
  JObj [("V", JNum (sig_V s)); ("R", JStr (Hash_Text (sig_R s)));
        ("S", JStr (Hash_Text (sig_S s)))].

Definition signature_of_json (v : json) : outcome Signature :=
  m ← as_map v;
  v' ← deref (jget "V" m); n ← as_num v';
  r ← field_string "R" m; s ← field_string "S" m;
  Ok (mkSignature (n `mod` 256) (HexToHash r) (HexToHash s)).
End signature.

(** ** Lookups in updated documents *)

Lemma field_app k d d' :
  field k (d ++ d') = match field k d with Some v => Some v | None => field k d' end.
Proof. induction d as [|[k' v] d IH]; simpl; [done|]. by case_decide. Qed.

Lemma field_filter k (d d' : doc) :
  field k (base.filter (λ kv, field kv.1 d' = None) d) =
  match field k d' with Some _ => None | None => field k d end.
Proof.
  induction d as [|[k' v] d IH]; [by destruct (field k d')|].
  rewrite filter_cons. simpl. destruct (decide (field k' d' = None)) as [Hk|Hk]; simpl;
    case_decide; subst; rewrite ?IH, ?Hk; auto.
  by destruct (field k d').
Qed.

Lemma field_set_fields k kvs d :
  field k (set_fields kvs d) =
  match field k kvs with Some v => Some v | None => field k d end.
Proof.
  unfold set_fields. rewrite field_app, field_filter. by destruct (field k kvs).
Qed.
