(* ===== verification/Aggregation.v ===== *)
(** The aggregation pipelines of the services: the values that [services/pair.go]
    and [services/ohlcv.go] build, and what the MongoDB server computes for them.

    [Mongo] has the pipelines of the daos; those of this file group by several
    expressions at once.  The calendar and the decimals beyond 34 digits are the
    server's: they are classes. *)
From S2P Require Import Prelude BigMath Mongo.

(** ** Expressions *)
Inductive date_part := Year | Month | DayOfMonth | Hour | Minute | Second | IsoWeekYear | IsoWeek.
#[export] Instance date_part_eq_dec : EqDecision date_part.
Proof. solve_decision. Defined.

Inductive expr :=
  | EField (path : list string)
  | EConst (v : bval)
  | EToDecimal (e : expr)
  | ESubtract (e e' : expr)
  | EMultiply (e e' : expr)
  | EMod (e e' : expr)
  | ECeilDivide (e e' : expr)
  | EPart (p : date_part) (e : expr)
  | EDateFromParts (ps : list (date_part * expr)).

(** The server's calendar, in milliseconds since 1970; a part out of its range may be
    refused. *)
Class Calendar := {
  part_of : date_part → Z → Z;
  from_parts : list (date_part * Z) → option Z
}.
(** The server's decimals: a numeral or a sum of more than 34 digits is rounded;
    a string that is no numeral is an error. *)
Class ServerDecimal := {
  inexact_to_decimal : string → option Z;
  round_decimal : Z → Z;
  inexact_decimal_string : Z → string
}.

Section eval.
Context `{Calendar, ServerDecimal}.

Definition decimal (x : Z) : Z := if decimal_exact x then x else round_decimal x.
Definition eval_to_decimal (v : bval) : option bval :=
  match v with
  | BNull => Some BNull
  | BStr s =>
    match to_decimal (Some v) with
    | Some x => Some (BDec x)
    | None => BDec <$> inexact_to_decimal s
    end
  | BDec z => Some v
  | BInt z => Some (BDec z)
  | _ => None
  end.
Definition arith (on_int on_dec : Z → Z → option Z) (x y : bval) : option bval :=
  match x, y with
  | BNull, _ | _, BNull => Some BNull
  | BInt a, BInt b => BInt <$> on_int a b
  | BDec a, BDec b | BDec a, BInt b | BInt a, BDec b => BDec ∘ decimal <$> on_dec a b
  | _, _ => None
  end.
(** The difference of two dates is in milliseconds. *)
Definition subtract (x y : bval) : option bval :=
  match x, y with
  | BDate a, BDate b => Some (BInt (a - b))
  | _, _ => arith (λ a b, Some (a - b)) (λ a b, Some (a - b)) x y
  end.
Definition multiply : bval → bval → option bval :=
  arith (λ a b, Some (a * b)) (λ a b, Some (a * b)).
(** A remainder has the dividend's sign; by zero it is an error, like a division. *)
Definition modulo : bval → bval → option bval :=
  let m a b := if b =? 0 then None else Some (Z.rem a b) in arith m m.
Definition ceil_divide : bval → bval → option bval :=
  let c a b := if b =? 0 then None else Some (- ((- a) / b)) in arith c c.
Definition eval_part (p : date_part) (v : bval) : option bval :=
  match v with
  | BNull => Some BNull
  | BDate t => Some (BInt (part_of p t))
  | _ => None
  end.
(** One null part makes the date null. *)
Definition eval_from_parts (vs : list (date_part * bval)) : option bval :=
  if existsb (λ pv, bool_decide (pv.2 = BNull)) vs then Some BNull
  else ps ← mapM (λ pv, match pv.2 with BInt n => Some (pv.1, n) | _ => None end) vs;
       BDate <$> from_parts ps.

(** A field that is missing counts as null. *)
Fixpoint eval (e : expr) (d : doc) : option bval :=
  match e with
  | EField path => Some (default BNull (field_path path d))
  | EConst v => Some v
  | EToDecimal e => v ← eval e d; eval_to_decimal v
  | ESubtract e e' => x ← eval e d; y ← eval e' d; subtract x y
  | EMultiply e e' => x ← eval e d; y ← eval e' d; multiply x y
  | EMod e e' => x ← eval e d; y ← eval e' d; modulo x y
  | ECeilDivide e e' => x ← eval e d; y ← eval e' d; ceil_divide x y
  | EPart p e => v ← eval e d; eval_part p v
  | EDateFromParts ps =>
    vs ← (fix go (ps : list (date_part * expr)) := match ps with
          | [] => Some []
          | (p, e) :: ps => v ← eval e d; vs ← go ps; Some ((p, v) :: vs)
          end) ps;
    eval_from_parts vs
  end.
Definition eval_doc (es : list (string * expr)) (d : doc) : option doc :=
  mapM (λ ke, v ← eval ke.2 d; Some (ke.1, v)) es.

(** ** Groups *)
Inductive accumulator := ASum | AFirst | ALast | AMax | AMin.

(** [$sum] skips what is no number; [$max] and [$min] skip nulls and compare in the
    server's order, strings as strings. *)
Definition add_number (acc v : bval) : bval :=
  match acc, v with
  | BInt a, BInt b => BInt (a + b)
  | BInt a, BDec b | BDec a, BDec b | BDec a, BInt b => BDec (decimal (a + b))
  | _, _ => acc
  end.
Fixpoint lex_ltb (l k : list Z) : bool :=
  match l, k with
  | _, [] => false
  | [], _ :: _ => true
  | x :: l', y :: k' => (x <? y) || ((x =? y) && lex_ltb l' k')
  end.
Definition value_ltb (x y : bval) : bool := lex_ltb (sort_key (Some x)) (sort_key (Some y)).
Definition pick (better : bval → bval → bool) (acc v : bval) : bval :=
  if decide (v = BNull) then acc else if decide (acc = BNull) then v
  else if better v acc then v else acc.
Definition accumulate (a : accumulator) (vs : list bval) : bval :=
  match a with
  | ASum => foldl add_number (BInt 0) vs
  | AFirst => default BNull (head vs)
  | ALast => default BNull (last vs)
  | AMax => foldl (pick (λ v acc, value_ltb acc v)) BNull vs
  | AMin => foldl (pick value_ltb) BNull vs
  end.
Definition accumulators := list (string * (accumulator * expr)).

(** The document of one group, from its members in their order. *)
Definition members (ids : list (string * expr)) (key : doc) (ds : list doc) : list doc :=
  base.filter (λ d, eval_doc ids d = Some key) ds.
Definition group_doc (ids : list (string * expr)) (accs : accumulators) (ds : list doc) (key : doc) :
    option doc :=
  vs ← mapM (λ kae, xs ← mapM (eval kae.2.2) (members ids key ds);
                    Some (kae.1, accumulate kae.2.1 xs)) accs;
  Some (("_id", BDoc key) :: vs).

(** ** Stages *)
Inductive acond :=
  | AEqual (v : bval)
  | AIn (vs : list bval)
  | ADates (gte lt : Z).
(** Conditions on fields, and the alternatives of an [$or] when there is one. *)
Record amatch := mkMatch {
  am_conds : list (string * acond);
  am_or : option (list (list (string * acond)))
}.
Inductive astage :=
  | AMatch (m : amatch)
  | AAddFields (es : list (string * expr))
  | AGroup (ids : list (string * expr)) (accs : accumulators)
  | ASort (keys : list (string * dir))
  | AEmpty.

(** A comparison with dates holds of dates only. *)
Definition acond_holds (c : acond) (v : option bval) : bool :=
  match c with
  | AEqual w => bool_decide (v = Some w)
  | AIn vs => match v with Some w => bool_decide (w ∈ vs) | None => false end
  | ADates gte lt => match v with Some (BDate t) => (gte <=? t) && (t <? lt) | _ => false end
  end.
Definition aconds_hold (cs : list (string * acond)) (d : doc) : bool :=
  forallb (λ kc, acond_holds kc.2 (field kc.1 d)) cs.
Definition amatches (m : amatch) (d : doc) : bool :=
  aconds_hold (am_conds m) d &&
  match am_or m with Some l => existsb (λ cs, aconds_hold cs d) l | None => true end.
Definition add_fields (es : list (string * expr)) (d : doc) : option doc :=
  vs ← eval_doc es d; Some (set_fields vs d).

(** What a stage may return; an empty stage is refused. *)
Definition astage_result (st : astage) (ds rs : list doc) : Prop :=
  match st with
  | AMatch m => rs = base.filter (λ d, amatches m d = true) ds
  | AAddFields es => mapM (add_fields es) ds = Some rs
  | AGroup ids accs => ∃ keys, NoDup keys ∧
      (∀ d, d ∈ ds → ∃ key, eval_doc ids d = Some key ∧ key ∈ keys) ∧
      (∀ key, key ∈ keys → ∃ d, d ∈ ds ∧ eval_doc ids d = Some key) ∧
      mapM (group_doc ids accs ds) keys = Some rs
  | ASort keys => rs ≡ₚ ds ∧ StronglySorted (keys_le keys) rs
  | AEmpty => False
  end.
Fixpoint aggregation_result (p : list astage) (ds rs : list doc) : Prop :=
  match p with
  | [] => rs = ds
  | st :: p' => ∃ ms, astage_result st ds ms ∧ aggregation_result p' ms rs
  end.
End eval.

(** ** The driver: [db.Aggregate] of [daos/session.go] *)
Class Aggregator (W : Type) := RunAggregate : list astage → M W (list doc).
Class AggregatorLaws (W : Type) `{Runtime W, Mongo W, Aggregator W, Calendar, ServerDecimal} :=
  RunAggregate_ok p s : wp (RunAggregate p) (λ r s', docs s' = docs s ∧
    match r with Ok rs => aggregation_result p (docs s) rs | Err _ => True | Panic => False end) s.
