(* ===== verification/Ticks.v ===== *)
(** [types/ohlcv.go], [types.OrderData] ([types/order.go]) and [types.PairData]
    ([types/pair.go]): what the aggregations of trades and orders answer. *)
From S2P Require Import Prelude BigMath Types Mongo Json Aggregation.

Record PairID := mkPairID {
  pi_PairName : string;
  pi_BaseToken : Address;
  pi_QuoteToken : Address
}.
#[export] Instance PairID_eq_dec : EqDecision PairID.
Proof. solve_decision. Defined.

Record Tick := mkTick {
  tk_Pair : PairID;
  tk_Close : option Z;
  tk_Count : option Z;
  tk_High : option Z;
  tk_Low : option Z;
  tk_Open : option Z;
  tk_Volume : option Z;
  tk_Timestamp : Z
}.
#[export] Instance Tick_eq_dec : EqDecision Tick.
Proof. solve_decision. Defined.

Record OrderData := mkOrderData {
  odt_Pair : PairID;
  odt_OrderVolume : option Z;
  odt_OrderCount : option Z;
  odt_BestPrice : option Z
}.
#[export] Instance OrderData_eq_dec : EqDecision OrderData.
Proof. solve_decision. Defined.

Record PairData := mkPairData {
  pdt_Pair : PairID;
  pdt_Close : option Z;
  pdt_Count : option Z;
  pdt_High : option Z;
  pdt_Low : option Z;
  pdt_Open : option Z;
  pdt_Volume : option Z;
  pdt_Timestamp : Z;
  pdt_OrderVolume : option Z;
  pdt_OrderCount : option Z;
  pdt_AskPrice : option Z;
  pdt_BidPrice : option Z;
  pdt_Price : option Z;
  pdt_Rank : Z
}.
#[export] Instance PairData_eq_dec : EqDecision PairData.
Proof. solve_decision. Defined.

(** [bson.ParseDecimal128] of a string that is no numeral of at most 34 digits. *)
Class OtherDecimal128 := other_decimal128 : string → outcome Z.
Definition parse_decimal128 `{OtherDecimal128} (s : string) : outcome bval :=
  match to_decimal (Some (BStr s)) with
  | Some x => Ok (BDec x)
  | None => BDec <$> other_decimal128 s
  end.

Section codec.
Context `{EthCommon, Big.Undefined, ServerDecimal, OtherDecimal128}.

Definition pair_code (p : PairID) : string :=
  Address_Hex (pi_BaseToken p) +:+ "::" +:+ Address_Hex (pi_QuoteToken p).
Definition Tick_AddressCode (t : Tick) : string := pair_code (tk_Pair t).
Definition OrderData_AddressCode (o : OrderData) : string := pair_code (odt_Pair o).
Definition PairData_AddressCode (p : PairData) : string := pair_code (pdt_Pair p).

(** ** BSON *)

(** A [bson.Decimal128] that is not set is a zero with the lowest exponent. *)
Definition decimal_string (z : Z) : string :=
  if decimal_exact z then Big.String_Z z else inexact_decimal_string z.
Definition bson_decimal (k : string) (d : doc) : outcome string :=
  match field k d with Some (BDec z) => Ok (decimal_string z) | _ => Ok "0E-6176" end.

Definition PairID_record (p : PairID) : bval :=
  BDoc [("pairName", BStr (pi_PairName p)); ("baseToken", BStr (Address_Hex (pi_BaseToken p)));
        ("quoteToken", BStr (Address_Hex (pi_QuoteToken p)))].
Definition bson_PairID (d : doc) : outcome PairID :=
  let r := match field "_id" d with Some (BDoc r) => r | _ => [] end in
  pairName ← bson_string "pairName" r;
  baseToken ← bson_string "baseToken" r;
  quoteToken ← bson_string "quoteToken" r;
  Ok (mkPairID pairName (HexToAddress baseToken) (HexToAddress quoteToken)).

Definition Tick_GetBSON (t : Tick) : outcome doc :=
  count ← parse_decimal128 (Big.Stringp (tk_Count t));
  o ← parse_decimal128 (Big.Stringp (tk_Open t));
  h ← parse_decimal128 (Big.Stringp (tk_High t));
  l ← parse_decimal128 (Big.Stringp (tk_Low t));
  c ← parse_decimal128 (Big.Stringp (tk_Close t));
  v ← parse_decimal128 (Big.Stringp (tk_Volume t));
  Ok [("_id", PairID_record (tk_Pair t)); ("count", count); ("open", o); ("high", h); ("low", l);
      ("close", c); ("volume", v); ("timestamp", BInt (tk_Timestamp t))].
Definition Tick_SetBSON (d : doc) : outcome Tick :=
  pair ← bson_PairID d;
  count ← bson_decimal "count" d;
  o ← bson_decimal "open" d;
  h ← bson_decimal "high" d;
  l ← bson_decimal "low" d;
  c ← bson_decimal "close" d;
  v ← bson_decimal "volume" d;
  timestamp ← bson_int "timestamp" d;
  Ok (mkTick pair (Some (ToBigInt c)) (Some (ToBigInt count)) (Some (ToBigInt h))
        (Some (ToBigInt l)) (Some (ToBigInt o)) (Some (ToBigInt v)) timestamp).

(** The volume is stored as the count and the count as the volume. *)
Definition OrderData_GetBSON (o : OrderData) : outcome doc :=
  count ← parse_decimal128 (Big.Stringp (odt_OrderCount o));
  volume ← parse_decimal128 (Big.Stringp (odt_OrderVolume o));
  Ok [("_id", PairID_record (odt_Pair o)); ("orderCount", volume); ("orderVolume", count);
      ("bestPrice", BStr (Big.Stringp (odt_BestPrice o)))].
Definition OrderData_SetBSON (d : doc) : outcome OrderData :=
  pair ← bson_PairID d;
  orderCount ← bson_decimal "orderCount" d;
  orderVolume ← bson_decimal "orderVolume" d;
  bestPrice ← bson_string "bestPrice" d;
  Ok (mkOrderData pair (Some (ToBigInt orderVolume)) (Some (ToBigInt orderCount))
        (Some (ToBigInt bestPrice))).

(** ** JSON *)
Definition PairID_json (p : PairID) : json :=
  JObj [("pairName", JStr (pi_PairName p)); ("baseToken", JStr (Address_Hex (pi_BaseToken p)));
        ("quoteToken", JStr (Address_Hex (pi_QuoteToken p)))].
Definition amount_field (k : string) (x : option Z) : jmap :=
  match x with Some z => [(k, JStr (Big.String_Z z))] | None => [] end.
Definition Tick_MarshalJSON (t : Tick) : json :=
  JObj ([("pair", PairID_json (tk_Pair t)); ("timestamp", JNum (tk_Timestamp t))] ++
    amount_field "open" (tk_Open t) ++ amount_field "high" (tk_High t) ++
    amount_field "low" (tk_Low t) ++ amount_field "volume" (tk_Volume t) ++
    amount_field "close" (tk_Close t) ++ amount_field "count" (tk_Count t)).
Definition OrderData_MarshalJSON (o : OrderData) : json :=
  JObj ([("pair", PairID_json (odt_Pair o))] ++ amount_field "orderVolume" (odt_OrderVolume o) ++
    amount_field "orderCount" (odt_OrderCount o) ++ amount_field "bestPrice" (odt_BestPrice o)).
Definition PairData_MarshalJSON (p : PairData) : json :=
  JObj ([("pair", PairID_json (pdt_Pair p)); ("timestamp", JNum (pdt_Timestamp p));
         ("rank", JNum (pdt_Rank p))] ++
    amount_field "open" (pdt_Open p) ++ amount_field "high" (pdt_High p) ++
    amount_field "low" (pdt_Low p) ++ amount_field "volume" (pdt_Volume p) ++
    amount_field "close" (pdt_Close p) ++ amount_field "count" (pdt_Count p) ++
    amount_field "orderVolume" (pdt_OrderVolume p) ++ amount_field "orderCount" (pdt_OrderCount p) ++
    amount_field "askPrice" (pdt_AskPrice p) ++ amount_field "bidPrice" (pdt_BidPrice p) ++
    amount_field "price" (pdt_Price p)).

Definition PairID_of_json (m : jmap) (cur : PairID) : outcome PairID :=
  match jget "pair" m with
  | None => Ok cur
  | Some v =>
    pair ← as_map v;
    pairName ← field_string "pairName" pair;
    baseToken ← field_string "baseToken" pair;
    quoteToken ← field_string "quoteToken" pair;
    Ok (mkPairID pairName (HexToAddress baseToken) (HexToAddress quoteToken))
  end.
Definition set_amount (k : string) (m : jmap) (cur : option Z) : outcome (option Z) :=
  set_string k m cur (λ s, Some (ToBigInt s)).
Definition Tick_UnmarshalJSON (j : json) (t : Tick) : outcome Tick :=
  m ← unmarshal_map j;
  pair ← PairID_of_json m (tk_Pair t);
  timestamp ← match jget "timestamp" m with None => Ok (tk_Timestamp t) | Some v => as_num v end;
  o ← set_amount "open" m (tk_Open t);
  h ← set_amount "high" m (tk_High t);
  l ← set_amount "low" m (tk_Low t);
  c ← set_amount "close" m (tk_Close t);
  v ← set_amount "volume" m (tk_Volume t);
  count ← set_amount "count" m (tk_Count t);
  Ok (mkTick pair c count h l o v timestamp).
Definition OrderData_UnmarshalJSON (j : json) (o : OrderData) : outcome OrderData :=
  m ← unmarshal_map j;
  pair ← PairID_of_json m (odt_Pair o);
  orderVolume ← set_amount "orderVolume" m (odt_OrderVolume o);
  orderCount ← set_amount "orderCount" m (odt_OrderCount o);
  bestPrice ← set_amount "bestPrice" m (odt_BestPrice o);
  Ok (mkOrderData pair orderVolume orderCount bestPrice).
End codec.

(** * What the BSON and JSON forms keep *)

Section codec.
Context `{EthCommonLaws, !Big.Undefined, !ServerDecimal, !OtherDecimal128}.

(** Amounts of at most 34 digits, as [bson.Decimal128] holds them. *)
Definition small (x : option Z) : Prop := ∃ z, x = Some z ∧ decimal_exact z = true.
Definition tick_small (t : Tick) : Prop :=
  small (tk_Open t) ∧ small (tk_High t) ∧ small (tk_Low t) ∧ small (tk_Close t) ∧ small (tk_Volume t) ∧
  small (tk_Count t).

Lemma parse_small z : decimal_exact z = true → parse_decimal128 (Big.String_Z z) = Ok (BDec z).
Proof. intros Hz. unfold parse_decimal128, to_decimal. by rewrite SetString_String_Z, Hz. Qed.
Lemma read_small k d z : field k d = Some (BDec z) → decimal_exact z = true → bson_decimal k d = Ok (Big.String_Z z).
Proof. intros Hk Hz. unfold bson_decimal, decimal_string. by rewrite Hk, Hz. Qed.
Lemma read_pair_record d p : field "_id" d = Some (PairID_record p) → bson_PairID d = Ok p.
Proof. intros Hd. unfold bson_PairID, bson_string. rewrite Hd. simpl. rewrite !HexToAddress_Hex. by destruct p. Qed.

Lemma Tick_bson_ok t : tick_small t → (d ← Tick_GetBSON t; Tick_SetBSON d) = Ok t.
Proof.
  intros ((o & Eo & Ho) & (h & Eh & Hh) & (l & El & Hl) & (c & Ec & Hc) & (v & Ev & Hv) & (n & En & Hn)).
  unfold Tick_GetBSON. rewrite Eo, Eh, El, Ec, Ev, En. simpl. rewrite !parse_small by done. simpl.
  unfold Tick_SetBSON. erewrite read_pair_record by reflexivity. cbn [mbind outcome_bind].
  erewrite !read_small by done. simpl. rewrite !ToBigInt_String_Z. destruct t. simpl in *. by subst.
Qed.

(** The statistics of a pair's orders come back from their BSON form with the
    volume and the number of orders exchanged. *)
Theorem OrderData_bson_swaps o v n b : odt_OrderVolume o = Some v → odt_OrderCount o = Some n →
  odt_BestPrice o = Some b → decimal_exact v = true → decimal_exact n = true →
  (d ← OrderData_GetBSON o; OrderData_SetBSON d) = Ok (mkOrderData (odt_Pair o) (Some n) (Some v) (Some b)).
Proof.
  intros Ev En Eb Hv Hn. unfold OrderData_GetBSON. rewrite Ev, En, Eb. simpl. rewrite !parse_small by done.
  simpl. unfold OrderData_SetBSON. erewrite read_pair_record by reflexivity. cbn [mbind outcome_bind].
  erewrite !read_small by done. simpl. by rewrite !ToBigInt_String_Z.
Qed.

(** ** JSON *)
Lemma PairID_json_ok p m cur : jget "pair" m = Some (PairID_json p) → PairID_of_json m cur = Ok p.
Proof.
  intros Hm. unfold PairID_of_json. rewrite Hm. simpl. rewrite !HexToAddress_Hex. by destruct p.
Qed.
Lemma set_amount_ok k m z cur : jget k m = Some (JStr (Big.String_Z z)) → set_amount k m cur = Ok (Some z).
Proof. intros Hk. unfold set_amount, set_string. rewrite Hk. simpl. by rewrite ToBigInt_String_Z. Qed.
Lemma Tick_json_ok t cur : tick_small t → Tick_UnmarshalJSON (Tick_MarshalJSON t) cur = Ok t.
Proof.
  intros ((o & Eo & _) & (h & Eh & _) & (l & El & _) & (c & Ec & _) & (v & Ev & _) & (n & En & _)).
  unfold Tick_MarshalJSON, Tick_UnmarshalJSON. rewrite Eo, Eh, El, Ec, Ev, En.
  cbn [unmarshal_map mbind outcome_bind amount_field app].
  erewrite PairID_json_ok by reflexivity. cbn -[set_amount].
  erewrite !set_amount_ok by reflexivity. destruct t. simpl in *. by subst.
Qed.

(** A tick whose amounts are set and have at most 34 digits is read back as it was
    from its BSON form, and from its JSON form into any tick. *)
Theorem Tick_roundtrips t cur : tick_small t →
  (d ← Tick_GetBSON t; Tick_SetBSON d) = Ok t ∧ Tick_UnmarshalJSON (Tick_MarshalJSON t) cur = Ok t.
Proof. intros Ht. split; [by apply Tick_bson_ok|by apply Tick_json_ok]. Qed.
End codec.
