(* ===== verification/DepositTypes.v ===== *)
(** [types/deposit.go]: the data of the deposit swap and its conversions.

    An association ties the address a user is told to pay to to the user's own
    address; a deposit transaction is a payment that was seen, in the queue of
    those to be paid out; an association transaction is what the configurator
    builds and signs for a payment. *)
From S2P Require Import Prelude BigMath Types Mongo Json.

(** go-ethereum's [common.Bytes2Hex], [common.Hex2Bytes], [common.BytesToAddress]
    and the decoding of an address from the text of a JSON string. *)
Class HexCommon := {
  Bytes2Hex : list Z → string;
  Hex2Bytes : string → list Z;
  BytesToAddress : list Z → Address;
  Address_UnmarshalText : string → outcome Address
}.

(** [types.Chain] and [types.AssetCode] are strings. *)
Definition ChainEthereum : string := "ethereum".
Definition ChainBitcoin : string := "bitcoin".
Definition AssetCodeETH : string := "ETH".
Definition AssetCodeBTC : string := "BTC".
Definition CreateOffer : string := "CreateOffer".
Definition CreateAccount : string := "CreateAccount".
Definition RemoveSigner : string := "RemoveSigner".

(** The [interface{}] that [Scan] is given: bytes, or something else. *)
Inductive scanned := Bytes (s : string) | NotBytes.
Definition Chain_Scan (src : scanned) : outcome string :=
  match src with Bytes s => Ok s | NotBytes => Err "Cannot convert value to Chain" end.
Definition NewChain (src : scanned) : string :=
  match Chain_Scan src with Ok c => c | _ => ChainEthereum end.

Record AddressAssociation := mkAddressAssociation {
  aa_Chain : string;
  aa_AddressIndex : Z;
  aa_Address : Address;
  aa_AssociatedAddress : Address;
  aa_TomochainPublicKey : Address;
  aa_CreatedAt : Z
}.

Record AddressAssociationRecord := mkAddressAssociationRecord {
  ar_ID : string;
  ar_AddressIndex : Z;
  ar_Chain : string;
  ar_Address : string;
  ar_Status : string;
  ar_AssociatedAddress : string;
  ar_TxEnvelopes : list string;
  ar_PairName : string;
  ar_BaseTokenAddress : string;
  ar_QuoteTokenAddress : string;
  ar_CreatedAt : Z;
  ar_UpdatedAt : Z
}.
#[export] Instance AddressAssociationRecord_eq_dec : EqDecision AddressAssociationRecord.
Proof. solve_decision. Defined.

Record AddressAssociationFeed := mkAddressAssociationFeed {
  af_Address : list Z;
  af_AddressIndex : Z;
  af_AssociatedAddress : list Z;
  af_Chain : string;
  af_CreatedAt : Z;
  af_TomochainPublicKey : list Z
}.

Record GenerateAddressResponse := mkGenerateAddressResponse {
  gr_ProtocolVersion : Z;
  gr_Chain : string;
  gr_Address : string;
  gr_Signer : string
}.
#[export] Instance GenerateAddressResponse_eq_dec : EqDecision GenerateAddressResponse.
Proof. solve_decision. Defined.

Record DepositTransaction := mkDepositTransaction {
  dt_Chain : string;
  dt_TransactionID : string;
  dt_AssetCode : string;
  dt_PairName : string;
  dt_Amount : string;
  dt_AssociatedAddress : string
}.
#[export] Instance DepositTransaction_eq_dec : EqDecision DepositTransaction.
Proof. solve_decision. Defined.

Record AssociationTransaction := mkAssociationTransaction {
  at_Source : string;
  at_Signature : list Z;
  at_Hash : list Z;
  at_TransactionType : string;
  at_Params : list string
}.
Record AssociationTransactionResponse := mkAssociationTransactionResponse {
  atr_Source : string;
  atr_Signature : string;
  atr_Hash : string;
  atr_TransactionType : string;
  atr_Params : list string
}.

(** [types.PairAddresses] ([types/pair.go]) *)
Record PairAddresses := mkPairAddresses {
  pa_Name : string;
  pa_BaseToken : Address;
  pa_QuoteToken : Address
}.

Section conversions.
Context `{EthCommon, HexCommon}.

(** The public key is left zero. *)
Definition AddressAssociationRecord_GetJSON (aar : AddressAssociationRecord) : AddressAssociation :=
  mkAddressAssociation (ar_Chain aar) (ar_AddressIndex aar) (HexToAddress (ar_Address aar))
    (HexToAddress (ar_AssociatedAddress aar)) 0 (ar_CreatedAt aar).

(** [time.Unix(int64(s), 0)], in nanoseconds. *)
Definition Unix (s : Z) : Z := s * 10 ^ 9.
Definition int64 (n : Z) : Z := (n + 2 ^ 63) `mod` 2 ^ 64 - 2 ^ 63.
Definition AddressAssociationFeed_GetJSON (aaf : AddressAssociationFeed) : AddressAssociation :=
  mkAddressAssociation (af_Chain aaf) (af_AddressIndex aaf) (BytesToAddress (af_Address aaf))
    (BytesToAddress (af_AssociatedAddress aaf)) (BytesToAddress (af_TomochainPublicKey aaf))
    (Unix (int64 (af_CreatedAt aaf))).

Definition AssociationTransaction_GetJSON (o : AssociationTransaction) :
    AssociationTransactionResponse :=
  mkAssociationTransactionResponse (at_Source o) (Bytes2Hex (at_Signature o))
    (Bytes2Hex (at_Hash o)) (at_TransactionType o) (at_Params o).

(** Keccak-256 of the source, the type and the parameters, one after the other
    and without separators. *)
Definition AssociationTransaction_ComputeHash (o : AssociationTransaction) : list Z :=
  Hash_Bytes (Keccak256 (codes (at_Source o) ++ codes (at_TransactionType o) ++
    mjoin (codes <$> at_Params o))).
End conversions.

(** ** The queue's JSON: the fields have no tags *)
Definition DepositTransaction_json (t : DepositTransaction) : json :=
  JObj [("Chain", JStr (dt_Chain t)); ("TransactionID", JStr (dt_TransactionID t));
        ("AssetCode", JStr (dt_AssetCode t)); ("PairName", JStr (dt_PairName t));
        ("Amount", JStr (dt_Amount t)); ("AssociatedAddress", JStr (dt_AssociatedAddress t))].

(** [json.Unmarshal] into a field of type string: a missing field or a null leave
    it empty, another type is an error. *)
Definition json_string (k : string) (m : jmap) : outcome string :=
  match jget k m with
  | None => Ok ""
  | Some (JStr s) => Ok s
  | Some _ => Err "json: cannot unmarshal into Go struct field of type string"
  end.
(** An address has an [UnmarshalJSON] of its own, which refuses a null. *)
Definition json_address `{HexCommon} (k : string) (m : jmap) : outcome Address :=
  match jfield k m with
  | None => Ok 0
  | Some (JStr s) => Address_UnmarshalText s
  | Some _ => Err "json: cannot unmarshal non-string into Go value of type common.Address"
  end.
Definition PairAddresses_unjson `{HexCommon} (j : json) : outcome PairAddresses :=
  m ← unmarshal_map j;
  name ← json_string "name" m;
  baseToken ← json_address "baseToken" m;
  quoteToken ← json_address "quoteToken" m;
  Ok (mkPairAddresses name baseToken quoteToken).
Definition DepositTransaction_unjson (j : json) : outcome DepositTransaction :=
  m ← unmarshal_map j;
  chain ← json_string "Chain" m;
  id ← json_string "TransactionID" m;
  asset ← json_string "AssetCode" m;
  pair ← json_string "PairName" m;
  amount ← json_string "Amount" m;
  address ← json_string "AssociatedAddress" m;
  Ok (mkDepositTransaction chain id asset pair amount address).

Lemma DepositTransaction_json_roundtrip t :
  DepositTransaction_unjson (DepositTransaction_json t) = Ok t.
Proof. by destruct t. Qed.
