(* ===== verification/Fixtures.v ===== *)
(** Concrete values for the witnesses: an instance of go-ethereum's interface
    one can compute with, a configuration, a pair and order makers. *)
From Stdlib Require Import Ascii.
From S2P Require Import Prelude BigMath Types Mongo ListMongo Json.

(** Addresses, after [0x], and hashes printed in decimal, and a key recovery that returns
    the first word of the signature: enough for the laws to hold. *)
Definition toy_of_string (s : string) : Z := default 0 (Big.SetString s).
Definition drop_0x (s : string) : string :=
  match s with
  | String "0"%char (String "x"%char s') => s'
  | _ => s
  end.

Definition toy_eth : EthCommon := {|
  Address_Hex a := "0x" +:+ Big.String_Z a;
  HexToAddress s := toy_of_string (drop_0x s);
  Hash_Hex := Big.String_Z;
  HexToHash := toy_of_string;
  IsHexAddress s := bool_decide (is_Some (Big.SetString (drop_0x s)));
  Address_Bytes a := [a];
  Hash_Bytes h := [h];
  BigToHash x := Z.abs x `mod` 2 ^ 256;
  Keccak256 l := foldl (λ acc b, (acc * 31 + b) `mod` 2 ^ 256) 7 l;
  Ecrecover _ l := match l with r :: _ => Ok r | [] => Err "invalid signature" end
|}.

Lemma drop_0x_ok s : drop_0x ("0x" +:+ s) = s.
Proof. done. Qed.
Lemma toy_eth_laws : @EthCommonLaws toy_eth.
Proof.
  split; cbn -[drop_0x String.append]; unfold toy_of_string.
  - intros a. by rewrite drop_0x_ok, SetString_String_Z.
  - intros a. by rewrite drop_0x_ok, SetString_String_Z.
  - intros a. by rewrite SetString_String_Z.
  - intros h. apply String_Z_not_empty.
  - by intros _ [].
Defined.

Definition toy_codecs : Codecs := {|
  Format_RFC3339Nano := Big.String_Z;
  Parse_RFC3339Nano := toy_of_string;
  IsObjectIdHex s := bool_decide (String.length s = 24%nat);
  ObjectIdHex s := s;
  Address_Text a := "0x" +:+ Big.String_Z a;
  Hash_Text := Big.String_Z
|}.
Lemma toy_codec_laws : @CodecLaws toy_eth toy_codecs.
Proof.
  split; intros; cbn -[drop_0x String.append]; unfold toy_of_string;
    by rewrite ?drop_0x_ok, SetString_String_Z.
Defined.

Definition toy_decimals : Decimals := λ _, 0.


Definition toy_config : AppConfig := "99".
Definition toy_undefined : Big.Undefined := λ _, 0.

(** A pair of 18- and 6-decimals tokens. *)
Definition toy_pair : Pair :=
  mkPair "p1" "TOMO" 11 18 "WETH" 12 6 true true 0 (Some 1) (Some 2) 0 0.

(** An order of user [u]: the signature's first word is the user's address. *)
Definition toy_order (u side : Z) (h amount pp : Z) : Order :=
  mkOrder "" u 99 11 12 "" (if side =? 0 then BUY else SELL) h
    (Some (mkSignature 27 u 0)) (Some pp) (Some amount) (Some 0) (Some 1)
    (Some 1) (Some 2) "TOMO/WETH" 0 0.
