(* ===== verification/Orders.v ===== *)
(** The methods of [types.Order] and [types.OrderCancel] ([types/order.go],
    [types/order_cancel.go]) and what they promise: which sell amount an order
    needs, which orders [Validate] accepts, when a method panics. *)
From S2P Require Import Prelude BigMath Types Fixtures.
From Stdlib Require Import Ascii.

(** ** strings.IndexByte and slices of strings *)
Fixpoint IndexByte (s : string) (c : ascii) : Z :=
  match s with
  | "" => -1
  | String c' s' =>
    if decide (c' = c) then 0
    else let i := IndexByte s' c in if i =? -1 then -1 else i + 1
  end.

(** [s[:hi]] panics when [hi] is negative (it never exceeds the length here). *)
Definition slice_to (s : string) (hi : Z) : outcome string :=
  if hi <? 0 then Panic else Ok (String.substring 0 (Z.to_nat hi) s).
Definition slice_from (s : string) (lo : Z) : outcome string :=
  if lo <? 0 then Panic
  else Ok (String.substring (Z.to_nat lo) (String.length s - Z.to_nat lo) s).

(** ** Amounts, sides and tokens *)
Definition EncodedSide (o : Order) : Z :=
  if decide (o_Side o = BUY) then 0 else 1.

Definition RemainingAmount (o : Order) : outcome Z :=
  a ← deref (o_Amount o);
  f ← deref (o_FilledAmount o);
  Ok (Sub a f).

Definition SellToken (o : Order) : Address :=
  if decide (o_Side o = BUY) then o_QuoteToken o else o_BaseToken o.

Definition BuyToken (o : Order) : Address :=
  if decide (o_Side o = BUY) then o_BaseToken o else o_QuoteToken o.

Definition QuoteAmount (p : Pair) (o : Order) : outcome Z :=
  a ← deref (o_Amount o);
  pp ← deref (o_PricePoint o);
  Div (Mul a pp) (PairMultiplier p).

(** The code returns the pointer [o.Amount], so a nil amount stays nil. *)
Definition SellAmount (p : Pair) (o : Order) : outcome (option Z) :=
  if decide (o_Side o = BUY) then Some <$> QuoteAmount p o
  else Ok (o_Amount o).

Definition RequiredSellAmount (p : Pair) (o : Order) : outcome (option Z) :=
  if decide (o_Side o = BUY) then
    a ← deref (o_Amount o);
    pp ← deref (o_PricePoint o);
    Some <$> Div (Mul a pp) (PairMultiplier p)
  else Ok (o_Amount o).

Definition RemainingSellAmount (p : Pair) (o : Order) : outcome Z :=
  if decide (o_Side o = BUY) then
    a ← deref (o_Amount o);
    f ← deref (o_FilledAmount o);
    pp ← deref (o_PricePoint o);
    Div (Mul (Sub a f) pp) (PairMultiplier p)
  else
    a ← deref (o_Amount o);
    f ← deref (o_FilledAmount o);
    Ok (Sub a f).

Definition TotalRequiredSellAmount (p : Pair) (o : Order) : outcome (option Z) :=
  if decide (o_Side o = BUY) then
    a ← deref (o_Amount o);
    pp ← deref (o_PricePoint o);
    sellAmount ← Div (Mul a pp) (PairMultiplier p);
    mf ← deref (p_MakeFee p);
    tf ← deref (p_TakeFee p);
    Ok (Some (Add sellAmount (Max mf tf)))
  else Ok (o_Amount o).

Definition BuyAmount (pairMultiplier : Z) (o : Order) : outcome (option Z) :=
  if decide (o_Side o = SELL) then Ok (o_Amount o)
  else
    a ← deref (o_Amount o);
    pp ← deref (o_PricePoint o);
    Some <$> Div (Mul a pp) pairMultiplier.

(** ** Names *)
Definition BaseTokenSymbol (o : Order) : outcome string :=
  if decide (o_PairName o = "") then Ok ""
  else slice_to (o_PairName o) (IndexByte (o_PairName o) "/").

Definition QuoteTokenSymbol (o : Order) : outcome string :=
  if decide (o_PairName o = "") then Ok ""
  else slice_from (o_PairName o) (IndexByte (o_PairName o) "/" + 1).

Definition SellTokenSymbol (o : Order) : outcome string :=
  if decide (o_Side o = BUY) then QuoteTokenSymbol o
  else if decide (o_Side o = SELL) then BaseTokenSymbol o
  else Ok "".

Definition BuyTokenSymbol (o : Order) : outcome string :=
  if decide (o_Side o = BUY) then BaseTokenSymbol o
  else if decide (o_Side o = SELL) then QuoteTokenSymbol o
  else Ok "".

Definition Order_Pair (o : Order) : outcome Pair :=
  if decide (o_BaseToken o = 0) then Err "Base token is not set"
  else if decide (o_QuoteToken o = 0) then Err "Quote token is set"
  else Ok (Pair_of_addresses (o_BaseToken o) (o_QuoteToken o)).

(** ** Processing: the fees must be the pair's *)
Definition Process (p : Pair) (createdAt updatedAt : Z) : M Order unit :=
  o ← get;
  (match o_FilledAmount o with
   | None => modify (set_o_FilledAmount (Some 0))
   | Some _ => mret tt
   end) ;;
  mf ← lift (deref (o_MakeFee o)); pmf ← lift (deref (p_MakeFee p));
  lift (reject_if (negb (IsEqual mf pmf)) "Invalid MakeFee") ;;
  tf ← lift (deref (o_TakeFee o)); ptf ← lift (deref (p_TakeFee p));
  lift (reject_if (negb (IsEqual tf ptf)) "Invalid TakeFee") ;;
  modify (set_o_PairName (Pair_Name p)) ;;
  modify (set_o_CreatedAt createdAt) ;;
  modify (set_o_UpdatedAt updatedAt).

Section crypto.
Context {ethcommon : EthCommon} {appconfig : AppConfig}.

Definition PairCode (o : Order) : outcome string :=
  if decide (o_PairName o = "") then Err "Pair name is required"
  else Ok (o_PairName o +:+ "::" +:+ Address_Hex (o_BaseToken o) +:+ "::" +:+
           Address_Hex (o_QuoteToken o)).

(** ** Hash and signature *)

(** The bytes written to the hasher; [BigToHash] of a nil integer panics. *)
Definition Order_preimage (o : Order) : outcome (list Z) :=
  amount ← deref (o_Amount o);
  pricepoint ← deref (o_PricePoint o);
  nonce ← deref (o_Nonce o);
  takeFee ← deref (o_TakeFee o);
  makeFee ← deref (o_MakeFee o);
  Ok (Address_Bytes (o_ExchangeAddress o) ++ Address_Bytes (o_UserAddress o) ++
      Address_Bytes (o_BaseToken o) ++ Address_Bytes (o_QuoteToken o) ++
      Hash_Bytes (BigToHash amount) ++ Hash_Bytes (BigToHash pricepoint) ++
      Hash_Bytes (BigToHash (EncodedSide o)) ++ Hash_Bytes (BigToHash nonce) ++
      Hash_Bytes (BigToHash takeFee) ++ Hash_Bytes (BigToHash makeFee)).

Definition Order_ComputeHash (o : Order) : outcome Hash :=
  Keccak256 <$> Order_preimage o.

Definition signed_message (h : Hash) : Hash := Keccak256 (eth_prefix ++ Hash_Bytes h).

(** Sets [o.Hash] before it checks the signature. *)
Definition VerifySignature : M Order bool :=
  o ← get;
  h ← lift (Order_ComputeHash o);
  modify (set_o_Hash h) ;;
  sig ← lift (deref (o_Signature o));
  address ← lift (Sig.Verify sig (signed_message h));
  lift (reject_if (bool_decide (address ≠ o_UserAddress o))
                  "Recovered address is incorrect") ;;
  mret true.

(** [Wallet.SignHash] is a parameter: the key and the curve are go-ethereum's. *)
Definition Order_Sign (SignHash : Hash → outcome Signature) : M Order unit :=
  o ← get;
  h ← lift (Order_ComputeHash o);
  sig ← lift (SignHash h);
  modify (set_o_Hash h) ;;
  modify (set_o_Signature (Some sig)).

Definition is_nil {A} (p : option A) : bool :=
  match p with None => true | Some _ => false end.

Definition side_error (side : string) : error :=
  "Order 'side' should be 'SELL' or 'BUY', but got: '" +:+ side +:+ "'".

(** The checks of [Validate] before the signature, in the code's order. *)
Definition Validate_fields (o : Order) : outcome unit :=
  reject_if (bool_decide (o_ExchangeAddress o ≠ HexToAddress exchange_address))
    "Order 'exchangeAddress' parameter is incorrect" ;;
  reject_if (bool_decide (o_UserAddress o = 0))
    "Order 'userAddress' parameter is required" ;;
  reject_if (is_nil (o_Nonce o)) "Order 'nonce' parameter is required" ;;
  reject_if (bool_decide (o_BaseToken o = 0))
    "Order 'baseToken' parameter is required" ;;
  reject_if (bool_decide (o_QuoteToken o = 0))
    "Order 'quoteToken' parameter is required" ;;
  reject_if (is_nil (o_MakeFee o)) "Order 'makeFee' parameter is required" ;;
  reject_if (is_nil (o_TakeFee o)) "Order 'takeFee' parameter is required" ;;
  reject_if (is_nil (o_Amount o)) "Order 'amount' parameter is required" ;;
  reject_if (is_nil (o_PricePoint o)) "Order 'pricepoint' parameter is required" ;;
  reject_if (bool_decide (o_Side o ≠ BUY ∧ o_Side o ≠ SELL)) (side_error (o_Side o)) ;;
  reject_if (is_nil (o_Signature o)) "Order 'signature' parameter is required" ;;
  nonce ← deref (o_Nonce o);
  reject_if (IsSmallerThan nonce 0) "Order 'nonce' parameter should be positive" ;;
  amount ← deref (o_Amount o);
  reject_if (IsEqualOrSmallerThan amount 0)
    "Order 'amount' parameter should be strictly positive" ;;
  pp ← deref (o_PricePoint o);
  reject_if (IsEqualOrSmallerThan pp 0)
    "Order 'pricepoint' parameter should be strictly positive".

Definition Validate : M Order unit :=
  o ← get;
  lift (Validate_fields o) ;;
  valid ← VerifySignature;
  lift (reject_if (negb valid) "Order 'signature' parameter is invalid").
End crypto.

(** ** Lemmas on the helpers *)

Lemma PairMultiplier_pos p : 0 < PairMultiplier p.
Proof. unfold PairMultiplier, Mul. apply Z.mul_pos_pos; auto with dex. Qed.
#[export] Hint Resolve PairMultiplier_pos : dex.

Lemma PairMultiplier_Div x p : Div x (PairMultiplier p) = Ok (x / PairMultiplier p).
Proof. apply Div_pos, PairMultiplier_pos. Qed.
#[export] Hint Rewrite PairMultiplier_Div : dex.

Lemma reject_if_ok c e : reject_if c e = Ok tt ↔ c = false.
Proof. unfold reject_if. by destruct c. Qed.

Lemma reject_then {A} c e (k : outcome A) (a : A) :
  (reject_if c e ;; k) = Ok a ↔ c = false ∧ k = Ok a.
Proof. unfold reject_if. destruct c; simpl; naive_solver. Qed.

Lemma reject_no_panic {A} c e (k : outcome A) :
  (c = false → k ≠ Panic) → (reject_if c e ;; k) ≠ Panic.
Proof. unfold reject_if. destruct c; simpl; [done|auto]. Qed.

(** ** Acceptance *)

(** What an order must satisfy to be accepted, apart from its signature. *)
Record order_fields_ok `{EthCommon, AppConfig} (o : Order) : Prop := {
  ok_exchange : o_ExchangeAddress o = HexToAddress exchange_address;
  ok_user : o_UserAddress o ≠ 0;
  ok_base : o_BaseToken o ≠ 0;
  ok_quote : o_QuoteToken o ≠ 0;
  ok_side : o_Side o = BUY ∨ o_Side o = SELL;
  ok_makeFee : is_Some (o_MakeFee o);
  ok_takeFee : is_Some (o_TakeFee o);
  ok_sig : is_Some (o_Signature o);
  ok_nonce : ∃ n, o_Nonce o = Some n ∧ 0 < n;
  ok_amount : ∃ a, o_Amount o = Some a ∧ 0 < a;
  ok_pricepoint : ∃ pp, o_PricePoint o = Some pp ∧ 0 < pp
}.

Lemma is_nil_false {A} (p : option A) : is_nil p = false ↔ is_Some p.
Proof. destruct p; simpl; split; [eauto| |done|intros [??]]; done. Qed.

Lemma Validate_fields_ok `{EthCommon, AppConfig} o :
  Validate_fields o = Ok tt ↔ order_fields_ok o.
Proof.
  unfold Validate_fields. rewrite !reject_then, !is_nil_false, !bool_decide_eq_false.
  split.
  - intros (?&?&?&?&?&?&?&?&?&Hs&?&Hr). go_inv. bigmath.
    constructor; try done; try (by apply dec_stable); try (eexists; split; [done|lia]).
    destruct (decide (o_Side o = BUY)); [by left|].
    right. apply dec_stable. tauto.
  - intros [? ? ? ? Hs ? ? ? (n&Hn&?) (a&Ha&?) (pp&Hp&?)].
    rewrite Hn, Ha, Hp. simpl. rewrite !reject_then, reject_if_ok. bigmath.
    repeat split; eauto; try (by intros ?); try lia; destruct Hs; tauto.
Qed.

Lemma Validate_fields_no_panic `{EthCommon, AppConfig} o : Validate_fields o ≠ Panic.
Proof.
  unfold Validate_fields.
  do 11 (apply reject_no_panic; intros ?).
  repeat match goal with H : is_nil ?p = false |- _ => destruct p; [clear H|done] end.
  simpl. do 2 (apply reject_no_panic; intros ?). unfold reject_if. by case_match.
Qed.

(** [Order_ComputeHash] reads five integers through their pointers. *)
Definition hashable (o : Order) : Prop :=
  is_Some (o_Amount o) ∧ is_Some (o_PricePoint o) ∧ is_Some (o_Nonce o) ∧
  is_Some (o_TakeFee o) ∧ is_Some (o_MakeFee o).

Lemma Order_ComputeHash_hashable `{EthCommon} o :
  hashable o → ∃ h, Order_ComputeHash o = Ok h.
Proof.
  intros ([? E1]&[? E2]&[? E3]&[? E4]&[? E5]).
  unfold Order_ComputeHash, Order_preimage. rewrite E1, E2, E3, E4, E5. by eexists.
Qed.

Lemma order_fields_hashable `{EthCommon, AppConfig} o : order_fields_ok o → hashable o.
Proof. intros []. destruct_and?. repeat split; naive_solver. Qed.
#[export] Hint Resolve Order_ComputeHash_hashable order_fields_hashable : dex.

(** ** Properties *)

Lemma VerifySignature_true `{EthCommon} o o' b :
  VerifySignature o = (Ok b, o') ↔
  b = true ∧ ∃ h sig, Order_ComputeHash o = Ok h ∧ o_Signature o = Some sig ∧
    Sig.Verify sig (signed_message h) = Ok (o_UserAddress o) ∧
    o' = set_o_Hash h o.
Proof.
  unfold VerifySignature, mbind, M_bind, lift, get, modify; simpl. split.
  - intros Hr. destruct (Order_ComputeHash o) as [h|e|]; simplify_eq/=.
    destruct (o_Signature o) as [sig|]; simplify_eq/=.
    destruct (Sig.Verify sig (signed_message h)) as [a|e|] eqn:Hv; simplify_eq/=.
    unfold reject_if in Hr. case_bool_decide; simplify_eq/=.
    injection Hr as <- <-. eauto 10.
  - intros (-> & h & sig & -> & -> & Hv & ->); simpl. rewrite Hv. simpl.
    unfold reject_if. by case_bool_decide.
Qed.

Lemma Validate_ok `{EthCommon, AppConfig} o o' :
  Validate o = (Ok tt, o') ↔
  order_fields_ok o ∧ ∃ h sig,
    Order_ComputeHash o = Ok h ∧ o_Signature o = Some sig ∧
    Sig.Verify sig (signed_message h) = Ok (o_UserAddress o) ∧
    o' = set_o_Hash h o.
Proof.
  rewrite <-Validate_fields_ok.
  assert (Validate o = (Ok tt, o') ↔
          Validate_fields o = Ok tt ∧ VerifySignature o = (Ok true, o')) as ->.
  { unfold Validate. unfold mbind at 1 2 3, M_bind, get, lift.
    destruct (Validate_fields o) as [[]|e|]; [|naive_solver..].
    destruct (VerifySignature o) as [[[]|e|] o1]; simpl; naive_solver. }
  rewrite VerifySignature_true. naive_solver.
Qed.

(** C29: [Order.Validate] accepts exactly the orders of this exchange with
    every field set, a side, a strictly positive nonce, amount and price, and
    a signature of the order's own hash by its user; it leaves that hash in the
    order and changes nothing else. *)
Theorem Validate_accepts `{EthCommon, AppConfig} o o' :
  Validate o = (Ok tt, o') ↔
  order_fields_ok o ∧ ∃ h sig,
    Order_ComputeHash o = Ok h ∧ o_Signature o = Some sig ∧
    Sig.Verify sig (signed_message h) = Ok (o_UserAddress o) ∧
    o' = set_o_Hash h o.
Proof. apply Validate_ok. Qed.

(** Validating an order never panics, whatever fields the client left
    out. *)
Theorem Validate_no_panic `{EthCommonLaws} `{AppConfig} o :
  (Validate o).1 ≠ Panic.
Proof.
  unfold Validate. unfold mbind at 1 2 3, M_bind, get, lift.
  destruct (Validate_fields o) as [[]|e|] eqn:Hf; simpl;
    [|done|by apply Validate_fields_no_panic in Hf].
  apply Validate_fields_ok in Hf.
  destruct (Order_ComputeHash_hashable o) as [h Hh]; [eauto with dex|].
  unfold VerifySignature, mbind, M_bind, lift, get, modify; simpl.
  rewrite Hh. simpl. destruct (ok_sig o Hf) as [sig ->]. simpl.
  destruct (Sig.Verify sig (signed_message h)) as [a|e|] eqn:Hv; simpl; [|done|].
  - unfold reject_if. by case_bool_decide.
  - by apply Ecrecover_no_panic in Hv.
Qed.

(** Computing an order's hash panics exactly when one of its five integer
    fields is missing, which the order endpoint does not check before it calls
    it. *)
Theorem ComputeHash_panics `{EthCommon} o :
  Order_ComputeHash o = Panic ↔ ¬ hashable o.
Proof.
  split.
  - intros Hp Hh. destruct (Order_ComputeHash_hashable o Hh). congruence.
  - intros Hh. unfold Order_ComputeHash, Order_preimage, hashable in *.
    destruct (o_Amount o), (o_PricePoint o), (o_Nonce o), (o_TakeFee o),
      (o_MakeFee o); try done.
    destruct Hh; repeat split; eauto.
Qed.

(** The sell amounts of an order are ordered: what remains to be sold is
    at most what the order sells, which is at most what the validator asks
    for (a buyer also needs the larger fee). *)
Theorem sell_amounts_ordered p o a f pp mf tf :
  o_Amount o = Some a → o_FilledAmount o = Some f → o_PricePoint o = Some pp →
  p_MakeFee p = Some mf → p_TakeFee p = Some tf →
  0 <= f <= a → 0 <= pp → 0 <= mf →
  ∃ r s t, RemainingSellAmount p o = Ok r ∧ SellAmount p o = Ok (Some s) ∧
    TotalRequiredSellAmount p o = Ok (Some t) ∧ 0 <= r <= s ∧ s <= t.
Proof.
  intros Ha Hf Hpp Hmf Htf ???.
  unfold RemainingSellAmount, SellAmount, TotalRequiredSellAmount, QuoteAmount.
  rewrite Ha, Hf, Hpp, Hmf, Htf. simpl.
  rewrite !PairMultiplier_Div. simpl. bigmath.
  pose proof (PairMultiplier_pos p) as Hm.
  case_decide; eexists _, _, _; split_and!; try done; try lia.
  - apply Z.div_pos; nia.
  - apply Z.div_le_mono; nia.
Qed.

(** [Order.BuyAmount] is [Order.SellAmount] on both sides of the book: the
    amount a BUY order buys is reported in quote units and the amount a SELL
    order buys in base units, against [BuyToken]. *)
Theorem BuyAmount_is_SellAmount p o :
  o_Side o = BUY ∨ o_Side o = SELL →
  BuyAmount (PairMultiplier p) o = SellAmount p o.
Proof.
  unfold BuyAmount, SellAmount, QuoteAmount. intros [->| ->]; simpl.
  - destruct (o_Amount o), (o_PricePoint o); done.
  - done.
Qed.

(** What a successful [Process] leaves in the order. *)
Definition processed (p : Pair) (t1 t2 : Z) (o : Order) : Order :=
  set_o_UpdatedAt t2 (set_o_CreatedAt t1 (set_o_PairName (Pair_Name p)
    (set_o_FilledAmount (Some (default 0 (o_FilledAmount o))) o))).

Lemma Process_ok p t1 t2 o o' :
  Process p t1 t2 o = (Ok tt, o') ↔
  is_Some (o_MakeFee o) ∧ o_MakeFee o = p_MakeFee p ∧
  is_Some (o_TakeFee o) ∧ o_TakeFee o = p_TakeFee p ∧
  o' = processed p t1 t2 o.
Proof.
  unfold Process, processed, mbind, M_bind, lift, get, modify, mret, M_ret; simpl.
  destruct o as [? ? ? ? ? ? ? ? ? ? ? fa ? [mf|] [tf|] ? ? ?],
    (p_MakeFee p) as [pmf|], (p_TakeFee p) as [ptf|], fa; simpl;
    rewrite ?IsEqual_spec; unfold reject_if, set_o_UpdatedAt, set_o_CreatedAt,
      set_o_PairName, set_o_FilledAmount; simpl;
    repeat (case_match; simpl in * );
    repeat match goal with H : negb (_ =? _) = _ |- _ =>
      first [apply negb_true_iff, Z.eqb_neq in H|apply negb_false_iff, Z.eqb_eq in H] end;
    split; intros; destruct_and?; simplify_eq/=; eauto 10;
    repeat match goal with H : is_Some None |- _ => destruct H; done end; done.
Qed.

(** An order processed for a pair of its own two tokens is routed by
    [PairCode] to that pair's order book, the one registered under
    [Pair.Code]. *)
Theorem Process_PairCode `{EthCommon} p t1 t2 o o' :
  o_BaseToken o = p_BaseTokenAddress p → o_QuoteToken o = p_QuoteTokenAddress p →
  Process p t1 t2 o = (Ok tt, o') →
  PairCode o' = Ok (Pair_Code p).
Proof.
  intros Hb Hq (_&_&_&_&->)%Process_ok. unfold PairCode, processed, Pair_Name. simpl.
  rewrite Hb, Hq, decide_False.
  - unfold Pair_Code. by rewrite !(assoc_L String.append).
  - destruct (p_BaseTokenSymbol p); done.
Qed.

(** ** Witnesses *)

Lemma Validate_no_panic_witness :
  (@Validate toy_eth toy_config (toy_order 1 0 5 10 3)).1 ≠ Panic.
Proof. apply (@Validate_no_panic toy_eth toy_eth_laws toy_config). Defined.

Lemma sell_amounts_ordered_witness :
  let o := toy_order 1 0 5 (10 ^ 20) (10 ^ 25) in
  ∃ r s t, RemainingSellAmount toy_pair o = Ok r ∧ SellAmount toy_pair o = Ok (Some s) ∧
    TotalRequiredSellAmount toy_pair o = Ok (Some t) ∧ 0 <= r <= s ∧ s <= t.
Proof.
  apply (sell_amounts_ordered toy_pair _ (10 ^ 20) 0 (10 ^ 25) 1 2);
    first [reflexivity|lia].
Defined.

Lemma BuyAmount_is_SellAmount_witness :
  BuyAmount (PairMultiplier toy_pair) (toy_order 1 1 5 10 3) =
  SellAmount toy_pair (toy_order 1 1 5 10 3).
Proof. apply BuyAmount_is_SellAmount. right. reflexivity. Defined.

Lemma Process_PairCode_witness :
  @PairCode toy_eth (processed toy_pair 7 8 (toy_order 1 0 5 10 3)) =
  Ok (@Pair_Code toy_eth toy_pair).
Proof.
  apply (@Process_PairCode toy_eth toy_pair 7 8 (toy_order 1 0 5 10 3));
    first [reflexivity|vm_compute; reflexivity].
Defined.
