(* ===== verification/MatchTypes.v ===== *)
(** The methods of [types.Trade], [types.Matches] and [types.EngineResponse]
    ([types/trade.go], [types/engine.go]). *)
From S2P Require Import Prelude BigMath Types Orders Fixtures.

(** ** types/trade.go *)
Section trade.
Context {ethcommon : EthCommon} {appconfig : AppConfig}.

Definition Trade_ComputeHash (t : Trade) : Hash :=
  Keccak256 (Hash_Bytes (t_MakerOrderHash t) ++ Hash_Bytes (t_TakerOrderHash t)).

Definition NewTrade (mo to : Order) (amount pricepoint : option Z) : Trade :=
  let t := {|
    t_ID := ""; t_Maker := o_UserAddress mo; t_Taker := o_UserAddress to;
    t_BaseToken := o_BaseToken mo; t_QuoteToken := o_QuoteToken mo;
    t_MakerOrderHash := o_Hash mo; t_TakerOrderHash := o_Hash to;
    t_Hash := 0; t_Side := ""; t_Signature := None; t_TxHash := 0;
    t_PairName := o_PairName mo; t_CreatedAt := 0; t_UpdatedAt := 0;
    t_PricePoint := pricepoint; t_Status := PENDING; t_Amount := amount |} in
  set_t_Hash (Trade_ComputeHash t) t.

Definition Trade_Validate (t : Trade) : outcome unit :=
  reject_if (bool_decide (t_Taker t = 0)) "Trade 'taker' parameter is required'" ;;
  reject_if (bool_decide (t_Maker t = 0)) "Trade 'maker' parameter is required" ;;
  reject_if (bool_decide (t_TakerOrderHash t = 0))
    "Trade 'takerOrderHash' parameter is required" ;;
  reject_if (bool_decide (t_MakerOrderHash t = 0))
    "Trade 'makerOrderHash' parameter is required" ;;
  reject_if (bool_decide (t_BaseToken t = 0))
    "Trade 'baseToken' parameter is required" ;;
  reject_if (bool_decide (t_QuoteToken t = 0))
    "Trade 'quoteToken' parameter is required" ;;
  reject_if (is_nil (t_Amount t)) "Trade 'amount' parameter is required" ;;
  reject_if (is_nil (t_PricePoint t)) "Trade 'pricepoint' paramter is required" ;;
  pp ← deref (t_PricePoint t);
  reject_if (IsEqualOrSmallerThan pp 0)
    "Trade 'pricepoint' parameter should be positive" ;;
  amount ← deref (t_Amount t);
  reject_if (IsEqualOrSmallerThan amount 0)
    "Trade 'amount' parameter should be positive" ;;
  reject_if (bool_decide (t_Hash t ≠ Trade_ComputeHash t)) "Trade 'hash' is incorrect".

Definition Trade_Sign (SignHash : Hash → outcome Signature) : M Trade unit :=
  t ← get;
  let hash := Trade_ComputeHash t in
  sig ← lift (SignHash hash);
  modify (set_t_Hash hash) ;;
  modify (set_t_Signature (Some sig)).

Definition Trade_Pair (t : Trade) : outcome Pair :=
  if decide (t_BaseToken t = 0) then Err "Base token is not set"
  else if decide (t_QuoteToken t = 0) then Err "Quote token is set"
  else Ok (Pair_of_addresses (t_BaseToken t) (t_QuoteToken t)).

(** ** types/engine.go *)
Definition NewMatches (makerOrders : list (option Order)) (takerOrder : option Order)
    (trades : list (option Trade)) : Matches :=
  mkMatches makerOrders takerOrder trades.

(** Indexing a slice out of range panics. *)
Definition index {A} (l : list A) (i : nat) : outcome A := deref (l !! i).

Definition NthMatch (m : Matches) (i : nat) : outcome Matches :=
  mo ← index (MakerOrders m) i;
  t ← index (Trades m) i;
  Ok (NewMatches [mo] (TakerOrder m) [t]).

Definition Matches_Taker (m : Matches) : outcome Address :=
  o_UserAddress <$> deref (TakerOrder m).

Definition Matches_TakerOrderHash (m : Matches) : outcome Hash :=
  o_Hash <$> deref (TakerOrder m).

Definition Matches_PairCode (m : Matches) : outcome string :=
  o ← deref (TakerOrder m); PairCode o.

(** [TradeAmounts] copies the pointers, so an amount may be nil. *)
Fixpoint trade_amounts (ts : list (option Trade)) : outcome (list (option Z)) :=
  match ts with
  | [] => Ok []
  | t :: ts' =>
    t ← deref t; amounts ← trade_amounts ts'; Ok (t_Amount t :: amounts)
  end.
Definition TradeAmounts (m : Matches) : outcome (list (option Z)) :=
  trade_amounts (Trades m).

Definition Matches_Length (m : Matches) : nat := length (Trades m).

Definition AppendMatch (mo : option Order) (t : option Trade) (m : Matches) : Matches :=
  mkMatches (MakerOrders m ++ [mo]) (TakerOrder m) (Trades m ++ [t]).

Fixpoint validate_trades (ts : list (option Trade)) : outcome unit :=
  match ts with
  | [] => Ok tt
  | t :: ts' => t ← deref t; Trade_Validate t ;; validate_trades ts'
  end.

(** Validating an order through its pointer updates its hash. *)
Definition validate_pointer (p : option Order) : outcome unit * option Order :=
  match p with
  | None => (Panic, None)
  | Some o => let '(r, o') := Validate o in (r, Some o')
  end.

Fixpoint validate_orders (os : list (option Order)) :
    outcome unit * list (option Order) :=
  match os with
  | [] => (Ok tt, [])
  | p :: os' =>
    match validate_pointer p with
    | (Ok _, p') => let '(r, os'') := validate_orders os' in (r, p' :: os'')
    | (r, p') => (r, p' :: os')
    end
  end.

Definition Matches_Validate (m : Matches) : outcome unit * Matches :=
  match Trades m, MakerOrders m, TakerOrder m with
  | [], _, _ => (Err "Matches should contain at least one trade", m)
  | _, [], _ => (Err "Matches should contain at least one makerOrder", m)
  | _, _, None => (Err "takerOrder is required", m)
  | _, _, Some _ =>
    match validate_trades (Trades m) with
    | Ok _ =>
      let '(r, mos) := validate_orders (MakerOrders m) in
      match r with
      | Ok _ =>
        let '(r', to) := validate_pointer (TakerOrder m) in
        (r', mkMatches mos to (Trades m))
      | _ => (r, mkMatches mos (TakerOrder m) (Trades m))
      end
    | r => (r, m)
    end
  end.

Definition er_empty : EngineResponse := mkEngineResponse "" None None None None.

Definition EngineResponse_AppendMatch (mo : option Order) (t : option Trade)
    (r : EngineResponse) : EngineResponse :=
  let m := default (mkMatches [] None []) (er_Matches r) in
  mkEngineResponse (er_Status r) (er_Order r)
    (Some (mkMatches (MakerOrders m ++ [mo]) (TakerOrder m) (Trades m ++ [t])))
    (er_InvalidatedOrders r) (er_CancelledTrades r).

Definition EngineResponse_AppendMatches (mo : list (option Order))
    (t : list (option Trade)) (r : EngineResponse) : EngineResponse :=
  let m := default (mkMatches [] None []) (er_Matches r) in
  mkEngineResponse (er_Status r) (er_Order r)
    (Some (mkMatches (MakerOrders m ++ mo) (TakerOrder m) (Trades m ++ t)))
    (er_InvalidatedOrders r) (er_CancelledTrades r).
End trade.

(** ** Properties *)

Record trade_ok `{EthCommon} (t : Trade) : Prop := {
  tok_taker : t_Taker t ≠ 0;
  tok_maker : t_Maker t ≠ 0;
  tok_takerOrder : t_TakerOrderHash t ≠ 0;
  tok_makerOrder : t_MakerOrderHash t ≠ 0;
  tok_base : t_BaseToken t ≠ 0;
  tok_quote : t_QuoteToken t ≠ 0;
  tok_amount : ∃ a, t_Amount t = Some a ∧ 0 < a;
  tok_price : ∃ pp, t_PricePoint t = Some pp ∧ 0 < pp;
  tok_hash : t_Hash t = Trade_ComputeHash t
}.

Lemma Trade_Validate_ok `{EthCommon} t : Trade_Validate t = Ok tt ↔ trade_ok t.
Proof.
  unfold Trade_Validate. rewrite !reject_then, !is_nil_false, !bool_decide_eq_false.
  split.
  - intros (?&?&?&?&?&?&?&?&Hr). go_inv. bigmath.
    case_bool_decide; [done|].
    constructor; try done; eexists; (split; [done|lia]).
  - intros [? ? ? ? ? ? (a&Ha&?) (pp&Hp&?) Hh].
    repeat split; eauto. rewrite Hp. simpl. rewrite reject_then. bigmath.
    split; [lia|]. rewrite Ha. simpl. rewrite reject_then, reject_if_ok. bigmath.
    rewrite bool_decide_eq_false. split; [lia|tauto].
Qed.

Lemma validate_trades_ok `{EthCommon} ts :
  validate_trades ts = Ok tt ↔ Forall (λ p, ∃ t, p = Some t ∧ trade_ok t) ts.
Proof.
  induction ts as [|p ts IH]; simpl; [by split; [constructor|]|].
  split.
  - destruct p as [t|]; simpl; [|done]. intros Hr. go_inv.
    constructor; [|by apply IH].
    eexists; split; [done|]. apply Trade_Validate_ok. by destruct a.
  - intros Hts. inversion Hts as [|? ? (t&->&Ht) Hts']; subst. simpl.
    apply Trade_Validate_ok in Ht. rewrite Ht. simpl. by apply IH.
Qed.

(** A batch of matches that holds one trade whose amount is not strictly
    positive is rejected as a whole, whatever else it holds. *)
Theorem Matches_Validate_zero_trade `{EthCommon, AppConfig} m t a :
  Some t ∈ Trades m → t_Amount t = Some a → a <= 0 →
  (Matches_Validate m).1 ≠ Ok tt.
Proof.
  intros Hin Ha Hle. unfold Matches_Validate.
  destruct (Trades m) as [|p ts] eqn:Hts; [by inversion Hin|].
  destruct (MakerOrders m) as [|mo mos]; [done|].
  destruct (TakerOrder m) as [to|]; [|done].
  destruct (validate_trades (p :: ts)) as [[]|e|] eqn:Hv; [|done..].
  apply validate_trades_ok in Hv. rewrite Forall_forall in Hv.
  destruct (Hv _ Hin) as (t'&[= <-]&[]). naive_solver lia.
Qed.

Lemma Matches_Validate_zero_trade_witness :
  let t := set_t_Hash 0 (@NewTrade toy_eth (toy_order 1 1 5 10 3)
             (toy_order 2 0 6 10 3) (Some 0) (Some 3)) in
  (@Matches_Validate toy_eth toy_config
     (mkMatches [Some (toy_order 1 1 5 10 3)] (Some (toy_order 2 0 6 10 3)) [Some t])).1
  ≠ Ok tt.
Proof.
  intros t. apply (@Matches_Validate_zero_trade toy_eth toy_config _ t 0);
    [by constructor|reflexivity|lia].
Defined.
