(* ===== verification/OrderCancels.v ===== *)
(** [types.OrderCancel] ([types/order_cancel.go]): its JSON, hash and signature. *)
From S2P Require Import Prelude BigMath Types Mongo Json Fixtures Orders.

Record OrderCancel := mkOrderCancel {
  oc_OrderHash : Hash;
  oc_Hash : Hash;
  oc_Signature : option Signature
}.

Section order_cancel.
Context `{EthCommon, Codecs}.

Definition NewOrderCancel : OrderCancel := mkOrderCancel 0 0 (Some (mkSignature 0 0 0)).

(** A nil signature panics. *)
Definition OrderCancel_MarshalJSON (oc : OrderCancel) : outcome json :=
  sig ← deref (oc_Signature oc);
  Ok (JObj [("orderHash", JStr (Hash_Text (oc_OrderHash oc)));
            ("hash", JStr (Hash_Text (oc_Hash oc)));
            ("signature", JObj [("v", JNum (sig_V sig)); ("r", JStr (Hash_Text (sig_R sig)));
                                ("s", JStr (Hash_Text (sig_S sig)))])]).

(** A hash that is missing is an error; a signature that is missing panics. *)
Definition OrderCancel_UnmarshalJSON (j : json) : outcome OrderCancel :=
  parsed ← unmarshal_map j;
  match jget "orderHash" parsed with
  | None => Err "Order Hash is missing"
  | Some v =>
    orderHash ← as_string v;
    match jget "hash" parsed with
    | None => Err "Hash is missing"
    | Some v =>
      hash ← as_string v;
      v ← deref (jget "signature" parsed); sig ← as_map v;
      v ← deref (jget "v" sig); V ← as_num v;
      r ← field_string "r" sig; s ← field_string "s" sig;
      Ok (mkOrderCancel (HexToHash orderHash) (HexToHash hash)
            (Some (mkSignature (V `mod` 256) (HexToHash r) (HexToHash s))))
    end
  end.

Definition OrderCancel_GetSenderAddress (oc : OrderCancel) : outcome Address :=
  sig ← deref (oc_Signature oc);
  Sig.Verify sig (signed_message (oc_Hash oc)).

(** The order is a pointer. *)
Definition OrderCancel_VerifySignature (o : option Order) (oc : OrderCancel) : outcome bool :=
  match o with
  | None => Err "Recovered address is incorrect"
  | Some o =>
    sig ← deref (oc_Signature oc);
    address ← Sig.Verify sig (signed_message (oc_Hash oc));
    reject_if (bool_decide (address ≠ o_UserAddress o)) "Recovered address is incorrect" ;;
    Ok true
  end.

Definition OrderCancel_ComputeHash (oc : OrderCancel) : Hash :=
  Keccak256 (Hash_Bytes (oc_OrderHash oc)).

Definition OrderCancel_Sign (SignHash : Hash → outcome Signature) : M OrderCancel unit :=
  oc ← get;
  let h := OrderCancel_ComputeHash oc in
  sig ← lift (SignHash h);
  put (mkOrderCancel (oc_OrderHash oc) h (Some sig)).
End order_cancel.

(** A cancellation with a signature survives its JSON encoding. *)
Theorem OrderCancel_json_roundtrip `{EthCommonLaws} `{!Codecs, !CodecLaws _ _} oc sig :
  oc_Signature oc = Some sig → 0 ≤ sig_V sig < 256 →
  ∃ j, OrderCancel_MarshalJSON oc = Ok j ∧ OrderCancel_UnmarshalJSON j = Ok oc.
Proof.
  intros Hs Hv. unfold OrderCancel_MarshalJSON. rewrite Hs. eexists. split; [reflexivity|].
  unfold OrderCancel_UnmarshalJSON, jget, field_string. simpl.
  rewrite !HexToHash_Text, Z.mod_small by done. destruct oc, sig. simpl in *. by subst.
Qed.

(** The signature of a cancellation covers the hash the client sends, not the
    order it names: a signature accepted for one order of a user is accepted
    for any other order of that user. *)
Theorem OrderCancel_signature_unbound `{EthCommon} oc h o o' :
  OrderCancel_VerifySignature (Some o) oc = Ok true → o_UserAddress o' = o_UserAddress o →
  OrderCancel_VerifySignature (Some o') (mkOrderCancel h (oc_Hash oc) (oc_Signature oc)) = Ok true.
Proof. unfold OrderCancel_VerifySignature. simpl. by intros Hv ->. Qed.

Lemma OrderCancel_json_roundtrip_witness :
  let oc := mkOrderCancel 5 7 (Some (mkSignature 27 1 2)) in
  ∃ j, @OrderCancel_MarshalJSON toy_codecs oc = Ok j ∧
    @OrderCancel_UnmarshalJSON toy_eth j = Ok oc.
Proof.
  exact (@OrderCancel_json_roundtrip toy_eth toy_eth_laws toy_codecs toy_codec_laws
    (mkOrderCancel 5 7 (Some (mkSignature 27 1 2))) (mkSignature 27 1 2) eq_refl
    ltac:(done)).
Defined.

Lemma OrderCancel_signature_unbound_witness :
  @OrderCancel_VerifySignature toy_eth (Some (toy_order 9 1 8 10 10))
    (mkOrderCancel 8 7 (Some (mkSignature 27 9 2))) = Ok true.
Proof.
  apply (@OrderCancel_signature_unbound toy_eth (mkOrderCancel 5 7 (Some (mkSignature 27 9 2))) 8
    (toy_order 9 0 5 10 10)); reflexivity.
Defined.
