(* ===== verification/OrderCodec.v ===== *)
(** The encodings of [types.Order]: the BSON documents it is stored as and the
    JSON it is sent as ([types/order.go]). *)
From S2P Require Import Prelude BigMath Types Mongo Json Fixtures Orders.

Section codec.
Context `{EthCommon, Codecs, Big.Undefined}.

Definition opt_fields {A} (p : option A) (f : A → doc) : doc :=
  match p with Some a => f a | None => [] end.

(** [Order.GetBSON], the whole document of an insert or a replacement. *)
Definition Order_GetBSON {W} `{Runtime W} (o : Order) : M W doc :=
  id ← (if decide (o_ID o = "") then NewObjectId else mret (o_ID o));
  mret [("_id", BId id);
    ("userAddress", BStr (Address_Hex (o_UserAddress o)));
    ("exchangeAddress", BStr (Address_Hex (o_ExchangeAddress o)));
    ("baseToken", BStr (Address_Hex (o_BaseToken o)));
    ("quoteToken", BStr (Address_Hex (o_QuoteToken o)));
    ("status", BStr (o_Status o));
    ("side", BStr (o_Side o));
    ("hash", BStr (Hash_Hex (o_Hash o)));
    ("pricepoint", BStr (Big.Stringp (o_PricePoint o)));
    ("amount", BStr (Big.Stringp (o_Amount o)));
    ("filledAmount",
       BStr (match o_FilledAmount o with Some f => Big.String_Z f | None => "" end));
    ("nonce", BStr (Big.Stringp (o_Nonce o)));
    ("makeFee", BStr (Big.Stringp (o_MakeFee o)));
    ("takeFee", BStr (Big.Stringp (o_TakeFee o)));
    ("signature",
       match o_Signature o with Some s => Signature_bson s | None => BNull end);
    ("pairName", BStr (o_PairName o));
    ("createdAt", bson_of_time (o_CreatedAt o));
    ("updatedAt", bson_of_time (o_UpdatedAt o))].

(** The [$set] of [OrderBSONUpdate]. *)
Definition order_set (o : Order) (now : Z) : doc :=
  [("pairName", BStr (o_PairName o));
   ("exchangeAddress", BStr (Address_Hex (o_ExchangeAddress o)));
   ("userAddress", BStr (Address_Hex (o_UserAddress o)));
   ("baseToken", BStr (Address_Hex (o_BaseToken o)));
   ("quoteToken", BStr (Address_Hex (o_QuoteToken o)));
   ("status", BStr (o_Status o));
   ("side", BStr (o_Side o));
   ("pricepoint", BStr (Big.Stringp (o_PricePoint o)));
   ("amount", BStr (Big.Stringp (o_Amount o)));
   ("nonce", BStr (Big.Stringp (o_Nonce o)));
   ("makeFee", BStr (Big.Stringp (o_MakeFee o)));
   ("takeFee", BStr (Big.Stringp (o_TakeFee o)));
   ("updatedAt", bson_of_time now)] ++
  opt_fields (o_FilledAmount o) (λ f, [("filledAmount", BStr (Big.String_Z f))]) ++
  opt_fields (o_Signature o) (λ s, [("signature", Signature_bson s)]).

Definition OrderBSONUpdate_GetBSON {W} `{Runtime W} (o : Order) : M W update :=
  now ← Now;
  id ← NewObjectId;
  mret (USet (order_set o now)
    [("_id", BId id); ("hash", BStr (Hash_Hex (o_Hash o)));
     ("createdAt", bson_of_time now)]).

(** [Order.SetBSON] on a fresh order.  [FilledAmount] is set even from a
    missing field; the other two amounts are not. *)
Definition Order_SetBSON (d : doc) : outcome Order :=
  id ← bson_id "_id" d;
  pairName ← bson_string "pairName" d;
  exchangeAddress ← bson_string "exchangeAddress" d;
  userAddress ← bson_string "userAddress" d;
  baseToken ← bson_string "baseToken" d;
  quoteToken ← bson_string "quoteToken" d;
  status ← bson_string "status" d;
  side ← bson_string "side" d;
  hash ← bson_string "hash" d;
  pricepoint ← bson_string "pricepoint" d;
  amount ← bson_string "amount" d;
  filledAmount ← bson_string "filledAmount" d;
  nonce ← bson_string "nonce" d;
  makeFee ← bson_string "makeFee" d;
  takeFee ← bson_string "takeFee" d;
  signature ← bson_signature "signature" d;
  createdAt ← bson_time "createdAt" d;
  updatedAt ← bson_time "updatedAt" d;
  Ok (mkOrder id (HexToAddress userAddress) (HexToAddress exchangeAddress)
        (HexToAddress baseToken) (HexToAddress quoteToken) status side
        (HexToHash hash) signature
        (if decide (pricepoint = "") then None else Some (ToBigInt pricepoint))
        (if decide (amount = "") then None else Some (ToBigInt amount))
        (Some (ToBigInt filledAmount)) (Some (ToBigInt nonce))
        (Some (ToBigInt makeFee)) (Some (ToBigInt takeFee))
        pairName createdAt updatedAt).

(** ** JSON *)
Definition opt_jfields {A} (p : option A) (f : A → jmap) : jmap :=
  match p with Some a => f a | None => [] end.

(** The hash is always written: [Hex] is never empty. *)
Definition Order_MarshalJSON (o : Order) : json :=
  JObj ([("exchangeAddress", JStr (Address_Text (o_ExchangeAddress o)));
    ("userAddress", JStr (Address_Text (o_UserAddress o)));
    ("baseToken", JStr (Address_Text (o_BaseToken o)));
    ("quoteToken", JStr (Address_Text (o_QuoteToken o)));
    ("side", JStr (o_Side o));
    ("status", JStr (o_Status o));
    ("pairName", JStr (o_PairName o));
    ("amount", JStr (Big.Stringp (o_Amount o)));
    ("pricepoint", JStr (Big.Stringp (o_PricePoint o)));
    ("makeFee", JStr (Big.Stringp (o_MakeFee o)));
    ("takeFee", JStr (Big.Stringp (o_TakeFee o)));
    ("createdAt", JStr (Format_RFC3339Nano (o_CreatedAt o)))] ++
  opt_jfields (o_FilledAmount o) (λ f, [("filledAmount", JStr (Big.String_Z f))]) ++
  (if decide (Hash_Hex (o_Hash o) = "") then []
   else [("hash", JStr (Hash_Hex (o_Hash o)))]) ++
  opt_jfields (o_Nonce o) (λ n, [("nonce", JStr (Big.String_Z n))]) ++
  opt_jfields (o_Signature o) (λ s, [("signature", Signature_json s)])).

(** [Order.UnmarshalJSON] into the order [o]. *)
Definition Order_UnmarshalJSON (j : json) (o : Order) : outcome Order :=
  m ← unmarshal_map j;
  id ← set_string "id" m (o_ID o)
         (λ s, if IsObjectIdHex s then ObjectIdHex s else o_ID o);
  pairName ← set_string "pairName" m (o_PairName o) (λ s, s);
  exchangeAddress ← set_string "exchangeAddress" m (o_ExchangeAddress o) HexToAddress;
  userAddress ← set_string "userAddress" m (o_UserAddress o) HexToAddress;
  baseToken ← set_string "baseToken" m (o_BaseToken o) HexToAddress;
  quoteToken ← set_string "quoteToken" m (o_QuoteToken o) HexToAddress;
  pricepoint ← set_string "pricepoint" m (o_PricePoint o) (Some ∘ ToBigInt);
  amount ← set_string "amount" m (o_Amount o) (Some ∘ ToBigInt);
  filledAmount ← set_string "filledAmount" m (o_FilledAmount o) (Some ∘ ToBigInt);
  nonce ← set_string "nonce" m (o_Nonce o) (Some ∘ ToBigInt);
  makeFee ← set_string "makeFee" m (o_MakeFee o) (Some ∘ ToBigInt);
  takeFee ← set_string "takeFee" m (o_TakeFee o) (Some ∘ ToBigInt);
  hash ← set_string "hash" m (o_Hash o) HexToHash;
  side ← set_string "side" m (o_Side o) (λ s, s);
  status ← set_string "status" m (o_Status o) (λ s, s);
  signature ← match jget "signature" m with
              | None => Ok (o_Signature o)
              | Some v => Some <$> signature_of_json v
              end;
  createdAt ← set_string "createdAt" m (o_CreatedAt o) Parse_RFC3339Nano;
  updatedAt ← set_string "updatedAt" m (o_UpdatedAt o) Parse_RFC3339Nano;
  Ok (mkOrder id userAddress exchangeAddress baseToken quoteToken status side hash
        signature pricepoint amount filledAmount nonce makeFee takeFee pairName
        createdAt updatedAt).

(** [&types.Order{}] *)
Definition zero_Order : Order :=
  mkOrder "" 0 0 0 0 "" "" 0 None None None None None None None "" 0 0.
End codec.

(** ** Which orders survive the encodings *)

(** Every pointer is set and the signature's [V] is a byte: an order the
    validation of [types/order.go] let through. *)
Record complete (o : Order) : Prop := {
  has_amount : is_Some (o_Amount o);
  has_filled : is_Some (o_FilledAmount o);
  has_price : is_Some (o_PricePoint o);
  has_nonce : is_Some (o_Nonce o);
  has_makeFee : is_Some (o_MakeFee o);
  has_takeFee : is_Some (o_TakeFee o);
  has_signature : ∃ s, o_Signature o = Some s ∧ 0 ≤ sig_V s < 256
}.

Definition complete_dec (o : Order) : Decision (complete o).
Proof.
  refine (match o_Signature o as x return o_Signature o = x → _ with
          | Some s => λ Hs, cast_if (decide (is_Some (o_Amount o) ∧ is_Some (o_FilledAmount o) ∧
              is_Some (o_PricePoint o) ∧ is_Some (o_Nonce o) ∧ is_Some (o_MakeFee o) ∧
              is_Some (o_TakeFee o) ∧ 0 ≤ sig_V s < 256))
          | None => λ Hs, right _ end eq_refl).
  - destruct_and?. constructor; eauto.
  - intros [? ? ? ? ? ? (?&?&?)]; simplify_eq. tauto.
  - intros [? ? ? ? ? ? (?&?&?)]; simplify_eq.
Defined.
#[export] Existing Instance complete_dec.

Section facts.
Context `{EthCommonLaws} `{!Codecs, !CodecLaws _ _} `{Big.Undefined}.

(** The document [GetBSON] makes of an order with an identifier. *)
Definition order_bson (o : Order) : doc :=
  (("_id", BId (o_ID o)) :: 
   [("userAddress", BStr (Address_Hex (o_UserAddress o)));
    ("exchangeAddress", BStr (Address_Hex (o_ExchangeAddress o)));
    ("baseToken", BStr (Address_Hex (o_BaseToken o)));
    ("quoteToken", BStr (Address_Hex (o_QuoteToken o)));
    ("status", BStr (o_Status o));
    ("side", BStr (o_Side o));
    ("hash", BStr (Hash_Hex (o_Hash o)));
    ("pricepoint", BStr (Big.Stringp (o_PricePoint o)));
    ("amount", BStr (Big.Stringp (o_Amount o)));
    ("filledAmount", BStr (Big.Stringp (o_FilledAmount o)));
    ("nonce", BStr (Big.Stringp (o_Nonce o)));
    ("makeFee", BStr (Big.Stringp (o_MakeFee o)));
    ("takeFee", BStr (Big.Stringp (o_TakeFee o)));
    ("signature",
       match o_Signature o with Some s => Signature_bson s | None => BNull end);
    ("pairName", BStr (o_PairName o));
    ("createdAt", bson_of_time (o_CreatedAt o));
    ("updatedAt", bson_of_time (o_UpdatedAt o))]).

(** [d] stores [o]: it has the fields of [o]'s encoding, in any order and
    possibly among others. *)
Definition stores (o : Order) (d : doc) : Prop :=
  complete o ∧ o_CreatedAt o = truncate_ms (o_CreatedAt o) ∧
  o_UpdatedAt o = truncate_ms (o_UpdatedAt o) ∧
  Forall (λ kv, field kv.1 d = Some kv.2) (order_bson o).

Lemma bson_time_of k d t :
  field k d = Some (bson_of_time t) → bson_time k d = Ok (truncate_ms t).
Proof. unfold bson_time. by intros ->. Qed.

Lemma bson_string_of k d s : field k d = Some (BStr s) → bson_string k d = Ok s.
Proof. unfold bson_string. by intros ->. Qed.

Lemma bson_signature_of k d s :
  field k d = Some (Signature_bson s) → 0 ≤ sig_V s < 256 →
  bson_signature k d = Ok (Some s).
Proof.
  unfold bson_signature, Signature_bson, bson_int, bson_string. intros -> Hv. simpl.
  rewrite !HexToHash_Hex, Z.mod_small by lia. by destruct s.
Qed.

Lemma ToBigInt_Stringp x : is_Some x → Some (ToBigInt (Big.Stringp x)) = x.
Proof. intros [z ->]. simpl. by rewrite ToBigInt_String_Z. Qed.

Lemma Stringp_not_empty x : is_Some x → Big.Stringp x ≠ "".
Proof. intros [z ->]. apply String_Z_not_empty. Qed.

(** Reading back what is stored. *)
Lemma stores_decode o d : stores o d → Order_SetBSON d = Ok o.
Proof.
  intros (Hc & Ht & Hu & Hd).
  unfold order_bson in Hd. rewrite !Forall_cons in Hd. destruct_and?. simpl in *.
  destruct (has_signature _ Hc) as (sg & Hs & Hv). rewrite Hs in *.
  unfold Order_SetBSON, bson_id.
  repeat match goal with H : field ?k d = Some _ |- context [field ?k d] => rewrite H end.
  repeat erewrite bson_string_of by eassumption.
  erewrite bson_signature_of by eassumption.
  repeat erewrite bson_time_of by eassumption. simpl.
  rewrite !HexToAddress_Hex, HexToHash_Hex, !decide_False, !ToBigInt_Stringp, <-Hs, <-Ht, <-Hu
    by (first [by apply Hc|apply Stringp_not_empty; by apply Hc]).
  by destruct o.
Qed.

#[local] Arguments order_set : simpl never.

(** What an update of a stored order by [o] leaves: [o] under the identifier,
    the hash and the creation time of the stored order. *)
Definition merge_order (old o : Order) (now : Z) : Order :=
  mkOrder (o_ID old) (o_UserAddress o) (o_ExchangeAddress o) (o_BaseToken o)
    (o_QuoteToken o) (o_Status o) (o_Side o) (o_Hash old) (o_Signature o)
    (o_PricePoint o) (o_Amount o) (o_FilledAmount o) (o_Nonce o) (o_MakeFee o)
    (o_TakeFee o) (o_PairName o) (o_CreatedAt old) (truncate_ms now).

Lemma truncate_ms_idem t : truncate_ms t = truncate_ms (truncate_ms t).
Proof. unfold truncate_ms. by rewrite Z.div_mul. Qed.

Lemma bson_of_truncate t : bson_of_time (truncate_ms t) = bson_of_time t.
Proof. unfold bson_of_time, truncate_ms. by rewrite Z.div_mul. Qed.

Lemma complete_merge old o now : complete o → complete (merge_order old o now).
Proof. intros []. by constructor. Qed.

Lemma stores_update old o now d :
  stores old d → complete o →
  stores (merge_order old o now) (set_fields (order_set o now) d).
Proof.
  intros (Hc & Ht & Hu & Hd) Ho. split_and!; [by apply complete_merge|done| |].
  { apply truncate_ms_idem. }
  unfold order_bson in Hd. rewrite !Forall_cons in Hd. destruct_and?.
  destruct (has_signature _ Ho) as (sg & Hs & Hv).
  destruct (has_filled _ Ho) as [f Hf].
  assert (∀ k v, field k (order_set o now ++ d) = Some v →
            field k (set_fields (order_set o now) d) = Some v) as Hk.
  { intros k v. rewrite field_app, field_set_fields. done. }
  revert Hk. generalize (set_fields (order_set o now) d). intros d' Hk.
  unfold order_bson, merge_order.
  repeat (apply Forall_cons_2; [|]); [..|apply Forall_nil_2];
    simpl; apply Hk; unfold order_set, opt_fields; rewrite Hs, Hf; simpl;
    rewrite ?bson_of_truncate; first [assumption|reflexivity].
Qed.

(** The document an upsert inserts for an order that is not stored. *)
Lemma stores_insert o id now d :
  complete o →
  inserted (Some (upsert_doc (Fields [("hash", Equal (BStr (Hash_Hex (o_Hash o))))])
    (USet (order_set o now)
       [("_id", BId id); ("hash", BStr (Hash_Hex (o_Hash o)));
        ("createdAt", bson_of_time now)]))) d →
  stores (merge_order (set_o_ID id (set_o_CreatedAt (truncate_ms now) o)) o now) d.
Proof.
  intros Ho Hd. split_and!; [by apply complete_merge|apply truncate_ms_idem..|].
  destruct (has_signature _ Ho) as (sg & Hs & Hv).
  destruct (has_filled _ Ho) as [f Hf].
  set (ins := [("_id", _); _; _]) in Hd.
  assert (∀ k v, field k (order_set o now ++ ins) = Some v → field k d = Some v) as Hk.
  { intros k v Hkv.
    set (u := upsert_doc _ _) in Hd. assert (field k u = Some v) as Hu.
    { unfold u, upsert_doc. rewrite !field_set_fields. rewrite field_app in Hkv.
      destruct (field k (order_set o now)); [done|]. by rewrite Hkv. }
    specialize (Hd k). change (default [] (Some u)) with u in Hd. rewrite Hd; eauto. }
  clear Hd. unfold order_bson, merge_order.
  repeat (apply Forall_cons_2; [|]); [..|apply Forall_nil_2];
    simpl; apply Hk; unfold order_set, opt_fields; rewrite Hs, Hf; simpl;
    rewrite ?bson_of_truncate; reflexivity.
Qed.

(** The fields a query reads of a stored order. *)
Lemma stores_field o d k v : stores o d → (k, v) ∈ order_bson o → field k d = Some v.
Proof. intros (_&_&_&Hd) Hk. by apply (proj1 (Forall_forall _ _) Hd) in Hk. Qed.

(** A [$set] of some fields stores the order with those fields. *)
Lemma stores_set o o' kvs d :
  stores o d → complete o' →
  o_CreatedAt o' = truncate_ms (o_CreatedAt o') →
  o_UpdatedAt o' = truncate_ms (o_UpdatedAt o') →
  (∀ d', (∀ k v, field k (kvs ++ d) = Some v → field k d' = Some v) →
     Forall (λ kv, field kv.1 d = Some kv.2) (order_bson o) →
     Forall (λ kv, field kv.1 d' = Some kv.2) (order_bson o')) →
  stores o' (set_fields kvs d).
Proof.
  intros (Hc & Ht & Hu & Hd) Hc' Ht' Hu' Hf. split_and!; [done..|].
  apply Hf; [|done]. intros k v. by rewrite field_app, field_set_fields.
Qed.

Ltac solve_fields :=
  let d' := fresh "d'" in let Hk := fresh "Hk" in let Hd := fresh "Hd" in
  intros d' Hk Hd; unfold order_bson in Hd; rewrite !Forall_cons in Hd; destruct_and?;
  unfold order_bson;
  repeat (apply Forall_cons_2; [|]); [..|apply Forall_nil_2];
  simpl; apply Hk; simpl; rewrite ?bson_of_truncate; first [assumption|reflexivity].

Lemma stores_set_status st o d :
  stores o d → stores (set_o_Status st o) (set_fields [("status", BStr st)] d).
Proof.
  intros Hs. pose proof Hs as ([]&Ht&Hu&_).
  apply (stores_set o); [done|by constructor|done|done|]. solve_fields.
Qed.

Lemma stores_set_updated t st o d :
  stores o d →
  stores (set_o_Status st (set_o_UpdatedAt (truncate_ms t) o))
    (set_fields [("updatedAt", bson_of_time t); ("status", BStr st)] d).
Proof.
  intros Hs. pose proof Hs as ([]&Ht&Hu&_).
  apply (stores_set o); [done|by constructor|done|apply truncate_ms_idem|].
  solve_fields.
Qed.

Lemma stores_set_filled st f o d :
  is_Some f → stores o d →
  stores (set_o_Status st (set_o_FilledAmount f o))
    (set_fields [("status", BStr st); ("filledAmount", BStr (Big.Stringp f))] d).
Proof.
  intros Hf Hs. pose proof Hs as ([]&Ht&Hu&_).
  apply (stores_set o); [done|by constructor|done|done|]. solve_fields.
Qed.
End facts.

(** ** Round trips *)

Lemma jfield_app k l l' :
  jfield k (l ++ l') = match jfield k l with Some v => Some v | None => jfield k l' end.
Proof. induction l as [|[k' v] l IH]; simpl; [done|]. by case_decide. Qed.

Lemma signature_json_roundtrip `{EthCommon, !Codecs, !CodecLaws _ _} s :
  0 ≤ sig_V s < 256 → signature_of_json (Signature_json s) = Ok s.
Proof.
  intros Hv. unfold signature_of_json, Signature_json, field_string. simpl.
  rewrite !HexToHash_Text, Z.mod_small by lia. by destruct s.
Qed.

(** Shared by the components that send orders. *)
Lemma Order_json_roundtrip' `{EthCommonLaws} `{!Codecs, !CodecLaws _ _} `{Big.Undefined} o :
  complete o →
  Order_UnmarshalJSON (Order_MarshalJSON o) zero_Order =
  Ok (set_o_ID "" (set_o_UpdatedAt 0 o)).
Proof.
  intros [[a Ha] [f Hf] [p Hp] [n Hn] [mf Hmf] [tf Htf] (s & Hs & Hv)].
  unfold Order_MarshalJSON. rewrite Ha, Hf, Hp, Hn, Hmf, Htf, Hs,
    decide_False by apply Hash_Hex_not_empty.
  unfold Order_UnmarshalJSON, set_string, jget, unmarshal_map. simpl.
  rewrite !HexToAddress_Text, HexToHash_Hex, !ToBigInt_String_Z, Parse_Format.
  unfold signature_of_json, field_string, jget. simpl.
  rewrite !HexToHash_Text, Z.mod_small by lia. simpl.
  destruct o; simpl in *; subst. destruct s. done.
Qed.

(** An order whose fields are all set survives the JSON encoding it travels
    in between the services and the engine, but for its database identifier and
    its update time, which are not sent. *)
Theorem Order_json_roundtrip `{EthCommonLaws} `{!Codecs, !CodecLaws _ _} `{Big.Undefined} o :
  complete o →
  Order_UnmarshalJSON (Order_MarshalJSON o) zero_Order =
  Ok (set_o_ID "" (set_o_UpdatedAt 0 o)).
Proof. apply Order_json_roundtrip'. Qed.

Lemma Order_json_roundtrip_witness :
  let _ := toy_eth in let _ := toy_codecs in let _ := toy_undefined in
  Order_UnmarshalJSON (Order_MarshalJSON (toy_order 1 0 5 10 3)) zero_Order =
  Ok (set_o_ID "" (set_o_UpdatedAt 0 (toy_order 1 0 5 10 3))).
Proof.
  intros E C U.
  apply (@Order_json_roundtrip toy_eth toy_eth_laws toy_codecs toy_codec_laws toy_undefined).
  constructor; by eexists.
Defined.

(** Decoding an order panics when a field the code expects as a string is
    sent as another JSON type, whichever fields come with it. *)
Theorem Order_json_panics `{EthCommon, Codecs, Big.Undefined} m v :
  jget "pairName" m = Some v → (∀ s, v ≠ JStr s) → jget "id" m = None →
  Order_UnmarshalJSON (JObj m) zero_Order = Panic.
Proof.
  intros Hk Hv Hid. unfold Order_UnmarshalJSON, set_string. simpl.
  rewrite Hid, Hk. simpl. destruct v; try done. by destruct (Hv s).
Qed.

Lemma Order_json_panics_witness :
  @Order_UnmarshalJSON toy_eth toy_codecs toy_undefined
    (JObj [("pairName", JNum 5); ("side", JStr "BUY")]) zero_Order = Panic.
Proof. apply (@Order_json_panics _ _ _ _ (JNum 5)); [reflexivity|discriminate|reflexivity]. Defined.
