(* ===== verification/Payloads.v ===== *)
(** [types.NewOrderPayload] ([types/payloads.go]): its JSON, its validation, its hash
    and the order it is converted to. *)
From S2P Require Import Prelude BigMath Types Mongo Json Fixtures Orders OrderCodec.

Record NewOrderPayload := mkNewOrderPayload {
  np_PairName : string;
  np_ExchangeAddress : Address;
  np_UserAddress : Address;
  np_BaseToken : Address;
  np_QuoteToken : Address;
  np_Side : string;
  np_Amount : option Z;
  np_PricePoint : option Z;
  np_TakeFee : option Z;
  np_MakeFee : option Z;
  np_Nonce : option Z;
  np_Signature : option Signature;
  np_Hash : Hash
}.
Definition zero_NewOrderPayload : NewOrderPayload :=
  mkNewOrderPayload "" 0 0 0 0 "" None None None None None None 0.

Module NewOrder.
Section payload.
Context `{EthCommon, Codecs, Big.Undefined}.

(** Without the two tokens; a nil signature panics. *)
Definition MarshalJSON (p : NewOrderPayload) : outcome json :=
  sig ← deref (np_Signature p);
  Ok (JObj [("pairName", JStr (np_PairName p));
    ("exchangeAddress", JStr (Address_Text (np_ExchangeAddress p)));
    ("userAddress", JStr (Address_Text (np_UserAddress p)));
    ("amount", JStr (Big.Stringp (np_Amount p)));
    ("pricepoint", JStr (Big.Stringp (np_PricePoint p)));
    ("side", JStr (np_Side p));
    ("takeFee", JStr (Big.Stringp (np_TakeFee p)));
    ("makeFee", JStr (Big.Stringp (np_MakeFee p)));
    ("nonce", JStr (Big.Stringp (np_Nonce p)));
    ("signature", JObj [("v", JNum (sig_V sig)); ("r", JStr (Hash_Text (sig_R sig)));
                        ("s", JStr (Hash_Text (sig_S sig)))]);
    ("hash", JStr (Hash_Text (np_Hash p)))]).

Definition payload_signature (v : json) : outcome Signature :=
  m ← as_map v;
  v' ← deref (jget "v" m); n ← as_num v';
  r ← field_string "r" m; s ← field_string "s" m;
  Ok (mkSignature (n `mod` 256) (HexToHash r) (HexToHash s)).
Definition UnmarshalJSON (j : json) (p : NewOrderPayload) : outcome NewOrderPayload :=
  m ← unmarshal_map j;
  pairName ← set_string "pairName" m (np_PairName p) (λ s, s);
  userAddress ← set_string "userAddress" m (np_UserAddress p) HexToAddress;
  exchangeAddress ← set_string "exchangeAddress" m (np_ExchangeAddress p) HexToAddress;
  amount ← set_string "amount" m (np_Amount p) (Some ∘ ToBigInt);
  pricepoint ← set_string "pricepoint" m (np_PricePoint p) (Some ∘ ToBigInt);
  nonce ← set_string "nonce" m (np_Nonce p) (Some ∘ ToBigInt);
  makeFee ← set_string "makeFee" m (np_MakeFee p) (Some ∘ ToBigInt);
  takeFee ← set_string "takeFee" m (np_TakeFee p) (Some ∘ ToBigInt);
  side ← set_string "side" m (np_Side p) (λ s, s);
  signature ← match jget "signature" m with
              | None => Ok (np_Signature p)
              | Some v => Some <$> payload_signature v
              end;
  hash ← set_string "hash" m (np_Hash p) HexToHash;
  Ok (mkNewOrderPayload pairName exchangeAddress userAddress (np_BaseToken p) (np_QuoteToken p)
        side amount pricepoint takeFee makeFee nonce signature hash).

(** An address is never blank. *)
Definition Validate (p : NewOrderPayload) : outcome unit :=
  ValidateStruct [("amount", is_nil (np_Amount p)); ("pricepoint", is_nil (np_PricePoint p));
                  ("side", bool_decide (np_Side p = ""))].

Definition EncodedSide (p : NewOrderPayload) : Z := if decide (np_Side p = "BUY") then 0 else 1.

(** A nil integer panics. *)
Definition ComputeHash (p : NewOrderPayload) : outcome Hash :=
  amount ← deref (np_Amount p);
  pricepoint ← deref (np_PricePoint p);
  nonce ← deref (np_Nonce p);
  takeFee ← deref (np_TakeFee p);
  makeFee ← deref (np_MakeFee p);
  Ok (Keccak256 (Address_Bytes (np_ExchangeAddress p) ++ Address_Bytes (np_UserAddress p) ++
      Address_Bytes (np_BaseToken p) ++ Address_Bytes (np_QuoteToken p) ++
      Hash_Bytes (BigToHash amount) ++ Hash_Bytes (BigToHash pricepoint) ++
      Hash_Bytes (BigToHash (EncodedSide p)) ++ Hash_Bytes (BigToHash nonce) ++
      Hash_Bytes (BigToHash takeFee) ++ Hash_Bytes (BigToHash makeFee))).

(** Neither the exchange's address nor the pair's name is taken over. *)
Definition ToOrder (p : NewOrderPayload) : outcome Order :=
  Validate p ;;
  hash ← ComputeHash p;
  Ok (mkOrder "" (np_UserAddress p) 0 (np_BaseToken p) (np_QuoteToken p) "" (np_Side p) hash
        (np_Signature p) (np_PricePoint p) (np_Amount p) None (np_Nonce p) (np_MakeFee p)
        (np_TakeFee p) "" 0 0).

(** Sets the hash before it looks at the signature. *)
Definition VerifySignature : M NewOrderPayload bool :=
  p ← get;
  h ← lift (ComputeHash p);
  put (mkNewOrderPayload (np_PairName p) (np_ExchangeAddress p) (np_UserAddress p) (np_BaseToken p)
         (np_QuoteToken p) (np_Side p) (np_Amount p) (np_PricePoint p) (np_TakeFee p) (np_MakeFee p)
         (np_Nonce p) (np_Signature p) h) ;;
  sig ← lift (deref (np_Signature p));
  address ← lift (Sig.Verify sig (signed_message h));
  lift (reject_if (bool_decide (address ≠ np_UserAddress p)) "Recovered address is incorrect") ;;
  mret true.
End payload.

(** ** What becomes of a payload *)
Section props.
Context `{EthCommonLaws, !Codecs, !CodecLaws _ _, Big.Undefined}.

(** Its tokens do not survive its own encoding; all else does. *)
Theorem json_loses_tokens p sig :
  np_Signature p = Some sig → 0 <= sig_V sig < 256 →
  is_Some (np_Amount p) → is_Some (np_PricePoint p) → is_Some (np_TakeFee p) →
  is_Some (np_MakeFee p) → is_Some (np_Nonce p) →
  (j ← MarshalJSON p; UnmarshalJSON j zero_NewOrderPayload) =
  Ok (mkNewOrderPayload (np_PairName p) (np_ExchangeAddress p) (np_UserAddress p) 0 0 (np_Side p)
        (np_Amount p) (np_PricePoint p) (np_TakeFee p) (np_MakeFee p) (np_Nonce p) (np_Signature p)
        (np_Hash p)).
Proof.
  intros Hs Hv Ha Hp Ht Hm Hn. unfold MarshalJSON. rewrite Hs. cbn.
  unfold UnmarshalJSON, set_string, payload_signature, field_string, jget. cbn -[String.eqb]. simpl.
  rewrite !HexToHash_Text, !HexToAddress_Text, Z.mod_small, !ToBigInt_Stringp by done. by destruct sig.
Qed.

(** The hash is that of the order with the same fields. *)
Lemma ComputeHash_order p o :
  o_ExchangeAddress o = np_ExchangeAddress p → o_UserAddress o = np_UserAddress p →
  o_BaseToken o = np_BaseToken p → o_QuoteToken o = np_QuoteToken p → o_Side o = np_Side p →
  o_Amount o = np_Amount p → o_PricePoint o = np_PricePoint p → o_Nonce o = np_Nonce p →
  o_TakeFee o = np_TakeFee p → o_MakeFee o = np_MakeFee p → ComputeHash p = Order_ComputeHash o.
Proof.
  intros E1 E2 E3 E4 E5 E6 E7 E8 E9 E10.
  unfold ComputeHash, Order_ComputeHash, Order_preimage, EncodedSide, Orders.EncodedSide.
  rewrite E1, E2, E3, E4, E5, E6, E7, E8, E9, E10.
  destruct (np_Amount p), (np_PricePoint p), (np_Nonce p), (np_TakeFee p), (np_MakeFee p); done.
Qed.

(** The order of a payload has no exchange, so that [Order.Validate] refuses it. *)
Theorem ToOrder_refused `{AppConfig} p o :
  ToOrder p = Ok o → HexToAddress exchange_address ≠ 0 →
  Validate_fields o = Err "Order 'exchangeAddress' parameter is incorrect" ∧
  ComputeHash p = Ok (o_Hash o).
Proof.
  unfold ToOrder. intros Ho He. destruct (Validate p) as [[]|e|]; [|done..].
  destruct (ComputeHash p) as [h|e|]; [|done..]. injection Ho as <-.
  split; [|done]. unfold Validate_fields. cbn [o_ExchangeAddress].
  rewrite (bool_decide_true (0 ≠ HexToAddress exchange_address)) by (intros E; by apply He). done.
Qed.
End props.
End NewOrder.
