(* ===== verification/TradeCodec.v ===== *)
(** The encodings of [types.Trade] ([types/trade.go]), of [types.Matches] and of
    the messages that carry them. *)
From S2P Require Import Prelude BigMath Types Mongo Json Fixtures Orders MatchTypes OrderCodec.

(** [fmt.Sprintf("%v", x)] of a JSON value that is not a string. *)
Class Sprint := sprint : json → string.

Section codec.
Context `{EthCommon, Codecs, Big.Undefined, Sprint}.

(** [Trade.GetBSON]: the side and the signature are not stored. *)
Definition Trade_GetBSON (t : Trade) : doc :=
  [("_id", BId (t_ID t));
   ("taker", BStr (Address_Hex (t_Taker t)));
   ("maker", BStr (Address_Hex (t_Maker t)));
   ("baseToken", BStr (Address_Hex (t_BaseToken t)));
   ("quoteToken", BStr (Address_Hex (t_QuoteToken t)));
   ("makerOrderHash", BStr (Hash_Hex (t_MakerOrderHash t)));
   ("takerOrderHash", BStr (Hash_Hex (t_TakerOrderHash t)));
   ("hash", BStr (Hash_Hex (t_Hash t)));
   ("txHash", BStr (Hash_Hex (t_TxHash t)));
   ("pairName", BStr (t_PairName t));
   ("createdAt", bson_of_time (t_CreatedAt t));
   ("updatedAt", bson_of_time (t_UpdatedAt t));
   ("pricepoint", BStr (Big.Stringp (t_PricePoint t)));
   ("amount", BStr (Big.Stringp (t_Amount t)));
   ("status", BStr (t_Status t))].

Definition Trade_SetBSON (d : doc) : outcome Trade :=
  id ← bson_id "_id" d;
  pairName ← bson_string "pairName" d;
  taker ← bson_string "taker" d;
  maker ← bson_string "maker" d;
  baseToken ← bson_string "baseToken" d;
  quoteToken ← bson_string "quoteToken" d;
  makerOrderHash ← bson_string "makerOrderHash" d;
  takerOrderHash ← bson_string "takerOrderHash" d;
  hash ← bson_string "hash" d;
  txHash ← bson_string "txHash" d;
  createdAt ← bson_time "createdAt" d;
  updatedAt ← bson_time "updatedAt" d;
  pricepoint ← bson_string "pricepoint" d;
  status ← bson_string "status" d;
  amount ← bson_string "amount" d;
  Ok {| t_ID := id; t_Taker := HexToAddress taker; t_Maker := HexToAddress maker;
        t_BaseToken := HexToAddress baseToken; t_QuoteToken := HexToAddress quoteToken;
        t_MakerOrderHash := HexToHash makerOrderHash;
        t_TakerOrderHash := HexToHash takerOrderHash;
        t_Hash := HexToHash hash; t_Side := ""; t_Signature := None;
        t_TxHash := HexToHash txHash; t_PairName := pairName;
        t_CreatedAt := createdAt; t_UpdatedAt := updatedAt;
        t_PricePoint := Some (ToBigInt pricepoint); t_Status := status;
        t_Amount := Some (ToBigInt amount) |}.

(** The [$set] of [TradeBSONUpdate]: it leaves [updatedAt] alone. *)
Definition trade_set (t : Trade) : doc :=
  [("taker", BStr (Address_Hex (t_Taker t)));
   ("maker", BStr (Address_Hex (t_Maker t)));
   ("baseToken", BStr (Address_Hex (t_BaseToken t)));
   ("quoteToken", BStr (Address_Hex (t_QuoteToken t)));
   ("makerOrderHash", BStr (Hash_Hex (t_MakerOrderHash t)));
   ("takerOrderHash", BStr (Hash_Hex (t_TakerOrderHash t)));
   ("txHash", BStr (Hash_Hex (t_TxHash t)));
   ("pairName", BStr (t_PairName t));
   ("status", BStr (t_Status t))] ++
  opt_fields (t_PricePoint t) (λ p, [("pricepoint", BStr (Big.String_Z p))]) ++
  opt_fields (t_Amount t) (λ a, [("amount", BStr (Big.String_Z a))]).

Definition TradeBSONUpdate_GetBSON {W} `{Runtime W} (t : Trade) : M W update :=
  now ← Now;
  id ← NewObjectId;
  mret (USet (trade_set t)
    [("_id", BId id); ("hash", BStr (Hash_Hex (t_Hash t)));
     ("createdAt", bson_of_time now)]).

(** ** JSON *)

(** [if (x != common.Address{})] or [common.Hash{}] *)
Definition unless_zero (x : Z) (f : jmap) : jmap := if decide (x = 0) then [] else f.

Definition Trade_MarshalJSON (t : Trade) : json :=
  JObj ([("taker", JStr (Address_Text (t_Taker t)));
    ("maker", JStr (Address_Text (t_Maker t)));
    ("status", JStr (t_Status t));
    ("hash", JStr (Hash_Text (t_Hash t)));
    ("pairName", JStr (t_PairName t));
    ("pricepoint", JStr (Big.Stringp (t_PricePoint t)));
    ("amount", JStr (Big.Stringp (t_Amount t)));
    ("createdAt", JStr (Format_RFC3339Nano (t_CreatedAt t)))] ++
  unless_zero (t_BaseToken t) [("baseToken", JStr (Address_Hex (t_BaseToken t)))] ++
  unless_zero (t_QuoteToken t) [("quoteToken", JStr (Address_Hex (t_QuoteToken t)))] ++
  unless_zero (t_TxHash t) [("txHash", JStr (Hash_Hex (t_TxHash t)))] ++
  unless_zero (t_TakerOrderHash t)
    [("takerOrderHash", JStr (Hash_Hex (t_TakerOrderHash t)))] ++
  unless_zero (t_MakerOrderHash t)
    [("makerOrderHash", JStr (Hash_Hex (t_MakerOrderHash t)))]).

(** [if m[k] == nil { return errors.New(e) }; x = f(m[k'].(string))]: the two
    keys differ for the maker and the taker. *)
Definition required {A} (k k' : string) (e : error) (m : jmap) (f : string → A) : outcome A :=
  match jget k m with
  | None => Err e
  | Some _ => f <$> field_string k' m
  end.

Definition sprintv (v : json) : string := match v with JStr s => s | _ => sprint v end.

(** [big.Int.UnmarshalJSON] of a numeral, whose error the code drops; a text
    that is not a decimal numeral is left unspecified. *)
Definition big_UnmarshalJSON (s : string) : Z :=
  match Big.SetString s with
  | Some z => if decide (Big.String_Z z = s) then z else Big.undefined s
  | None => Big.undefined s
  end.

Definition Trade_UnmarshalJSON (j : json) (t : Trade) : outcome Trade :=
  m ← unmarshal_map j;
  makerOrderHash ← required "makerOrderHash" "makerOrderHash" "Order Hash is not set" m HexToHash;
  takerOrderHash ← set_string "takerOrderHash" m (t_TakerOrderHash t) HexToHash;
  hash ← required "hash" "hash" "Hash is not set" m HexToHash;
  quoteToken ← required "quoteToken" "quoteToken" "Quote token is not set" m HexToAddress;
  baseToken ← required "baseToken" "baseToken" "Base token is not set" m HexToAddress;
  taker ← required "maker" "taker" "Maker is not set" m HexToAddress;
  maker ← required "taker" "maker" "Taker is not set" m HexToAddress;
  id ← set_string "id" m (t_ID t) (λ s, if IsObjectIdHex s then ObjectIdHex s else t_ID t);
  txHash ← set_string "txHash" m (t_TxHash t) HexToHash;
  pairName ← set_string "pairName" m (t_PairName t) (λ s, s);
  status ← set_string "status" m (t_Status t) (λ s, s);
  let pricepoint := match jget "pricepoint" m with
                    | Some v => Some (ToBigInt (sprintv v)) | None => t_PricePoint t end in
  let amount := match jget "amount" m with
                | Some v => Some (big_UnmarshalJSON (sprintv v)) | None => t_Amount t end in
  createdAt ← set_string "createdAt" m (t_CreatedAt t) Parse_RFC3339Nano;
  Ok {| t_ID := id; t_Taker := taker; t_Maker := maker; t_BaseToken := baseToken;
        t_QuoteToken := quoteToken; t_MakerOrderHash := makerOrderHash;
        t_TakerOrderHash := takerOrderHash; t_Hash := hash; t_Side := t_Side t;
        t_Signature := t_Signature t; t_TxHash := txHash; t_PairName := pairName;
        t_CreatedAt := createdAt; t_UpdatedAt := t_UpdatedAt t;
        t_PricePoint := pricepoint; t_Status := status; t_Amount := amount |}.

(** [&types.Trade{}] *)
Definition zero_Trade : Trade :=
  mkTrade "" 0 0 0 0 0 0 0 "" None 0 "" 0 0 None "" None.

(** ** Matches, as [json.Marshal] and [json.Unmarshal] treat the struct *)
Definition json_pointer {A} (f : A → json) (p : option A) : json :=
  match p with Some a => f a | None => JNull end.

Definition Matches_MarshalJSON (m : Matches) : json :=
  JObj [("makerOrders", JArr (json_pointer Order_MarshalJSON <$> MakerOrders m));
        ("takerOrder", json_pointer Order_MarshalJSON (TakerOrder m));
        ("trades", JArr (json_pointer Trade_MarshalJSON <$> Trades m))].

Definition unjson_pointer {A} (f : json → outcome A) (j : json) : outcome (option A) :=
  match j with JNull => Ok None | _ => Some <$> f j end.
Fixpoint unjson_list {A} (f : json → outcome A) (l : list json) : outcome (list A) :=
  match l with
  | [] => Ok []
  | j :: l' => a ← f j; r ← unjson_list f l'; Ok (a :: r)
  end.
Definition unjson_slice {A} (f : json → outcome A) (v : option json) : outcome (list A) :=
  match v with
  | None => Ok []
  | Some (JArr l) => unjson_list f l
  | Some _ => Err "json: cannot unmarshal into Go value of type []"
  end.

Definition Matches_UnmarshalJSON (j : json) : outcome Matches :=
  m ← unmarshal_map j;
  makers ← unjson_slice (unjson_pointer (λ j, Order_UnmarshalJSON j zero_Order))
             (jget "makerOrders" m);
  taker ← unjson_pointer (λ j, Order_UnmarshalJSON j zero_Order)
             (default JNull (jget "takerOrder" m));
  trades ← unjson_slice (unjson_pointer (λ j, Trade_UnmarshalJSON j zero_Trade))
             (jget "trades" m);
  Ok (mkMatches makers taker trades).
End codec.

(** ** Round trips *)

Lemma big_UnmarshalJSON_String `{Big.Undefined} x : big_UnmarshalJSON (Big.String_Z x) = x.
Proof. unfold big_UnmarshalJSON. by rewrite SetString_String_Z, decide_True. Qed.

(** What [Trade.MarshalJSON] sends of a trade. *)
Definition trade_sent (t : Trade) : Trade :=
  set_t_ID "" (set_t_UpdatedAt 0 (set_t_Signature None
    (mkTrade (t_ID t) (t_Taker t) (t_Maker t) (t_BaseToken t) (t_QuoteToken t)
       (t_MakerOrderHash t) (t_TakerOrderHash t) (t_Hash t) "" None (t_TxHash t)
       (t_PairName t) (t_CreatedAt t) (t_UpdatedAt t) (t_PricePoint t) (t_Status t)
       (t_Amount t)))).

(** A trade survives its JSON encoding (but for the fields that are not
    sent) exactly when its maker order hash and its two tokens are set; the
    checks of the taker on the maker's key and of the maker on the taker's key
    do no harm, since both keys are always sent. *)
Theorem Trade_json_roundtrip `{EthCommonLaws} `{!Codecs, !CodecLaws _ _} `{Big.Undefined, Sprint} t :
  is_Some (t_Amount t) → is_Some (t_PricePoint t) →
  Trade_UnmarshalJSON (Trade_MarshalJSON t) zero_Trade = Ok (trade_sent t) ↔
  t_MakerOrderHash t ≠ 0 ∧ t_BaseToken t ≠ 0 ∧ t_QuoteToken t ≠ 0.
Proof.
  intros [a Ha] [p Hp].
  unfold Trade_UnmarshalJSON, Trade_MarshalJSON, required, set_string, field_string, jget,
    trade_sent, unless_zero.
  rewrite Ha, Hp. destruct t; simpl in *.
  repeat case_decide; simpl; subst; try (split; [done|tauto]);
    rewrite ?HexToHash_Hex, ?HexToHash_Text, ?HexToAddress_Hex, ?HexToAddress_Text, ?Parse_Format,
      ?ToBigInt_String_Z, ?big_UnmarshalJSON_String; simpl; split; tauto.
Qed.

Lemma Trade_json_roundtrip_witness :
  let _ := toy_eth in let _ := toy_codecs in let _ := toy_undefined in
  let _ : Sprint := λ _, "" in
  let t := NewTrade (toy_order 1 1 5 10 3) (toy_order 2 0 6 10 3) (Some 4) (Some 3) in
  Trade_UnmarshalJSON (Trade_MarshalJSON t) zero_Trade = Ok (trade_sent t).
Proof.
  intros E C U Sp t.
  apply (@Trade_json_roundtrip toy_eth toy_eth_laws toy_codecs toy_codec_laws toy_undefined);
    [by eexists|by eexists|]. by vm_compute.
Defined.
