(* ===== verification/OrderDao.v ===== *)
(** [daos/order.go]: the order collection, over the driver of [Mongo]. *)
From S2P Require Import Prelude BigMath Types Orders Mongo Json OrderCodec.

(** A call that mutates its argument: the argument's final value comes back
    whether or not the call failed. *)
Definition returning {W A B} (b : B) (m : M W A) : M W (B * (error + A)) :=
  r ← attempt m; mret (b, r).
Lemma wp_returning {W A B} (b : B) (m : M W A) Q s :
  wp m (λ r s', match r with
                | Ok a => Q (Ok (b, inr a)) s'
                | Err e => Q (Ok (b, inl e)) s'
                | Panic => Q Panic s' end) s →
  wp (returning b m) Q s.
Proof. unfold wp, returning, attempt, mbind, M_bind. destruct (m s) as [[]]; done. Qed.

(** [x, err := ...; if err != nil { return err }] *)
Definition check {W A} (r : error + A) : M W A :=
  match r with inl e => fail e | inr a => mret a end.

(** Decoding every document of a result. *)
Fixpoint decode_all {A} (decode : doc → outcome A) (ds : list doc) : outcome (list A) :=
  match ds with
  | [] => Ok []
  | d :: ds' => a ← decode d; l ← decode_all decode ds'; Ok (a :: l)
  end.

Module OrderDao.
Section dao.
Context {W : Type} `{EthCommon, Big.Undefined, Decimals, Runtime W, Mongo W}.

(** [mgo.Index{Key: "hash", Unique: true}] of [NewOrderDao]. *)
Definition unique_index : list (list string) := [["hash"]].

Definition by_hash (h : Hash) : query := Fields [("hash", Equal (BStr (Hash_Hex h)))].
Definition hashes_in (hs : list Hash) : query :=
  Fields [("hash", In_ ((λ h, BStr (Hash_Hex h)) <$> hs))].
Definition open_statuses : list bval := [BStr "OPEN"; BStr "PARTIAL_FILLED"].

(** [db.Get] into a slice of orders. *)
Definition get_orders (q : query) (offset limit : nat) : M W (list Order) :=
  ds ← Find q [] offset limit; lift (decode_all Order_SetBSON ds).

Definition Create (o : Order) : M W (Order * (error + unit)) :=
  id ← NewObjectId;
  t1 ← Now;
  t2 ← Now;
  let o := set_o_UpdatedAt t2 (set_o_CreatedAt t1 (set_o_ID id o)) in
  let o := if decide (o_Status o = "") then set_o_Status "OPEN" o else o in
  d ← Order_GetBSON o;
  returning o (Insert [Some d]).

(** The hashes are sent as binary arrays here, not as the hexadecimal strings
    the documents hold. *)
Definition raw_hashes_in (hs : list Hash) : query :=
  Fields [("hash", In_ ((λ h, BBin (Hash_Bytes h)) <$> hs))].
Definition DeleteByHashes (hs : list Hash) : M W unit := RemoveMany (raw_hashes_in hs).
Definition Delete (os : list Order) : M W unit := RemoveMany (raw_hashes_in (o_Hash <$> os)).

Definition Update (id : string) (o : Order) : M W (Order * (error + unit)) :=
  t ← Now;
  let o := set_o_UpdatedAt t o in
  d ← Order_GetBSON o;
  returning o (UpdateOne (Fields [("_id", Equal (BId id))]) (UReplace d)).

Definition Upsert (id : string) (o : Order) : M W (Order * (error + unit)) :=
  t ← Now;
  let o := set_o_UpdatedAt t o in
  d ← Order_GetBSON o;
  returning o (UpsertOne (Fields [("_id", Equal (BId id))]) (UReplace d)).

Definition UpsertByHash (h : Hash) (o : Order) : M W unit :=
  u ← OrderBSONUpdate_GetBSON o; UpsertOne (by_hash h) u.

Definition UpdateAllByHash (h : Hash) (o : Order) : M W (Order * (error + unit)) :=
  t ← Now;
  let o := set_o_UpdatedAt t o in
  d ← Order_GetBSON o;
  returning o (UpdateOne (by_hash h) (UReplace d)).

Definition FindAndModify (h : Hash) (o : Order) : M W (Order * (error + Order)) :=
  t ← Now;
  let o := set_o_UpdatedAt t o in
  u ← OrderBSONUpdate_GetBSON o;
  returning o (d ← FindAndModifyDoc (by_hash h) u true; lift (Order_SetBSON d)).

Definition UpdateByHash (h : Hash) (o : Order) : M W (Order * (error + unit)) :=
  t ← Now;
  let o := set_o_UpdatedAt t o in
  returning o (UpdateOne (by_hash h) (USet
    [("pricepoint", BStr (Big.Stringp (o_PricePoint o)));
     ("amount", BStr (Big.Stringp (o_Amount o)));
     ("status", BStr (o_Status o));
     ("filledAmount", BStr (Big.Stringp (o_FilledAmount o)));
     ("makeFee", BStr (Big.Stringp (o_MakeFee o)));
     ("takeFee", BStr (Big.Stringp (o_TakeFee o)));
     ("updatedAt", bson_of_time (o_UpdatedAt o))] [])).

Definition UpdateOrderStatus (h : Hash) (status : string) : M W unit :=
  UpdateOne (by_hash h) (USet [("status", BStr status)] []).

(** A failing query is logged and the orders are nil, without an error. *)
Definition UpdateOrderStatusesByHashes (status : string) (hs : list Hash) :
    M W (list Order) :=
  t ← Now;
  r ← attempt (UpdateMany (hashes_in hs)
        (USet [("updatedAt", bson_of_time t); ("status", BStr status)] []));
  match r with
  | inl _ => mret []
  | inr _ =>
    r' ← attempt (get_orders (hashes_in hs) 0 0);
    mret (match r' with inl _ => [] | inr os => os end)
  end.

(** The status and filled amount an order gets from its new filled amount; the
    order's amount is only read when that is positive. *)
Definition new_filled (filled : Z) (o : Order) : outcome (string * option Z) :=
  if IsEqualOrSmallerThan filled 0 then Ok ("OPEN", Some 0)
  else
    a ← deref (o_Amount o);
    Ok (if IsEqualOrGreaterThan filled a then ("FILLED", Some a)
        else ("PARTIAL_FILLED", Some filled)).

Definition filled_update (status : string) (filled : option Z) : update :=
  USet [("status", BStr status); ("filledAmount", BStr (Big.Stringp filled))] [].

Definition UpdateOrderFilledAmount (h : Hash) (value : Z) : M W unit :=
  res ← get_orders (by_hash h) 0 1;
  o ← lift (deref (head res));
  f ← lift (deref (o_FilledAmount o));
  '(status, filled) ← lift (new_filled (Add f value) o);
  UpdateOne (by_hash h) (filled_update status filled).

Fixpoint update_filled_loop (os : list Order) (amounts : list (option Z)) :
    M W (list Order) :=
  match os with
  | [] => mret []
  | o :: os' =>
    f ← lift (deref (o_FilledAmount o));
    a ← lift (deref (mjoin (head amounts)));
    '(status, filled) ← lift (new_filled (Sub f a) o);
    d ← FindAndModifyDoc (by_hash (o_Hash o)) (filled_update status filled) true;
    updated ← lift (Order_SetBSON d);
    rest ← update_filled_loop os' (tail amounts);
    mret (updated :: rest)
  end.

Definition UpdateOrderFilledAmounts (hs : list Hash) (amounts : list (option Z)) :
    M W (list Order) :=
  orders ← get_orders (hashes_in hs) 0 0;
  update_filled_loop orders amounts.

Definition GetByID (id : string) : M W Order :=
  d ← FindOne (Fields [("_id", Equal (BId id))]); lift (Order_SetBSON d).

Definition GetByHash (h : Hash) : M W (option Order) :=
  res ← get_orders (by_hash h) 0 1; mret (head res).

Definition GetByHashes (hs : list Hash) : M W (list Order) :=
  get_orders (hashes_in hs) 0 0.

(** [limit[0]] of the variadic argument, 0 when it is absent. *)
Definition user_is (addr : Address) : string * cond :=
  ("userAddress", Equal (BStr (Address_Hex addr))).
Definition GetByUserAddress (addr : Address) (limit : nat) : M W (list Order) :=
  get_orders (Fields [user_is addr]) 0 limit.
Definition GetCurrentByUserAddress (addr : Address) (limit : nat) : M W (list Order) :=
  get_orders (Fields [user_is addr; ("status", In_ open_statuses)]) 0 limit.
Definition GetHistoryByUserAddress (addr : Address) (limit : nat) : M W (list Order) :=
  get_orders (Fields [user_is addr; ("status", Nin open_statuses)]) 0 limit.

Definition locked_query (account token : Address) : query :=
  Or [[user_is account; ("status", In_ open_statuses);
       ("quoteToken", Equal (BStr (Address_Hex token))); ("side", Equal (BStr "BUY"))];
      [user_is account; ("status", In_ open_statuses);
       ("baseToken", Equal (BStr (Address_Hex token))); ("side", Equal (BStr "SELL"))]].

Fixpoint locked_loop (p : Pair) (total : Z) (os : list Order) : outcome Z :=
  match os with
  | [] => Ok total
  | o :: os' => l ← RemainingSellAmount p o; locked_loop p (Add total l) os'
  end.

Definition GetUserLockedBalance (account token : Address) (p : Pair) : M W Z :=
  orders ← get_orders (locked_query account token) 0 0;
  lift (locked_loop p 0 orders).

Definition book_match (p : Pair) : conds :=
  [("status", In_ open_statuses);
   ("baseToken", Equal (BStr (Address_Hex (p_BaseTokenAddress p))));
   ("quoteToken", Equal (BStr (Address_Hex (p_QuoteTokenAddress p))))].

Definition aggregate_orders (q : list stage) : M W (list Order) :=
  ds ← Pipe q; lift (decode_all Order_SetBSON ds).

Definition GetRawOrderBook (p : Pair) : M W (list Order) :=
  aggregate_orders [Match (Fields (book_match p));
    AddDecimal "priceDecimal" "pricepoint"; Sort [("priceDecimal", Asc)]].

(** A [map[string]string] out of a document. *)
Fixpoint strings_of_doc (d : doc) : outcome (list (string * string)) :=
  match d with
  | [] => Ok []
  | (k, BStr s) :: d' => m ← strings_of_doc d'; Ok ((k, s) :: m)
  | _ :: d' => strings_of_doc d'
  end.

Definition GetSideOrderBook (p : option Pair) (side : string) (sort : dir)
    (limit : option nat) : M W (list (list (string * string))) :=
  match p with
  | None => mret []
  | Some p =>
    ds ← Pipe ([Match (Fields (book_match p ++ [("side", Equal (BStr side))]));
                GroupVolume; Sort [("_id", sort)]; Project ["pricepoint"; "amount"]] ++
               match limit with Some n => [Limit n] | None => [] end);
    lift (decode_all strings_of_doc ds)
  end.

Definition GetOrderBook (p : option Pair) :
    M W (list (list (string * string)) * list (list (string * string))) :=
  bids ← GetSideOrderBook p BUY Desc None;
  asks ← GetSideOrderBook p SELL Asc None;
  mret (bids, asks).

Definition map_get (k : string) (m : list (string * string)) : string :=
  match base.filter (λ kv, kv.1 = k) m with [] => "" | (_, v) :: _ => v end.

Definition GetOrderBookPricePoint (p : Pair) (pp : option Z) (side : string) :
    M W (option Z) :=
  ds ← Pipe [Match (Fields (book_match p ++
               [("pricepoint", Equal (BStr (Big.Stringp pp)));
                ("side", Equal (BStr side))]));
             GroupVolume; Project ["pricepoint"; "amount"]];
  res ← lift (decode_all strings_of_doc ds);
  mret (match res with [] => None | m :: _ => Some (ToBigInt (map_get "amount" m)) end).

Definition decimal_price (o : Order) : Z := ParseDecimal128 (Big.Stringp (o_PricePoint o)).

Definition matching_conds (o : Order) (side : string) : conds :=
  [("status", In_ open_statuses);
   ("baseToken", Equal (BStr (Address_Hex (o_BaseToken o))));
   ("quoteToken", Equal (BStr (Address_Hex (o_QuoteToken o))));
   ("side", Equal (BStr side))].

Definition GetMatchingBuyOrders (o : Order) : M W (list Order) :=
  aggregate_orders [Match (Fields (matching_conds o BUY));
    AddDecimal "priceDecimal" "pricepoint";
    MatchGte "priceDecimal" (decimal_price o);
    Sort [("priceDecimal", Desc); ("createdAt", Asc)]].

Definition GetMatchingSellOrders (o : Order) : M W (list Order) :=
  aggregate_orders [Match (Fields (matching_conds o SELL));
    AddDecimal "priceDecimal" "pricepoint";
    MatchLte "priceDecimal" (decimal_price o);
    Sort [("priceDecimal", Asc); ("createdAt", Asc)]].

Definition Drop : M W unit := DropColl.
End dao.
End OrderDao.
