(* ===== verification/Collection.v ===== *)
(** Collections of one record type, for the daos whose documents are all written
    by one codec: reading into a slice, inserting, and the relation between the
    documents and the records they hold. *)
From S2P Require Import Prelude BigMath Types Mongo Json OrderDao.

(** A record type with its encoding. *)
Class Stored (A : Type) := {
  get_bson : A → doc;
  set_bson : doc → outcome A;
  stores_record : A → doc → Prop;
  kept_record : A → A;
  storable : A → Prop
}.
(** What is inserted is stored, and what is stored is read back. *)
Class StoredLaws (A : Type) `{Stored A} := {
  stored_read a d : stores_record a d → set_bson d = Ok a;
  stored_insert a d :
    storable a → inserted (Some (get_bson a)) d → stores_record (kept_record a) d
}.

Section collection.
Context {A : Type} `{StoredLaws A}.
Context {W : Type} `{Runtime W, Mongo W}.

(** [db.Get] and [db.GetAndSort] into a slice of records. *)
Definition get_all (q : query) (keys : list (string * dir)) (offset limit : nat) :
    M W (list A) :=
  ds ← Find q keys offset limit; lift (decode_all set_bson ds).

(** [db.GetOne] and [db.GetByID]. *)
Definition get_one (q : query) : M W A := d ← FindOne q; lift (set_bson d).

(** The records of a collection, in the order of its documents. *)
Definition holds (xs : list A) (s : W) : Prop := Forall2 stores_record xs (docs s).

Lemma decode_all_stored xs ds :
  Forall2 stores_record xs ds → decode_all set_bson ds = Ok xs.
Proof.
  induction 1 as [|a d xs ds Hs Hf IH]; [done|]. simpl.
  by rewrite (stored_read a d Hs), IH.
Qed.

Lemma stored_slice sk lim xs ds :
  Forall2 stores_record xs ds → Forall2 stores_record (slice sk lim xs) (slice sk lim ds).
Proof.
  intros Hs. unfold slice. case_decide; [by apply Forall2_drop|].
  by apply Forall2_take, Forall2_drop.
Qed.
End collection.

Section laws.
Context {A : Type} `{StoredLaws A}.
Context {W : Type} `{Runtime W, !Mongo W, !MongoLaws W}.

(** A query for the records that satisfy [P], sorted by [le]. *)
Lemma get_all_spec (P : A → Prop) `{∀ a, Decision (P a)} (le : A → A → Prop) q keys sk lim xs s :
  holds xs s → (∀ a d, stores_record a d → matches q d = true ↔ P a) →
  (∀ a d b e, stores_record a d → stores_record b e → keys_le keys d e → le a b) →
  wp (get_all (W:=W) q keys sk lim) (λ r s', docs s' = docs s ∧
    match r with
    | Ok l => ∃ ys, ys ≡ₚ base.filter P xs ∧ StronglySorted le ys ∧ l = slice sk lim ys
    | Err _ => True | Panic => False
    end) s.
Proof.
  intros Hx HP Hle. unfold get_all. wp_step Find_ok.
  intros [ds|e|] s' [Hd Hr]; [|done..]. destruct Hr as (l & Hl & Hsort & ->).
  pose proof (Forall2_filter _ P (λ d, matches q d = true) xs (docs s) HP Hx) as Hf.
  symmetry in Hl. destruct (Permutation_Forall2_r _ _ _ _ Hl Hf) as (ys & Hys & Hf').
  split; [done|]. simpl. rewrite (decode_all_stored (slice sk lim ys)) by (by apply stored_slice).
  exists ys. split_and!; [done| |done].
  eapply (StronglySorted_Forall2 stores_record le (keys_le keys)); [|exact Hf'|exact Hsort].
  intros a d b e Ha Hb. by apply Hle.
Qed.

Lemma get_one_spec (P : A → Prop) q xs s :
  holds xs s → (∀ a d, stores_record a d → matches q d = true ↔ P a) →
  wp (get_one (W:=W) q) (λ r s', docs s' = docs s ∧
    match r with Ok a => a ∈ xs ∧ P a | Err _ => True | Panic => False end) s.
Proof.
  intros Hx HP. unfold get_one. wp_step FindOne_ok.
  intros [d|e|] s' [Hd Hr]; [|done..]. destruct Hr as [Hin Hm]. split; [done|]. simpl.
  apply list_elem_of_lookup in Hin as [i Hi].
  destruct (Forall2_lookup_r _ _ _ _ _ Hx Hi) as (a & Ha & Hs).
  rewrite (stored_read a d Hs). split; [by eapply list_elem_of_lookup_2|by eapply HP].
Qed.

(** A unique index on one field: the records differ in what it holds. *)
Lemma unique_records {K} (key : A → K) (f : K → bval) k xs s :
  holds xs s → [k] ∈ unique_keys → unique_ok unique_keys (docs s) →
  (∀ a d, stores_record a d → field k d = Some (f (key a))) → NoDup (key <$> xs).
Proof.
  intros Hx Hk Hu Hf. specialize (Hu [k] Hk). revert Hu.
  assert (key_of [k] <$> docs s = (λ x, [Some (f x)]) <$> (key <$> xs)) as ->.
  { unfold holds in Hx. induction Hx as [|a d xs ds Hs _ IH]; [done|].
    rewrite !fmap_cons, IH. unfold key_of. simpl. by rewrite (Hf a d Hs). }
  by intros ?%NoDup_fmap_1.
Qed.

(** The first record that satisfies [P], if there is one. *)
Lemma get_first_spec (P : A → Prop) `{∀ a, Decision (P a)} q xs s :
  holds xs s → (∀ a d, stores_record a d → matches q d = true ↔ P a) →
  wp (get_all (W:=W) q [] 0 1) (λ r s', docs s' = docs s ∧
    match r with
    | Ok l => match head l with Some a => a ∈ xs ∧ P a | None => Forall (λ a, ¬ P a) xs end
    | Err _ => True | Panic => False
    end) s.
Proof.
  intros Hx HP. eapply wp_mono; [|apply (get_all_spec P (λ _ _, True) q [] 0 1 xs s Hx HP)];
    [|done]. cbn beta.
  intros [l|e|] s' [Hd Hl]; [|done..]. split; [done|]. destruct Hl as (ys & Hys & _ & ->).
  unfold slice. rewrite drop_0, decide_False by done. destruct ys as [|y ys]; simpl.
  - apply Forall_forall. intros a Ha HPa. apply (not_elem_of_nil a). rewrite Hys.
    by apply list_elem_of_filter.
  - assert (y ∈ base.filter P xs) as Hin by (rewrite <-Hys; by left).
    apply list_elem_of_filter in Hin. tauto.
Qed.

(** A write keeps the unique indexes. *)
Lemma writes_unique {B} (m : M W B) eff s :
  writes m eff → unique_ok unique_keys (docs s) →
  wp m (λ _ s', unique_ok unique_keys (docs s')) s.
Proof.
  intros Hm Hu. eapply wp_mono; [|apply Hm]. cbn beta.
  intros [b|e|] s'; [intros [_ Hk]; auto| |done]. intros [->|(b & _ & Hk)]; auto.
Qed.

(** Inserting one record. *)
Lemma insert_spec a xs s :
  holds xs s → storable a →
  wp (Insert (W:=W) [Some (get_bson a)]) (λ r s', match r with
    | Ok _ => ∃ xs', holds xs' s' ∧ xs' ≡ₚ kept_record a :: xs
    | Err _ => ∃ xs', holds xs' s' ∧ (xs' = xs ∨ xs' ≡ₚ kept_record a :: xs)
    | Panic => False end) s.
Proof.
  intros Hx Ha. eapply wp_mono; [|apply Insert_ok]. cbn beta.
  assert (∀ ds', insert_docs [Some (get_bson a)] (docs s) ds' →
    ∃ xs', Forall2 stores_record xs' ds' ∧ xs' ≡ₚ kept_record a :: xs) as Hins.
  { intros ds' (new & Hnew & Hp). apply list.Forall2_cons_inv_l in Hnew as (d & k & Hd & Hk & ->).
    apply Forall2_nil_inv_l in Hk as ->. symmetry in Hp.
    destruct (Permutation_Forall2_r stores_record (kept_record a :: xs) (d :: docs s) ds' Hp)
      as (ys & Hys & Hf); [constructor; [by apply stored_insert|done]|].
    by exists ys. }
  intros [[]|e|] s' Hr; [| |done].
  - apply Hins, Hr.
  - destruct Hr as [Hd|(_ & Hu & _)].
    + exists xs. unfold holds. rewrite Hd. auto.
    + destruct (Hins _ Hu) as (ys & ? & ?). exists ys. auto.
Qed.
End laws.
