(* ===== verification/Pairs.v ===== *)
(** [types.Pair]: its encodings ([types/pair.go]), the pair collection
    ([daos/pair.go]) and what [interfaces.PairDao] promises to the services. *)
From Stdlib Require Import Ascii.
From S2P Require Import Prelude BigMath Types Mongo Json Orders OrderCodec OrderDao Collection.

(** ** The codecs of types/pair.go *)
Section codec.
Context `{EthCommon, Codecs, Big.Undefined}.

Definition Pair_GetBSON (p : Pair) : doc :=
  [("_id", BId (p_ID p));
   ("baseTokenSymbol", BStr (p_BaseTokenSymbol p));
   ("baseTokenAddress", BStr (Address_Hex (p_BaseTokenAddress p)));
   ("baseTokenDecimals", BInt (p_BaseTokenDecimals p));
   ("quoteTokenSymbol", BStr (p_QuoteTokenSymbol p));
   ("quoteTokenAddress", BStr (Address_Hex (p_QuoteTokenAddress p)));
   ("quoteTokenDecimals", BInt (p_QuoteTokenDecimals p));
   ("active", BBool (p_Active p)); ("listed", BBool (p_Listed p));
   ("makeFee", BStr (Big.Stringp (p_MakeFee p)));
   ("takeFee", BStr (Big.Stringp (p_TakeFee p)));
   ("rank", BInt (p_Rank p));
   ("createdAt", bson_of_time (p_CreatedAt p));
   ("updatedAt", bson_of_time (p_UpdatedAt p))].

(** A fee that is no numeral is left nil: [SetString] fails. *)
Definition Pair_SetBSON (d : doc) : outcome Pair :=
  id ← bson_id "_id" d;
  baseTokenSymbol ← bson_string "baseTokenSymbol" d;
  baseTokenAddress ← bson_string "baseTokenAddress" d;
  baseTokenDecimals ← bson_int "baseTokenDecimals" d;
  quoteTokenSymbol ← bson_string "quoteTokenSymbol" d;
  quoteTokenAddress ← bson_string "quoteTokenAddress" d;
  quoteTokenDecimals ← bson_int "quoteTokenDecimals" d;
  active ← bson_bool "active" d;
  listed ← bson_bool "listed" d;
  makeFee ← bson_string "makeFee" d;
  takeFee ← bson_string "takeFee" d;
  rank ← bson_int "rank" d;
  createdAt ← bson_time "createdAt" d;
  updatedAt ← bson_time "updatedAt" d;
  Ok (mkPair id baseTokenSymbol (HexToAddress baseTokenAddress) baseTokenDecimals
        quoteTokenSymbol (HexToAddress quoteTokenAddress) quoteTokenDecimals
        listed active rank (Big.SetString makeFee) (Big.SetString takeFee)
        createdAt updatedAt).

Definition Pair_MarshalJSON (p : Pair) : json :=
  JObj ([("baseTokenSymbol", JStr (p_BaseTokenSymbol p));
         ("baseTokenDecimals", JNum (p_BaseTokenDecimals p));
         ("quoteTokenSymbol", JStr (p_QuoteTokenSymbol p));
         ("quoteTokenDecimals", JNum (p_QuoteTokenDecimals p));
         ("baseTokenAddress", JStr (Address_Text (p_BaseTokenAddress p)));
         ("quoteTokenAddress", JStr (Address_Text (p_QuoteTokenAddress p)));
         ("rank", JNum (p_Rank p)); ("active", JBool (p_Active p));
         ("listed", JBool (p_Listed p))] ++
    opt_jfields (p_MakeFee p) (λ f, [("makeFee", JStr (Big.String_Z f))]) ++
    opt_jfields (p_TakeFee p) (λ f, [("takeFee", JStr (Big.String_Z f))])).

(** [if m[k] != nil { x = m[k].(int) }]: a number decodes to a [float64], and
    nothing decodes to an [int]. *)
Definition set_int (k : string) (m : jmap) (cur : Z) : outcome Z :=
  match jget k m with None => Ok cur | Some _ => Panic end.

Definition Pair_UnmarshalJSON (j : json) (p : Pair) : outcome Pair :=
  m ← unmarshal_map j;
  baseTokenAddress ← set_string "baseTokenAddress" m (p_BaseTokenAddress p) HexToAddress;
  quoteTokenAddress ← set_string "quoteTokenAddress" m (p_QuoteTokenAddress p) HexToAddress;
  baseTokenSymbol ← set_string "baseTokenSymbol" m (p_BaseTokenSymbol p) (λ s, s);
  quoteTokenSymbol ← set_string "quoteTokenSymbol" m (p_QuoteTokenSymbol p) (λ s, s);
  baseTokenDecimals ← set_int "baseTokenDecimals" m (p_BaseTokenDecimals p);
  quoteTokenDecimals ← set_int "quoteTokenDecimals" m (p_QuoteTokenDecimals p);
  rank ← set_int "rank" m (p_Rank p);
  Ok (mkPair (p_ID p) baseTokenSymbol baseTokenAddress baseTokenDecimals
        quoteTokenSymbol quoteTokenAddress quoteTokenDecimals (p_Listed p) (p_Active p)
        rank (p_MakeFee p) (p_TakeFee p) (p_CreatedAt p) (p_UpdatedAt p)).

(** An address is an array of a fixed length, which [Required] never finds blank. *)
Definition Pair_ValidateAddresses (p : Pair) : outcome unit := Ok tt.
Definition Pair_Validate (p : Pair) : outcome unit :=
  ValidateStruct [("baseTokenSymbol", bool_decide (p_BaseTokenSymbol p = ""));
                  ("quoteTokenSymbol", bool_decide (p_QuoteTokenSymbol p = ""))].

Definition GetKVPrefix (p : Pair) : string :=
  Address_Hex (p_BaseTokenAddress p) +:+ "::" +:+ Address_Hex (p_QuoteTokenAddress p).
Definition GetOrderBookKeys (p : Pair) : string * string :=
  (GetKVPrefix p +:+ "::SELL", GetKVPrefix p +:+ "::BUY").
End codec.

(** ** What survives the encodings *)
Section laws.
Context `{EthCommonLaws} `{!Codecs, !CodecLaws _ _} `{Big.Undefined}.

(** A nil fee is stored as the text of a nil integer, and read back as nil. *)
Lemma pair_fee_read f : Big.SetString (Big.Stringp f) = f.
Proof. destruct f as [x|]; [apply SetString_String_Z|by vm_compute]. Qed.

(** Times are kept to the millisecond. *)
Definition pair_kept (p : Pair) : Pair :=
  set_p_CreatedAt (truncate_ms (p_CreatedAt p)) (set_p_UpdatedAt (truncate_ms (p_UpdatedAt p)) p).

Definition stores_pair (p : Pair) (d : doc) : Prop :=
  p_CreatedAt p = truncate_ms (p_CreatedAt p) ∧
  p_UpdatedAt p = truncate_ms (p_UpdatedAt p) ∧
  Forall (λ kv, field kv.1 d = Some kv.2) (Pair_GetBSON p).

#[export] Instance pair_stored : Stored Pair := {|
  get_bson := Pair_GetBSON; set_bson := Pair_SetBSON;
  stores_record := stores_pair; kept_record := pair_kept; storable _ := True
|}.

#[export] Instance pair_stored_laws : StoredLaws Pair.
Proof.
  split.
  - intros p d (Hc & Hu & Hd). unfold Pair_GetBSON in Hd.
    rewrite !Forall_cons in Hd. destruct_and?. simpl in *.
    unfold Pair_SetBSON, bson_id, bson_int, bson_bool.
    repeat match goal with H : field ?k d = Some _ |- context [field ?k d] => rewrite H end.
    repeat erewrite bson_string_of by eassumption.
    repeat erewrite bson_time_of by eassumption. simpl.
    rewrite !HexToAddress_Hex, !pair_fee_read, <-Hc, <-Hu. by destruct p.
  - intros p d Hp Hd. unfold inserted in Hd. simpl default in Hd.
    split_and!; [apply truncate_ms_idem|apply truncate_ms_idem|].
    assert (∀ k v, field k (Pair_GetBSON p) = Some v → field k d = Some v) as Hk.
    { intros k v Hkv. rewrite Hd; [done|right; by eexists]. }
    clear Hd. unfold Pair_GetBSON at 1. unfold kept_record; simpl. unfold pair_kept.
    repeat (apply Forall_cons_2; [|]); [..|apply Forall_nil_2];
      simpl; rewrite ?bson_of_truncate; apply Hk; reflexivity.
Qed.

(** Decoding the JSON a pair is encoded to panics, whatever the pair: the
    decimals are asserted to be an [int], which no JSON value decodes to. *)
Theorem Pair_json_panics p q : Pair_UnmarshalJSON (Pair_MarshalJSON p) q = Panic.
Proof.
  unfold Pair_UnmarshalJSON, Pair_MarshalJSON, set_string, set_int, jget. by simpl.
Qed.
End laws.

(** ** daos/pair.go *)
Module PairDao.
Section dao.
Context `{EthCommonLaws} `{!Codecs, !CodecLaws _ _} `{Big.Undefined}.
Context {W : Type} `{Runtime W, !Mongo W}.

(** The unique index of [NewPairDao] is on the two addresses together. *)
Definition unique_index : list (list string) := [["baseTokenAddress"; "quoteTokenAddress"]].

Definition Create (p : Pair) : M W (Pair * (error + unit)) :=
  id ← NewObjectId;
  t1 ← Now;
  t2 ← Now;
  let p := set_p_UpdatedAt t2 (set_p_CreatedAt t1 (set_p_ID id p)) in
  returning p (Insert [Some (Pair_GetBSON p)]).

Definition GetAll : M W (list Pair) := get_all (Fields []) [] 0 0.
Definition active_listed (listed : bool) : query :=
  Fields [("active", Equal (BBool true)); ("listed", Equal (BBool listed))].
Definition GetListedPairs : M W (list Pair) := get_all (active_listed true) [("rank", Desc)] 0 0.
Definition GetUnlistedPairs : M W (list Pair) :=
  get_all (active_listed false) [("rank", Desc)] 0 0.
Definition GetActivePairs : M W (list Pair) :=
  get_all (Fields [("active", Equal (BBool true))]) [] 0 0.
Definition GetByID (id : string) : M W Pair := get_one (Fields [("_id", Equal (BId id))]).

Definition by_symbols (b q : string) : query :=
  Fields [("baseTokenSymbol", Equal (BStr b)); ("quoteTokenSymbol", Equal (BStr q))].
Definition GetByTokenSymbols (b q : string) : M W (option Pair) :=
  res ← get_all (by_symbols b q) [] 0 1; mret (head res).

(** [strings.Split(name, "/")], then its first two parts: without a slash the
    second index is out of range. *)
Fixpoint Split (s : string) : string * list string :=
  match s with
  | "" => ("", [])
  | String c s' =>
    let '(part, parts) := Split s' in
    if decide (c = "/"%char) then ("", part :: parts) else (String c part, parts)
  end.
Definition GetByName (name : string) : M W (option Pair) :=
  let '(base, parts) := Split name in
  quote ← lift (deref (head parts));
  GetByTokenSymbols base quote.

Definition by_addresses (b q : Address) : query :=
  Fields [("baseTokenAddress", Equal (BStr (Address_Hex b)));
          ("quoteTokenAddress", Equal (BStr (Address_Hex q)))].
Definition GetByTokenAddress (baseToken quoteToken : Address) : M W (option Pair) :=
  res ← get_all (by_addresses baseToken quoteToken) [] 0 1; mret (head res).
End dao.
End PairDao.

(** ** The contract *)

(** [interfaces.PairDao] *)
Class IPairDao (PS : Type) := {
  pd_Create : Pair → M PS (Pair * (error + unit));
  pd_GetAll : M PS (list Pair);
  pd_GetActivePairs : M PS (list Pair);
  pd_GetByID : string → M PS Pair;
  pd_GetByName : string → M PS (option Pair);
  pd_GetByTokenSymbols : string → string → M PS (option Pair);
  pd_GetByTokenAddress : Address → Address → M PS (option Pair);
  pd_GetListedPairs : M PS (list Pair);
  pd_GetUnlistedPairs : M PS (list Pair)
}.

Definition pair_of (b q : Address) (p : Pair) : Prop :=
  p_BaseTokenAddress p = b ∧ p_QuoteTokenAddress p = q.
#[export] Instance pair_of_dec b q p : Decision (pair_of b q p).
Proof. unfold pair_of. apply _. Defined.

(** What the services rely on: the collection is a set of pairs with their fees
    set, a lookup by addresses finds a pair exactly when there is one, and a
    creation adds the pair or fails. *)
Definition is_inl {A B} (r : A + B) : Prop := match r with inl _ => True | inr _ => False end.

Class PairDaoSpec (PS : Type) `{IPairDao PS} := {
  pairs : PS → list Pair → Prop;
  GetByTokenAddress_spec b q ps s : pairs s ps →
    wp (pd_GetByTokenAddress b q) (λ r s', pairs s' ps ∧
      match r with
      | Ok (Some p) => p ∈ ps ∧ pair_of b q p
      | Ok None => ∀ p, p ∈ ps → ¬ pair_of b q p
      | Err _ => True | Panic => False
      end) s;
  pd_Create_spec p ps s : pairs s ps →
    wp (pd_Create p) (λ r s', ∃ ps', pairs s' ps' ∧
      match r with
      | Ok (p', res) => (∃ id t1 t2,
          p' = set_p_UpdatedAt t2 (set_p_CreatedAt t1 (set_p_ID id p))) ∧
          (ps' ≡ₚ pair_kept p' :: ps ∨ ps' = ps ∧ is_inl res)
      | _ => False
      end) s;
  GetListedPairs_spec ps s : pairs s ps →
    wp pd_GetListedPairs (λ r s', pairs s' ps ∧
      match r with
      | Ok l => l ≡ₚ base.filter (λ p, p_Active p = true ∧ p_Listed p = true) ps ∧
                StronglySorted (λ a b, p_Rank b ≤ p_Rank a) l
      | Err _ => True | Panic => False
      end) s
}.

Section refine.
Context `{EthCommonLaws} `{!Codecs, !CodecLaws _ _} `{Big.Undefined}.
Context {W : Type} `{Runtime W, !Mongo W, !MongoLaws W}.

#[export] Instance pair_dao : IPairDao W := {|
  pd_Create := PairDao.Create;
  pd_GetAll := PairDao.GetAll;
  pd_GetActivePairs := PairDao.GetActivePairs;
  pd_GetByID := PairDao.GetByID;
  pd_GetByName := PairDao.GetByName;
  pd_GetByTokenSymbols := PairDao.GetByTokenSymbols;
  pd_GetByTokenAddress := PairDao.GetByTokenAddress;
  pd_GetListedPairs := PairDao.GetListedPairs;
  pd_GetUnlistedPairs := PairDao.GetUnlistedPairs
|}.

(** A field of a stored pair. *)
Lemma stores_pair_field p d k v :
  stores_pair p d → field k (Pair_GetBSON p) = Some v → field k d = Some v.
Proof.
  intros (_ & _ & Hd). induction (Pair_GetBSON p) as [|[k' v'] l IH]; simpl; [done|].
  apply Forall_cons in Hd as [Hk Hd]. case_decide; [|auto]. subst. by intros [= <-].
Qed.

Lemma by_addresses_ok b q p d :
  stores_pair p d → matches (PairDao.by_addresses b q) d = true ↔ pair_of b q p.
Proof.
  intros Hs. unfold matches, PairDao.by_addresses, pair_of. simpl.
  rewrite (stores_pair_field p d "baseTokenAddress" _ Hs eq_refl),
    (stores_pair_field p d "quoteTokenAddress" _ Hs eq_refl). simpl.
  rewrite andb_true_r, andb_true_iff, !bool_decide_eq_true. split.
  - intros [E1 E2]. injection E1 as ->%(inj Address_Hex). by injection E2 as ->%(inj Address_Hex).
  - by intros [-> ->].
Qed.

Lemma active_listed_ok listed p d :
  stores_pair p d → matches (PairDao.active_listed listed) d = true ↔
  p_Active p = true ∧ p_Listed p = listed.
Proof.
  intros Hs. unfold matches, PairDao.active_listed. simpl.
  rewrite (stores_pair_field p d "active" _ Hs eq_refl),
    (stores_pair_field p d "listed" _ Hs eq_refl). simpl.
  rewrite andb_true_r, andb_true_iff, !bool_decide_eq_true. split.
  - intros [E1 E2]. by injection E1 as ->; injection E2 as ->.
  - by intros [-> ->].
Qed.

Lemma rank_keys p q d e :
  stores_pair p d → stores_pair q e → keys_le [("rank", Desc)] d e → p_Rank q ≤ p_Rank p.
Proof.
  intros Hp Hq. simpl. rewrite (stores_pair_field p d "rank" _ Hp eq_refl),
    (stores_pair_field q e "rank" _ Hq eq_refl). simpl.
  intros [[?|[_ [?|[_ []]]]]|[[= ->] _]]; lia.
Qed.

Lemma holds_docs (s s' : W) (ps : list Pair) : holds ps s → docs s' = docs s → holds ps s'.
Proof. unfold holds. by intros ? ->. Qed.

#[export] Instance pair_dao_spec : PairDaoSpec W.
Proof.
  refine {| pairs s ps := holds ps s |}.
  - intros b q ps s Hs. simpl. unfold PairDao.GetByTokenAddress.
    wp_step (get_all_spec (pair_of b q) (λ _ _, True) _ _ _ _ ps s Hs);
      [|by intros; apply by_addresses_ok|done].
    intros [l|e|] s' [Hd Hl]; [|by split; [eapply holds_docs|]..].
    destruct Hl as (ys & Hys & _ & ->). apply wp_ret. split; [by eapply holds_docs|].
    unfold slice. rewrite drop_0, decide_False by done.
    destruct ys as [|y ys]; simpl.
    + intros p Hp Hpq. apply (not_elem_of_nil p). rewrite Hys. by apply list_elem_of_filter.
    + assert (y ∈ base.filter (pair_of b q) ps) as Hin by (rewrite <-Hys; by left).
      apply list_elem_of_filter in Hin. tauto.
  - intros p ps s Hs. simpl. unfold PairDao.Create.
    wp_step NewObjectId_ok. intros r1 s1 (Hd1 & id & -> & _).
    wp_step Now_ok. intros r2 s2 (Hd2 & t1 & ->). wp_step Now_ok. intros r3 s3 (Hd3 & t2 & ->).
    simpl. set (p' := set_p_UpdatedAt _ _). apply wp_returning.
    assert (holds ps s3) as Hs3 by (eapply holds_docs; [exact Hs|congruence]).
    eapply wp_mono; [|exact (insert_spec p' ps s3 Hs3 I)].
    intros [[]|e|] s'; [| |done]; intros (ps' & Hh & Hp); exists ps'; (split; [done|]);
      (split; [by exists id, t1, t2|]); [by left|]. destruct Hp as [->|Hp]; [right|left]; done.
  - intros ps s Hs. simpl. unfold PairDao.GetListedPairs.
    eapply wp_mono; [|apply (get_all_spec (λ p, p_Active p = true ∧ p_Listed p = true)
      (λ a b, p_Rank b ≤ p_Rank a) _ _ _ _ ps s Hs)].
    + intros [l|e|] s' [Hd Hl]; [|by split; [eapply holds_docs|]..].
      split; [by eapply holds_docs|]. destruct Hl as (ys & Hys & Hsort & ->).
      unfold slice. by rewrite drop_0, decide_True.
    + intros p d. apply active_listed_ok.
    + intros a d b e. apply rank_keys.
Defined.
End refine.
