(* ===== verification/Accounts.v ===== *)
(** [types.Account] ([types/account.go]) and the account collection
    ([daos/account.go]): the encodings, the operations, and what
    [interfaces.AccountDao] promises.

    [AccountDao.FindOrCreate] is not modelled: nothing calls it, and what it
    writes depends on how the driver treats a struct whose [GetBSON] is a method
    of its pointer.  Nor is the decoding of an account from JSON: nothing does
    that either. *)
From S2P Require Import Prelude BigMath Types Mongo Json Orders OrderCodec OrderDao Collection.

(** [types.TokenBalance] *)
Record TokenBalance := mkTokenBalance {
  tb_Address : Address;
  tb_Symbol : string;
  tb_Balance : option Z;
  tb_Allowance : option Z;
  tb_PendingBalance : option Z;
  tb_LockedBalance : option Z
}.
#[export] Instance TokenBalance_eq_dec : EqDecision TokenBalance.
Proof. solve_decision. Defined.

(** [types.Account]; the map is never nil where it is read. *)
Record Account := mkAccount {
  a_ID : string;
  a_Address : Address;
  a_TokenBalances : gmap Z TokenBalance;
  a_IsBlocked : bool;
  a_CreatedAt : Z;
  a_UpdatedAt : Z
}.
#[export] Instance Account_eq_dec : EqDecision Account.
Proof. solve_decision. Defined.

(** ** The codecs *)
Section codec.
Context `{EthCommon, Codecs, Big.Undefined}.

(** The pending balance is under another key: its tag is ["base"], not ["bson"],
    and [bson] takes the field's name in lower case. *)
Definition TokenBalanceRecord (v : TokenBalance) : doc :=
  [("address", BStr (Address_Hex (tb_Address v)));
   ("symbol", BStr (tb_Symbol v));
   ("balance", BStr (Big.Stringp (tb_Balance v)));
   ("allowance", BStr (Big.Stringp (tb_Allowance v)));
   ("pendingbalance", BStr (Big.Stringp (tb_PendingBalance v)));
   ("lockedBalance", BStr (Big.Stringp (tb_LockedBalance v)))].
Definition token_balances (m : gmap Z TokenBalance) : doc :=
  (λ kv, (Address_Hex kv.1, BDoc (TokenBalanceRecord kv.2))) <$> map_to_list m.

(** The times are not copied into the record. *)
Definition Account_record (a : Account) : doc :=
  [("_id", BId (a_ID a)); ("address", BStr (Address_Hex (a_Address a)));
   ("tokenBalances", BDoc (token_balances (a_TokenBalances a)));
   ("isBlocked", BBool (a_IsBlocked a));
   ("createdAt", bson_of_time 0); ("updatedAt", bson_of_time 0)].
Definition set_a_ID (id : string) (a : Account) : Account :=
  mkAccount id (a_Address a) (a_TokenBalances a) (a_IsBlocked a) (a_CreatedAt a) (a_UpdatedAt a).
Definition set_times (c u : Z) (a : Account) : Account :=
  mkAccount (a_ID a) (a_Address a) (a_TokenBalances a) (a_IsBlocked a) c u.
Definition Account_GetBSON {W} `{Runtime W} (a : Account) : M W doc :=
  if decide (a_ID a = "") then id ← NewObjectId; mret (Account_record (set_a_ID id a))
  else mret (Account_record a).

(** [SetString] leaves a balance nil when the text is no numeral. *)
Definition token_balance_of (d : doc) : outcome TokenBalance :=
  address ← bson_string "address" d;
  symbol ← bson_string "symbol" d;
  balance ← bson_string "balance" d;
  allowance ← bson_string "allowance" d;
  pendingBalance ← bson_string "pendingbalance" d;
  lockedBalance ← bson_string "lockedBalance" d;
  Ok (mkTokenBalance (HexToAddress address) symbol (Big.SetString balance)
        (Big.SetString allowance) (Big.SetString pendingBalance) (Big.SetString lockedBalance)).
(** One entry of the map; what is no document is skipped. *)
Definition balance_entry (kv : string * bval) : option (Z * TokenBalance) :=
  match kv.2 with
  | BDoc d =>
    match token_balance_of d with Ok v => Some (HexToAddress kv.1, v) | _ => None end
  | _ => None
  end.
Definition balances_of (v : option bval) : gmap Z TokenBalance :=
  list_to_map (omap balance_entry (subdoc v)).

Definition Account_SetBSON (d : doc) : outcome Account :=
  address ← bson_string "address" d;
  id ← bson_id "_id" d;
  isBlocked ← bson_bool "isBlocked" d;
  createdAt ← bson_time "createdAt" d;
  updatedAt ← bson_time "updatedAt" d;
  Ok (mkAccount id (HexToAddress address) (balances_of (field "tokenBalances" d)) isBlocked
        createdAt updatedAt).

(** [Time.String], unlike the other types' RFC 3339. *)
Class TimeString := Time_String : Z → string.

Definition TokenBalance_json (v : TokenBalance) : json :=
  JObj [("address", JStr (Address_Hex (tb_Address v))); ("symbol", JStr (tb_Symbol v));
        ("balance", JStr (Big.Stringp (tb_Balance v)));
        ("allowance", JStr (Big.Stringp (tb_Allowance v)));
        ("lockedBalance", JStr (Big.Stringp (tb_LockedBalance v)));
        ("pendingBalance", JStr (Big.Stringp (tb_PendingBalance v)))].
Definition Account_MarshalJSON `{TimeString} (a : Account) : json :=
  JObj [("id", JStr (a_ID a)); ("address", JStr (Address_Text (a_Address a)));
        ("isBlocked", JBool (a_IsBlocked a));
        ("createdAt", JStr (Time_String (a_CreatedAt a)));
        ("updatedAt", JStr (Time_String (a_UpdatedAt a)));
        ("tokenBalances", JObj ((λ kv, (Address_Hex kv.1, TokenBalance_json kv.2)) <$>
           map_to_list (a_TokenBalances a)))].
End codec.

(** ** daos/account.go *)
Module AccountDao.
Section dao.
Context `{EthCommon, Codecs, Big.Undefined}.
Context {W : Type} `{Runtime W, !Mongo W}.

Definition unique_index : list (list string) := [["address"]].

Definition Create (a : Account) : M W (Account * (error + unit)) :=
  id ← NewObjectId;
  t1 ← Now;
  t2 ← Now;
  let a := set_times t1 t2 (set_a_ID id a) in
  d ← Account_GetBSON a;
  returning a (Insert [Some d]).

Definition accounts (q : query) (limit : nat) : M W (list Account) :=
  ds ← Find q [] 0 limit; lift (decode_all Account_SetBSON ds).
Definition GetAll : M W (list Account) := accounts (Fields []) 0.
(** [res[0]] *)
Definition GetByID (id : string) : M W Account :=
  res ← accounts (Fields [("_id", Equal (BId id))]) 0; lift (deref (head res)).
Definition by_address (owner : Address) : query :=
  Fields [("address", Equal (BStr (Address_Hex owner)))].
Definition GetByAddress (owner : Address) : M W (option Account) :=
  res ← accounts (by_address owner) 1; mret (head res).
Definition GetTokenBalances (owner : Address) : M W (option (gmap Z TokenBalance)) :=
  res ← accounts (by_address owner) 1; mret (a_TokenBalances <$> head res).

(** [res[0]] panics for an owner without an account. *)
Definition GetTokenBalance (owner token : Address) : M W (option TokenBalance) :=
  ds ← Pipe [Match (by_address owner); ObjectToArray "tokenBalances";
             FilterArray "tokenBalances" (Address_Hex token); ArrayToObject "tokenBalances"];
  res ← lift (decode_all Account_SetBSON ds);
  a ← lift (deref (head res));
  mret (a_TokenBalances a !! token).

Definition balance_path (token : Address) (k : string) : list string :=
  ["tokenBalances"; Address_Hex token; k].
Definition UpdateTokenBalance (owner token : Address) (tokenBalance : TokenBalance) : M W unit :=
  UpdateOne (by_address owner) (USetPath
    [(balance_path token "balance", BStr (Big.Stringp (tb_Balance tokenBalance)));
     (balance_path token "allowance", BStr (Big.Stringp (tb_Allowance tokenBalance)));
     (balance_path token "lockedBalance", BStr (Big.Stringp (tb_LockedBalance tokenBalance)));
     (balance_path token "pendingBalance", BStr (Big.Stringp (tb_PendingBalance tokenBalance)))]).
Definition UpdateBalance (owner token : Address) (balance : option Z) : M W unit :=
  UpdateOne (by_address owner)
    (USetPath [(balance_path token "balance", BStr (Big.Stringp balance))]).
Definition UpdateAllowance (owner token : Address) (allowance : option Z) : M W unit :=
  UpdateOne (by_address owner)
    (USetPath [(balance_path token "allowance", BStr (Big.Stringp allowance))]).
Definition Drop : M W unit := DropColl.
End dao.
End AccountDao.

(** [interfaces.AccountDao], the part that is used. *)
Class IAccountDao (AS : Type) := {
  ad_Create : Account → M AS (Account * (error + unit));
  ad_GetAll : M AS (list Account);
  ad_GetByID : string → M AS Account;
  ad_GetByAddress : Address → M AS (option Account);
  ad_GetTokenBalances : Address → M AS (option (gmap Z TokenBalance));
  ad_GetTokenBalance : Address → Address → M AS (option TokenBalance);
  ad_UpdateTokenBalance : Address → Address → TokenBalance → M AS unit;
  ad_UpdateBalance : Address → Address → option Z → M AS unit;
  ad_UpdateAllowance : Address → Address → option Z → M AS unit
}.

(** ** The contract *)

(** The collection is a set of accounts, at most one per address.  [written]
    forgets what the record does not keep. *)
Definition written (a : Account) : Account := set_times 0 0 a.
Definition amounts_known (m : gmap Z TokenBalance) : Prop :=
  map_Forall (λ _ v, is_Some (tb_Balance v) ∧ is_Some (tb_Allowance v) ∧
    is_Some (tb_PendingBalance v) ∧ is_Some (tb_LockedBalance v)) m.
Definition set_a_TokenBalances (m : gmap Z TokenBalance) (a : Account) : Account :=
  mkAccount (a_ID a) (a_Address a) m (a_IsBlocked a) (a_CreatedAt a) (a_UpdatedAt a).

Lemma same_account l a b :
  NoDup (a_Address <$> l) → a ∈ l → b ∈ l → a_Address a = a_Address b → a = b.
Proof.
  intros Hn [i Hi]%list_elem_of_lookup [j Hj]%list_elem_of_lookup Hab.
  assert (i = j) as ->; [|congruence].
  apply (NoDup_lookup _ i j (a_Address a) Hn); rewrite list_lookup_fmap; [by rewrite Hi|].
  by rewrite Hj, Hab.
Qed.

Class AccountDaoSpec (AS : Type) `{IAccountDao AS} := {
  accounts : AS → list Account → Prop;
  accounts_unique s l : accounts s l → NoDup (a_Address <$> l);
  GetByAddress_spec owner l s : accounts s l →
    wp (ad_GetByAddress owner) (λ r s', accounts s' l ∧
      match r with
      | Ok (Some a) => a ∈ l ∧ a_Address a = owner
      | Ok None => owner ∉ a_Address <$> l
      | Err _ => True | Panic => False
      end) s;
  ad_Create_spec a l s : accounts s l → amounts_known (a_TokenBalances a) →
    wp (ad_Create a) (λ r s', ∃ l', accounts s' l' ∧
      match r with
      | Ok (a', inr _) => (∃ id t1 t2, a' = set_times t1 t2 (set_a_ID id a)) ∧
                          l' ≡ₚ written a' :: l
      | Ok (a', inl _) => l' = l ∨ (∃ id t1 t2, a' = set_times t1 t2 (set_a_ID id a)) ∧
                                   l' ≡ₚ written a' :: l
      | _ => False
      end) s
}.
