(* ===== verification/AccountDaoProps.v ===== *)
(** [daos/account.go] implements the contract of [Accounts], and what an update
    of a token balance leaves in the collection. *)
From S2P Require Import Prelude BigMath Types Mongo Json Orders OrderCodec OrderDao Collection Accounts.

Section props.
Context `{EthCommonLaws} `{!Codecs, !CodecLaws _ _} `{Big.Undefined}.

(** ** Balances as subdocuments *)
#[local] Arguments balance_entry : simpl never.

(** The keys are addresses in hexadecimal and the values documents. *)
Definition canonical (l : doc) : Prop := Forall (λ kv, ∃ t e, kv = (Address_Hex t, BDoc e)) l.
(** What a subdocument decodes to; an empty one, without amounts. *)
Definition no_balance : TokenBalance := mkTokenBalance (HexToAddress "") "" None None None None.
Definition balance_in (e : doc) : TokenBalance :=
  match token_balance_of e with Ok v => v | _ => no_balance end.

Lemma bson_string_total k d : ∃ x, bson_string k d = Ok x.
Proof. unfold bson_string. destruct (field k d) as [[]|]; by eexists. Qed.

Lemma token_balance_total e : token_balance_of e = Ok (balance_in e).
Proof.
  unfold balance_in, token_balance_of.
  repeat match goal with |- context [bson_string ?k ?d] =>
    destruct (bson_string_total k d) as [? ->]; simpl end. done.
Qed.

Lemma balances_lookup l t :
  canonical l → balances_of (Some (BDoc l)) !! t = balance_in <$>
    match field (Address_Hex t) l with Some (BDoc e) => Some e | _ => None end.
Proof.
  unfold balances_of. simpl. induction 1 as [|? l (t' & e & ->) Hl IH]; [done|].
  simpl. unfold balance_entry at 1. simpl. rewrite token_balance_total, HexToAddress_Hex. simpl.
  destruct (decide (t' = t)) as [->|Ht].
  - by rewrite lookup_insert_eq, decide_True.
  - rewrite lookup_insert_ne, decide_False by (done || by intros ?%(inj _)). exact IH.
Qed.

Lemma canonical_written m : canonical (token_balances m).
Proof. apply Forall_fmap, Forall_forall. intros [t v] _. by exists t, (TokenBalanceRecord v). Qed.

Lemma canonical_set l t e : canonical l → canonical (set_fields [(Address_Hex t, BDoc e)] l).
Proof.
  intros Hl. unfold set_fields. constructor; [by exists t, e|].
  by apply Forall_filter_all.
Qed.

Lemma balance_in_record v :
  is_Some (tb_Balance v) → is_Some (tb_Allowance v) → is_Some (tb_PendingBalance v) →
  is_Some (tb_LockedBalance v) → token_balance_of (TokenBalanceRecord v) = Ok v.
Proof.
  intros. unfold token_balance_of, TokenBalanceRecord, bson_string. simpl.
  rewrite HexToAddress_Hex, !SetString_Stringp by done. by destruct v.
Qed.

Lemma balances_written m :
  amounts_known m → balances_of (Some (BDoc (token_balances m))) = m.
Proof.
  intros Hm. unfold balances_of, token_balances. simpl.
  rewrite <-(list_to_map_to_list m) at 2. f_equal.
  assert (∀ kv, kv ∈ map_to_list m → balance_entry (Address_Hex kv.1, BDoc (TokenBalanceRecord kv.2))
    = Some kv) as Hkv.
  { intros [t v] Htv%elem_of_map_to_list. destruct (Hm t v Htv) as (? & ? & ? & ?).
    unfold balance_entry. cbn [fst snd]. by rewrite balance_in_record, HexToAddress_Hex. }
  induction (map_to_list m) as [|kv l IH]; [done|]. rewrite fmap_cons.
  cbn [omap list_omap]. rewrite (Hkv kv) by left. f_equal. apply IH. intros. apply Hkv. by right.
Qed.

(** ** The accounts of a collection *)
Definition stores_account (a : Account) (d : doc) : Prop :=
  Account_SetBSON d = Ok a ∧ field "address" d = Some (BStr (Address_Hex (a_Address a))) ∧
  ∃ l, field "tokenBalances" d = Some (BDoc l) ∧ canonical l.

#[export] Instance account_stored : Stored Account := {|
  get_bson := Account_record; set_bson := Account_SetBSON;
  stores_record := stores_account; kept_record := written;
  storable a := amounts_known (a_TokenBalances a)
|}.

Lemma Account_decode d id address m b c u :
  field "_id" d = Some (BId id) → field "address" d = Some (BStr (Address_Hex address)) →
  field "tokenBalances" d = Some (BDoc m) → field "isBlocked" d = Some (BBool b) →
  field "createdAt" d = Some (BDate c) → field "updatedAt" d = Some (BDate u) →
  Account_SetBSON d = Ok (mkAccount id address (balances_of (Some (BDoc m))) b (c * ms) (u * ms)).
Proof.
  intros E1 E2 E3 E4 E5 E6.
  unfold Account_SetBSON, bson_string, bson_id, bson_bool, bson_time.
  rewrite E1, E2, E3, E4, E5, E6. simpl. by rewrite HexToAddress_Hex.
Qed.

#[export] Instance account_stored_laws : StoredLaws Account.
Proof.
  split.
  - by intros a d [Hd _].
  - intros a d Ha Hd. cbn in Ha.
    assert (∀ k v, field k (Account_record a) = Some v → field k d = Some v) as Hk.
    { intros k v Hv. rewrite Hd; [done|right; by eexists]. }
    split_and!.
    + rewrite (Account_decode d (a_ID a) (a_Address a) (token_balances (a_TokenBalances a))
        (a_IsBlocked a) (0) (0)) by (apply Hk; reflexivity).
      rewrite balances_written by done. by destruct a.
    + by apply Hk.
    + eexists. split; [by apply Hk|apply canonical_written].
Qed.

Lemma by_address_ok a d owner :
  stores_account a d → matches (AccountDao.by_address owner) d = true ↔ a_Address a = owner.
Proof.
  intros (_ & Hd & _). simpl. rewrite Hd. simpl. rewrite andb_true_r, bool_decide_eq_true.
  split; [by intros [= ->%(inj Address_Hex)]|by intros ->].
Qed.

Context {W : Type} `{Runtime W, !Mongo W, !MongoLaws W}.

#[export] Instance account_dao : IAccountDao W := {|
  ad_Create := AccountDao.Create;
  ad_GetAll := AccountDao.GetAll;
  ad_GetByID := AccountDao.GetByID;
  ad_GetByAddress := AccountDao.GetByAddress;
  ad_GetTokenBalances := AccountDao.GetTokenBalances;
  ad_GetTokenBalance := AccountDao.GetTokenBalance;
  ad_UpdateTokenBalance := AccountDao.UpdateTokenBalance;
  ad_UpdateBalance := AccountDao.UpdateBalance;
  ad_UpdateAllowance := AccountDao.UpdateAllowance
|}.

(** The unique index of [NewAccountDao]. *)
Hypothesis indexed : unique_keys = AccountDao.unique_index.

Definition accounts_in (s : W) (l : list Account) : Prop :=
  holds l s ∧ unique_ok unique_keys (docs s).

Lemma addresses_unique s l : accounts_in s l → NoDup (a_Address <$> l).
Proof.
  intros [Hl Hu]. apply (unique_records a_Address (λ x, BStr (Address_Hex x)) "address" l s Hl);
    [rewrite indexed; by left|done|]. by intros a d (_ & Ha & _).
Qed.

Lemma accounts_docs s s' l : accounts_in s l → docs s' = docs s → accounts_in s' l.
Proof. unfold accounts_in, holds. by intros ? ->. Qed.

Lemma GetByAddress_refines owner l s : accounts_in s l →
  wp (AccountDao.GetByAddress owner) (λ r s', accounts_in s' l ∧
    match r with
    | Ok (Some a) => a ∈ l ∧ a_Address a = owner
    | Ok None => owner ∉ a_Address <$> l
    | Err _ => True | Panic => False
    end) s.
Proof.
  intros Hs. unfold AccountDao.GetByAddress, AccountDao.accounts.
  wp_step (get_first_spec (λ a, a_Address a = owner) (AccountDao.by_address owner) l s (proj1 Hs));
    [|intros; by apply by_address_ok].
  intros [r|e|] s' [Hd Hr]; [|by split; [eapply accounts_docs|]|done].
  apply wp_ret. split; [by eapply accounts_docs|]. destruct (head r); [done|].
  rewrite list_elem_of_fmap. intros (a & -> & Ha). rewrite Forall_forall in Hr. by apply (Hr a).
Qed.

Lemma account_Create_refines a l s : accounts_in s l → amounts_known (a_TokenBalances a) →
  wp (AccountDao.Create a) (λ r s', ∃ l', accounts_in s' l' ∧
    match r with
    | Ok (a', inr _) => (∃ id t1 t2, a' = set_times t1 t2 (set_a_ID id a)) ∧
                        l' ≡ₚ written a' :: l
    | Ok (a', inl _) => l' = l ∨ (∃ id t1 t2, a' = set_times t1 t2 (set_a_ID id a)) ∧
                                 l' ≡ₚ written a' :: l
    | _ => False
    end) s.
Proof.
  intros [Hl Hu] Ha. unfold AccountDao.Create.
  wp_step NewObjectId_ok. intros r1 s1 (Hd1 & id & -> & Hid).
  wp_step Now_ok. intros r2 s2 (Hd2 & t1 & ->). wp_step Now_ok. intros r3 s3 (Hd3 & t2 & ->).
  unfold wp_next. apply wp_bind. unfold Account_GetBSON. simpl a_ID. rewrite decide_False by done.
  apply wp_ret. unfold wp_next. set (a' := set_times _ _ _). apply wp_returning.
  assert (docs s3 = docs s) as Hd by congruence.
  assert (holds l s3) as Hl3 by (unfold holds; by rewrite Hd).
  assert (unique_ok unique_keys (docs s3)) as Hu3 by (by rewrite Hd).
  eapply wp_mono; [|apply (wp_and _ _ _ _ (insert_spec a' l s3 Hl3 Ha)
    (writes_unique _ _ s3 (Insert_ok _) Hu3))].
  intros [[]|e|] s' [Hr Hus]; [| |done]; destruct Hr as (l' & Hl' & Hp); exists l';
    (split; [by split|]); [split; [by exists id, t1, t2|done]|].
  destruct Hp as [->|Hp]; [by left|right]. split; [by exists id, t1, t2|done].
Qed.

Definition account_dao_spec : AccountDaoSpec W.
Proof.
  refine {| accounts := accounts_in |}.
  - apply addresses_unique.
  - apply GetByAddress_refines.
  - apply account_Create_refines.
Defined.

(** ** Updating a balance *)
Definition balances_doc (d : doc) : doc := subdoc (field "tokenBalances" d).
Definition entry_doc (t : Address) (d : doc) : doc :=
  subdoc (field (Address_Hex t) (balances_doc d)).
Definition with_balance (t : Address) (v : TokenBalance) (a : Account) : Account :=
  set_a_TokenBalances (<[t := v]> (a_TokenBalances a)) a.
Definition set_each (kvs : list (string * bval)) (e : doc) : doc :=
  foldl (λ e kv, set_fields [kv] e) e kvs.

Lemma with_balance_twice t v v' a : with_balance t v (with_balance t v' a) = with_balance t v a.
Proof. unfold with_balance. simpl. by rewrite insert_insert_eq. Qed.

Lemma stores_tokens a d : stores_account a d →
  a_TokenBalances a = balances_of (Some (BDoc (balances_doc d))) ∧ canonical (balances_doc d).
Proof.
  intros (Hd & _ & l & Hf & Hl). unfold balances_doc. rewrite Hf. simpl. split; [|done].
  unfold Account_SetBSON in Hd. rewrite Hf in Hd. go_inv. done.
Qed.

Lemma stored_balance a d t : stores_account a d →
  default no_balance (a_TokenBalances a !! t) = balance_in (entry_doc t d).
Proof.
  intros [-> Hl]%stores_tokens. rewrite balances_lookup by done. unfold entry_doc.
  destruct (field (Address_Hex t) (balances_doc d)) as [[]|]; done.
Qed.

(** One dotted path sets one field of one balance. *)
Lemma set_balance_step a d t kv :
  stores_account a d →
  let d' := set_path (AccountDao.balance_path t kv.1) kv.2 d in
  stores_account (with_balance t (balance_in (set_fields [kv] (entry_doc t d))) a) d' ∧
  entry_doc t d' = set_fields [kv] (entry_doc t d).
Proof.
  intros Hs. pose proof (stores_tokens a d Hs) as [Hm Hl]. destruct Hs as (Hd & Ha & _).
  set (e := set_fields [kv] (entry_doc t d)).
  set (l := set_fields [(Address_Hex t, BDoc e)] (balances_doc d)).
  assert (set_path (AccountDao.balance_path t kv.1) kv.2 d
    = set_fields [("tokenBalances", BDoc l)] d) as -> by (destruct kv; done).
  assert (canonical l) as Hl' by by apply canonical_set.
  assert (∀ k, k ≠ "tokenBalances" →
    field k (set_fields [("tokenBalances", BDoc l)] d) = field k d) as Hk.
  { intros k Hne. rewrite field_set_fields. simpl. by rewrite decide_False. }
  assert (field "tokenBalances" (set_fields [("tokenBalances", BDoc l)] d) = Some (BDoc l)) as Hb
    by (by rewrite field_set_fields).
  unfold stores_account. split_and!.
  - unfold Account_SetBSON, bson_string, bson_id, bson_bool, bson_time in *.
    rewrite Hb, !Hk by done.
    go_inv. unfold with_balance, set_a_TokenBalances. simpl in *. f_equal. f_equal.
    rewrite Hm. apply map_eq. intros t'. rewrite balances_lookup by done. unfold l at 1.
    rewrite field_set_fields. simpl. destruct (decide (t = t')) as [<-|Ht].
    + by rewrite decide_True, lookup_insert_eq.
    + rewrite decide_False, lookup_insert_ne by (done || by intros ?%(inj _)).
      by rewrite balances_lookup.
  - rewrite Hk by done. done.
  - by exists l.
  - unfold entry_doc at 1. unfold balances_doc at 1. rewrite Hb. cbn [subdoc]. unfold l.
    rewrite field_set_fields. cbn [field]. by rewrite decide_True.
Qed.

Lemma set_balance_steps a d t kv kvs :
  stores_account a d →
  stores_account (with_balance t (balance_in (set_each (kv :: kvs) (entry_doc t d))) a)
    (set_paths ((λ kv, (AccountDao.balance_path t kv.1, kv.2)) <$> kv :: kvs) d).
Proof.
  revert a d kv. induction kvs as [|kv' kvs IH]; intros a d kv Hs;
    destruct (set_balance_step a d t kv Hs) as [Hs1 He]; [exact Hs1|].
  specialize (IH _ _ kv' Hs1). rewrite He, with_balance_twice in IH. exact IH.
Qed.

(** The four fields an update sets; the last is one that is never read. *)
Definition updated_fields (v : TokenBalance) : doc :=
  [("balance", BStr (Big.Stringp (tb_Balance v)));
   ("allowance", BStr (Big.Stringp (tb_Allowance v)));
   ("lockedBalance", BStr (Big.Stringp (tb_LockedBalance v)));
   ("pendingBalance", BStr (Big.Stringp (tb_PendingBalance v)))].
Definition updated (old v : TokenBalance) : TokenBalance :=
  mkTokenBalance (tb_Address old) (tb_Symbol old) (tb_Balance v) (tb_Allowance v)
    (tb_PendingBalance old) (tb_LockedBalance v).

Lemma updated_balance e v :
  is_Some (tb_Balance v) → is_Some (tb_Allowance v) → is_Some (tb_LockedBalance v) →
  balance_in (set_each (updated_fields v) e) = updated (balance_in e) v.
Proof.
  intros Hb Ha Hl. unfold updated, balance_in, token_balance_of.
  assert (∀ k, k ∉ (updated_fields v).*1 → field k (set_each (updated_fields v) e) = field k e) as Hk.
  { intros k Hk. cbn in Hk. unfold set_each, updated_fields. cbn [foldl].
    rewrite !field_set_fields. cbn [field]. rewrite !decide_False by set_solver. done. }
  unfold bson_string at 1 2 3 4 5 6.
  rewrite (Hk "address"), (Hk "symbol"), (Hk "pendingbalance") by (cbn; set_solver).
  unfold set_each, updated_fields. cbn [foldl]. rewrite !field_set_fields. cbn [field].
  repeat (rewrite decide_True by done || rewrite decide_False by done).
  destruct (bson_string_total "address" e) as [x1 E1], (bson_string_total "symbol" e) as [x2 E2],
    (bson_string_total "pendingbalance" e) as [x3 E3],
    (bson_string_total "balance" e) as [x4 E4], (bson_string_total "allowance" e) as [x5 E5],
    (bson_string_total "lockedBalance" e) as [x6 E6].
  rewrite E1, E2, E3, E4, E5, E6. unfold bson_string in *. rewrite E1, E2, E3. simpl.
  by rewrite !SetString_Stringp.
Qed.

Lemma UpdateTokenBalance_effect token v s l a :
  accounts_in s l → a ∈ l →
  is_Some (tb_Balance v) → is_Some (tb_Allowance v) → is_Some (tb_LockedBalance v) →
  wp (AccountDao.UpdateTokenBalance (a_Address a) token v) (λ r s', match r with
    | Ok _ => ∃ l', accounts_in s' l' ∧
        with_balance token (updated (default no_balance (a_TokenBalances a !! token)) v) a ∈ l'
    | Err _ => True | Panic => False end) s.
Proof.
  intros [Hl Hu] Ha Hb Hal Hlk. unfold AccountDao.UpdateTokenBalance.
  eapply wp_mono; [|apply UpdateOne_ok]. cbn beta. intros [[]|e|] s'; [|done..].
  intros [(d & rest & Hp & Hm & _ & Hd') Hu'].
  destruct (Permutation_Forall2_r stores_account l (docs s) _ Hp Hl) as (l1 & Hl1 & Hf).
  destruct l1 as [|b l1]; [by inversion Hf|]. apply Forall2_cons in Hf as [Hbd Hf].
  apply (by_address_ok b) in Hm; [|done].
  assert (b = a) as ->.
  { apply (same_account l); [by apply (addresses_unique s)| |done|done]. rewrite Hl1. by left. }
  pose proof (set_balance_steps a d token _ _ Hbd : stores_account
    (with_balance token (balance_in (set_each (updated_fields v) (entry_doc token d))) a)
    (apply_update (USetPath _) d)) as Hs.
  rewrite updated_balance, <-(stored_balance a) in Hs by done. symmetry in Hd'.
  destruct (Permutation_Forall2_r stores_account _ _ _ Hd' (proj2 (Forall2_cons _ _ _ _ _) (conj Hs Hf)))
    as (l2 & Hl2 & Hf2).
  exists l2. split; [split; [exact Hf2|auto]|]. rewrite <-Hl2. by left.
Qed.

Lemma GetTokenBalances_read a l s : accounts_in s l → a ∈ l →
  wp (AccountDao.GetTokenBalances (a_Address a)) (λ r _,
    match r with Ok r => r = Some (a_TokenBalances a) | Err _ => True | Panic => False end) s.
Proof.
  intros Hs Ha. pose proof (GetByAddress_refines (a_Address a) l s Hs) as Hg.
  unfold AccountDao.GetTokenBalances, AccountDao.GetByAddress, wp, mbind, M_bind in *.
  destruct (AccountDao.accounts _ _ _) as [[r|e|] s1]; [|done|by destruct Hg].
  simpl in *. destruct Hg as [_ Hg]. destruct r as [|b r]; simpl in *.
  - destruct Hg. apply list_elem_of_fmap. by exists a.
  - destruct Hg as [Hb Hba]. f_equal. f_equal.
    by apply (same_account l); [apply (addresses_unique s)| | |].
Qed.

(** Reading a balance after [UpdateTokenBalance]: the balance, the allowance and
    the locked balance are the new ones and the other tokens' are as before, but
    the pending balance is the old one, because it is written under a key that
    is never read. *)
Theorem UpdateTokenBalance_keeps_pending token v s l a s1 r s2 :
  accounts_in s l → a ∈ l →
  is_Some (tb_Balance v) → is_Some (tb_Allowance v) → is_Some (tb_LockedBalance v) →
  AccountDao.UpdateTokenBalance (a_Address a) token v s = (Ok tt, s1) →
  AccountDao.GetTokenBalances (a_Address a) s1 = (Ok r, s2) →
  ∃ m, r = Some m ∧ (∀ t, t ≠ token → m !! t = a_TokenBalances a !! t) ∧
    m !! token = Some (updated (default no_balance (a_TokenBalances a !! token)) v).
Proof.
  intros Hs Ha Hb Hal Hlk Hrun Hread.
  destruct (wp_run _ _ _ _ _ Hrun (UpdateTokenBalance_effect token v s l a Hs Ha Hb Hal Hlk))
    as (l' & Hs1 & Ha').
  pose proof (wp_run _ _ _ _ _ Hread (GetTokenBalances_read _ l' s1 Hs1 Ha')) as Hr.
  cbn in Hr. rewrite Hr. eexists. split; [done|].
  split; [intros; by rewrite lookup_insert_ne|by rewrite lookup_insert_eq].
Qed.
End props.
