(* ===== verification/Tokens.v ===== *)
(** [types.Token] ([types/token.go]), the token collection ([daos/token.go]) and
    the token service ([services/token.go]).

    [validation.Required] is ozzo-validation's: an empty string and a zero number
    are refused; an array has a fixed length, so that an address never is. *)
From S2P Require Import Prelude BigMath Types Mongo Json Orders OrderCodec OrderDao Collection.

(** [types.Image]; what [Meta] holds is kept as it is stored. *)
Record Image := mkImage { img_URL : string; img_Meta : doc }.

Record Token := mkToken {
  k_ID : string;
  k_Name : string;
  k_Symbol : string;
  k_Address : Address;
  k_Image : Image;
  k_ContractAddress : Address;
  k_Decimals : Z;
  k_Active : bool;
  k_Listed : bool;
  k_Quote : bool;
  k_MakeFee : option Z;
  k_TakeFee : option Z;
  k_CreatedAt : Z;
  k_UpdatedAt : Z
}.

(** ** The codecs *)
Section codec.
Context `{EthCommon, Codecs, Big.Undefined}.

Definition Token_Validate (t : Token) : outcome unit :=
  ValidateStruct [("decimals", bool_decide (k_Decimals t = 0)); ("symbol", bool_decide (k_Symbol t = ""))].

Definition opt_fields {A} (x : option A) (f : A → doc) : doc :=
  match x with Some a => f a | None => [] end.

(** Neither [Address] nor [Listed] is a field of the record. *)
Definition Token_GetBSON (t : Token) : doc :=
  [("_id", BId (k_ID t)); ("name", BStr (k_Name t)); ("symbol", BStr (k_Symbol t));
   ("image", BDoc [("url", BStr (img_URL (k_Image t))); ("meta", BDoc (img_Meta (k_Image t)))]);
   ("contractAddress", BStr (Address_Hex (k_ContractAddress t)));
   ("decimals", BInt (k_Decimals t)); ("active", BBool (k_Active t));
   ("quote", BBool (k_Quote t))] ++
  opt_fields (k_MakeFee t) (λ f, [("makeFee", BStr (Big.String_Z f))]) ++
  opt_fields (k_TakeFee t) (λ f, [("takeFee", BStr (Big.String_Z f))]) ++
  [("createdAt", bson_of_time (k_CreatedAt t)); ("updatedAt", bson_of_time (k_UpdatedAt t))].

Definition bson_image (d : doc) : outcome Image :=
  let i := subdoc (field "image" d) in
  url ← bson_string "url" i; Ok (mkImage url (subdoc (field "meta" i))).

Definition Token_SetBSON (d : doc) : outcome Token :=
  id ← bson_id "_id" d;
  name ← bson_string "name" d;
  symbol ← bson_string "symbol" d;
  image ← bson_image d;
  contractAddress ← bson_string "contractAddress" d;
  decimals ← bson_int "decimals" d;
  active ← bson_bool "active" d;
  quote ← bson_bool "quote" d;
  createdAt ← bson_time "createdAt" d;
  updatedAt ← bson_time "updatedAt" d;
  makeFee ← bson_string "makeFee" d;
  takeFee ← bson_string "takeFee" d;
  let fee f := if decide (f = "") then None else Some (ToBigInt f) in
  Ok (mkToken id name symbol (0) image
        (if IsHexAddress contractAddress then HexToAddress contractAddress else 0)
        decimals active false quote (fee makeFee) (fee takeFee) createdAt updatedAt).

(** [token[k].(T)] on what may be nil. *)
Definition must {A} (k : string) (m : jmap) (as_type : json → outcome A) : outcome A :=
  v ← deref (jget k m); as_type v.
Definition as_bool (v : json) : outcome bool := match v with JBool b => Ok b | _ => Panic end.
(** [v.(int)]: no JSON value decodes to one. *)
Definition as_int (v : json) : outcome Z := Panic.

(** The fields are asserted one after another; the decimals before the fees, the
    times and the image. *)
Definition Token_UnmarshalJSON (j : json) (t : Token) : outcome Token :=
  m ← unmarshal_map j;
  _ ← must "id" m as_string;
  _ ← must "symbol" m as_string;
  _ ← must "decimals" m as_int;
  Ok t.
End codec.

(** ** daos/token.go *)
Module TokenDao.
Section dao.
Context `{EthCommon, Codecs, Big.Undefined}.
Context {W : Type} `{Runtime W, !Mongo W}.

Definition unique_index : list (list string) := [["contractAddress"]].

Definition stamped (id : string) (t1 t2 : Z) (t : Token) : Token :=
  mkToken id (k_Name t) (k_Symbol t) (k_Address t) (k_Image t) (k_ContractAddress t)
    (k_Decimals t) (k_Active t) (k_Listed t) (k_Quote t) (k_MakeFee t) (k_TakeFee t) t1 t2.
Definition Create (t : Token) : M W (Token * (error + unit)) :=
  match Token_Validate t with
  | Err e => mret (t, inl e)
  | Panic => crash
  | Ok _ =>
    id ← NewObjectId;
    t1 ← Now;
    t2 ← Now;
    let t := stamped id t1 t2 t in
    returning t (Insert [Some (Token_GetBSON t)])
  end.

Definition tokens (q : query) (limit : nat) : M W (list Token) :=
  ds ← Find q [] 0 limit; lift (decode_all Token_SetBSON ds).
Definition GetAll : M W (list Token) := tokens (Fields []) 0.
Definition quoted (b : bool) : query := Fields [("quote", Equal (BBool b))].
Definition GetQuoteTokens : M W (list Token) := tokens (quoted true) 0.
Definition GetBaseTokens : M W (list Token) := tokens (quoted false) 0.
Definition GetByID (id : string) : M W Token :=
  d ← FindOne (Fields [("_id", Equal (BId id))]); lift (Token_SetBSON d).
Definition by_contract (addr : Address) : query :=
  Fields [("contractAddress", Equal (BStr (Address_Hex addr)))].
Definition GetByAddress (addr : Address) : M W (option Token) :=
  resp ← tokens (by_contract addr) 1; mret (head resp).
Definition Drop : M W unit := DropColl.
End dao.
End TokenDao.

(** [interfaces.TokenDao] *)
Class ITokenDao (KS : Type) := {
  kd_Create : Token → M KS (Token * (error + unit));
  kd_GetAll : M KS (list Token);
  kd_GetByID : string → M KS Token;
  kd_GetByAddress : Address → M KS (option Token);
  kd_GetQuoteTokens : M KS (list Token);
  kd_GetBaseTokens : M KS (list Token)
}.

(** ** services/token.go *)
Module TokenService.
Section service.
Context {KS : Type} `{ITokenDao KS}.
Definition ErrTokenExists : error := "Token already exists".
Definition Create (t : Token) : M KS (Token * (error + unit)) :=
  r ← attempt (kd_GetByAddress (k_ContractAddress t));
  match r with
  | inl e => mret (t, inl e)
  | inr (Some _) => mret (t, inl ErrTokenExists)
  | inr None => kd_Create t
  end.
Definition GetByID (id : string) : M KS Token := kd_GetByID id.
Definition GetByAddress (addr : Address) : M KS (option Token) := kd_GetByAddress addr.
Definition GetAll : M KS (list Token) := kd_GetAll.
Definition GetQuoteTokens : M KS (list Token) := kd_GetQuoteTokens.
Definition GetBaseTokens : M KS (list Token) := kd_GetBaseTokens.
End service.
End TokenService.

(** ** The contract *)

(** What the record keeps of a token. *)
Definition recorded (t : Token) : Token :=
  mkToken (k_ID t) (k_Name t) (k_Symbol t) (0) (k_Image t) (k_ContractAddress t) (k_Decimals t)
    (k_Active t) false (k_Quote t) (k_MakeFee t) (k_TakeFee t)
    (truncate_ms (k_CreatedAt t)) (truncate_ms (k_UpdatedAt t)).

Class TokenDaoSpec (KS : Type) `{ITokenDao KS} := {
  tokens : KS → list Token → Prop;
  tokens_recorded s l t : tokens s l → t ∈ l → recorded t = t;
  tokens_unique s l : tokens s l → NoDup (k_ContractAddress <$> l);
  kd_GetAll_spec l s : tokens s l →
    wp kd_GetAll (λ r s', tokens s' l ∧
      match r with Ok ts => ts ≡ₚ l | Err _ => True | Panic => False end) s;
  kd_GetByAddress_spec addr l s : tokens s l →
    wp (kd_GetByAddress addr) (λ r s', tokens s' l ∧
      match r with
      | Ok (Some t) => t ∈ l ∧ k_ContractAddress t = addr
      | Ok None => addr ∉ k_ContractAddress <$> l
      | Err _ => True | Panic => False
      end) s;
  kd_GetQuoteTokens_spec l s : tokens s l →
    wp kd_GetQuoteTokens (λ r s', tokens s' l ∧
      match r with
      | Ok ts => ts ≡ₚ base.filter (λ t, k_Quote t = true) l
      | Err _ => True | Panic => False
      end) s;
  kd_Create_spec t l s : tokens s l →
    wp (kd_Create t) (λ r s', ∃ l', tokens s' l' ∧
      match r with
      | Ok (t', inr _) => k_Symbol t ≠ "" ∧ k_Decimals t ≠ 0 ∧
          (∃ id t1 t2, t' = TokenDao.stamped id t1 t2 t) ∧ l' ≡ₚ recorded t' :: l
      | Ok (t', inl _) => l' = l ∨ l' ≡ₚ recorded t' :: l
      | _ => False
      end) s
}.
