(* ===== verification/TokenDaoProps.v ===== *)
(** [daos/token.go] implements the contract of [Tokens]. *)
From S2P Require Import Prelude BigMath Types Mongo Json Orders OrderCodec OrderDao Collection Tokens.

Section props.
Context `{EthCommonLaws} `{!Codecs, !CodecLaws _ _} `{Big.Undefined}.

Definition stores_token (t : Token) (d : doc) : Prop :=
  Token_SetBSON d = Ok t ∧ recorded t = t ∧
  field "contractAddress" d = Some (BStr (Address_Hex (k_ContractAddress t))) ∧
  field "quote" d = Some (BBool (k_Quote t)).

#[export] Instance token_stored : Stored Token := {|
  get_bson := Token_GetBSON; set_bson := Token_SetBSON;
  stores_record := stores_token; kept_record := recorded; storable _ := True
|}.

(** A fee that is set is printed and read back; one that is not is left out. *)
Definition fee_text (f : option Z) : string :=
  match f with Some x => Big.String_Z x | None => "" end.
Lemma fee_read f : (if decide (fee_text f = "") then None else Some (ToBigInt (fee_text f))) = f.
Proof.
  destruct f as [x|]; simpl; [|done]. rewrite decide_False by apply String_Z_not_empty.
  by rewrite ToBigInt_String_Z.
Qed.

Lemma Token_decode d t :
  (∀ k v, field k (Token_GetBSON t) = Some v → field k d = Some v) →
  bson_string "makeFee" d = Ok (fee_text (k_MakeFee t)) →
  bson_string "takeFee" d = Ok (fee_text (k_TakeFee t)) →
  Token_SetBSON d = Ok (recorded t).
Proof.
  intros Hk Hm Htk. unfold Token_SetBSON. rewrite Hm, Htk.
  unfold bson_string, bson_id, bson_image, bson_int, bson_bool, bson_time.
  repeat match goal with |- context [field ?k d] => erewrite (Hk k) by reflexivity end.
  simpl. rewrite IsHexAddress_Hex, HexToAddress_Hex, !fee_read.
  assert (∀ k v, field k [("createdAt", bson_of_time (k_CreatedAt t));
    ("updatedAt", bson_of_time (k_UpdatedAt t))] = Some v → field k d = Some v) as Ht.
  { intros k v Hv. apply Hk. unfold Token_GetBSON. simpl in Hv.
    destruct (k_MakeFee t), (k_TakeFee t); simpl; repeat (case_decide; simplify_eq; try done). }
  rewrite (Ht "createdAt" _ eq_refl), (Ht "updatedAt" _ eq_refl). simpl. by destruct t as [????[]].
Qed.

Lemma inserted_fee t d k f :
  (k = "makeFee" ∧ f = k_MakeFee t) ∨ (k = "takeFee" ∧ f = k_TakeFee t) →
  inserted (Some (Token_GetBSON t)) d → bson_string k d = Ok (fee_text f).
Proof.
  intros Hk Hd. unfold bson_string. rewrite Hd by (left; by destruct Hk as [[-> _]|[-> _]]).
  simpl default. unfold Token_GetBSON.
  destruct Hk as [[-> ->]|[-> ->]]; destruct (k_MakeFee t), (k_TakeFee t); reflexivity.
Qed.

Lemma recorded_idem t : recorded (recorded t) = recorded t.
Proof. destruct t. unfold recorded. cbn -[truncate_ms]. f_equal; symmetry; apply truncate_ms_idem. Qed.

#[export] Instance token_stored_laws : StoredLaws Token.
Proof.
  split; [by intros t d [Hd _]|]. intros t d _ Hd.
  assert (∀ k v, field k (Token_GetBSON t) = Some v → field k d = Some v) as Hk.
  { intros k v Hv. rewrite Hd; [done|right; by eexists]. }
  split_and!.
  - apply Token_decode; [done|apply (inserted_fee t d "makeFee"); [by left|done]|].
    apply (inserted_fee t d "takeFee"); [by right|done].
  - apply recorded_idem.
  - by apply Hk.
  - by apply Hk.
Qed.

Context {W : Type} `{Runtime W, !Mongo W, !MongoLaws W}.

#[export] Instance token_dao : ITokenDao W := {|
  kd_Create := TokenDao.Create;
  kd_GetAll := TokenDao.GetAll;
  kd_GetByID := TokenDao.GetByID;
  kd_GetByAddress := TokenDao.GetByAddress;
  kd_GetQuoteTokens := TokenDao.GetQuoteTokens;
  kd_GetBaseTokens := TokenDao.GetBaseTokens
|}.

(** The unique index of [NewTokenDao]. *)
Hypothesis indexed : unique_keys = TokenDao.unique_index.

Definition tokens_in (s : W) (l : list Token) : Prop :=
  holds l s ∧ unique_ok unique_keys (docs s).
Lemma tokens_docs s s' l : tokens_in s l → docs s' = docs s → tokens_in s' l.
Proof. unfold tokens_in, holds. by intros ? ->. Qed.

Lemma by_contract_ok addr t d :
  stores_token t d → matches (TokenDao.by_contract addr) d = true ↔ k_ContractAddress t = addr.
Proof.
  intros (_ & _ & Hd & _). simpl. rewrite Hd. simpl. rewrite andb_true_r, bool_decide_eq_true.
  split; [by intros [= ->%(inj Address_Hex)]|by intros ->].
Qed.
Lemma quoted_ok b t d :
  stores_token t d → matches (TokenDao.quoted b) d = true ↔ k_Quote t = b.
Proof.
  intros (_ & _ & _ & Hd). simpl. rewrite Hd. simpl. rewrite andb_true_r, bool_decide_eq_true.
  split; [by intros [= ->]|by intros ->].
Qed.

(** A query without a limit, whose order is the server's. *)
Lemma tokens_spec (P : Token → Prop) `{∀ t, Decision (P t)} q l s :
  tokens_in s l → (∀ t d, stores_token t d → matches q d = true ↔ P t) →
  wp (TokenDao.tokens (W:=W) q 0) (λ r s', tokens_in s' l ∧
    match r with
    | Ok ts => ts ≡ₚ base.filter P l
    | Err _ => True | Panic => False
    end) s.
Proof.
  intros Hs HP. eapply wp_mono; [|apply (get_all_spec P (λ _ _, True) q [] 0 0 l s (proj1 Hs) HP)];
    [|done]. cbn beta.
  intros [r|e|] s' [Hd Hr]; [|by split; [eapply tokens_docs|]|done].
  split; [by eapply tokens_docs|]. destruct Hr as (ys & Hys & _ & ->).
  unfold slice. by rewrite drop_0, decide_True.
Qed.

Lemma Token_Validate_ok t :
  Token_Validate t = Ok tt ↔ k_Symbol t ≠ "" ∧ k_Decimals t ≠ 0.
Proof.
  unfold Token_Validate, ValidateStruct. repeat case_bool_decide; simpl; split; try done; tauto.
Qed.

Lemma kd_Create_refines t l s : tokens_in s l →
  wp (TokenDao.Create t) (λ r s', ∃ l', tokens_in s' l' ∧
    match r with
    | Ok (t', inr _) => k_Symbol t ≠ "" ∧ k_Decimals t ≠ 0 ∧
        (∃ id t1 t2, t' = TokenDao.stamped id t1 t2 t) ∧ l' ≡ₚ recorded t' :: l
    | Ok (t', inl _) => l' = l ∨ l' ≡ₚ recorded t' :: l
    | _ => False
    end) s.
Proof.
  intros Hs. unfold TokenDao.Create. destruct (Token_Validate t) as [[]|e|] eqn:Hv.
  - wp_step NewObjectId_ok. intros r1 s1 (Hd1 & id & -> & _).
    wp_step Now_ok. intros r2 s2 (Hd2 & t1 & ->). wp_step Now_ok. intros r3 s3 (Hd3 & t2 & ->).
    unfold wp_next. set (t' := TokenDao.stamped _ _ _ _). apply wp_returning.
    assert (tokens_in s3 l) as [Hl3 Hu3] by (eapply tokens_docs; [exact Hs|congruence]).
    apply Token_Validate_ok in Hv as [??].
    eapply wp_mono; [|apply (wp_and _ _ _ _ (insert_spec t' l s3 Hl3 I)
      (writes_unique _ _ s3 (Insert_ok _) Hu3))].
    intros [[]|e|] s' [Hr Hus]; [| |done]; destruct Hr as (l' & Hl' & Hp); exists l';
      (split; [by split|]); [|done]. split_and!; [done|done|by exists id, t1, t2|done].
  - exists l. split; [exact Hs|by left].
  - exfalso. revert Hv. unfold Token_Validate, ValidateStruct. by repeat case_bool_decide.
Qed.

Definition token_dao_spec : TokenDaoSpec W.
Proof.
  refine {| tokens := tokens_in |}.
  - intros s l t [Hl _] [i Hi]%list_elem_of_lookup.
    by destruct (Forall2_lookup_l _ _ _ _ _ Hl Hi) as (d & _ & _ & Ht & _).
  - intros s l [Hl Hu].
    apply (unique_records k_ContractAddress (λ x, BStr (Address_Hex x)) "contractAddress" l s Hl);
      [rewrite indexed; by left|done|]. by intros t d (_ & _ & Ht & _).
  - intros l s Hs. eapply wp_mono; [|apply (tokens_spec (λ _, True) (Fields []) l s Hs); done].
    cbn beta. intros [ts|e|] s' [? Hr]; [|done..]. split; [done|]. rewrite Hr.
    by rewrite filter_all.
  - intros addr l s Hs. simpl. unfold TokenDao.GetByAddress.
    wp_step (get_first_spec (λ t, k_ContractAddress t = addr) (TokenDao.by_contract addr) l s
      (proj1 Hs)); [|intros; by apply by_contract_ok].
    intros [r|e|] s' [Hd Hr]; [|by split; [eapply tokens_docs|]|done].
    apply wp_ret. split; [by eapply tokens_docs|]. destruct (head r); [done|].
    rewrite list_elem_of_fmap. intros (t & -> & Ht). rewrite Forall_forall in Hr. by apply (Hr t).
  - intros l s Hs. apply tokens_spec; [done|]. intros. by apply quoted_ok.
  - apply kd_Create_refines.
Defined.
End props.
