(* ===== verification/OrderStore.v ===== *)
(** [interfaces.OrderDao]: the operations the engine and the services call, and
    what they promise, stated on an abstract order book (a map from order hash
    to order).  The engine is verified against this interface; [OrderDaoRefine]
    shows that [daos/order.go] implements it. *)
From S2P Require Import Prelude BigMath Types Orders Mongo Json OrderCodec OrderDao.

(** [interfaces.OrderDao], the part that is used. *)
Class IOrderDao (OS : Type) := {
  od_Create : Order → M OS (Order * (error + unit));
  od_FindAndModify : Hash → Order → M OS (Order * (error + Order));
  od_UpdateOrderStatus : Hash → string → M OS unit;
  od_UpdateOrderStatusesByHashes : string → list Hash → M OS (list Order);
  od_UpdateOrderFilledAmounts : list Hash → list (option Z) → M OS (list Order);
  od_GetByHash : Hash → M OS (option Order);
  od_GetByHashes : list Hash → M OS (list Order);
  od_GetByUserAddress : Address → nat → M OS (list Order);
  od_GetCurrentByUserAddress : Address → nat → M OS (list Order);
  od_GetHistoryByUserAddress : Address → nat → M OS (list Order);
  od_GetMatchingBuyOrders : Order → M OS (list Order);
  od_GetMatchingSellOrders : Order → M OS (list Order);
  od_GetUserLockedBalance : Address → Address → Pair → M OS Z;
  od_GetRawOrderBook : Pair → M OS (list Order);
  od_GetOrderBook : option Pair →
    M OS (list (list (string * string)) * list (list (string * string)));
  od_GetSideOrderBook : option Pair → string → dir → option nat →
    M OS (list (list (string * string)));
  od_GetOrderBookPricePoint : Pair → option Z → string → M OS (option Z)
}.

(** ** The abstract order book *)
Abbreviation book := (gmap Z Order).

Definition is_open (o : Order) : Prop :=
  o_Status o = "OPEN" ∨ o_Status o = "PARTIAL_FILLED".
#[export] Instance is_open_dec o : Decision (is_open o).
Proof. unfold is_open. apply _. Defined.

Definition same_pair (o o' : Order) : Prop :=
  o_BaseToken o = o_BaseToken o' ∧ o_QuoteToken o = o_QuoteToken o'.
#[export] Instance same_pair_dec o o' : Decision (same_pair o o').
Proof. unfold same_pair. apply _. Defined.

Definition price (o : Order) : Z := default 0 (o_PricePoint o).
Definition amount (o : Order) : Z := default 0 (o_Amount o).
Definition filled (o : Order) : Z := default 0 (o_FilledAmount o).
Definition remaining (o : Order) : Z := amount o - filled o.

(** The orders of the other side a taker can trade with. *)
Definition matches_sell (o m : Order) : Prop :=
  is_open m ∧ same_pair o m ∧ o_Side m = SELL ∧ price m ≤ price o.
Definition matches_buy (o m : Order) : Prop :=
  is_open m ∧ same_pair o m ∧ o_Side m = BUY ∧ price o ≤ price m.
#[export] Instance matches_sell_dec o m : Decision (matches_sell o m).
Proof. unfold matches_sell. apply _. Defined.
#[export] Instance matches_buy_dec o m : Decision (matches_buy o m).
Proof. unfold matches_buy. apply _. Defined.

(** Price-time priority: the best price first, the oldest first at one price. *)
Definition sell_priority (a b : Order) : Prop :=
  price a < price b ∨ (price a = price b ∧ o_CreatedAt a ≤ o_CreatedAt b).
Definition buy_priority (a b : Order) : Prop :=
  price b < price a ∨ (price a = price b ∧ o_CreatedAt a ≤ o_CreatedAt b).

Definition orders_of (bk : book) : list Order := (map_to_list bk).*2.

(** [u] is [o] up to what the database owns: the identifier and the times. *)
Definition same_content (o u : Order) : Prop :=
  u = set_o_ID (o_ID u) (set_o_CreatedAt (o_CreatedAt u)
        (set_o_UpdatedAt (o_UpdatedAt u) o)).

Definition upserted (bk : book) (o u : Order) : Prop :=
  same_content o u ∧ ∀ old, bk !! o_Hash o = Some old → o_CreatedAt u = o_CreatedAt old.

Definition price_exact (o : Order) : Prop := decimal_exact (price o) = true.
Definition amounts_exact (o : Order) : Prop :=
  decimal_exact (amount o) = true ∧ decimal_exact (filled o) = true.
Definition book_prices_exact (bk : book) : Prop := map_Forall (λ _, price_exact) bk.

Definition mark (t : Z) (status : string) (hs : list Hash) (bk : book) : book :=
  (λ o, if decide (o_Hash o ∈ hs) then set_o_Status status (set_o_UpdatedAt t o) else o)
  <$> bk.

(** Subtracting [a] from an order's filled amount, never below zero nor above
    the amount, and the status that goes with the result. *)
Definition refill (o : Order) (a : Z) : Order :=
  let f := filled o - a in
  if f <=? 0 then set_o_Status "OPEN" (set_o_FilledAmount (Some 0) o)
  else if amount o <=? f
       then set_o_Status "FILLED" (set_o_FilledAmount (o_Amount o) o)
       else set_o_Status "PARTIAL_FILLED" (set_o_FilledAmount (Some f) o).

(** [zip]ping the stored orders with the amounts, in the order the database
    returns them. *)
Fixpoint refill_all (os : list Order) (amounts : list (option Z)) : option (list Order) :=
  match os, amounts with
  | [], _ => Some []
  | o :: os', Some a :: amounts' => cons (refill o a) <$> refill_all os' amounts'
  | _ :: _, _ => None
  end.
Definition insert_orders (os : list Order) (bk : book) : book :=
  foldl (λ bk o, <[o_Hash o := o]> bk) bk os.

Definition locked_by (account token : Address) (o : Order) : Prop :=
  o_UserAddress o = account ∧ is_open o ∧
  ((o_Side o = BUY ∧ o_QuoteToken o = token) ∨ (o_Side o = SELL ∧ o_BaseToken o = token)).
#[export] Instance locked_by_dec a t o : Decision (locked_by a t o).
Proof. unfold locked_by. apply _. Defined.

Definition at_price (p : Pair) (pp : Z) (side : string) (o : Order) : Prop :=
  is_open o ∧ o_BaseToken o = p_BaseTokenAddress p ∧
  o_QuoteToken o = p_QuoteTokenAddress p ∧ price o = pp ∧ o_Side o = side.
#[export] Instance at_price_dec p pp s o : Decision (at_price p pp s o).
Proof. unfold at_price. apply _. Defined.

(** ** The contract *)

Section contract.
Context {OS : Type} (view : OS → book) (inv : OS → Prop).

(** A query keeps the book; when it succeeds its answer is as described. *)
Definition queries {A} (m : M OS A) (post : book → A → Prop) : Prop :=
  ∀ s, inv s → wp m (λ r s', inv s' ∧ view s' = view s ∧
    match r with Ok a => post (view s) a | Err _ => True | Panic => False end) s.

(** A command that succeeds has its effect; one that fails may have had it. *)
Definition commands {A} (m : M OS A) (eff : book → book → A → Prop) : Prop :=
  ∀ s, inv s → wp m (λ r s', inv s' ∧
    match r with
    | Ok a => eff (view s) (view s') a
    | Err _ => view s' = view s ∨ ∃ a, eff (view s) (view s') a
    | Panic => False
    end) s.
End contract.

Class OrderDaoSpec (OS : Type) `{IOrderDao OS} := {
  order_book : OS → book;
  od_inv : OS → Prop;
  book_complete s h o : od_inv s → order_book s !! h = Some o →
    complete o ∧ o_Hash o = h;
  FindAndModify_spec o : complete o → ∀ s, od_inv s →
    wp (od_FindAndModify (o_Hash o) o) (λ r s', od_inv s' ∧
      match r with
      | Ok (o', res) =>
        (∃ t, o' = set_o_UpdatedAt t o) ∧
        match res with
        | inr u => upserted (order_book s) o u ∧
                   order_book s' = <[o_Hash o := u]> (order_book s)
        | inl _ => order_book s' = order_book s ∨
                   ∃ u, upserted (order_book s) o u ∧
                        order_book s' = <[o_Hash o := u]> (order_book s)
        end
      | _ => False
      end) s;
  UpdateOrderStatus_spec h st :
    commands order_book od_inv (od_UpdateOrderStatus h st) (λ bk bk' _,
      ∃ o, bk !! h = Some o ∧ bk' = <[h := set_o_Status st o]> bk);
  UpdateOrderStatusesByHashes_spec st hs :
    commands order_book od_inv (od_UpdateOrderStatusesByHashes st hs) (λ bk bk' os,
      (bk' = bk ∧ os = []) ∨
      (∃ t, bk' = mark t st hs bk) ∧
      (os = [] ∨ os ≡ₚ base.filter (λ o, o_Hash o ∈ hs) (orders_of bk')));
  UpdateOrderFilledAmounts_spec hs amounts s : od_inv s →
    wp (od_UpdateOrderFilledAmounts hs amounts) (λ r s', od_inv s' ∧
      ∃ os, os ≡ₚ base.filter (λ o, o_Hash o ∈ hs) (orders_of (order_book s)) ∧
      match r with
      | Ok us => refill_all os amounts = Some us ∧
                 order_book s' = insert_orders us (order_book s)
      | Err _ => ∃ n us, refill_all (take n os) amounts = Some us ∧
                         order_book s' = insert_orders us (order_book s)
      | Panic => refill_all os amounts = None ∧ ∃ n us, refill_all (take n os) amounts = Some us ∧
                   order_book s' = insert_orders us (order_book s)
      end) s;
  GetByHash_spec h :
    queries order_book od_inv (od_GetByHash h) (λ bk r, r = bk !! h);
  GetMatchingSellOrders_spec o s : od_inv s →
    is_Some (o_PricePoint o) → price_exact o → book_prices_exact (order_book s) →
    wp (od_GetMatchingSellOrders o) (λ r s', od_inv s' ∧ order_book s' = order_book s ∧
      match r with
      | Ok l => l ≡ₚ base.filter (matches_sell o) (orders_of (order_book s)) ∧
                StronglySorted sell_priority l
      | Err _ => True | Panic => False
      end) s;
  GetMatchingBuyOrders_spec o s : od_inv s →
    is_Some (o_PricePoint o) → price_exact o → book_prices_exact (order_book s) →
    wp (od_GetMatchingBuyOrders o) (λ r s', od_inv s' ∧ order_book s' = order_book s ∧
      match r with
      | Ok l => l ≡ₚ base.filter (matches_buy o) (orders_of (order_book s)) ∧
                StronglySorted buy_priority l
      | Err _ => True | Panic => False
      end) s;
  GetUserLockedBalance_spec account token p :
    queries order_book od_inv (od_GetUserLockedBalance account token p) (λ bk v,
      ∃ vs, mapM (λ o, match RemainingSellAmount p o with Ok x => Some x | _ => None end)
              (base.filter (locked_by account token) (orders_of bk)) = Some vs ∧
            v = sumZ vs);
  GetOrderBookPricePoint_spec p pp side s : od_inv s →
    decimal_exact pp = true →
    map_Forall (λ _ o, price_exact o ∧ amounts_exact o) (order_book s) →
    decimal_exact (sumZ (remaining <$>
      base.filter (at_price p pp side) (orders_of (order_book s)))) = true →
    wp (od_GetOrderBookPricePoint p (Some pp) side) (λ r s', od_inv s' ∧
      order_book s' = order_book s ∧
      match r with
      | Ok v => v = match base.filter (at_price p pp side) (orders_of (order_book s)) with
                    | [] => None | os => Some (sumZ (remaining <$> os)) end
      | Err _ => True | Panic => False
      end) s;
  (** Whatever it is asked, it only reads. *)
  GetOrderBookPricePoint_reads p pp side s : od_inv s →
    wp (od_GetOrderBookPricePoint p pp side) (λ _ s', od_inv s' ∧ order_book s' = order_book s) s
}.
(** The bulk update of the statuses takes effect: the database does not fail. *)
Definition orders_marked (OS : Type) `{OrderDaoSpec OS} : Prop := ∀ st hs s, od_inv s →
  wp (od_UpdateOrderStatusesByHashes st hs) (λ _ s', ∃ t,
    order_book s' = mark t st hs (order_book s)) s.
