(* ===== verification/OrderDaoRefine.v ===== *)
(** [daos/order.go] implements the contract of [OrderStore]: the documents of
    the collection represent a map from hash to order, every operation keeps
    that representation and acts on the map as the contract says. *)
From S2P Require Import Prelude BigMath Types Orders Mongo Json OrderCodec OrderDao OrderStore.

Section refine.
Context `{EthCommonLaws} `{!Codecs, !CodecLaws _ _} `{Big.Undefined, Decimals}.
Context {W : Type} `{Runtime W, !Mongo W, !MongoLaws W}.

#[export] Instance order_dao : IOrderDao W := {|
  od_Create := OrderDao.Create;
  od_FindAndModify := OrderDao.FindAndModify;
  od_UpdateOrderStatus := OrderDao.UpdateOrderStatus;
  od_UpdateOrderStatusesByHashes := OrderDao.UpdateOrderStatusesByHashes;
  od_UpdateOrderFilledAmounts := OrderDao.UpdateOrderFilledAmounts;
  od_GetByHash := OrderDao.GetByHash;
  od_GetByHashes := OrderDao.GetByHashes;
  od_GetByUserAddress := OrderDao.GetByUserAddress;
  od_GetCurrentByUserAddress := OrderDao.GetCurrentByUserAddress;
  od_GetHistoryByUserAddress := OrderDao.GetHistoryByUserAddress;
  od_GetMatchingBuyOrders := OrderDao.GetMatchingBuyOrders;
  od_GetMatchingSellOrders := OrderDao.GetMatchingSellOrders;
  od_GetUserLockedBalance := OrderDao.GetUserLockedBalance;
  od_GetRawOrderBook := OrderDao.GetRawOrderBook;
  od_GetOrderBook := OrderDao.GetOrderBook;
  od_GetSideOrderBook := OrderDao.GetSideOrderBook;
  od_GetOrderBookPricePoint := OrderDao.GetOrderBookPricePoint
|}.

(** ** Representation *)
Definition decode (d : doc) : option Order :=
  match Order_SetBSON d with Ok o => Some o | _ => None end.
Definition keyed (o : Order) : Z * Order := (o_Hash o, o).
Definition book_of (os : list Order) : book := list_to_map (keyed <$> os).
Definition represents (ds : list doc) (os : list Order) : Prop :=
  Forall2 stores os ds ∧ NoDup (o_Hash <$> os).
Definition dao_book (s : W) : book := book_of (omap decode (docs s)).
Definition dao_inv (s : W) : Prop := ∃ os, represents (docs s) os.

Lemma keyed_fst os : (keyed <$> os).*1 = o_Hash <$> os.
Proof. by rewrite <-list_fmap_compose. Qed.

Lemma decode_stores os ds : Forall2 stores os ds → omap decode ds = os.
Proof.
  induction 1 as [|o d os ds Hs Hf IH]; simpl; [done|].
  unfold decode at 1. rewrite (stores_decode _ _ Hs). by f_equal.
Qed.

Lemma decode_all_stores os ds :
  Forall2 stores os ds → decode_all Order_SetBSON ds = Ok os.
Proof.
  induction 1 as [|o d os ds Hs Hf IH]; simpl; [done|].
  by rewrite (stores_decode _ _ Hs); simpl; rewrite IH.
Qed.

Lemma represents_book s os : represents (docs s) os → dao_book s = book_of os.
Proof. intros [Hs _]. unfold dao_book. by rewrite (decode_stores os). Qed.

Lemma represents_docs s s' os :
  represents (docs s) os → docs s' = docs s → dao_inv s' ∧ dao_book s' = book_of os.
Proof.
  intros Hr Hd. split; [exists os; by rewrite Hd|].
  apply represents_book. by rewrite Hd.
Qed.

Lemma represents_perm ds ds' os :
  ds ≡ₚ ds' → represents ds os → ∃ os', os ≡ₚ os' ∧ represents ds' os'.
Proof.
  intros Hp [Hs Hn]. destruct (Permutation_Forall2_r _ _ _ _ Hp Hs) as (os' & Hos & Hs').
  exists os'. split; [done|]. split; [done|]. by rewrite <-Hos.
Qed.

Lemma book_of_perm os os' :
  NoDup (o_Hash <$> os) → os ≡ₚ os' → book_of os = book_of os'.
Proof.
  intros Hn Hp. apply list_to_map_proper; [by rewrite keyed_fst|by rewrite Hp].
Qed.

Lemma orders_of_book os : NoDup (o_Hash <$> os) → orders_of (book_of os) ≡ₚ os.
Proof.
  intros Hn. unfold orders_of, book_of.
  rewrite map_to_list_to_map by (by rewrite keyed_fst).
  by rewrite <-list_fmap_compose, list_fmap_id.
Qed.

Lemma book_of_lookup os h o :
  NoDup (o_Hash <$> os) → book_of os !! h = Some o ↔ o ∈ os ∧ o_Hash o = h.
Proof.
  intros Hn. unfold book_of. rewrite <-elem_of_list_to_map by (by rewrite keyed_fst).
  rewrite list_elem_of_fmap. split.
  - intros (o' & [= -> ->] & ?). done.
  - intros [? <-]. by exists o.
Qed.

Lemma book_of_none os h :
  (∀ o, o ∈ os → o_Hash o ≠ h) → book_of os !! h = None.
Proof.
  intros Hn. apply not_elem_of_list_to_map. rewrite keyed_fst, list_elem_of_fmap.
  intros (o & -> & Ho). by eapply Hn.
Qed.

Lemma represents_cons d rest o os :
  represents (d :: rest) (o :: os) ↔
  stores o d ∧ o_Hash o ∉ o_Hash <$> os ∧ represents rest os.
Proof. unfold represents. simpl. rewrite NoDup_cons, Forall2_cons. tauto. Qed.

Lemma represents_split ds d rest os :
  ds ≡ₚ d :: rest → represents ds os →
  ∃ o os', os ≡ₚ o :: os' ∧ represents (d :: rest) (o :: os').
Proof.
  intros Hp Hr. destruct (represents_perm _ _ _ Hp Hr) as (os' & Hos & Hr').
  destruct os' as [|o os'].
  - destruct Hr' as [Hs _]. by inversion Hs.
  - eauto.
Qed.

Lemma book_of_cons o os : book_of (o :: os) = <[o_Hash o := o]> (book_of os).
Proof. done. Qed.

(** Matching one document by hash. *)
Lemma matches_by_hash o d h :
  stores o d → matches (OrderDao.by_hash h) d = true ↔ o_Hash o = h.
Proof.
  intros Hs. simpl. rewrite (stores_field o d "hash" (BStr (Hash_Hex (o_Hash o))) Hs)
    by (unfold order_bson; set_solver).
  rewrite andb_true_r, bool_decide_eq_true. split; [|by intros ->].
  by intros [= ->%(inj Hash_Hex)].
Qed.

Lemma matches_hashes_in o d hs :
  stores o d → matches (OrderDao.hashes_in hs) d = true ↔ o_Hash o ∈ hs.
Proof.
  intros Hs. simpl. rewrite (stores_field o d "hash" (BStr (Hash_Hex (o_Hash o))) Hs)
    by (unfold order_bson; set_solver).
  rewrite andb_true_r, bool_decide_eq_true, list_elem_of_fmap. split.
  - by intros (h & [= ->%(inj Hash_Hex)] & ?).
  - eauto.
Qed.

(** Replacing the document of one order. *)
Lemma represents_replace ds d rest os u d' o os' ds' :
  represents ds os → os ≡ₚ o :: os' → represents (d :: rest) (o :: os') →
  stores u d' → o_Hash u = o_Hash o → ds' ≡ₚ d' :: rest →
  ∃ us, represents ds' us ∧ book_of us = <[o_Hash o := u]> (book_of os).
Proof.
  intros [_ Hn] Hp Hr Hu Hh Hd. apply represents_cons in Hr as (_ & Hni & Hr).
  assert (represents (d' :: rest) (u :: os')) as Hr'.
  { apply represents_cons. by rewrite Hh. }
  symmetry in Hd. destruct (represents_perm _ _ _ Hd Hr') as (us & Hus & Hrep).
  exists us. split; [done|].
  rewrite <-(book_of_perm (u :: os')), (book_of_perm os (o :: os')), !book_of_cons, Hh by
    (done || apply Hr').
  by rewrite insert_insert_eq.
Qed.

(** ** Commands *)
Definition insert_fields (o : Order) (id : string) (now : Z) : doc :=
  [("_id", BId id); ("hash", BStr (Hash_Hex (o_Hash o))); ("createdAt", bson_of_time now)].

Lemma represents_upsert o id now ds os ds' d :
  represents ds os → complete o →
  upsert_one (OrderDao.by_hash (o_Hash o)) (USet (order_set o now) (insert_fields o id now))
    ds ds' d →
  ∃ us u, represents ds' us ∧ stores u d ∧ upserted (book_of os) o u ∧
    book_of us = <[o_Hash o := u]> (book_of os).
Proof.
  intros Hr Ho [(d0 & rest & Hp & Hm & -> & Hd')|(Hn & Hi & Hd')].
  - destruct (represents_split _ _ _ _ Hp Hr) as (old & os' & Hos & Hr').
    pose proof (proj1 (represents_cons _ _ _ _) Hr') as (Hs & _).
    apply (matches_by_hash old) in Hm; [|done].
    pose proof (stores_update old o now d0 Hs Ho) as Hu.
    destruct (represents_replace ds d0 rest os _ _ old os' ds' Hr Hos Hr' Hu eq_refl Hd')
      as (us & Hus & Hb).
    exists us, (merge_order old o now). rewrite <-Hm. split_and!; [done|done| |done].
    split; [|rewrite <-Hm].
    + unfold same_content, merge_order. simpl. rewrite Hm. by destruct o.
    + intros old' [Hin Hh]%book_of_lookup; [|apply Hr]. simpl.
      assert (Some old' = Some old) as [= ->]; [|done].
      trans (book_of os !! o_Hash old); [symmetry; apply book_of_lookup; [apply Hr|done]|].
      apply book_of_lookup; [apply Hr|]. split; [rewrite Hos; by left|done].
  - pose proof (stores_insert o id now d Ho Hi) as Hu.
    set (u := merge_order _ _ _) in Hu.
    assert (∀ o', o' ∈ os → o_Hash o' ≠ o_Hash o) as Hfresh.
    { destruct Hr as [Hs _]. intros o' Hin Hh.
      apply list_elem_of_lookup in Hin as [i Hi'].
      destruct (Forall2_lookup_l _ _ _ _ _ Hs Hi') as (d' & Hd & Hst).
      apply (proj1 (Forall_lookup _ _) Hn) in Hd.
      apply not_true_iff_false in Hd. apply Hd. by apply (matches_by_hash o'). }
    assert (represents (d :: ds) (u :: os)) as Hr'.
    { apply represents_cons. split_and!; [done| |done].
      rewrite list_elem_of_fmap. intros (o' & Hh & Hin). by eapply Hfresh. }
    symmetry in Hd'. destruct (represents_perm _ _ _ Hd' Hr') as (us & Hus & Hrep).
    exists us, u. split_and!; [done|done| |].
    + split; [unfold same_content, u, merge_order; by destruct o|].
      intros old [Hin Hh]%book_of_lookup; [|apply Hr]. by apply Hfresh in Hin.
    + rewrite <-(book_of_perm (u :: os)), book_of_cons; [done|apply Hr'|done].
Qed.

Lemma OrderBSONUpdate_GetBSON_spec o s :
  wp (OrderBSONUpdate_GetBSON o) (λ r s', docs s' = docs s ∧ ∃ now id,
    r = Ok (USet (order_set o now) (insert_fields o id now))) s.
Proof.
  wp_step Now_ok. intros r1 s1 (Hd1 & now & ->).
  wp_step NewObjectId_ok. intros r2 s2 (Hd2 & id & -> & _).
  apply wp_ret. split; [congruence|eauto].
Qed.

Lemma FindAndModify_refines o :
  complete o → ∀ s, dao_inv s →
    wp (OrderDao.FindAndModify (o_Hash o) o) (λ r s', dao_inv s' ∧
      match r with
      | Ok (o', res) =>
        (∃ t, o' = set_o_UpdatedAt t o) ∧
        match res with
        | inr u => upserted (dao_book s) o u ∧ dao_book s' = <[o_Hash o := u]> (dao_book s)
        | inl _ => dao_book s' = dao_book s ∨
                   ∃ u, upserted (dao_book s) o u ∧
                        dao_book s' = <[o_Hash o := u]> (dao_book s)
        end
      | _ => False
      end) s.
Proof.
  intros Ho s [os Hr]. rewrite (represents_book s os Hr). unfold OrderDao.FindAndModify.
  wp_step Now_ok. intros r1 s1 (Hd1 & t & ->).
  set (o' := set_o_UpdatedAt t o).
  assert (complete o') as Ho' by (destruct Ho; by constructor).
  wp_step OrderBSONUpdate_GetBSON_spec. intros r2 s2 (Hd2 & now & id & ->).
  apply wp_returning, wp_bind.
  eapply wp_mono; [|apply (FindAndModify_ok _ _ s2)]. cbn beta.
  rewrite Hd2, Hd1.
  assert (∀ ds' d, upsert_one (OrderDao.by_hash (o_Hash o))
    (USet (order_set o' now) (insert_fields o' id now)) (docs s) ds' d →
    ∃ us u, represents ds' us ∧ stores u d ∧ upserted (book_of os) o u ∧
      book_of us = <[o_Hash o := u]> (book_of os)) as Heff.
  { intros ds' d Heff. destruct (represents_upsert o' id now _ os ds' d Hr Ho' Heff)
      as (us & u & ? & ? & [Hc Hcr] & ?). exists us, u. split_and!; try done. }
  intros [d|e|] s3; simpl; [| |done].
  - intros [Hu _]. destruct (Heff _ _ Hu) as (us & u & Hus & Hst & Hup & Hb).
    unfold wp, lift. simpl. rewrite (stores_decode u d Hst). simpl.
    split; [by exists us|]. split; [by exists t|].
    by rewrite (represents_book s3 us Hus).
  - intros [Hd3|(d & Hu & _)].
    + split; [exists os; by rewrite Hd3|]. split; [by exists t|]. left.
      apply represents_book. by rewrite Hd3.
    + destruct (Heff _ _ Hu) as (us & u & Hus & Hst & Hup & Hb).
      split; [by exists us|]. split; [by exists t|]. right. exists u.
      by rewrite (represents_book s3 us Hus).
Qed.


(** ** Queries *)

Lemma stores_slice sk lim os ds :
  Forall2 stores os ds → Forall2 stores (slice sk lim os) (slice sk lim ds).
Proof.
  intros Hs. unfold slice. case_decide; [by apply Forall2_drop|].
  by apply Forall2_take, Forall2_drop.
Qed.

Lemma get_orders_spec (P : Order → Prop) `{∀ o, Decision (P o)} q sk lim s os :
  represents (docs s) os → (∀ o d, stores o d → matches q d = true ↔ P o) →
  wp (OrderDao.get_orders q sk lim) (λ r s', docs s' = docs s ∧
    match r with
    | Ok l => ∃ l', l' ≡ₚ base.filter P os ∧ l = slice sk lim l'
    | Err _ => True | Panic => False
    end) s.
Proof.
  intros [Hs Hn] HP. unfold OrderDao.get_orders.
  wp_step Find_ok. intros [ds|e|] s' [Hd Hr]; [|done..].
  destruct Hr as (l & Hl & _ & ->).
  pose proof (Forall2_filter _ P (λ d, matches q d = true) os (docs s) HP Hs) as Hf.
  symmetry in Hl. destruct (Permutation_Forall2_r _ _ _ _ Hl Hf) as (os' & Hos & Hf').
  split; [done|].
  rewrite (decode_all_stores (slice sk lim os')) by (by apply stores_slice).
  exists os'. by split.
Qed.

Lemma GetByHash_refines h :
  queries dao_book dao_inv (OrderDao.GetByHash h) (λ bk r, r = bk !! h).
Proof.
  intros s [os Hr]. rewrite (represents_book s os Hr). unfold OrderDao.GetByHash.
  wp_step (get_orders_spec (λ o, o_Hash o = h) _ _ _ s os Hr);
    [|intros; by apply matches_by_hash].
  intros [l|e|] s' [Hd Hl]; simpl; [|by apply and_assoc; split;
    [by eapply represents_docs|]..].
  apply and_assoc. split; [by eapply represents_docs|].
  destruct Hl as (l' & Hl' & ->). unfold slice. rewrite drop_0, decide_False by done.
  destruct l' as [|o l']; simpl.
  - symmetry. apply book_of_none. intros o Ho Hh.
    assert (o ∈ base.filter (λ o, o_Hash o = h) os) as Hin by (by apply list_elem_of_filter).
    rewrite <-Hl' in Hin. by apply not_elem_of_nil in Hin.
  - symmetry. apply book_of_lookup; [apply Hr|].
    assert (o ∈ base.filter (λ o, o_Hash o = h) os) as Hin by (rewrite <-Hl'; by left).
    apply list_elem_of_filter in Hin. tauto.
Qed.

(** ** Updates by hash *)

Lemma represents_update_one h upd (f : Order → Order) ds os ds' :
  (∀ o d, stores o d → stores (f o) (apply_update upd d)) →
  (∀ o, o_Hash (f o) = o_Hash o) → represents ds os →
  update_one (OrderDao.by_hash h) upd ds ds' →
  ∃ us o, represents ds' us ∧ book_of os !! h = Some o ∧
    book_of us = <[h := f o]> (book_of os).
Proof.
  intros Hf Hh Hr (d & rest & Hp & Hm & _ & Hd').
  destruct (represents_split _ _ _ _ Hp Hr) as (o & os' & Hos & Hr').
  pose proof (proj1 (represents_cons _ _ _ _) Hr') as (Hs & _).
  apply (matches_by_hash o) in Hm; [|done].
  destruct (represents_replace ds d rest os (f o) _ o os' ds' Hr Hos Hr'
    (Hf _ _ Hs) (Hh o) Hd') as (us & Hus & Hb).
  exists us, o. rewrite <-Hm. split_and!; [done| |done].
  apply book_of_lookup; [apply Hr|]. split; [rewrite Hos; by left|done].
Qed.

Lemma UpdateOrderStatus_refines h st :
  commands dao_book dao_inv (OrderDao.UpdateOrderStatus h st) (λ bk bk' _,
    ∃ o, bk !! h = Some o ∧ bk' = <[h := set_o_Status st o]> bk).
Proof.
  intros s [os Hr]. rewrite (represents_book s os Hr). unfold OrderDao.UpdateOrderStatus.
  eapply wp_mono; [|apply UpdateOne_ok]. cbn beta.
  assert (∀ ds', update_one (OrderDao.by_hash h) (USet [("status", BStr st)] []) (docs s) ds' →
    ∃ us o, represents ds' us ∧ book_of os !! h = Some o ∧
      book_of us = <[h := set_o_Status st o]> (book_of os)) as Heff.
  { intros ds'. apply represents_update_one; [|done|done].
    intros o d. apply stores_set_status. }
  intros [[]|e|] s'; [|intros [Hd|(_ & Hu & _)]|done].
  - intros [Hu _]. destruct (Heff _ Hu) as (us & o & Hus & Ho & Hb).
    split; [by exists us|]. rewrite (represents_book s' us Hus). eauto.
  - split; [exists os; by rewrite Hd|]. left. apply represents_book. by rewrite Hd.
  - destruct (Heff _ Hu) as (us & o & Hus & Ho & Hb).
    split; [by exists us|]. right. exists tt. rewrite (represents_book s' us Hus). eauto.
Qed.

(** The documents and the orders after the statuses were set. *)
Definition marked_docs (hs : list Hash) (t : Z) (st : string) (ds : list doc) : list doc :=
  (λ d, if matches (OrderDao.hashes_in hs) d
        then apply_update (USet [("updatedAt", bson_of_time t); ("status", BStr st)] []) d
        else d) <$> ds.
Definition marked_order (hs : list Hash) (t : Z) (st : string) (o : Order) : Order :=
  if decide (o_Hash o ∈ hs) then set_o_Status st (set_o_UpdatedAt (truncate_ms t) o) else o.
Lemma marked_hashes hs t st (os : list Order) : o_Hash <$> (marked_order hs t st <$> os) = o_Hash <$> os.
Proof.
  rewrite <-list_fmap_compose. apply list_fmap_ext. intros i o _. unfold compose, marked_order.
  by case_decide.
Qed.
Lemma represents_marked hs t st ds os :
  represents ds os → represents (marked_docs hs t st ds) (marked_order hs t st <$> os).
Proof.
  intros [Hs Hn]. split; [|by rewrite marked_hashes]. unfold marked_docs. clear Hn.
  induction Hs as [|o d os ds Hs Hf IH]; [constructor|]. rewrite !fmap_cons. constructor; [|apply IH].
  pose proof (matches_hashes_in o d hs Hs) as Hm. unfold marked_order.
  destruct (matches _ d), (decide (o_Hash o ∈ hs)); try (exfalso; naive_solver).
  - by apply stores_set_updated.
  - done.
Qed.
(** The index of the collection allows them. *)
Lemma represents_unique ds os : represents ds os → unique_ok OrderDao.unique_index ds.
Proof.
  intros [Hs Hn] ks [-> |Hks%elem_of_nil]%elem_of_cons; [|done].
  assert (key_of ["hash"] <$> ds = (λ h, [Some (BStr (Hash_Hex h))]) <$> (o_Hash <$> os)) as ->.
  { clear Hn. induction Hs as [|o d os ds Hs Hf IH]; [done|]. rewrite !fmap_cons, IH. f_equal.
    unfold key_of. simpl. destruct Hs as (_ & _ & _ & Hd). do 2 f_equal.
    apply (proj1 (Forall_forall _ _) Hd ("hash", BStr (Hash_Hex (o_Hash o)))).
    unfold order_bson. set_solver. }
  apply NoDup_fmap; [|done]. by intros h h' [= ?%(inj Hash_Hex)].
Qed.

Lemma represents_update_many hs t st ds os ds' :
  represents ds os →
  update_many (OrderDao.hashes_in hs)
    (USet [("updatedAt", bson_of_time t); ("status", BStr st)] []) ds ds' →
  ∃ us, represents ds' us ∧ book_of us = mark (truncate_ms t) st hs (book_of os).
Proof.
  intros Hrep0 Hu. unfold update_many in Hu. pose proof (represents_marked hs t st ds os Hrep0) as Hr.
  destruct Hrep0 as [Hs Hn]. pose proof (marked_hashes hs t st os) as Hh.
  set (g := marked_order hs t st) in *.
  symmetry in Hu. destruct (represents_perm _ _ _ Hu Hr) as (us & Hus & Hrep).
  exists us. split; [done|]. rewrite <-(book_of_perm (g <$> os)) by (done || apply Hr).
  apply map_eq. intros h. unfold mark. rewrite lookup_fmap. apply option_eq. intros o.
  rewrite book_of_lookup by (by rewrite Hh).
  rewrite list_elem_of_fmap, fmap_Some. setoid_rewrite book_of_lookup; [|done].
  split.
  - intros ((o' & -> & Hin) & <-). exists o'. split; [|done]. split; [done|].
    unfold g, marked_order. by case_decide.
  - intros (o' & (Hin & <-) & ->). split; [by exists o'|]. unfold g, marked_order. by case_decide.
Qed.


Lemma slice_all {A} (l : list A) : slice 0 0 l = l.
Proof. done. Qed.

Lemma orders_filter (P : Order → Prop) `{∀ o, Decision (P o)} os l :
  NoDup (o_Hash <$> os) → l ≡ₚ base.filter P os →
  l ≡ₚ base.filter P (orders_of (book_of os)).
Proof. intros Hn ->. by rewrite orders_of_book. Qed.

Lemma get_by_hashes hs s os :
  represents (docs s) os →
  wp (OrderDao.get_orders (OrderDao.hashes_in hs) 0 0) (λ r s', docs s' = docs s ∧
    match r with
    | Ok l => l ≡ₚ base.filter (λ o, o_Hash o ∈ hs) (orders_of (book_of os))
    | Err _ => True | Panic => False
    end) s.
Proof.
  intros Hr. eapply wp_mono; [|apply (get_orders_spec (λ o, o_Hash o ∈ hs) _ _ _ s os Hr)];
    [|intros; by apply matches_hashes_in].
  intros [l|e|] s' [Hd Hl]; simpl; [|done..].
  destruct Hl as (l' & Hl' & ->). rewrite slice_all. split; [done|].
  apply orders_filter; [apply Hr|done].
Qed.

Lemma UpdateOrderStatusesByHashes_refines st hs :
  commands dao_book dao_inv (OrderDao.UpdateOrderStatusesByHashes st hs) (λ bk bk' os,
    (bk' = bk ∧ os = []) ∨
    (∃ t, bk' = mark t st hs bk) ∧
    (os = [] ∨ os ≡ₚ base.filter (λ o, o_Hash o ∈ hs) (orders_of bk'))).
Proof.
  intros s [os Hr]. rewrite (represents_book s os Hr).
  unfold OrderDao.UpdateOrderStatusesByHashes.
  wp_step Now_ok. intros r1 s1 (Hd1 & t & ->).
  apply wp_bind, wp_attempt. eapply wp_mono; [|apply UpdateMany_ok]. cbn beta.
  rewrite Hd1.
  intros [[]|e|] s2; [| |done].
  - intros [Hu _]. destruct (represents_update_many hs t st _ os _ Hr Hu) as (us & Hus & Hb).
    apply wp_bind, wp_attempt. eapply wp_mono; [|apply (get_by_hashes hs s2 us Hus)].
    cbn beta.
    intros [l|e|] s3 [Hd3 Hl]; [| |done]; apply wp_ret; split;
      try (by exists us; rewrite Hd3);
      rewrite (represents_book s3 us) by (by rewrite Hd3); eauto.
  - intros Hd2. apply wp_ret.
    assert (dao_inv s2 ∧ (dao_book s2 = book_of os ∨
              ∃ t, dao_book s2 = mark t st hs (book_of os))) as [? [?|?]]; [|by eauto..].
    destruct Hd2 as [Hd2|(_ & Hu & _)].
    + destruct (represents_docs s s2 os Hr) as [? ?]; [congruence|]. eauto.
    + destruct (represents_update_many hs t st _ os _ Hr Hu) as (us & Hus & Hb).
      split; [by exists us|]. right. eexists. by rewrite (represents_book s2 us Hus).
Qed.

(** ** Undoing fills *)

Lemma new_filled_refill o a :
  complete o →
  ∃ st f, OrderDao.new_filled (Sub (filled o) a) o = Ok (st, f) ∧ is_Some f ∧
    refill o a = set_o_Status st (set_o_FilledAmount f o).
Proof.
  intros Ho. unfold OrderDao.new_filled, refill, Sub. bigmath.
  destruct (has_amount _ Ho) as [am Ham]. unfold amount. rewrite Ham. simpl. bigmath.
  destruct (filled o - a <=? 0); [|destruct (am <=? filled o - a)];
    eexists _, _; split_and!; done.
Qed.

(** An upsert that finds its order only updates it. *)
Lemma represents_upsert_known o st fl a ds os ds' d :
  represents ds os → o ∈ os → is_Some fl →
  refill o a = set_o_Status st (set_o_FilledAmount fl o) →
  upsert_one (OrderDao.by_hash (o_Hash o)) (OrderDao.filled_update st fl) ds ds' d →
  ∃ us, represents ds' us ∧ stores (refill o a) d ∧
    book_of us = <[o_Hash o := refill o a]> (book_of os).
Proof.
  intros Hr Ho Hfl Hre [(d0 & rest & Hp & Hm & -> & Hd')|(Hno & _ & _)].
  - destruct (represents_split _ _ _ _ Hp Hr) as (old & os' & Hos & Hr').
    pose proof (proj1 (represents_cons _ _ _ _) Hr') as (Hs & Hni & _).
    apply (matches_by_hash old) in Hm; [|done].
    assert (old = o) as ->.
    { rewrite Hos in Ho. apply elem_of_cons in Ho as [->|Ho]; [done|].
      destruct Hni. rewrite list_elem_of_fmap. by exists o. }
    pose proof (stores_set_filled st fl o d0 Hfl Hs) as Hu. rewrite <-Hre in Hu.
    assert (o_Hash (refill o a) = o_Hash o) as Hh by (by rewrite Hre).
    destruct (represents_replace ds d0 rest os _ _ o os' ds' Hr Hos Hr' Hu Hh Hd')
      as (us & Hus & Hb).
    by exists us.
  - exfalso. destruct Hr as [Hs _]. apply list_elem_of_lookup in Ho as [i Hi].
    destruct (Forall2_lookup_l _ _ _ _ _ Hs Hi) as (d' & Hd & Hst).
    apply (proj1 (Forall_lookup _ _) Hno) in Hd.
    apply not_true_iff_false in Hd. apply Hd. by apply (matches_by_hash o).
Qed.

Lemma refill_hash o a : o_Hash (refill o a) = o_Hash o.
Proof. unfold refill. by repeat case_match. Qed.

Lemma update_filled_loop_spec os amounts s :
  dao_inv s → NoDup (o_Hash <$> os) →
  (∀ o, o ∈ os → dao_book s !! o_Hash o = Some o) →
  wp (OrderDao.update_filled_loop os amounts) (λ r s', dao_inv s' ∧
    match r with
    | Ok us => refill_all os amounts = Some us ∧
               dao_book s' = insert_orders us (dao_book s)
    | Err _ => ∃ n us, refill_all (take n os) amounts = Some us ∧
                       dao_book s' = insert_orders us (dao_book s)
    | Panic => refill_all os amounts = None ∧ ∃ n us, refill_all (take n os) amounts = Some us ∧
                 dao_book s' = insert_orders us (dao_book s)
    end) s.
Proof.
  revert amounts s. induction os as [|o os IH]; intros amounts s Hi Hn Hin; [done|].
  rewrite fmap_cons in Hn. apply NoDup_cons in Hn as [Hni Hn].
  pose proof (Hin o ltac:(by left)) as Ho.
  destruct Hi as [ds Hr]. rewrite (represents_book s ds Hr) in *.
  apply book_of_lookup in Ho as [Ho _]; [|apply Hr].
  assert (complete o) as Hc.
  { destruct Hr as [Hs _]. apply list_elem_of_lookup in Ho as [i Hi].
    destruct (Forall2_lookup_l _ _ _ _ _ Hs Hi) as (d & _ & Hst). apply Hst. }
  assert (∀ l am, refill_all l am = None → dao_inv s ∧ refill_all l am = None ∧
    ∃ n us, refill_all (take n l) am = Some us ∧ dao_book s = insert_orders us (book_of ds)) as Hpanic.
  { intros l am Hn'. split; [by exists ds|]. split; [done|]. exists 0%nat, [].
    split; [done|]. by apply represents_book. }
  destruct (has_filled _ Hc) as [f Hf]. simpl. rewrite Hf. apply wp_bind, wp_lift. simpl.
  destruct amounts as [|[a|] amounts]; simpl; [exact (Hpanic (o :: os) [] eq_refl)| |exact (Hpanic (o :: os) (None :: amounts) eq_refl)].
  apply wp_bind, wp_lift. simpl.
  destruct (new_filled_refill o a Hc) as (st & fl & Hnf & Hfl & Hre).
  unfold filled in Hnf. rewrite Hf in Hnf. simpl in Hnf. rewrite Hnf.
  apply wp_bind, wp_lift. simpl.
  wp_step FindAndModify_ok. intros [d|e|] s1; [intros [Hu _]|intros Hu|done]; simpl.
  - destruct (represents_upsert_known o st fl a _ ds _ d Hr Ho Hfl Hre Hu)
      as (us & Hus & Hst & Hb).
    rewrite (stores_decode _ _ Hst). apply wp_bind, wp_lift. simpl. apply wp_bind.
    assert (dao_book s1 = <[o_Hash o := refill o a]> (book_of ds)) as Hb1.
    { by rewrite (represents_book s1 us Hus). }
    eapply wp_mono; [|apply (IH amounts s1)]; [|by exists us|done|].
    + rewrite Hb1. intros [rs|e|] s2 [Hi2 Hrs]; simpl.
      * destruct Hrs as [-> Hrs]. apply wp_ret. split_and!; [done|done|].
        simpl. by rewrite refill_hash.
      * destruct Hrs as (n & rs & Hrs & Hbs). split; [done|].
        exists (S n), (refill o a :: rs). simpl. rewrite Hrs, refill_hash. done.
      * destruct Hrs as (Hnone & n & rs & Hrs & Hbs). split; [done|]. split; [by rewrite Hnone|].
        exists (S n), (refill o a :: rs). simpl. rewrite Hrs, refill_hash. done.
    + intros o' Ho'. rewrite Hb1, lookup_insert_ne; [apply Hin; by right|].
      intros Heq. apply Hni. rewrite Heq. apply list_elem_of_fmap. by exists o'.
  - destruct Hu as [Hd|(d & Hu & _)].
    + destruct (represents_docs s s1 ds Hr Hd) as [? ->]. split; [done|]. by exists 0%nat, [].
    + destruct (represents_upsert_known o st fl a _ ds _ d Hr Ho Hfl Hre Hu)
        as (us & Hus & Hst & Hb).
      split; [by exists us|]. exists 1%nat, [refill o a]. simpl.
      rewrite refill_hash, (represents_book s1 us Hus). done.
Qed.

Lemma UpdateOrderFilledAmounts_refines hs amounts s : dao_inv s →
  wp (OrderDao.UpdateOrderFilledAmounts hs amounts) (λ r s', dao_inv s' ∧
    ∃ os, os ≡ₚ base.filter (λ o, o_Hash o ∈ hs) (orders_of (dao_book s)) ∧
    match r with
    | Ok us => refill_all os amounts = Some us ∧
               dao_book s' = insert_orders us (dao_book s)
    | Err _ => ∃ n us, refill_all (take n os) amounts = Some us ∧
                       dao_book s' = insert_orders us (dao_book s)
    | Panic => refill_all os amounts = None ∧ ∃ n us, refill_all (take n os) amounts = Some us ∧
                 dao_book s' = insert_orders us (dao_book s)
    end) s.
Proof.
  intros [ds Hr]. unfold OrderDao.UpdateOrderFilledAmounts.
  rewrite (represents_book s ds Hr).
  wp_step (get_by_hashes hs s ds Hr). intros [os|e|] s1 [Hd Hos]; simpl; [| |done].
  - destruct (represents_docs s s1 ds Hr Hd) as [Hi Hb].
    assert (os ≡ₚ base.filter (λ o, o_Hash o ∈ hs) ds) as Hos'.
    { rewrite Hos. by rewrite orders_of_book by apply Hr. }
    eapply wp_mono; [|apply (update_filled_loop_spec os amounts s1 Hi)].
    + rewrite Hb. intros r s2 [Hi2 Hrs]. split; [done|]. by exists os.
    + rewrite Hos'. destruct Hr as [_ Hn]. revert Hn. clear.
      induction ds as [|o ds IH]; [done|]. rewrite fmap_cons, NoDup_cons, filter_cons.
      intros [Hni Hn]. case_decide; [|by apply IH]. rewrite fmap_cons, NoDup_cons.
      split; [|by apply IH]. rewrite !list_elem_of_fmap in *.
      intros (o' & ? & Ho'%list_elem_of_filter). naive_solver.
    + intros o. rewrite Hos', Hb. intros [_ Ho]%list_elem_of_filter.
      by apply book_of_lookup; [apply Hr|].
  - destruct (represents_docs s s1 ds Hr Hd) as [Hi Hb]. split; [done|].
    exists (base.filter (λ o, o_Hash o ∈ hs) (orders_of (book_of ds))).
    split; [done|]. by exists 0%nat, [].
Qed.


(** ** Matching *)

(** [d] stores [o] and carries its price as a decimal. *)
Definition priced (o : Order) (d : doc) : Prop :=
  stores o d ∧ field "priceDecimal" d = Some (BDec (price o)).

Lemma stores_price o d :
  stores o d → price_exact o → to_decimal (field "pricepoint" d) = Some (price o).
Proof.
  intros Hs Hx. pose proof Hs as [Hc _]. destruct (has_price _ Hc) as [pp Hpp].
  rewrite (stores_field o d "pricepoint" (BStr (Big.Stringp (o_PricePoint o))) Hs)
    by (unfold order_bson; set_solver).
  unfold price_exact, price in *. rewrite Hpp in *. simpl in *.
  by rewrite SetString_String_Z, Hx.
Qed.

Lemma stores_add_decimal x o d :
  stores o d → stores o (set_fields [("priceDecimal", BDec x)] d).
Proof.
  intros Hs. pose proof Hs as (Hc&Ht&Hu&_).
  apply (stores_set o); [done..|].
  intros d' Hk Hd; unfold order_bson in *; rewrite !Forall_cons in Hd; destruct_and?.
  repeat (apply Forall_cons_2; [|]); [..|apply Forall_nil_2]; simpl; apply Hk; simpl; assumption.
Qed.

Lemma add_decimal_stores os ds :
  Forall2 stores os ds → Forall price_exact os →
  Forall (λ d, is_Some (to_decimal (field "pricepoint" d))) ds ∧
  ∀ rs, mapM (add_decimal "priceDecimal" "pricepoint") ds = Some rs → Forall2 priced os rs.
Proof.
  intros Hf Hx. split.
  - induction Hf as [|o d os ds Hs Hf IH]; [done|]. apply Forall_cons in Hx as [Hx Hxs].
    constructor; [|by apply IH]. rewrite (stores_price o d Hs Hx). by eexists.
  - intros rs Hm%mapM_Some. revert rs Hm.
    induction Hf as [|o d os ds Hs Hf IH]; intros rs Hm; inversion Hm as [|? r ? rs' Hr Hrs];
      subst; [constructor|].
    apply Forall_cons in Hx as [Hx Hxs]. constructor; [|by apply IH].
    unfold add_decimal in Hr. rewrite (stores_price o d Hs Hx) in Hr. simplify_eq/=.
    split; [by apply stores_add_decimal|]. by rewrite field_set_fields.
Qed.

Lemma conds_hold_cons k c l d :
  conds_hold ((k, c) :: l) d = true ↔ cond_holds c (field k d) = true ∧ conds_hold l d = true.
Proof. apply andb_true_iff. Qed.

Lemma BStr_inj s s' : Some (BStr s) = Some (BStr s') ↔ s = s'.
Proof. split; [by intros [= ->]|by intros ->]. Qed.

Lemma Hex_eq a b : Address_Hex a = Address_Hex b ↔ a = b.
Proof. split; [by intros ?%(inj Address_Hex)|by intros ->]. Qed.

Lemma in_open st : BStr st ∈ OrderDao.open_statuses ↔ st = "OPEN" ∨ st = "PARTIAL_FILLED".
Proof.
  unfold OrderDao.open_statuses. rewrite !elem_of_cons, elem_of_nil. split.
  - intros [[= ->]|[[= ->]|[]]]; auto.
  - intros [->| ->]; auto.
Qed.

(** The fields of a stored order, for the evaluation of queries. *)
Ltac stored_field Hs :=
  match type of Hs with stores ?o ?d =>
    repeat match goal with
    | |- context [field ?k d] =>
      let v := eval simpl in (field k (order_bson o)) in
      match v with
      | Some ?v => rewrite (stores_field o d k v Hs) by (unfold order_bson; set_solver)
      end
    end
  end.

Lemma matching_conds_ok o side m d :
  stores m d →
  matches (Fields (OrderDao.matching_conds o side)) d = true ↔
  is_open m ∧ same_pair o m ∧ o_Side m = side.
Proof.
  intros Hs. unfold matches, OrderDao.matching_conds. rewrite !conds_hold_cons.
  stored_field Hs. simpl. rewrite !bool_decide_eq_true, !BStr_inj, !Hex_eq, in_open.
  unfold is_open, same_pair. naive_solver.
Qed.


(** Both matching queries: [p] is the price limit of the taker. *)
Section matching.
Context (o : Order) (side : string) (cmp : stage) (p : Z → bool)
        (keys : list (string * dir)) (P : Order → Prop) `{!∀ m, Decision (P m)}
        (prio : Order → Order → Prop).
Hypothesis cmp_result : ∀ ds rs, stage_result cmp ds rs →
  rs = base.filter (λ d, decimal_holds p (field "priceDecimal" d) = true) ds.
Hypothesis cmp_exact : ∀ ds, pipeline_exact [cmp; Sort keys] ds.
Hypothesis P_spec : ∀ m, P m ↔
  (is_open m ∧ same_pair o m ∧ o_Side m = side) ∧ p (price m) = true.
Hypothesis keys_prio : ∀ a d a' d', priced a d → priced a' d' →
  keys_le keys d d' → prio a a'.

Let stages : list stage :=
  [Match (Fields (OrderDao.matching_conds o side));
   AddDecimal "priceDecimal" "pricepoint"; cmp; Sort keys].

Lemma matching_exact os ds :
  Forall2 stores os ds → Forall price_exact os → pipeline_exact stages ds.
Proof.
  intros Hs Hx. simpl. intros ms ->. split; [|intros; by apply cmp_exact].
  apply (add_decimal_stores (base.filter (λ m, is_open m ∧ same_pair o m ∧ o_Side m = side) os)).
  - apply Forall2_filter; [|done]. intros m d Hm. by apply matching_conds_ok.
  - rewrite Forall_forall in *. intros m [_ Hm]%list_elem_of_filter. auto.
Qed.

Lemma matching_result os ds rs :
  Forall2 stores os ds → Forall price_exact os → pipeline_result stages ds rs →
  ∃ l, decode_all Order_SetBSON rs = Ok l ∧ l ≡ₚ base.filter P os ∧ StronglySorted prio l.
Proof.
  intros Hs Hx (ms1 & -> & ms2 & Hadd & ms3 & Hcmp & ms4 & [Hp Hsort] & ->).
  apply cmp_result in Hcmp as ->.
  set (os1 := base.filter (λ m, is_open m ∧ same_pair o m ∧ o_Side m = side) os).
  assert (Forall2 priced os1 ms2) as Hpr.
  { refine (proj2 (add_decimal_stores os1 _ _ _) ms2 Hadd).
    - apply Forall2_filter; [|done]. intros m d Hm. by apply matching_conds_ok.
    - rewrite Forall_forall in *. intros m [_ Hm]%list_elem_of_filter. auto. }
  assert (Forall2 priced (base.filter (λ m, p (price m) = true) os1)
    (base.filter (λ d, decimal_holds p (field "priceDecimal" d) = true) ms2)) as Hpr'.
  { apply Forall2_filter; [|done]. intros m d [_ ->]. done. }
  symmetry in Hp. destruct (Permutation_Forall2_r _ _ _ _ Hp Hpr') as (l & Hl & Hl').
  exists l. split_and!.
  - apply decode_all_stores. eapply Forall2_impl; [exact Hl'|]. by intros m d [].
  - rewrite <-Hl. unfold os1. rewrite list_filter_filter. clear -P_spec.
    apply reflexive_eq. apply list_filter_iff. intros m. rewrite P_spec. tauto.
  - eapply StronglySorted_Forall2; [|exact Hl'|exact Hsort]. eauto.
Qed.

Lemma matching_spec s :
  dao_inv s → book_prices_exact (dao_book s) →
  wp (OrderDao.aggregate_orders stages) (λ r s', dao_inv s' ∧ dao_book s' = dao_book s ∧
    match r with
    | Ok l => l ≡ₚ base.filter P (orders_of (dao_book s)) ∧ StronglySorted prio l
    | Err _ => True | Panic => False
    end) s.
Proof.
  intros [os Hr] Hx. rewrite (represents_book s os Hr) in *.
  assert (Forall price_exact os) as Hxs.
  { apply Forall_forall. intros m Hm. apply (Hx (o_Hash m)).
    by apply book_of_lookup; [apply Hr|]. }
  unfold OrderDao.aggregate_orders.
  wp_step (Pipe_ok stages s (matching_exact os _ (proj1 Hr) Hxs)).
  intros [rs|e|] s' [Hd Hrs]; [|by apply and_assoc; split; [by eapply represents_docs|]|done].
  destruct (matching_result os _ rs (proj1 Hr) Hxs Hrs) as (l & Hl & Hp & Hsort).
  simpl. rewrite Hl. apply wp_lift. apply and_assoc. split; [by eapply represents_docs|].
  split; [|done]. apply orders_filter; [apply Hr|done].
Qed.
End matching.

Lemma priced_keys m d : priced m d →
  sort_key (field "priceDecimal" d) = [1; price m] ∧
  ∃ k, sort_key (field "createdAt" d) = [7; k] ∧ o_CreatedAt m = k * ms.
Proof.
  intros [Hs ->]. split; [done|]. pose proof Hs as (_ & Ht & _).
  rewrite (stores_field m d "createdAt" (bson_of_time (o_CreatedAt m)) Hs)
    by (unfold order_bson; set_solver).
  simpl. eexists; split; [done|]. done.
Qed.

Lemma sell_keys m d m' d' : priced m d → priced m' d' →
  keys_le [("priceDecimal", Asc); ("createdAt", Asc)] d d' → sell_priority m m'.
Proof.
  intros (Hp & k & Hk & Ht)%priced_keys (Hp' & k' & Hk' & Ht')%priced_keys.
  simpl. rewrite Hp, Hp', Hk, Hk'. simpl. unfold sell_priority. rewrite Ht, Ht'.
  unfold ms. intros [[?|[_ []]]|[[= ->] [[?|[_ []]]|[[= ->] _]]]]; lia.
Qed.

Lemma buy_keys m d m' d' : priced m d → priced m' d' →
  keys_le [("priceDecimal", Desc); ("createdAt", Asc)] d d' → buy_priority m m'.
Proof.
  intros (Hp & k & Hk & Ht)%priced_keys (Hp' & k' & Hk' & Ht')%priced_keys.
  simpl. rewrite Hp, Hp', Hk, Hk'. simpl. unfold buy_priority. rewrite Ht, Ht'.
  unfold ms. intros [[?|[_ []]]|[[= ->] [[?|[_ []]]|[[= ->] _]]]]; lia.
Qed.

Lemma decimal_price_exact o :
  is_Some (o_PricePoint o) → price_exact o → OrderDao.decimal_price o = price o.
Proof.
  intros [pp Hpp]. unfold price_exact, price, OrderDao.decimal_price, ParseDecimal128.
  rewrite Hpp. simpl. rewrite SetString_String_Z. by intros ->.
Qed.

Lemma GetMatchingSellOrders_refines o s : dao_inv s →
  is_Some (o_PricePoint o) → price_exact o → book_prices_exact (dao_book s) →
  wp (OrderDao.GetMatchingSellOrders o) (λ r s', dao_inv s' ∧ dao_book s' = dao_book s ∧
    match r with
    | Ok l => l ≡ₚ base.filter (matches_sell o) (orders_of (dao_book s)) ∧
              StronglySorted sell_priority l
    | Err _ => True | Panic => False
    end) s.
Proof.
  intros Hi Hpp Hx Hb. unfold OrderDao.GetMatchingSellOrders.
  rewrite (decimal_price_exact o) by done.
  apply (matching_spec o SELL (MatchLte "priceDecimal" (price o)) (Z.geb (price o)));
    [done|done| |apply sell_keys|done|done].
  intros m. unfold matches_sell. rewrite Z.geb_le. tauto.
Qed.

Lemma GetMatchingBuyOrders_refines o s : dao_inv s →
  is_Some (o_PricePoint o) → price_exact o → book_prices_exact (dao_book s) →
  wp (OrderDao.GetMatchingBuyOrders o) (λ r s', dao_inv s' ∧ dao_book s' = dao_book s ∧
    match r with
    | Ok l => l ≡ₚ base.filter (matches_buy o) (orders_of (dao_book s)) ∧
              StronglySorted buy_priority l
    | Err _ => True | Panic => False
    end) s.
Proof.
  intros Hi Hpp Hx Hb. unfold OrderDao.GetMatchingBuyOrders.
  rewrite (decimal_price_exact o) by done.
  apply (matching_spec o BUY (MatchGte "priceDecimal" (price o)) (Z.leb (price o)));
    [done|done| |apply buy_keys|done|done].
  intros m. unfold matches_buy. rewrite Z.leb_le. tauto.
Qed.

(** ** Locked balances *)

Lemma locked_query_ok account token o d :
  stores o d →
  matches (OrderDao.locked_query account token) d = true ↔ locked_by account token o.
Proof.
  intros Hs. unfold matches, OrderDao.locked_query, OrderDao.user_is. simpl existsb.
  stored_field Hs. simpl. rewrite !orb_true_iff, !andb_true_iff, !bool_decide_eq_true, !BStr_inj, !Hex_eq, in_open.
  unfold locked_by, is_open. naive_solver.
Qed.

Definition sell_left (p : Pair) (o : Order) : option Z :=
  match RemainingSellAmount p o with Ok x => Some x | _ => None end.

Lemma locked_loop_sum p os total :
  Forall (λ o, is_Some (sell_left p o)) os →
  ∃ vs, mapM (sell_left p) os = Some vs ∧
        OrderDao.locked_loop p total os = Ok (total + sumZ vs).
Proof.
  intros Hf. revert total. induction Hf as [|o os [x Hx] Hf IH]; intros total.
  - exists []. split; [done|]. simpl. f_equal. lia.
  - unfold sell_left in Hx. destruct (RemainingSellAmount p o) as [y| |] eqn:Hr; simplify_eq.
    destruct (IH (Add total x)) as (vs & Hvs & Hl).
    exists (x :: vs). split.
    + apply mapM_Some. constructor; [unfold sell_left; by rewrite Hr|by apply mapM_Some].
    + simpl. rewrite Hr. simpl. rewrite Hl. f_equal. unfold Add. lia.
Qed.

Lemma complete_sell_left p o : complete o → is_Some (sell_left p o).
Proof.
  intros [[? Ha] [? Hf] [? Hp] _ _ _ _]. unfold sell_left, RemainingSellAmount.
  rewrite Ha, Hf, Hp. simpl.
  case_decide; simpl; rewrite ?PairMultiplier_Div; simpl; by eexists.
Qed.

Lemma mapM_perm {A} (f : A → option Z) l k vs :
  l ≡ₚ k → mapM f l = Some vs → ∃ ws, mapM f k = Some ws ∧ sumZ ws = sumZ vs.
Proof.
  intros Hp Hf%mapM_Some. destruct (Permutation_Forall2 Hp Hf) as (ws & Hw & Hk).
  exists ws. split; [by apply mapM_Some|]. by rewrite Hw.
Qed.

Lemma GetUserLockedBalance_refines account token p :
  queries dao_book dao_inv (OrderDao.GetUserLockedBalance account token p) (λ bk v,
    ∃ vs, mapM (sell_left p) (base.filter (locked_by account token) (orders_of bk)) = Some vs ∧
          v = sumZ vs).
Proof.
  intros s [os Hr]. rewrite (represents_book s os Hr). unfold OrderDao.GetUserLockedBalance.
  wp_step (get_orders_spec (locked_by account token) _ _ _ s os Hr);
    [|intros; by apply locked_query_ok].
  intros [l|e|] s' [Hd Hl]; [|by apply and_assoc; split; [by eapply represents_docs|]|done].
  destruct Hl as (l' & Hl' & ->). rewrite slice_all. apply wp_lift.
  apply and_assoc. split; [by eapply represents_docs|].
  destruct (locked_loop_sum p l' 0) as (vs & Hvs & Hsum).
  { apply Forall_forall. intros o Ho. rewrite Hl' in Ho.
    apply list_elem_of_filter in Ho as [_ Ho]. apply complete_sell_left.
    destruct Hr as [Hs _]. apply list_elem_of_lookup in Ho as [i Hi].
    destruct (Forall2_lookup_l _ _ _ _ _ Hs Hi) as (d & _ & Hst). apply Hst. }
  rewrite Hsum.
  destruct (mapM_perm (sell_left p) l' (base.filter (locked_by account token)
    (orders_of (book_of os))) vs) as (ws & Hws & Heq); [|done|].
  - apply orders_filter; [apply Hr|done].
  - exists ws. split; [done|]. lia.
Qed.

(** ** The volume at a price *)

Lemma stores_volume o d :
  stores o d → amounts_exact o → volume_of d = Some (remaining o).
Proof.
  intros Hs [Ha Hf]. pose proof Hs as [Hc _].
  destruct (has_amount _ Hc) as [a Hoa], (has_filled _ Hc) as [f Hof].
  unfold volume_of, remaining, amount, filled in *.
  rewrite (stores_field o d "amount" (BStr (Big.Stringp (o_Amount o))) Hs),
    (stores_field o d "filledAmount" (BStr (Big.Stringp (o_FilledAmount o))) Hs)
    by (unfold order_bson; set_solver).
  rewrite Hoa, Hof in *. simpl in *. by rewrite !SetString_String_Z, Ha, Hf.
Qed.

Lemma Stringp_eq x y : is_Some x → Big.Stringp x = Big.String_Z y ↔ default 0 x = y.
Proof. intros [z ->]. simpl. split; [apply String_Z_inj|by intros ->]. Qed.

Lemma at_price_ok p pp side o d :
  stores o d →
  matches (Fields (OrderDao.book_match p ++
    [("pricepoint", Equal (BStr (Big.Stringp (Some pp)))); ("side", Equal (BStr side))])) d
    = true ↔ at_price p pp side o.
Proof.
  intros Hs. unfold matches, OrderDao.book_match. simpl app.
  rewrite !conds_hold_cons. stored_field Hs. simpl.
  rewrite !bool_decide_eq_true, !BStr_inj, !Hex_eq, in_open, Stringp_eq by apply Hs.
  unfold at_price, is_open, price. naive_solver.
Qed.

Definition volume_doc (pp v : Z) : doc :=
  [("pricepoint", BStr (Big.String_Z pp)); ("amount", BStr (Big.String_Z v))].

Lemma volume_group_project os ds pp g :
  Forall2 stores os ds → Forall (λ o, price o = pp ∧ price_exact o ∧ amounts_exact o) os →
  decimal_exact (sumZ (remaining <$> os)) = true →
  volume_group ds pp g →
  project ["pricepoint"; "amount"] g = Some (volume_doc pp (sumZ (remaining <$> os))).
Proof.
  intros Hs Hx Hsum (_ & first & vols & Hin & Hvols & _ & Hpp & Ham).
  assert (base.filter (λ d, price_of d = Some pp) ds = ds) as Hall.
  { clear Hin Hvols Hsum. induction Hs as [|o d os ds Hs Hf IH]; [done|].
    apply Forall_cons in Hx as [(Hp & Hpx & _) Hx]. rewrite filter_cons_True, IH; [done..|].
    unfold price_of. by rewrite (stores_price o d), Hp. }
  rewrite Hall in *.
  assert (vols = remaining <$> os) as ->.
  { apply mapM_Some in Hvols. clear Hall Hin Hsum Ham Hpp. revert vols Hvols.
    induction Hs as [|o d os ds Hs Hf IH]; intros vols Hv; inversion Hv; subst; [done|].
    apply Forall_cons in Hx as [(_ & _ & Hax) Hx].
    rewrite (stores_volume o d Hs Hax) in *. simplify_eq/=. f_equal. by apply IH. }
  apply list_elem_of_lookup in Hin as [i Hi].
  destruct (Forall2_lookup_r _ _ _ _ _ Hs Hi) as (o & Ho & Hst).
  rewrite Forall_lookup in Hx. destruct (Hx i o Ho) as (Hp & _).
  unfold project. simpl. rewrite Hpp, Ham. simpl. rewrite Hsum.
  rewrite (stores_field o first "pricepoint" (BStr (Big.Stringp (o_PricePoint o))) Hst)
    by (unfold order_bson; set_solver).
  unfold price in Hp. pose proof Hst as [Hc _]. destruct (has_price _ Hc) as [x Hox].
  rewrite Hox in *. simpl in *. by subst.
Qed.

(** All the documents of one price make at most one group. *)
Lemma one_price_groups os ds pp rs :
  Forall2 stores os ds → Forall (λ o, price o = pp ∧ price_exact o ∧ amounts_exact o) os →
  stage_result GroupVolume ds rs →
  (os = [] ∧ rs = []) ∨ (os ≠ [] ∧ ∃ g, rs = [g] ∧ volume_group ds pp g).
Proof.
  intros Hs Hx (xs & Hnd & Hxs & Hg).
  assert (∀ x, x ∈ xs ↔ os ≠ [] ∧ x = pp) as Hiff.
  { intros x. rewrite Hxs. split.
    - intros (d & Hd & Hp). apply list_elem_of_lookup in Hd as [i Hi].
      destruct (Forall2_lookup_r _ _ _ _ _ Hs Hi) as (o & Ho & Hst).
      rewrite Forall_lookup in Hx. destruct (Hx i o Ho) as (Hpo & Hpx & _).
      unfold price_of in Hp. rewrite (stores_price o d), Hpo in Hp by done.
      split; [by intros ->|congruence].
    - intros [Hne ->]. destruct Hs as [|o d os ds Hst Hf]; [done|].
      apply Forall_cons in Hx as [(Hp & Hpx & _) Hx].
      exists d. split; [by left|]. unfold price_of. by rewrite (stores_price o d), Hp. }
  destruct (decide (os = [])) as [->|Hne].
  - left. split; [done|]. destruct xs as [|x xs]; [by inversion Hg|].
    destruct (proj1 (Hiff x)) as [? _]; [by left|done].
  - right. split; [done|].
    assert (xs = [pp]) as ->.
    { destruct xs as [|x [|y xs]].
      - by destruct (not_elem_of_nil pp); apply Hiff.
      - by rewrite (proj2 (proj1 (Hiff x) ltac:(by left))).
      - exfalso. rewrite (proj2 (proj1 (Hiff x) ltac:(by left))),
          (proj2 (proj1 (Hiff y) ltac:(by right; left))) in Hnd.
        apply NoDup_cons in Hnd as [[] _]. by left. }
    inversion Hg as [|? g ? gs Hgr Hgs]; subst. inversion Hgs; subst. eauto.
Qed.

Lemma GetOrderBookPricePoint_refines p pp side s : dao_inv s →
  decimal_exact pp = true →
  map_Forall (λ _ o, price_exact o ∧ amounts_exact o) (dao_book s) →
  decimal_exact (sumZ (remaining <$>
    base.filter (at_price p pp side) (orders_of (dao_book s)))) = true →
  wp (OrderDao.GetOrderBookPricePoint p (Some pp) side) (λ r s', dao_inv s' ∧
    dao_book s' = dao_book s ∧
    match r with
    | Ok v => v = match base.filter (at_price p pp side) (orders_of (dao_book s)) with
                  | [] => None | os => Some (sumZ (remaining <$> os)) end
    | Err _ => True | Panic => False
    end) s.
Proof.
  intros [os Hr] _ Hx Hsum. rewrite (represents_book s os Hr) in *.
  set (os1 := base.filter (at_price p pp side) os).
  assert (base.filter (at_price p pp side) (orders_of (book_of os)) ≡ₚ os1) as Hos1.
  { unfold os1. by rewrite orders_of_book by apply Hr. }
  set (q := Fields (OrderDao.book_match p ++ [("pricepoint", Equal (BStr (Big.Stringp (Some pp))));
    ("side", Equal (BStr side))])).
  set (ds1 := base.filter (λ d, matches q d = true) (docs s)).
  assert (Forall2 stores os1 ds1) as Hs1.
  { apply Forall2_filter; [|apply Hr]. intros o d. apply at_price_ok. }
  assert (Forall (λ o, price o = pp ∧ price_exact o ∧ amounts_exact o) os1) as Hx1.
  { apply Forall_forall. intros o [(_&_&_&Hp&_) Ho]%list_elem_of_filter.
    split; [done|]. apply (Hx (o_Hash o)). by apply book_of_lookup; [apply Hr|]. }
  rewrite Hos1 in Hsum.
  unfold OrderDao.GetOrderBookPricePoint.
  wp_step (Pipe_ok [Match q; GroupVolume; Project ["pricepoint"; "amount"]] s).
  2:{ simpl. intros ms ->. fold ds1. split.
      - apply (Forall2_Forall_r _ _ _ _ Hs1). eapply Forall_impl; [exact Hx1|].
        intros o (_ & Hpx & Hax) d Hst. unfold price_of.
        rewrite (stores_price o d), (stores_volume o d) by done. eauto.
      - intros ms Hms. split; [|intros; exact I].
        destruct (one_price_groups os1 ds1 pp ms Hs1 Hx1 Hms) as [[_ ->]|(_ & g & -> & Hg)];
          [done|]. constructor; [|done].
        eexists. exact (volume_group_project os1 ds1 pp g Hs1 Hx1 Hsum Hg). }
  intros [rs|e|] s' [Hd Hrs]; [|by apply and_assoc; split; [by eapply represents_docs|]|done].
  destruct Hrs as (ms1 & -> & ms2 & Hms2 & ms3 & Hms3 & ->). fold ds1 in Hms2.
  destruct (one_price_groups os1 ds1 pp ms2 Hs1 Hx1 Hms2) as [[He ->]|(Hne & g & -> & Hg)].
  - apply mapM_Some in Hms3. inversion Hms3; subst. apply wp_bind, wp_lift, wp_ret.
    apply and_assoc. split; [by eapply represents_docs|].
    rewrite He in Hos1. apply Permutation_nil_r in Hos1. by rewrite Hos1.
  - apply mapM_Some in Hms3. inversion Hms3 as [|? r ? rs' Hr1 Hr2]; subst.
    inversion Hr2; subst.
    rewrite (volume_group_project os1 ds1 pp g) in Hr1 by done. simplify_eq.
    apply wp_bind, wp_lift. simpl. apply wp_ret.
    apply and_assoc. split; [by eapply represents_docs|].
    unfold OrderDao.map_get. simpl. rewrite ToBigInt_String_Z.
    assert (sumZ (remaining <$> os1) = sumZ (remaining <$>
      base.filter (at_price p pp side) (orders_of (book_of os)))) as -> by (by rewrite Hos1).
    destruct (base.filter _ (orders_of _)) as [|o l]; [|done].
    by apply Permutation_nil_l in Hos1.
Qed.

Lemma GetOrderBookPricePoint_keeps p pp side s : dao_inv s →
  wp (OrderDao.GetOrderBookPricePoint p pp side) (λ _ s', dao_inv s' ∧ dao_book s' = dao_book s) s.
Proof.
  intros [os Hr]. rewrite (represents_book s os Hr). unfold OrderDao.GetOrderBookPricePoint.
  apply wp_bind. eapply wp_mono; [|apply Pipe_docs]. intros r s1 [Hs _].
  pose proof (represents_docs s s1 os Hr Hs) as Hd. destruct r as [ds|e|]; [|done..]. cbn [wp_next].
  apply wp_bind, wp_lift. by destruct (decode_all _ ds).
Qed.

(** ** The implementation of the contract *)
#[export] Instance order_dao_spec : OrderDaoSpec W.
Proof.
  refine {| order_book := dao_book; od_inv := dao_inv |}.
  - intros s h o [os Hr] Ho. rewrite (represents_book s os Hr) in Ho.
    apply book_of_lookup in Ho as [Ho Hh]; [|apply Hr]. split; [|done].
    destruct Hr as [Hs _]. apply list_elem_of_lookup in Ho as [i Hi].
    destruct (Forall2_lookup_l _ _ _ _ _ Hs Hi) as (d & _ & Hst). apply Hst.
  - apply FindAndModify_refines.
  - apply UpdateOrderStatus_refines.
  - apply UpdateOrderStatusesByHashes_refines.
  - apply UpdateOrderFilledAmounts_refines.
  - apply GetByHash_refines.
  - apply GetMatchingSellOrders_refines.
  - apply GetMatchingBuyOrders_refines.
  - apply GetUserLockedBalance_refines.
  - apply GetOrderBookPricePoint_refines.
  - apply GetOrderBookPricePoint_keeps.
Defined.

(** A server that takes every update of the statuses marks the orders. *)
Lemma orders_marked_updates :
  (∀ hs t st (s : W), dao_inv s → (UpdateMany (OrderDao.hashes_in hs)
     (USet [("updatedAt", bson_of_time t); ("status", BStr st)] []) s).1 = Ok tt) →
  orders_marked W.
Proof.
  intros Hup st hs s [os Hr]. cbn [od_UpdateOrderStatusesByHashes order_book order_dao_spec order_dao].
  rewrite (represents_book s os Hr). unfold OrderDao.UpdateOrderStatusesByHashes.
  wp_step Now_ok. intros r1 s1 (Hd1 & t & ->). apply wp_bind, wp_attempt.
  eapply wp_mono; [|apply (wp_and _ _ _ _ (UpdateMany_ok _ _ s1) (wp_self _ _))]. cbn beta.
  rewrite Hd1. intros r s2 [Hu [Hself _]].
  rewrite Hup in Hself by (exists os; by rewrite Hd1). subst r. destruct Hu as [Hu _].
  destruct (represents_update_many hs t st _ os _ Hr Hu) as (us & Hus & Hb).
  apply wp_bind, wp_attempt. eapply wp_mono; [|apply (get_by_hashes hs s2 us Hus)].
  cbn beta. intros r s3 [Hd3 _]. assert (∃ t, dao_book s3 = mark t st hs (book_of os)) as Hm.
  { rewrite (represents_book s3 us) by (by rewrite Hd3). eauto. }
  by destruct r as [l|e|].
Qed.
End refine.
