(* ===== verification/DaoProps.v ===== *)
(** The order collection as an order book: the aggregation pipelines and upserts
    of [daos/order.go] implement the lookups and updates of a map. *)
From S2P Require Import Prelude BigMath Types Mongo ListMongo Json Fixtures Orders OrderCodec OrderDao OrderStore OrderDaoRefine.

Section props.
Context `{EthCommonLaws} `{!Codecs, !CodecLaws _ _} `{Big.Undefined, Decimals}.
Context {W : Type} `{Runtime W, !Mongo W, !MongoLaws W}.
Implicit Types s : W.

(** C33: saving an order and reading by hash: the order's own hash gives it back,
    but for the identifier and the times, which the database owns, and its
    creation time is kept when it was stored before; any other hash gives what
    it gave before. *)
Theorem OrderDao_save_read o s o' u s1 h r s2 :
  complete o → dao_inv s →
  OrderDao.FindAndModify (o_Hash o) o s = (Ok (o', inr u), s1) →
  OrderDao.GetByHash h s1 = (Ok r, s2) →
  same_content o u ∧
  (∀ old, dao_book s !! o_Hash o = Some old → o_CreatedAt u = o_CreatedAt old) ∧
  r = if decide (h = o_Hash o) then Some u else dao_book s !! h.
Proof.
  intros Ho Hi Hsave Hread.
  destruct (wp_run _ _ _ _ _ Hsave (FindAndModify_refines o Ho s Hi)) as (Hi1 & _ & [Hc Hold] & Hb).
  destruct (wp_run _ _ _ _ _ Hread (GetByHash_refines h s1 Hi1)) as (_ & _ & Hr).
  split; [done|]. split; [done|]. cbn in Hr, Hb. rewrite Hr, Hb.
  case_decide as Hh; [subst; by rewrite lookup_insert_eq|by rewrite lookup_insert_ne].
Qed.

(** The candidates of a taker, best price first and oldest first at one price. *)
Definition best_first (o : Order) (l : list Order) : Prop :=
  if decide (o_Side o = BUY) then StronglySorted sell_priority l else StronglySorted buy_priority l.
Definition tradable (o m : Order) : Prop :=
  if decide (o_Side o = BUY) then matches_sell o m else matches_buy o m.
#[export] Instance tradable_dec o m : Decision (tradable o m).
Proof. unfold tradable. case_decide; apply _. Defined.
Definition matching_orders (o : Order) : M W (list Order) :=
  if decide (o_Side o = BUY) then OrderDao.GetMatchingSellOrders o
  else OrderDao.GetMatchingBuyOrders o.

End props.
