(* ===== verification/TradeDao.v ===== *)
(** [daos/trade.go]: the trade collection, over the driver of [Mongo], and the
    part of [interfaces.TradeDao] the engine and the services rely on. *)
From S2P Require Import Prelude BigMath Types Mongo ListMongo Json Fixtures Orders MatchTypes OrderCodec TradeCodec OrderDao.

Module TradeDao.
Section dao.
Context {W : Type} `{EthCommon, Codecs, Big.Undefined, Sprint, Runtime W, Mongo W}.

Definition by_hash (h : Hash) : query := Fields [("hash", Equal (BStr (Hash_Hex h)))].
Definition key_in (k : string) (hs : list Hash) : query :=
  Fields [(k, In_ ((λ h, BStr (Hash_Hex h)) <$> hs))].
Definition by_pair (bt qt : Address) : query :=
  Fields [("baseToken", Equal (BStr (Address_Hex bt)));
          ("quoteToken", Equal (BStr (Address_Hex qt)))].
Definition by_user (a : Address) : query :=
  Or [[("maker", Equal (BStr (Address_Hex a)))]; [("taker", Equal (BStr (Address_Hex a)))]].

Definition get_trades (q : query) (sort : list (string * dir)) (limit : nat) : M W (list Trade) :=
  ds ← Find q sort 0 limit; lift (decode_all Trade_SetBSON ds).

(** The loop of [Create]: [y] starts with a nil element per trade. *)
Fixpoint create_loop (y : list (option doc)) (ts : list Trade) :
    M W (list (option doc) * list Trade) :=
  match ts with
  | [] => mret (y, [])
  | t :: ts' =>
    id ← NewObjectId;
    t1 ← Now;
    t2 ← Now;
    let t := set_t_UpdatedAt t2 (set_t_CreatedAt t1 (set_t_ID id t)) in
    '(y, rest) ← create_loop (y ++ [Some (Trade_GetBSON t)]) ts';
    mret (y, t :: rest)
  end.

Definition Create (ts : list Trade) : M W (list Trade * (error + unit)) :=
  '(y, ts) ← create_loop (replicate (length ts) None) ts;
  returning ts (Insert y).

(** As in [daos/order.go], the hashes are not in the form the documents hold. *)
Definition raw_hashes_in (hs : list Hash) : query :=
  Fields [("hash", In_ ((λ h, BBin (Hash_Bytes h)) <$> hs))].
Definition DeleteByHashes (hs : list Hash) : M W unit := RemoveMany (raw_hashes_in hs).
Definition Delete (ts : list Trade) : M W unit := RemoveMany (raw_hashes_in (t_Hash <$> ts)).

Definition Update (t : Trade) : M W (Trade * (error + unit)) :=
  now ← Now;
  let t := set_t_UpdatedAt now t in
  returning t (UpdateOne (Fields [("_id", Equal (BId (t_ID t)))]) (UReplace (Trade_GetBSON t))).

Definition Upsert (id : string) (t : Trade) : M W (Trade * (error + unit)) :=
  now ← Now;
  let t := set_t_UpdatedAt now t in
  returning t (UpsertOne (Fields [("_id", Equal (BId id))]) (UReplace (Trade_GetBSON t))).

Definition UpsertByHash (h : Hash) (t : Trade) : M W (Trade * (error + unit)) :=
  now ← Now;
  let t := set_t_UpdatedAt now t in
  returning t (UpsertOne (Fields [("hash", Equal (BBin (Hash_Bytes h)))])
                 (UReplace (Trade_GetBSON t))).

Definition FindAndModify (h : Hash) (t : Trade) : M W (Trade * (error + Trade)) :=
  now ← Now;
  let t := set_t_UpdatedAt now t in
  u ← TradeBSONUpdate_GetBSON t;
  returning t (d ← FindAndModifyDoc (by_hash h) u true; lift (Trade_SetBSON d)).

Definition UpdateByHash (h : Hash) (t : Trade) : M W (Trade * (error + unit)) :=
  now ← Now;
  let t := set_t_UpdatedAt now t in
  returning t (UpdateOne (by_hash h) (USet
    [("pricepoint", BStr (Big.Stringp (t_PricePoint t)));
     ("amount", BStr (Big.Stringp (t_Amount t)));
     ("txHash", BStr (Hash_Hex (t_TxHash t)));
     ("takerOrderHash", BStr (Hash_Hex (t_TakerOrderHash t)));
     ("makerOrderHash", BStr (Hash_Hex (t_MakerOrderHash t)));
     ("updatedAt", bson_of_time (t_UpdatedAt t))] [])).

Definition GetAll : M W (list Trade) := get_trades (Fields []) [] 0.

(** [res[0]] panics when there is no such trade. *)
Definition GetByHash (h : Hash) : M W Trade :=
  res ← get_trades (by_hash h) [] 0; lift (deref (head res)).

Definition GetByMakerOrderHash (h : Hash) : M W (list Trade) :=
  get_trades (Fields [("makerOrderHash", Equal (BStr (Hash_Hex h)))]) [] 0.
Definition GetByTakerOrderHash (h : Hash) : M W (list Trade) :=
  get_trades (Fields [("takerOrderHash", Equal (BStr (Hash_Hex h)))]) [] 0.
Definition GetByOrderHashes (hs : list Hash) : M W (list Trade) :=
  get_trades (key_in "makerOrderHash" hs) [] 0.

Definition newest : list (string * dir) := [("createdAt", Desc)].
Definition GetSortedTrades (bt qt : Address) (n : nat) : M W (list Trade) :=
  get_trades (by_pair bt qt) newest n.
Definition GetTradesByPairAddress (bt qt : Address) (n : nat) : M W (list Trade) :=
  get_trades (by_pair bt qt) [] n.
Definition GetNTradesByPairAddress (bt qt : Address) (n : nat) : M W (list Trade) :=
  GetTradesByPairAddress bt qt n.
Definition GetAllTradesByPairAddress (bt qt : Address) : M W (list Trade) :=
  GetTradesByPairAddress bt qt 0.
Definition GetSortedTradesByUserAddress (a : Address) (limit : nat) : M W (list Trade) :=
  get_trades (by_user a) newest limit.
Definition GetByUserAddress (a : Address) : M W (list Trade) := get_trades (by_user a) [] 0.

Definition UpdateTradeStatus (h : Hash) (status : string) : M W unit :=
  UpdateOne (by_hash h) (USet [("status", BStr status)] []).

(** A failing query is logged and the trades are nil, without an error. *)
Definition update_statuses (q : query) (status : string) : M W (list Trade) :=
  t ← Now;
  r ← attempt (UpdateMany q
        (USet [("updatedAt", bson_of_time t); ("status", BStr status)] []));
  match r with
  | inl _ => mret []
  | inr _ =>
    r' ← attempt (get_trades q [] 0);
    mret (match r' with inl _ => [] | inr ts => ts end)
  end.

Definition UpdateTradeStatuses (status : string) (hs : list Hash) : M W (list Trade) :=
  update_statuses (key_in "hash" hs) status.
(** The order hashes are looked up among the maker orders only. *)
Definition UpdateTradeStatusesByOrderHashes (status : string) (hs : list Hash) :
    M W (list Trade) := update_statuses (key_in "makerOrderHash" hs) status.
Definition UpdateTradeStatusesByHashes (status : string) (hs : list Hash) : M W (list Trade) :=
  update_statuses (key_in "hash" hs) status.

Definition Drop : M W unit := DropColl.
End dao.
End TradeDao.

(** ** [interfaces.TradeDao], the part that is used *)
Class ITradeDao (TS : Type) := {
  td_Create : list Trade → M TS (list Trade * (error + unit));
  td_GetByHash : Hash → M TS Trade;
  td_GetByOrderHashes : list Hash → M TS (list Trade);
  td_UpdateTradeStatus : Hash → string → M TS unit;
  td_UpdateTradeStatuses : string → list Hash → M TS (list Trade);
  td_UpdateTradeStatusesByOrderHashes : string → list Hash → M TS (list Trade);
  td_FindAndModify : Hash → Trade → M TS (Trade * (error + Trade));
  td_Update : Trade → M TS (Trade * (error + unit));
  td_UpdateByHash : Hash → Trade → M TS (Trade * (error + unit));
  td_GetByMakerOrderHash : Hash → M TS (list Trade);
  td_GetByTakerOrderHash : Hash → M TS (list Trade);
  td_GetByUserAddress : Address → M TS (list Trade);
  td_GetSortedTradesByUserAddress : Address → nat → M TS (list Trade);
  td_GetAllTradesByPairAddress : Address → Address → M TS (list Trade);
  td_GetSortedTrades : Address → Address → nat → M TS (list Trade)
}.

#[export] Instance trade_dao `{EthCommon, Codecs, Big.Undefined, Sprint} {W}
    `{Runtime W, Mongo W} : ITradeDao W := {|
  td_Create := TradeDao.Create;
  td_GetByHash := TradeDao.GetByHash;
  td_GetByOrderHashes := TradeDao.GetByOrderHashes;
  td_UpdateTradeStatus := TradeDao.UpdateTradeStatus;
  td_UpdateTradeStatuses := TradeDao.UpdateTradeStatuses;
  td_UpdateTradeStatusesByOrderHashes := TradeDao.UpdateTradeStatusesByOrderHashes;
  td_FindAndModify := TradeDao.FindAndModify;
  td_Update := TradeDao.Update;
  td_UpdateByHash := TradeDao.UpdateByHash;
  td_GetByMakerOrderHash := TradeDao.GetByMakerOrderHash;
  td_GetByTakerOrderHash := TradeDao.GetByTakerOrderHash;
  td_GetByUserAddress := TradeDao.GetByUserAddress;
  td_GetSortedTradesByUserAddress := TradeDao.GetSortedTradesByUserAddress;
  td_GetAllTradesByPairAddress := TradeDao.GetAllTradesByPairAddress;
  td_GetSortedTrades := TradeDao.GetSortedTrades
|}.

Definition mark_trades (P : Trade → Prop) `{∀ t, Decision (P t)} (st : string) (now : Z)
    (ts : list Trade) : list Trade :=
  (λ t, if decide (P t) then set_t_Status st (set_t_UpdatedAt now t) else t) <$> ts.

(** [u] is [t] with an identifier and times of its own. *)
Definition same_terms (t u : Trade) : Prop :=
  u = set_t_UpdatedAt (t_UpdatedAt u) (set_t_CreatedAt (t_CreatedAt u) (set_t_ID (t_ID u) t)).

(** What the collection promises: its trades, in no order, and the effect of an
    insertion and of the bulk updates of their status. *)
Class TradeDaoSpec (TS : Type) `{ITradeDao TS} := {
  trades : TS → list Trade;
  td_inv : TS → Prop;
  Create_spec ts s : td_inv s → Forall (λ t, is_Some (t_Amount t) ∧ is_Some (t_PricePoint t)) ts →
    wp (td_Create ts) (λ r s', td_inv s' ∧
      match r with
      | Ok (ts', res) =>
        t_Hash <$> ts' = t_Hash <$> ts ∧
        match res with
        | inr _ => ∃ us, t_Hash <$> us = t_Hash <$> ts ∧ trades s' ≡ₚ us ++ trades s
        | inl _ => trades s' = trades s ∨
                   ∃ us, t_Hash <$> us = t_Hash <$> ts ∧ trades s' ≡ₚ us ++ trades s
        end
      | _ => False
      end) s;
  Create_answers ts s :
    wp (td_Create ts) (λ r _, ∀ us res, r = Ok (us, res) → Forall2 same_terms ts us) s;
  UpdateTradeStatuses_spec st hs s : td_inv s →
    wp (td_UpdateTradeStatuses st hs) (λ r s', td_inv s' ∧ ∃ l, r = Ok l ∧
      (trades s' = trades s ∧ l = [] ∨
       ∃ t, trades s' ≡ₚ mark_trades (λ x, t_Hash x ∈ hs) st t (trades s))) s;
  UpdateTradeStatusesByOrderHashes_spec st hs s : td_inv s →
    wp (td_UpdateTradeStatusesByOrderHashes st hs) (λ r s', td_inv s' ∧ ∃ l, r = Ok l ∧
      (trades s' = trades s ∧ l = [] ∨
       ∃ t, trades s' ≡ₚ mark_trades (λ x, t_MakerOrderHash x ∈ hs) st t (trades s))) s
}.
(** The bulk update by the hashes of orders takes effect: the database does not fail. *)
Definition trades_marked (TS : Type) `{TradeDaoSpec TS} : Prop := ∀ st hs s, td_inv s →
  wp (td_UpdateTradeStatusesByOrderHashes st hs) (λ _ s', ∃ t,
    trades s' ≡ₚ mark_trades (λ x, t_MakerOrderHash x ∈ hs) st t (trades s)) s.

(** ** The implementation *)
Section refine.
Context `{EthCommonLaws} `{!Codecs, !CodecLaws _ _} `{Big.Undefined, Sprint}.
Context {W : Type} `{Runtime W, !Mongo W, !MongoLaws W}.

(** [d] stores [t]. *)
Definition stores_trade (t : Trade) (d : doc) : Prop :=
  is_Some (t_Amount t) ∧ is_Some (t_PricePoint t) ∧ t_Side t = "" ∧ t_Signature t = None ∧
  t_CreatedAt t = truncate_ms (t_CreatedAt t) ∧ t_UpdatedAt t = truncate_ms (t_UpdatedAt t) ∧
  Forall (λ kv, field kv.1 d = Some kv.2) (Trade_GetBSON t).
(** The documents the nil elements of [Create] leave behind. *)
Definition blank (d : doc) : Prop := ∀ k, k ≠ "_id" → field k d = None.

Definition decode_trade (d : doc) : option Trade :=
  match field "makerOrderHash" d, Trade_SetBSON d with
  | Some _, Ok t => Some t
  | _, _ => None
  end.
Definition dao_trades (s : W) : list Trade := omap decode_trade (docs s).
Definition trades_inv (s : W) : Prop :=
  Forall (λ d, blank d ∨ ∃ t, stores_trade t d) (docs s).

Lemma stores_trade_decode t d : stores_trade t d → decode_trade d = Some t.
Proof.
  intros (Ha & Hp & Hsd & Hsg & Hc & Hu & Hd).
  unfold Trade_GetBSON in Hd. rewrite !Forall_cons in Hd. destruct_and?.
  unfold decode_trade, Trade_SetBSON, bson_id.
  repeat match goal with H : field (?k, _).1 d = _ |- _ => cbn [fst snd] in H end.
  repeat match goal with H : field ?k d = Some _ |- context [field ?k d] => rewrite H end.
  repeat erewrite bson_string_of by eassumption.
  repeat erewrite bson_time_of by eassumption. simpl.
  rewrite !HexToAddress_Hex, !HexToHash_Hex, !ToBigInt_Stringp, <-Hc, <-Hu by done.
  destruct t; simpl in *; by subst.
Qed.

Lemma blank_decode d : blank d → decode_trade d = None.
Proof. intros Hb. unfold decode_trade. by rewrite Hb. Qed.

(** What the database keeps of a trade. *)
Definition kept (t : Trade) : Trade :=
  mkTrade (t_ID t) (t_Taker t) (t_Maker t) (t_BaseToken t) (t_QuoteToken t)
    (t_MakerOrderHash t) (t_TakerOrderHash t) (t_Hash t) "" None (t_TxHash t) (t_PairName t)
    (truncate_ms (t_CreatedAt t)) (truncate_ms (t_UpdatedAt t)) (t_PricePoint t)
    (t_Status t) (t_Amount t).

Lemma stores_inserted t d :
  is_Some (t_Amount t) → is_Some (t_PricePoint t) → inserted (Some (Trade_GetBSON t)) d →
  stores_trade (kept t) d.
Proof.
  intros Ha Hp Hd. unfold inserted in Hd. simpl default in Hd.
  split_and!; [done..|apply truncate_ms_idem|apply truncate_ms_idem|].
  assert (∀ k v, field k (Trade_GetBSON t) = Some v → field k d = Some v) as Hk.
  { intros k v Hkv. rewrite Hd; [done|right; by eexists]. }
  clear Hd. unfold Trade_GetBSON at 1. unfold kept.
  repeat (apply Forall_cons_2; [|]); [..|apply Forall_nil_2];
    simpl; rewrite ?bson_of_truncate; apply Hk; reflexivity.
Qed.

Lemma inserted_none d : inserted None d → blank d.
Proof. intros Hd k Hk. rewrite Hd by (by left). done. Qed.

Lemma stores_mark t now st d :
  stores_trade t d →
  stores_trade (set_t_Status st (set_t_UpdatedAt (truncate_ms now) t))
    (set_fields [("updatedAt", bson_of_time now); ("status", BStr st)] d).
Proof.
  intros (Ha & Hp & Hsd & Hsg & Hc & Hu & Hd).
  split_and!; [done..|apply truncate_ms_idem|].
  set (kvs := [("updatedAt", bson_of_time now); ("status", BStr st)]).
  assert (∀ k v, field k (kvs ++ d) = Some v → field k (set_fields kvs d) = Some v) as Hk.
  { intros k v. by rewrite field_app, field_set_fields. }
  revert Hk. generalize (set_fields kvs d). intros d' Hk.
  unfold Trade_GetBSON in Hd. rewrite !Forall_cons in Hd. destruct_and?.
  unfold Trade_GetBSON.
  repeat (apply Forall_cons_2; [|]); [..|apply Forall_nil_2];
    simpl; apply Hk; simpl; rewrite ?bson_of_truncate; first [assumption|reflexivity].
Qed.

(** ** Creating trades *)

Lemma create_loop_spec ts y s :
  wp (TradeDao.create_loop y ts) (λ r s', docs s' = docs s ∧ ∃ us,
    r = Ok (y ++ (Some ∘ Trade_GetBSON <$> us), us) ∧ t_Hash <$> us = t_Hash <$> ts ∧
    Forall2 (λ t u, t_Amount u = t_Amount t ∧ t_PricePoint u = t_PricePoint t) ts us) s.
Proof.
  revert y s. induction ts as [|t ts IH]; intros y s; simpl.
  - apply wp_ret. split; [done|]. exists []. by rewrite app_nil_r.
  - apply wp_bind. eapply wp_mono; [|apply NewObjectId_ok]. cbn beta.
    intros r1 s1 (Hd1 & id & -> & _). apply wp_bind. eapply wp_mono; [|apply Now_ok]. cbn beta.
    intros r2 s2 (Hd2 & t1 & ->). apply wp_bind. eapply wp_mono; [|apply Now_ok]. cbn beta.
    intros r3 s3 (Hd3 & t2 & ->). apply wp_bind. eapply wp_mono; [|apply IH]. cbn beta.
    intros r4 s4 (Hd4 & us & -> & Hh & Hf). apply wp_ret. split; [congruence|].
    eexists (_ :: us). rewrite <-app_assoc. split_and!; [done| |].
    + by rewrite !fmap_cons, Hh.
    + by constructor.
Qed.

Lemma create_loop_terms ts y s :
  wp (TradeDao.create_loop y ts) (λ r _, ∀ y' us, r = Ok (y', us) → Forall2 same_terms ts us) s.
Proof.
  revert y s. induction ts as [|t ts IH]; intros y s; simpl.
  - apply wp_ret. intros y' us [= _ <-]. constructor.
  - apply wp_bind. eapply wp_mono; [|apply NewObjectId_ok]. cbn beta.
    intros r1 s1 (_ & id & -> & _). apply wp_bind. eapply wp_mono; [|apply Now_ok]. cbn beta.
    intros r2 s2 (_ & t1 & ->). apply wp_bind. eapply wp_mono; [|apply Now_ok]. cbn beta.
    intros r3 s3 (_ & t2 & ->). apply wp_bind. eapply wp_mono; [|apply IH]. cbn beta.
    intros [[y1 us]|e|] s4 Hus; [|by intros ? ?..]. apply wp_ret. intros y' us' [= _ <-].
    constructor; [done|by eapply Hus].
Qed.
Lemma Create_terms ts s :
  wp (TradeDao.Create ts) (λ r _, ∀ us res, r = Ok (us, res) → Forall2 same_terms ts us) s.
Proof.
  apply wp_bind. eapply wp_mono; [|apply create_loop_terms].
  intros [[y us]|e|] s1 Hus; [|by intros ? ?..]. apply wp_returning. unfold wp.
  destruct (Insert y s1) as [[[]|e|] s2]; intros us' res; [intros [= <- _]..|done]; by eapply Hus.
Qed.

Definition amounts_set (t : Trade) : Prop := is_Some (t_Amount t) ∧ is_Some (t_PricePoint t).

Lemma insert_trades us ds ds' n :
  Forall amounts_set us → Forall (λ d, blank d ∨ ∃ t, stores_trade t d) ds →
  insert_docs (replicate n None ++ (Some ∘ Trade_GetBSON <$> us)) ds ds' →
  Forall (λ d, blank d ∨ ∃ t, stores_trade t d) ds' ∧
  omap decode_trade ds' ≡ₚ (kept <$> us) ++ omap decode_trade ds.
Proof.
  intros Hus Hds (new & Hnew & Hp).
  apply Forall2_app_inv_l in Hnew as (n1 & n2 & Hn1 & Hn2 & ->).
  assert (Forall blank n1) as Hb.
  { clear Hp Hn2. revert n1 Hn1. induction n as [|n IH]; intros n1 Hn1;
      inversion Hn1 as [|? d ? ? Hd Hr]; subst; [done|].
    constructor; [by apply inserted_none|by apply IH]. }
  assert (Forall2 stores_trade (kept <$> us) n2) as Hst.
  { clear Hp. revert n2 Hn2. induction Hus as [|u us [Ha Hpp] Hus IH]; intros n2 Hn2; inversion Hn2; subst;
      simpl; constructor; [by apply stores_inserted|by apply IH]. }
  split.
  - rewrite Hp. rewrite !Forall_app. split_and!; [|..|done].
    + eapply Forall_impl; [exact Hb|]. auto.
    + clear -Hst. induction Hst; constructor; eauto.
  - rewrite Hp, !omap_app. 
    assert (omap decode_trade n1 = []) as ->.
    { clear -Hb. induction Hb as [|d n1 Hd Hb IH]; simpl; [done|]. by rewrite blank_decode. }
    assert (omap decode_trade n2 = kept <$> us) as ->; [|done].
    { clear Hp Hn2. revert Hst. generalize (kept <$> us). intros l Hst.
      induction Hst as [|t d ts n2 Hd Hst IH]; simpl; [done|].
      rewrite (stores_trade_decode t d Hd). by f_equal. }
Qed.

Lemma Create_refines ts s : trades_inv s → Forall amounts_set ts →
  wp (TradeDao.Create ts) (λ r s', trades_inv s' ∧
    match r with
    | Ok (ts', res) =>
      t_Hash <$> ts' = t_Hash <$> ts ∧
      match res with
      | inr _ => ∃ us, t_Hash <$> us = t_Hash <$> ts ∧ dao_trades s' ≡ₚ us ++ dao_trades s
      | inl _ => dao_trades s' = dao_trades s ∨
                 ∃ us, t_Hash <$> us = t_Hash <$> ts ∧ dao_trades s' ≡ₚ us ++ dao_trades s
      end
    | _ => False
    end) s.
Proof.
  intros Hi Hts. unfold TradeDao.Create.
  apply wp_bind. eapply wp_mono; [|apply create_loop_spec]. cbn beta.
  intros r1 s1 (Hd1 & us & -> & Hh & Hf). simpl.
  apply wp_returning. eapply wp_mono; [|apply Insert_ok]. cbn beta.
  assert (Forall amounts_set us) as Hus.
  { clear -Hts Hf. induction Hf as [|t u ts us [Ha Hp] Hf IH]; [done|].
    apply Forall_cons in Hts as [[? ?] ?]. constructor; [|by apply IH].
    unfold amounts_set. by rewrite Ha, Hp. }
  assert (t_Hash <$> (kept <$> us) = t_Hash <$> us) as Hk
    by (by rewrite <-list_fmap_compose).
  unfold trades_inv, dao_trades in *. rewrite Hd1.
  intros [[]|e|] s2; [intros [Hins _]|intros [Hd2|(_ & Hins & _)]|done].
  - apply (insert_trades us _ _ _ Hus Hi) in Hins as [Hi2 Hp].
    split; [done|]. split; [done|]. eexists. split; [|exact Hp]. congruence.
  - rewrite Hd2. auto.
  - apply (insert_trades us _ _ _ Hus Hi) in Hins as [Hi2 Hp].
    split; [done|]. split; [done|]. right. eexists. split; [|exact Hp]. congruence.
Qed.

(** ** Bulk updates *)

Lemma bind_no_panic {A B} (m : outcome A) (k : A → outcome B) :
  m ≠ Panic → (∀ a, k a ≠ Panic) → m ≫= k ≠ Panic.
Proof. intros Hm Hk. destruct m; simpl; [apply Hk|done|done]. Qed.

Lemma Trade_SetBSON_no_panic d : Trade_SetBSON d ≠ Panic.
Proof.
  unfold Trade_SetBSON, bson_id, bson_string, bson_time.
  repeat (apply bind_no_panic; [by repeat case_match|intros ?]). done.
Qed.

Lemma decode_all_no_panic {A} (decode : doc → outcome A) ds :
  (∀ d, decode d ≠ Panic) → decode_all decode ds ≠ Panic.
Proof.
  intros Hd. induction ds as [|d ds IH]; simpl; [done|].
  apply bind_no_panic; [done|intros a]. by apply bind_no_panic.
Qed.

Lemma update_trades (k : string) (f : Trade → Hash) hs st now ds ds' :
  (∀ t, (k, BStr (Hash_Hex (f t))) ∈ Trade_GetBSON t) → k ≠ "_id" →
  Forall (λ d, blank d ∨ ∃ t, stores_trade t d) ds →
  update_many (TradeDao.key_in k hs)
    (USet [("updatedAt", bson_of_time now); ("status", BStr st)] []) ds ds' →
  Forall (λ d, blank d ∨ ∃ t, stores_trade t d) ds' ∧
  omap decode_trade ds' ≡ₚ
    mark_trades (λ x, f x ∈ hs) st (truncate_ms now) (omap decode_trade ds).
Proof.
  intros Hkf Hkid Hds Hu. unfold update_many in Hu.
  set (g := λ d, if matches _ d then _ else d) in Hu.
  assert (∀ d, blank d → g d = d) as Hgb.
  { intros d Hb. unfold g. simpl. by rewrite Hb. }
  assert (∀ t d, stores_trade t d → stores_trade (if decide (f t ∈ hs)
      then set_t_Status st (set_t_UpdatedAt (truncate_ms now) t) else t) (g d)) as Hgs.
  { intros t d Hs.
    assert (matches (TradeDao.key_in k hs) d = true ↔ f t ∈ hs) as Hm.
    { destruct Hs as (_&_&_&_&_&_&Hd). rewrite Forall_forall in Hd.
      pose proof (Hd _ (Hkf t)) as Hfk. simpl in Hfk. clear Hd. simpl. rewrite Hfk. simpl.
      rewrite andb_true_r, bool_decide_eq_true, list_elem_of_fmap. split.
      - by intros (h & [= ->%(inj Hash_Hex)] & ?).
      - eauto. }
    unfold g. destruct (decide (f t ∈ hs)) as [Hin|Hni].
    - rewrite (proj2 Hm Hin). by apply stores_mark.
    - by rewrite (not_true_is_false _ (λ H, Hni (proj1 Hm H))). }
  split.
  - rewrite Hu. clear Hu. induction Hds as [|d ds [Hb|[t Ht]] Hds IH]; [done|..];
      rewrite fmap_cons; constructor; eauto. left. by rewrite Hgb.
  - rewrite Hu. clear Hu. apply reflexive_eq. unfold mark_trades.
    induction Hds as [|d ds [Hb|[t Ht]] Hds IH]; [done|..].
    + simpl. rewrite Hgb, blank_decode by done. exact IH.
    + simpl. rewrite (stores_trade_decode t d Ht), (stores_trade_decode _ _ (Hgs t d Ht)).
      simpl. f_equal. exact IH.
Qed.

Lemma update_statuses_refines k f st hs s :
  (∀ t, (k, BStr (Hash_Hex (f t))) ∈ Trade_GetBSON t) → k ≠ "_id" → trades_inv s →
  wp (TradeDao.update_statuses (TradeDao.key_in k hs) st) (λ r s', trades_inv s' ∧
    ∃ l, r = Ok l ∧
    (dao_trades s' = dao_trades s ∧ l = [] ∨
     ∃ t, dao_trades s' ≡ₚ mark_trades (λ x, f x ∈ hs) st t (dao_trades s))) s.
Proof.
  intros Hkf Hkid Hi. unfold TradeDao.update_statuses.
  apply wp_bind. eapply wp_mono; [|apply Now_ok]. cbn beta.
  intros r1 s1 (Hd1 & now & ->). apply wp_bind, wp_attempt.
  eapply wp_mono; [|apply UpdateMany_ok]. cbn beta.
  unfold trades_inv, dao_trades in *. rewrite Hd1.
  intros [[]|e|] s2; [intros [Hu _]|intros [Hd2|(_ & Hu & _)]|done].
  - apply (update_trades k f _ _ _ _ _ Hkf Hkid Hi) in Hu as [Hi2 Hp].
    apply wp_bind, wp_attempt. unfold TradeDao.get_trades.
    apply wp_bind. eapply wp_mono; [|apply Find_ok]. cbn beta.
    intros [ds|e|] s3 [Hd3 Hf]; [| |done].
    + apply wp_lift. pose proof (decode_all_no_panic Trade_SetBSON ds Trade_SetBSON_no_panic).
      destruct (decode_all Trade_SetBSON ds) as [l|e|]; [| |done];
        apply wp_ret; rewrite Hd3; eauto 10.
    + apply wp_ret. rewrite Hd3. eauto 10.
  - apply wp_ret. rewrite Hd2. eauto 10.
  - apply (update_trades k f _ _ _ _ _ Hkf Hkid Hi) in Hu as [Hi2 Hp].
    apply wp_ret. eauto 10.
Qed.

#[export] Instance trade_dao_spec : TradeDaoSpec W.
Proof.
  refine {| trades := dao_trades; td_inv := trades_inv |}.
  - apply Create_refines.
  - apply Create_terms.
  - intros st hs s. apply (update_statuses_refines "hash" t_Hash); [|done].
    intros t. unfold Trade_GetBSON. set_solver.
  - intros st hs s. apply (update_statuses_refines "makerOrderHash" t_MakerOrderHash); [|done].
    intros t. unfold Trade_GetBSON. set_solver.
Defined.

(** A server that takes every update marks the trades. *)
Lemma trades_marked_updates : (∀ q u (s : W), (UpdateMany q u s).1 = Ok tt) → trades_marked W.
Proof.
  intros Hup st hs s Hi. cbn [td_UpdateTradeStatusesByOrderHashes trades trade_dao_spec trade_dao].
  unfold TradeDao.UpdateTradeStatusesByOrderHashes, TradeDao.update_statuses.
  apply wp_bind. eapply wp_mono; [|apply Now_ok]. cbn beta. intros r1 s1 (Hd1 & now & ->).
  apply wp_bind, wp_attempt.
  eapply wp_mono; [|apply (wp_and _ _ _ _ (UpdateMany_ok _ _ s1) (wp_self _ _))]. cbn beta.
  cbn in Hi. unfold trades_inv, dao_trades in *. rewrite Hd1.
  intros r s2 [Hu [Hself _]]. rewrite Hup in Hself. subst r. destruct Hu as [Hu _].
  apply (update_trades "makerOrderHash" t_MakerOrderHash _ _ _ _ _) in Hu as [Hi2 Hp];
    [|intros t; unfold Trade_GetBSON; set_solver|done|done].
  apply wp_bind, wp_attempt. apply wp_bind. eapply wp_mono; [|apply Find_ok]. cbn beta.
  intros [ds|e|] s3 [Hd3 _]; cbn [wp_next].
  - apply wp_lift. destruct (decode_all Trade_SetBSON ds); [apply wp_ret..|]; rewrite Hd3; eauto.
  - apply wp_ret. rewrite Hd3. eauto.
  - rewrite Hd3. eauto.
Qed.
End refine.
