(* ===== verification/Rabbit.v ===== *)
(** Package [rabbitmq]: the connection with its caches of channels and queues,
    and the messages it publishes.  The AMQP client behind it is a class; its
    laws say which messages a queue received. *)
From S2P Require Import Prelude BigMath Types Mongo Json Orders MatchTypes OrderCodec TradeCodec.

(** [github.com/streadway/amqp]: opening a channel, declaring and purging a
    queue, publishing a message. *)
Class Amqp (B : Type) := {
  OpenChannel : M B unit;
  QueueDeclare : string → M B unit;
  QueueInspect : string → M B unit;
  QueuePurge : string → M B unit;
  AmqpPublish : string → json → M B unit;
  published : B → list (string * json)
}.

Definition keeps_published {B A} `{Amqp B} (m : M B A) : Prop :=
  ∀ s, wp m (λ r s', published s' = published s ∧ r ≠ Panic) s.

Class AmqpLaws (B : Type) `{Amqp B} := {
  OpenChannel_ok : keeps_published OpenChannel;
  QueueDeclare_ok q : keeps_published (QueueDeclare q);
  QueueInspect_ok q : keeps_published (QueueInspect q);
  AmqpPublish_ok q j s : wp (AmqpPublish q j) (λ r s',
    match r with
    | Ok _ => published s' = published s ++ [(q, j)]
    | Err _ => published s' = published s
    | Panic => False
    end) s
}.

(** [Connection] with the package's global maps [channels] and [queues]. *)
Record Connection (B : Type) := mkConnection {
  conn : B;
  channels : gset string;
  queues : gset string
}.
Arguments mkConnection {B}. Arguments conn {B}. Arguments channels {B}. Arguments queues {B}.

Section rabbit.
Context {B : Type} `{Amqp B} `{EthCommon, Codecs}.

Definition conn_lens : lens (Connection B) B :=
  Lens conn (λ b c, mkConnection b (channels c) (queues c)).

(** A failure to open a channel or to declare a queue is fatal. *)
Definition or_fatal {S A} (m : M S A) : M S A :=
  r ← attempt m; match r with inl _ => crash | inr a => mret a end.

Definition GetChannel (id : string) : M (Connection B) unit :=
  c ← get;
  if decide (id ∈ channels c) then mret tt
  else or_fatal (zoom conn_lens OpenChannel) ;;
       modify (λ c, mkConnection (conn c) ({[id]} ∪ channels c) (queues c)).

Definition DeclareQueue (name : string) : M (Connection B) unit :=
  c ← get;
  if decide (name ∈ queues c) then mret tt
  else zoom conn_lens (QueueDeclare name) ;;
       modify (λ c, mkConnection (conn c) (channels c) ({[name]} ∪ queues c)).

Definition GetQueue (queue : string) : M (Connection B) unit := or_fatal (DeclareQueue queue).

Definition Publish (q : string) (bytes : json) : M (Connection B) unit :=
  zoom conn_lens (AmqpPublish q bytes).

(** A queue that cannot be inspected is not purged, without an error. *)
Definition Purge (name : string) : M (Connection B) unit :=
  r ← attempt (zoom conn_lens (QueueInspect name));
  match r with
  | inl _ => mret tt
  | inr _ => zoom conn_lens (QueuePurge name)
  end.

Definition publish_on (channel queue : string) (bytes : json) : M (Connection B) unit :=
  GetChannel channel ;; GetQueue queue ;; Publish queue bytes.

(** ** rabbitmq/orders.go *)

(** [Message]: the JSON in [Data] stands for its bytes. *)
Definition Message (type : string) (data : json) : json :=
  JObj [("type", JStr type); ("data", data)].

Definition PublishOrder (msg : json) : M (Connection B) unit :=
  publish_on "orderPublish" "order" msg.

Definition PublishNewOrderMessage (o : Order) : M (Connection B) unit :=
  PublishOrder (Message "NEW_ORDER" (Order_MarshalJSON o)).
Definition PublishCancelOrderMessage (o : Order) : M (Connection B) unit :=
  PublishOrder (Message "CANCEL_ORDER" (Order_MarshalJSON o)).
Definition PublishInvalidateMakerOrdersMessage (m : Matches) : M (Connection B) unit :=
  PublishOrder (Message "INVALIDATE_MAKER_ORDERS" (Matches_MarshalJSON m)).
Definition PublishInvalidateTakerOrdersMessage (m : Matches) : M (Connection B) unit :=
  PublishOrder (Message "INVALIDATE_TAKER_ORDERS" (Matches_MarshalJSON m)).

(** The operator's messages have no field tags. *)
Definition OperatorMessage_json (m : OperatorMessage) : json :=
  JObj [("MessageType", JStr (om_MessageType m));
        ("Matches", json_pointer Matches_MarshalJSON (om_Matches m));
        ("ErrorType", JStr (om_ErrorType m))].

(** [m.Matches.String()], which the logging of [PublishTrades] calls. *)
Definition Matches_String (m : Matches) : outcome string :=
  o ← deref (TakerOrder m); Ok (o_PairName o +:+ ": " +:+ Hash_Hex (o_Hash o)).
Definition OperatorMessage_String (m : OperatorMessage) : outcome string :=
  matches ← deref (om_Matches m);
  s ← Matches_String matches;
  Ok (if decide (om_ErrorType m = "") then om_MessageType m +:+ ": " +:+ s
      else om_MessageType m +:+ ": " +:+ s +:+ " (" +:+ om_ErrorType m +:+ ")").

Definition PublishTrades (matches : option Matches) : M (Connection B) unit :=
  GetChannel "tradePublish" ;; GetQueue "trades" ;;
  let msg := mkOperatorMessage "NEW_ORDER" matches "" in
  _ ← lift (OperatorMessage_String msg);
  Publish "trades" (OperatorMessage_json msg).

(** ** rabbitmq/engine.go *)

(** The tags of [EngineResponse] omit the empty fields. *)
Definition EngineResponse_json (r : EngineResponse) : json :=
  JObj ((if decide (er_Status r = "") then [] else [("fillStatus", JStr (er_Status r))]) ++
    opt_jfields (er_Order r) (λ o, [("order", Order_MarshalJSON o)]) ++
    opt_jfields (er_Matches r) (λ m, [("matches", Matches_MarshalJSON m)]) ++
    opt_jfields (er_InvalidatedOrders r)
      (λ os, [("invalidatedOrders", JArr (Order_MarshalJSON <$> os))]) ++
    opt_jfields (er_CancelledTrades r)
      (λ ts, [("cancelledTrades", JArr (Trade_MarshalJSON <$> ts))])).

Definition PublishEngineResponse (r : EngineResponse) : M (Connection B) unit :=
  publish_on "erPub" "engineResponse" (EngineResponse_json r).

(** ** rabbitmq/operator.go *)
Definition publish_operator (type : string) (matches : option Matches) (errType : string) :
    M (Connection B) unit :=
  publish_on "OPERATOR_PUB" "TX_MESSAGES"
    (OperatorMessage_json (mkOperatorMessage type matches errType)).

Definition PublishTradeCancelMessage (m : option Matches) : M (Connection B) unit :=
  publish_operator TRADES_CANCELLED m "".
Definition PublishTradeSuccessMessage (m : option Matches) : M (Connection B) unit :=
  publish_operator TRADE_TX_SUCCESS m "".
Definition PublishErrorMessage (m : option Matches) (errType : string) : M (Connection B) unit :=
  publish_operator TRADE_ERROR m errType.
(** The transaction error is published under the type of the trade error. *)
Definition PublishTxErrorMessage (m : option Matches) (errType : string) :
    M (Connection B) unit := publish_operator TRADE_ERROR m errType.
Definition PublishTradeInvalidMessage (m : option Matches) : M (Connection B) unit :=
  publish_operator TRADE_INVALID m "".
Definition PublishTradeSentMessage (m : option Matches) : M (Connection B) unit :=
  publish_operator TRADE_TX_PENDING m "".
End rabbit.

(** ** What publishing promises *)

Definition sent {B} `{Amqp B} (c : Connection B) : list (string * json) := published (conn c).

Lemma wp_or_fatal {S A} (m : M S A) Q s :
  wp m (λ r s', match r with Ok a => Q (Ok a) s' | _ => Q Panic s' end) s →
  wp (or_fatal m) Q s.
Proof. unfold wp, or_fatal, attempt, mbind, M_bind. destruct (m s) as [[]]; done. Qed.

Section laws.
Context {B : Type} `{AmqpLaws B}.

(** The caches and the log of a step that may die but sends nothing. *)
Definition silent {A} (m : M (Connection B) A) : Prop :=
  ∀ s, wp m (λ r s', sent s' = sent s) s.

Lemma zoom_silent {A} (m : M B A) : keeps_published m → silent (zoom conn_lens m).
Proof.
  intros Hm c. apply wp_zoom. eapply wp_mono; [|apply Hm]. by intros r b [Hb _].
Qed.

Lemma bind_silent {A C} (m : M (Connection B) A) (k : A → M (Connection B) C) :
  silent m → (∀ a, silent (k a)) → silent (m ≫= k).
Proof.
  intros Hm Hk c. apply wp_bind. eapply wp_mono; [|apply Hm].
  intros [a|e|] c' Hc; simpl; [|done..].
  eapply wp_mono; [|apply Hk]. intros r c'' Hc'. cbn in *. congruence.
Qed.

Lemma fatal_silent {A} (m : M (Connection B) A) : silent m → silent (or_fatal m).
Proof.
  intros Hm c. apply wp_or_fatal. eapply wp_mono; [|apply Hm]. by intros [].
Qed.

Lemma modify_silent (f : Connection B → Connection B) :
  (∀ c, conn (f c) = conn c) → silent (modify f).
Proof. intros Hf c. unfold wp, modify, sent. simpl. by rewrite Hf. Qed.

Lemma GetChannel_silent id : silent (GetChannel id).
Proof.
  apply bind_silent; [done|]. intros c. case_decide; [done|].
  apply bind_silent; [apply fatal_silent, zoom_silent, OpenChannel_ok|].
  intros _. by apply modify_silent.
Qed.

Lemma GetQueue_silent q : silent (GetQueue q).
Proof.
  apply fatal_silent, bind_silent; [done|]. intros c. case_decide; [done|].
  apply bind_silent; [apply zoom_silent, QueueDeclare_ok|].
  intros _. by apply modify_silent.
Qed.

(** Publishing appends one message to one queue, or fails and sends nothing. *)
Definition publishes (m : M (Connection B) unit) (q : string) (j : json) : Prop :=
  ∀ s, wp m (λ r s', match r with
    | Ok _ => sent s' = sent s ++ [(q, j)]
    | _ => sent s' = sent s end) s.

Lemma publish_on_ok ch q j : publishes (publish_on ch q j) q j.
Proof.
  intros c. apply wp_bind. eapply wp_mono; [|apply GetChannel_silent].
  intros [a|e|] c1 Hc1; simpl; [|done..].
  apply wp_bind. eapply wp_mono; [|apply GetQueue_silent].
  intros [b|e|] c2 Hc2; simpl; [|congruence..].
  apply wp_zoom. eapply wp_mono; [|apply AmqpPublish_ok].
  unfold sent in *. intros [u|e|] b' Hb; simpl in *; [congruence..|done].
Qed.

Lemma PublishTrades_ok `{EthCommon, Codecs} m :
  is_Some (TakerOrder m) →
  publishes (PublishTrades (Some m)) "trades"
    (OperatorMessage_json (mkOperatorMessage "NEW_ORDER" (Some m) "")).
Proof.
  intros [o Ho] c. apply wp_bind. eapply wp_mono; [|apply GetChannel_silent].
  intros [a|e|] c1 Hc1; simpl; [|done..].
  apply wp_bind. eapply wp_mono; [|apply GetQueue_silent].
  intros [b|e|] c2 Hc2; simpl; [|congruence..].
  apply wp_bind, wp_lift. unfold OperatorMessage_String, Matches_String. simpl. rewrite Ho. simpl.
  apply wp_zoom. eapply wp_mono; [|apply AmqpPublish_ok].
  unfold sent in *. intros [u|e|] b' Hb; simpl in *; [congruence..|done].
Qed.
End laws.
