(* ===== verification/ApiErrors.v ===== *)
(** Package [errors]: the errors of an HTTP answer, and the templates of their messages.

    A Go map is ranged over in no particular order: [MapRange] is an order for every map.
    The file of templates and YAML are read by libraries, which are a class.  What a
    template means ([fill]) is given on its parts, and [replacePlaceholders_fills] shows
    that the replacements, in whatever order, come to it. *)
From Stdlib Require Import Ascii.
From S2P Require Import Prelude BigMath.

Class MapRange := {
  range {A} : gmap string A → list (string * A);
  range_all {A} (m : gmap string A) : range m ≡ₚ map_to_list m
}.

(** ** api_error.go *)
Record validationError := mkValidationError { ve_Field : string; ve_Error : string }.
Record APIError := mkAPIError {
  ae_Status : Z;
  ae_ErrorCode : string;
  ae_Message : string;
  ae_DeveloperMessage : string;
  ae_Details : option (list validationError)
}.
Definition Error (e : APIError) : string := ae_Message e.
Definition StatusCode (e : APIError) : Z := ae_Status e.

(** ** template.go *)

(** The values of [Params], and [fmt.Sprint] of one: a text is printed as it is. *)
Inductive param := PText (s : string) | PInt (n : Z).
Definition Sprint (p : param) : string :=
  match p with PText s => s | PInt n => Big.String_Z n end.
Abbreviation Params := (gmap string param).

Record errorTemplate := mkErrorTemplate { et_Message : string; et_DeveloperMessage : string }.
Abbreviation templates := (gmap string errorTemplate).

(** [strings.Replace(s, old, new, -1)], for an [old] that is not empty: [skip] letters of
    the last occurrence are left to pass over. *)
Fixpoint replace_from (old new : string) (skip : nat) (s : string) : string :=
  match s with
  | "" => ""
  | String c s' =>
    match skip with
    | S skip => replace_from old new skip s'
    | O => if String.prefix old s then new +:+ replace_from old new (pred (String.length old)) s'
           else String c (replace_from old new 0 s')
    end
  end.
Definition Replace (s old new : string) : string := replace_from old new 0 s.

Definition placeholder (key : string) : string := "{" +:+ key +:+ "}".
Definition replace_param (message : string) (kv : string * param) : string :=
  Replace message (placeholder kv.1) (Sprint kv.2).

(** [ioutil.ReadFile] and [yaml.Unmarshal], which may fail when it has read a part. *)
Class ErrorFiles := {
  ReadFile : string → outcome (list Z);
  yaml_Unmarshal : list Z → templates → outcome unit * templates
}.
(** The map is emptied once the file is read, whatever it holds. *)
Definition LoadMessages `{ErrorFiles} (file : string) : M templates unit :=
  bytes ← lift (ReadFile file);
  put ∅ ;; yaml_Unmarshal bytes.

Section errors.
Context `{MapRange}.

Definition replacePlaceholders (message : string) (params : Params) : string :=
  if decide (message = "") then "" else foldl replace_param message (range params).
Definition getMessage (e : errorTemplate) (params : Params) : string :=
  replacePlaceholders (et_Message e) params.
Definition getDeveloperMessage (e : errorTemplate) (params : Params) : string :=
  replacePlaceholders (et_DeveloperMessage e) params.

Definition NewHTTPError (ts : templates) (status : Z) (code : string) (params : Params) : APIError :=
  match ts !! code with
  | Some template =>
    mkAPIError status code (getMessage template params) (getDeveloperMessage template params) None
  | None => mkAPIError status code code "" None
  end.

(** ** errors.go *)
Definition StatusBadRequest : Z := 400.
Definition StatusUnauthorized : Z := 401.
Definition StatusNotFound : Z := 404.
Definition StatusInternalServerError : Z := 500.

Definition InternalServerError (ts : templates) (err : option error) : outcome APIError :=
  e ← deref err;
  Ok (NewHTTPError ts StatusInternalServerError "INTERNAL_SERVER_ERROR" {["error" := PText e]}).
Definition NotFound (ts : templates) (resource : string) : APIError :=
  NewHTTPError ts StatusNotFound "NOT_FOUND" {["resource" := PText resource]}.
Definition Unauthorized (ts : templates) (err : string) : APIError :=
  NewHTTPError ts StatusUnauthorized "UNAUTHORIZED" {["error" := PText err]}.

(** [validation.Errors] maps fields to errors; [sort.Strings] compares bytes. *)
Definition sorted_fields (errs : gmap string (option error)) : list string :=
  merge_sort String.le (range errs).*1.
Fixpoint invalid_fields (errs : gmap string (option error)) (fields : list string) :
    outcome (list validationError) :=
  match fields with
  | [] => Ok []
  | field :: fields =>
    err ← deref (errs !! field ≫= id);
    result ← invalid_fields errs fields;
    Ok (mkValidationError field err :: result)
  end.
Definition InvalidData (ts : templates) (errs : gmap string (option error)) : outcome APIError :=
  result ← invalid_fields errs (sorted_fields errs);
  let err := NewHTTPError ts StatusBadRequest "INVALID_DATA" ∅ in
  Ok (mkAPIError (ae_Status err) (ae_ErrorCode err) (ae_Message err) (ae_DeveloperMessage err) (Some result)).
End errors.

(** ** What a template means *)

Inductive segment := Lit (s : string) | Hole (key : string).
Definition written (g : segment) : string :=
  match g with Lit s => s | Hole k => placeholder k end.
Definition filled (params : Params) (g : segment) : string :=
  match g with
  | Lit s => s
  | Hole k => match params !! k with Some v => Sprint v | None => placeholder k end
  end.
Definition text (f : segment → string) (t : list segment) : string :=
  foldr (λ g s, f g +:+ s) "" t.
Definition fill (params : Params) : list segment → string := text (filled params).

(** Letters that a text does not hold. *)
Fixpoint holds (c : ascii) (s : string) : bool :=
  match s with "" => false | String d s => bool_decide (c = d) || holds c s end.
Abbreviation plain s := (holds "{" s = false).
Abbreviation brace_free s := (holds "{" s = false ∧ holds "}" s = false).
Definition segment_ok (g : segment) : Prop :=
  match g with Lit s => plain s | Hole k => brace_free k end.
(** A value that is put in before another is looked for must not look like a placeholder. *)
Definition values_ok (params : Params) : Prop :=
  (size params ≤ 1)%nat ∨ map_Forall (λ _ v, plain (Sprint v)) params.

(** ** One replacement *)

Lemma holds_cons c d s : holds c (String d s) = false ↔ c ≠ d ∧ holds c s = false.
Proof. simpl. rewrite orb_false_iff, bool_decide_eq_false. done. Qed.

Lemma string_app_cons c a s : String c a +:+ s = String c (a +:+ s).
Proof. done. Qed.
Lemma string_app_empty s : "" +:+ s = s.
Proof. done. Qed.
Lemma replace_step old new c s : replace_from old new 0 (String c s) =
  if String.prefix old (String c s) then new +:+ replace_from old new (pred (String.length old)) s
  else String c (replace_from old new 0 s).
Proof. done. Qed.
Lemma replace_skip old new a s : replace_from old new (String.length a) (a +:+ s) = Replace s old new.
Proof. by induction a. Qed.
Lemma prefix_app a s : String.prefix a (a +:+ s) = true.
Proof. induction a as [|c a IH]; simpl; [by destruct s|]. by destruct (ascii_dec c c). Qed.
Lemma Replace_hit c o s new : Replace (String c o +:+ s) (String c o) new = new +:+ Replace s (String c o) new.
Proof.
  pose proof (prefix_app (String c o) s) as E. rewrite string_app_cons in *.
  unfold Replace at 1. rewrite replace_step, E. f_equal. apply replace_skip.
Qed.
Lemma Replace_same k new s : Replace (placeholder k +:+ s) (placeholder k) new = new +:+ Replace s (placeholder k) new.
Proof. exact (Replace_hit "{" (k +:+ "}") s new). Qed.
Lemma prefix_other k c s : "{"%char ≠ c → String.prefix (placeholder k) (String c s) = false.
Proof. 
  intros Hc. change (placeholder k) with (String "{" (k +:+ "}")). cbn [String.prefix].
  by destruct (ascii_dec "{" c).
Qed.
Lemma Replace_plain k new l s : plain l →
  Replace (l +:+ s) (placeholder k) new = l +:+ Replace s (placeholder k) new.
Proof.
  induction l as [|c l IH]; [done|]. intros [Hc Hl]%holds_cons. unfold Replace in *.
  rewrite !string_app_cons, replace_step, prefix_other by done. f_equal. by apply IH.
Qed.
(** The name of a placeholder ends at the first brace. *)
Lemma prefix_name k k' s : holds "}" k = false → holds "}" k' = false →
  String.prefix (k +:+ "}") (k' +:+ "}" +:+ s) = true → k = k'.
Proof.
  revert k'. induction k as [|c k IH]; intros [|c' k'] Hk Hk'; try done;
    rewrite ?string_app_cons, ?string_app_empty, ?string_app_cons; cbn [String.prefix].
  - apply holds_cons in Hk' as [Hc _]. by destruct (ascii_dec "}" c').
  - apply holds_cons in Hk as [Hc _]. destruct (ascii_dec c "}"); congruence.
  - apply holds_cons in Hk as [_ Hk], Hk' as [_ Hk']. destruct (ascii_dec c c'); [|done].
    intros Hp. f_equal; [done|]. by apply IH.
Qed.
Lemma plain_app a b : plain a → plain b → plain (a +:+ b).
Proof. induction a as [|c a IH]; [done|]. intros [Hc Ha]%holds_cons Hb. rewrite string_app_cons. apply holds_cons. auto. Qed.
Lemma Replace_other k k' new s : brace_free k → brace_free k' → k ≠ k' →
  Replace (placeholder k' +:+ s) (placeholder k) new = placeholder k' +:+ Replace s (placeholder k) new.
Proof.
  intros [_ Hk] [Hp Hk'] Hne. unfold Replace at 1. unfold placeholder at 2 3.
  change ("{" +:+ k' +:+ "}") with (String "{" (k' +:+ "}")). rewrite !string_app_cons, replace_step.
  destruct (String.prefix _ _) eqn:E.
  - exfalso. apply Hne, (prefix_name k k' s); [done..|]. rewrite (string_app_assoc k' "}" s). exact E.
  - f_equal. apply (Replace_plain k new (k' +:+ "}") s), plain_app; done.
Qed.

(** ** All replacements *)

Definition put_in (kv : string * param) (g : segment) : segment :=
  match g with Hole k => if decide (k = kv.1) then Lit (Sprint kv.2) else g | _ => g end.
Lemma replace_param_text kv t : brace_free kv.1 → Forall segment_ok t →
  replace_param (text written t) kv = text written (put_in kv <$> t).
Proof.
  intros Hk Ht. unfold replace_param. induction Ht as [|[l|k] t Hg Ht IH]; [done|..]; cbn [text foldr fmap list_fmap written put_in].
  - rewrite Replace_plain by done. f_equal. apply IH.
  - case_decide as Hd; cbn [written].
    + subst k. rewrite Replace_same. f_equal. apply IH.
    + rewrite Replace_other by done. f_equal. apply IH.
Qed.
Lemma filled_put_in kv l g :
  filled (list_to_map l) (put_in kv g) = filled (list_to_map (kv :: l)) g.
Proof.
  destruct g as [s|k], kv as [k' v]; [done|]. cbn. case_decide; cbn.
  - subst. by rewrite lookup_insert_eq.
  - by rewrite lookup_insert_ne.
Qed.
Lemma text_ext f g t : (∀ x, f x = g x) → text f t = text g t.
Proof. intros E. induction t as [|x t IH]; [done|]. unfold text in *. cbn [foldr]. by rewrite E, IH. Qed.
Lemma text_fmap f h t : text f (h <$> t) = text (λ x, f (h x)) t.
Proof. induction t as [|x t IH]; [done|]. unfold text in *. cbn [fmap list_fmap foldr]. by rewrite IH. Qed.
Lemma replace_all l t : Forall (λ kv, brace_free kv.1) l → Forall segment_ok t →
  (length l ≤ 1)%nat ∨ Forall (λ kv, plain (Sprint kv.2)) l →
  foldl replace_param (text written t) l = text (filled (list_to_map l)) t.
Proof.
  intros Hl. revert t. induction Hl as [|kv l Hk Hl IH]; intros t Ht Hv; cbn [foldl].
  - apply text_ext. by intros [].
  - rewrite replace_param_text by done. destruct l as [|kv' l].
    + rewrite text_fmap. apply text_ext. intros g. cbn [foldl]. rewrite <- filled_put_in. by destruct (put_in kv g).
    + destruct Hv as [Hv|[Hv Hvs]%Forall_cons]; [cbn in Hv; lia|]. rewrite IH; [|clear IH|by right].
      * rewrite text_fmap. apply text_ext, filled_put_in.
      * apply Forall_fmap. eapply Forall_impl; [exact Ht|]. intros [s|k] Hg; [done|]. cbn. by case_decide.
Qed.

Lemma range_map `{MapRange} {A} (m : gmap string A) : list_to_map (range m) = m.
Proof.
  rewrite <- (list_to_map_to_list m) at 2. apply list_to_map_proper; [|apply range_all].
  rewrite range_all. apply NoDup_fst_map_to_list.
Qed.
Lemma Forall_range `{MapRange} {A} (P : string → A → Prop) m :
  map_Forall P m → Forall (λ kv, P kv.1 kv.2) (range m).
Proof. rewrite range_all, map_Forall_to_list. intros Hm. eapply Forall_impl; [exact Hm|]. by intros []. Qed.
Lemma replacePlaceholders_loop `{MapRange} message params :
  replacePlaceholders message params = foldl replace_param message (range params).
Proof. unfold replacePlaceholders. case_decide; [|done]. subst. by induction (range params). Qed.

(** Whatever the order in which the map is ranged over, the message is the template with
    the placeholders of known parameters filled in, and the others left as they are. *)
Theorem replacePlaceholders_fills `{MapRange} t params :
  Forall segment_ok t → map_Forall (λ k _, brace_free k) params → values_ok params →
  replacePlaceholders (text written t) params = fill params t.
Proof.
  intros Ht Hk Hv. rewrite replacePlaceholders_loop, replace_all; [by rewrite range_map| |done|].
  - by apply (Forall_range (λ k _, brace_free k)).
  - rewrite range_all, length_map_to_list. destruct Hv as [?|Hv]; [by left|right].
    rewrite <- range_all. by apply (Forall_range (λ _ v, plain (Sprint v))).
Qed.

(** ** The invalid data *)

Lemma range_empty `{MapRange} {A} : range (∅ : gmap string A) = [].
Proof. apply Permutation_nil_r. by rewrite range_all, map_to_list_empty. Qed.
Lemma sorted_fields_range (R1 R2 : MapRange) errs :
  sorted_fields (H:=R1) errs = sorted_fields (H:=R2) errs.
Proof.
  apply (StronglySorted_unique String.le); [apply (StronglySorted_merge_sort _)..|].
  unfold sorted_fields. by rewrite !merge_sort_Permutation, !range_all.
Qed.
Lemma invalid_fields_ok errs fields : (∀ f, f ∈ fields → ∃ e, errs !! f = Some (Some e)) →
  ∃ result, invalid_fields errs fields = Ok result ∧ ve_Field <$> result = fields ∧
    Forall (λ v, errs !! ve_Field v = Some (Some (ve_Error v))) result.
Proof.
  induction fields as [|f fields IH]; intros Hf; [by exists []|]. cbn [invalid_fields].
  destruct (Hf f) as [e He]; [left|]. destruct IH as (result & -> & <- & Hr).
  { intros f' Hf'. apply Hf. by right. }
  rewrite He. exists (mkValidationError f e :: result). split_and!; [done|done|]. by constructor.
Qed.

(** The details are the errors of all the fields, in the order of their names: the answer
    does not depend on the order in which the map is ranged over. *)
Theorem InvalidData_sorted `{MapRange} ts errs : map_Forall (λ _ e, is_Some e) errs →
  ∃ err result, InvalidData ts errs = Ok err ∧ ae_Details err = Some result ∧
    StronglySorted String.le (ve_Field <$> result) ∧ NoDup (ve_Field <$> result) ∧
    ∀ f e, mkValidationError f e ∈ result ↔ errs !! f = Some (Some e).
Proof.
  intros Hs. assert (sorted_fields errs ≡ₚ (map_to_list errs).*1) as Hp.
  { unfold sorted_fields. by rewrite merge_sort_Permutation, range_all. }
  destruct (invalid_fields_ok errs (sorted_fields errs)) as (result & Hr & Hf & Hall).
  { intros f. rewrite Hp. intros ([f' oe] & -> & Hin%elem_of_map_to_list)%list_elem_of_fmap.
    destruct (Hs _ _ Hin) as [e ->]. eauto. }
  unfold InvalidData. rewrite Hr. eexists _, result. split_and!; [done|done|..].
  - rewrite Hf. apply (StronglySorted_merge_sort _).
  - rewrite Hf, Hp. apply NoDup_fst_map_to_list.
  - intros f e. rewrite Forall_forall in Hall. split; [intros Hin; exact (Hall _ Hin)|]. intros He.
    assert (f ∈ ve_Field <$> result) as ([f' e'] & -> & Hin)%list_elem_of_fmap.
    { rewrite Hf, Hp. apply list_elem_of_fmap. exists (f, Some e). split; [done|]. by apply elem_of_map_to_list. }
    pose proof (Hall _ Hin) as Ha. cbn in *. congruence.
Qed.
Theorem InvalidData_range (R1 R2 : MapRange) ts errs :
  InvalidData (H:=R1) ts errs = InvalidData (H:=R2) ts errs.
Proof.
  unfold InvalidData. rewrite (sorted_fields_range R1 R2). destruct (invalid_fields _ _); [|done..].
  cbn. unfold NewHTTPError. destruct (ts !! _); [|done].
  unfold getMessage, getDeveloperMessage. by rewrite !replacePlaceholders_loop, !range_empty.
Qed.
Corollary replacePlaceholders_range (R1 R2 : MapRange) t params :
  Forall segment_ok t → map_Forall (λ k _, brace_free k) params → values_ok params →
  replacePlaceholders (H:=R1) (text written t) params = replacePlaceholders (H:=R2) (text written t) params.
Proof. intros. by rewrite !replacePlaceholders_fills. Qed.
(** A value that looks like a placeholder makes the order matter. *)
Example order_matters : let a := ("a", PText "{b}") in let b := ("b", PInt 1) in
  foldl replace_param "{a}" [a; b] = "1" ∧ foldl replace_param "{a}" [b; a] = "{b}".
Proof. by vm_compute. Qed.

(** The template that [config/errors.yaml] has for a missing resource. *)
Definition not_found_template : list segment := [Hole "resource"; Lit " was not found."].
Theorem NotFound_message `{MapRange} ts resource :
  et_Message <$> ts !! "NOT_FOUND" = Some (text written not_found_template) →
  ae_Message (NotFound ts resource) = resource +:+ " was not found." ∧ ae_Status (NotFound ts resource) = 404.
Proof.
  unfold NotFound, NewHTTPError. destruct (ts !! _) as [e|]; [|done]. intros E.
  apply (inj Some) in E. split; [|done]. cbn [ae_Message].
  unfold getMessage. rewrite E, replacePlaceholders_fills.
  - unfold fill, text. cbn [not_found_template foldr filled]. by rewrite lookup_singleton_eq.
  - by repeat constructor.
  - by apply map_Forall_singleton.
  - left. by rewrite map_size_singleton.
Qed.
