(* ===== verification/Consumers.v ===== *)
(** Package [rabbitmq], the receiving side: what the subscriptions of
    [rabbitmq/orders.go], [rabbitmq/operator.go] and [rabbitmq/engine.go] hand to their
    handlers, and how a published response of the engine comes back.

    A subscription starts a goroutine for every message that can be decoded, so that the
    handlers run in any order; it is given here as the list of the arguments they are
    started with, in the order of the deliveries.  The messages of the deposit queue are
    in [DepositService]; those of the transaction queues, in [Operator]. *)
From S2P Require Import Prelude BigMath Types Mongo Json Fixtures Orders MatchTypes OrderCodec TradeCodec DepositTypes Rabbit.

(** [amqp.Channel]: a consumer of a queue, with the messages it is delivered, which are
    acknowledged when they are sent or by the consumer; a channel is closed, and a
    consumer cancelled by its tag. *)
Class AmqpConsume (B : Type) := {
  ChannelConsume : string → bool → M B (list json);
  ChannelClose : M B unit;
  ChannelCancel : string → M B unit
}.

(** ** Decoding *)
Section decoding.
Context `{EthCommon, Codecs, Big.Undefined, Sprint}.

(** A message that cannot be decoded is logged and left out; a panic of a decoder, on a
    field of another type, ends the process. *)
Fixpoint started {A} (unmarshal : json → outcome A) (msgs : list json) : outcome (list A) :=
  match msgs with
  | [] => Ok []
  | body :: msgs =>
    match unmarshal body with
    | Ok msg => rest ← started unmarshal msgs; Ok (msg :: rest)
    | Err _ => started unmarshal msgs
    | Panic => Panic
    end
  end.

(** The JSON in [Data] stands for its bytes, as in [Message]. *)
Definition Message_unjson (j : json) : outcome (string * json) :=
  m ← unmarshal_map j;
  type ← json_string "type" m;
  Ok (type, default JNull (jget "data" m)).

Definition OperatorMessage_unjson (j : json) : outcome OperatorMessage :=
  m ← unmarshal_map j;
  type ← json_string "MessageType" m;
  matches ← unjson_pointer Matches_UnmarshalJSON (default JNull (jget "Matches" m));
  errorType ← json_string "ErrorType" m;
  Ok (mkOperatorMessage type matches errorType).

(** A null in a slice would be a nil pointer; the program sends none, and none is
    decoded here. *)
Definition unjson_order (j : json) : outcome Order := Order_UnmarshalJSON j zero_Order.
Definition unjson_trade (j : json) : outcome Trade := Trade_UnmarshalJSON j zero_Trade.
Definition unjson_slice_pointer {A} (f : json → outcome A) (v : option json) : outcome (option (list A)) :=
  match v with None => Ok None | _ => Some <$> unjson_slice f v end.
Definition EngineResponse_unjson (j : json) : outcome EngineResponse :=
  m ← unmarshal_map j;
  status ← json_string "fillStatus" m;
  order ← unjson_pointer unjson_order (default JNull (jget "order" m));
  matches ← unjson_pointer Matches_UnmarshalJSON (default JNull (jget "matches" m));
  invalidated ← unjson_slice_pointer unjson_order (jget "invalidatedOrders" m);
  cancelled ← unjson_slice_pointer unjson_trade (jget "cancelledTrades" m);
  Ok (mkEngineResponse status order matches invalidated cancelled).
End decoding.

Section consumers.
Context {B : Type} `{Amqp B, !AmqpConsume B}.
Context `{EthCommon, Codecs, Big.Undefined, Sprint}.

(** ** rabbitmq/rabbitmq.go *)
Definition Consume (queue : string) : M (Connection B) (list json) :=
  zoom conn_lens (ChannelConsume queue true).
Definition ConsumeAfterAck (queue : string) : M (Connection B) (list json) :=
  zoom conn_lens (ChannelConsume queue false).

(** A consumer that cannot be registered is logged, and is never delivered a message. *)
Definition delivered_or_none (m : M (Connection B) (list json)) : M (Connection B) (list json) :=
  r ← attempt m; mret (match r with inl _ => [] | inr msgs => msgs end).
Definition subscribe {A} (channel queue : string) (unmarshal : json → outcome A)
    (consumer : M (Connection B) (list json) → M (Connection B) (list json)) : M (Connection B) (list A) :=
  GetChannel channel ;; GetQueue queue ;;
  msgs ← consumer (Consume queue);
  lift (started unmarshal msgs).

(** ** rabbitmq/orders.go *)
Definition SubscribeOrders : M (Connection B) (list (string * json)) :=
  subscribe "orderSubscribe" "order" Message_unjson delivered_or_none.
Definition SubscribeTrades : M (Connection B) (list OperatorMessage) :=
  subscribe "tradeSubscribe" "trades" OperatorMessage_unjson delivered_or_none.

(** ** rabbitmq/engine.go: failing to register is fatal, and null is a nil response *)
Definition SubscribeEngineResponses : M (Connection B) (list (option EngineResponse)) :=
  subscribe "erSub" "engineResponse" (unjson_pointer EngineResponse_unjson) or_fatal.

(** ** rabbitmq/operator.go *)
Definition SubscribeOperator : M (Connection B) (list OperatorMessage) :=
  subscribe "OPERATOR_SUB" "TX_MESSAGES" OperatorMessage_unjson or_fatal.
Definition CloseOperatorChannel : M (Connection B) unit :=
  c ← get;
  if decide ("OPERATOR_SUB" ∈ channels c) then
    log_error (zoom conn_lens ChannelClose) ;;
    modify (λ c, mkConnection (conn c) (channels c ∖ {["OPERATOR_SUB"]}) (queues c))
  else mret tt.
(** The tag that is cancelled is the queue's name; the consumers leave theirs empty. *)
Definition UnsubscribeOperator : M (Connection B) unit :=
  GetChannel "OPERATOR_SUB" ;; GetQueue "TX_MESSAGES" ;; zoom conn_lens (ChannelCancel "TX_MESSAGES").
Definition PurgeOperatorQueue : M (Connection B) unit :=
  GetChannel "OPERATOR_SUB" ;; zoom conn_lens (QueuePurge "TX_MESSAGES").

(** ** operator/operator.go *)
Definition SubscribeOperatorMessages : M (Connection B) (list OperatorMessage) :=
  subscribe "OPERATOR_SUB" "TX_MESSAGES" OperatorMessage_unjson delivered_or_none.
End consumers.

(** ** What comes back of what was published *)
Section roundtrips.
Context `{EthCommonLaws} `{!Codecs, !CodecLaws _ _} `{Big.Undefined, Sprint}.

(** An order and a trade as they are read back. *)
Definition order_sent (o : Order) : Order := set_o_ID "" (set_o_UpdatedAt 0 o).
Definition Matches_sent (m : Matches) : Matches :=
  mkMatches (option_map order_sent <$> MakerOrders m) (order_sent <$> TakerOrder m)
    (option_map trade_sent <$> Trades m).
Definition response_sent (r : EngineResponse) : EngineResponse :=
  mkEngineResponse (er_Status r) (order_sent <$> er_Order r) (Matches_sent <$> er_Matches r)
    (map order_sent <$> er_InvalidatedOrders r) (map trade_sent <$> er_CancelledTrades r).

(** The fields that the decoders rely on. *)
Definition trade_sendable (t : Trade) : Prop :=
  is_Some (t_Amount t) ∧ is_Some (t_PricePoint t) ∧ t_MakerOrderHash t ≠ 0 ∧ t_BaseToken t ≠ 0 ∧ t_QuoteToken t ≠ 0.
Definition all_set {A} (P : A → Prop) (x : option A) : Prop := match x with Some a => P a | None => True end.
Definition matches_sendable (m : Matches) : Prop :=
  Forall (all_set complete) (MakerOrders m) ∧ all_set complete (TakerOrder m) ∧ Forall (all_set trade_sendable) (Trades m).
Definition response_sendable (r : EngineResponse) : Prop :=
  all_set complete (er_Order r) ∧ all_set matches_sendable (er_Matches r) ∧
  all_set (Forall complete) (er_InvalidatedOrders r) ∧ all_set (Forall trade_sendable) (er_CancelledTrades r).

Lemma unjson_list_ok {A C} (f : json → outcome A) (g : C → json) (h : C → A) l :
  Forall (λ c, f (g c) = Ok (h c)) l → unjson_list f (g <$> l) = Ok (h <$> l).
Proof. induction 1 as [|c l Hc Hl IH]; [done|]. cbn in *. by rewrite Hc, IH. Qed.
Lemma unjson_pointer_ok {A C} (f : json → outcome A) (g : C → json) (h : C → A) (P : C → Prop) x :
  (∀ c, g c ≠ JNull) → (∀ c, P c → f (g c) = Ok (h c)) → all_set P x →
  unjson_pointer f (json_pointer g x) = Ok (h <$> x).
Proof.
  intros Hg Hf Hx. destruct x as [c|]; [|done]. cbn in *. specialize (Hf c Hx).
  destruct (g c) eqn:E; [by apply Hg in E|..]; cbn; by rewrite Hf.
Qed.
Lemma order_ok o : complete o → unjson_order (Order_MarshalJSON o) = Ok (order_sent o).
Proof. apply Order_json_roundtrip'. Qed.
Lemma trade_ok t : trade_sendable t → unjson_trade (Trade_MarshalJSON t) = Ok (trade_sent t).
Proof. intros (Ha & Hp & Hs). by apply Trade_json_roundtrip. Qed.
Lemma orders_ok l : Forall (all_set complete) l →
  unjson_list (unjson_pointer unjson_order) (json_pointer Order_MarshalJSON <$> l) = Ok (option_map order_sent <$> l).
Proof.
  intros Hl. apply unjson_list_ok. eapply Forall_impl; [exact Hl|]. intros o.
  apply unjson_pointer_ok; [done|apply order_ok].
Qed.
Lemma trades_ok l : Forall (all_set trade_sendable) l →
  unjson_list (unjson_pointer unjson_trade) (json_pointer Trade_MarshalJSON <$> l) = Ok (option_map trade_sent <$> l).
Proof.
  intros Hl. apply unjson_list_ok. eapply Forall_impl; [exact Hl|]. intros t.
  apply unjson_pointer_ok; [done|apply trade_ok].
Qed.
Lemma matches_decode m : Forall (all_set complete) (MakerOrders m) → all_set complete (TakerOrder m) →
  Matches_UnmarshalJSON (Matches_MarshalJSON m) =
  (trades ← unjson_list (unjson_pointer unjson_trade) (json_pointer Trade_MarshalJSON <$> Trades m);
   Ok (mkMatches (option_map order_sent <$> MakerOrders m) (order_sent <$> TakerOrder m) trades)).
Proof.
  intros Hm Ht. unfold Matches_UnmarshalJSON, Matches_MarshalJSON.
  match goal with |- context [JObj ?l] => set (fields := l) end.
  assert (jget "makerOrders" fields = Some (JArr (json_pointer Order_MarshalJSON <$> MakerOrders m))) as E1 by done.
  assert (default JNull (jget "takerOrder" fields) = json_pointer Order_MarshalJSON (TakerOrder m)) as E2
    by by destruct m as [? [] ?].
  assert (jget "trades" fields = Some (JArr (json_pointer Trade_MarshalJSON <$> Trades m))) as E3 by done.
  cbn [unmarshal_map mbind outcome_bind]. rewrite E1, E2, E3. cbn [unjson_slice].
  change (λ j, Order_UnmarshalJSON j zero_Order) with unjson_order.
  change (λ j, Trade_UnmarshalJSON j zero_Trade) with unjson_trade.
  rewrite orders_ok by done. cbn [mbind outcome_bind].
  by rewrite (unjson_pointer_ok unjson_order _ order_sent complete) by (done || apply order_ok).
Qed.
Lemma matches_ok m : matches_sendable m → Matches_UnmarshalJSON (Matches_MarshalJSON m) = Ok (Matches_sent m).
Proof.
  intros (Hm & Ht & Htr). rewrite matches_decode by done. by rewrite trades_ok.
Qed.
Lemma slice_pointer_ok {A} (f : json → outcome A) (g h : A → _) (P : A → Prop) (x : option (list A)) :
  (∀ a, P a → f (g a) = Ok (h a)) → all_set (Forall P) x →
  unjson_slice_pointer f ((λ l, JArr (g <$> l)) <$> x) = Ok (map h <$> x).
Proof.
  intros Hf Hx. destruct x as [l|]; [|done]. cbn in *.
  rewrite (unjson_list_ok f g h); [done|]. by eapply Forall_impl.
Qed.

Lemma response_fields r : ∃ fields, EngineResponse_json r = JObj fields ∧
  json_string "fillStatus" fields = Ok (er_Status r) ∧
  default JNull (jget "order" fields) = json_pointer Order_MarshalJSON (er_Order r) ∧
  default JNull (jget "matches" fields) = json_pointer Matches_MarshalJSON (er_Matches r) ∧
  jget "invalidatedOrders" fields = (λ l, JArr (Order_MarshalJSON <$> l)) <$> er_InvalidatedOrders r ∧
  jget "cancelledTrades" fields = (λ l, JArr (Trade_MarshalJSON <$> l)) <$> er_CancelledTrades r.
Proof.
  eexists. split; [reflexivity|]. destruct r as [status [o|] [m|] [io|] [ct|]]; cbn [er_Status]; case_decide; by subst.
Qed.

(** A published response of the engine is read back with its status, its order, its matches,
    the invalidated orders and the cancelled trades, but for the fields that are not sent. *)
Theorem EngineResponse_roundtrip r : response_sendable r →
  EngineResponse_unjson (EngineResponse_json r) = Ok (response_sent r).
Proof.
  intros (Ho & Hm & Hi & Hc). unfold EngineResponse_unjson.
  destruct (response_fields r) as (l & -> & E1 & E2 & E3 & E4 & E5).
  cbn [unmarshal_map mbind outcome_bind]. rewrite E1, E2, E3, E4, E5. cbn [mbind outcome_bind].
  rewrite (unjson_pointer_ok unjson_order _ order_sent complete) by (done || apply order_ok).
  cbn [mbind outcome_bind].
  rewrite (unjson_pointer_ok Matches_UnmarshalJSON _ Matches_sent matches_sendable) by (done || apply matches_ok).
  cbn [mbind outcome_bind]. rewrite (slice_pointer_ok _ _ order_sent complete) by (done || apply order_ok).
  cbn [mbind outcome_bind]. by rewrite (slice_pointer_ok _ _ trade_sent trade_sendable) by (done || apply trade_ok).
Qed.
Theorem OperatorMessage_roundtrip m : all_set matches_sendable (om_Matches m) →
  OperatorMessage_unjson (OperatorMessage_json m) =
  Ok (mkOperatorMessage (om_MessageType m) (Matches_sent <$> om_Matches m) (om_ErrorType m)).
Proof.
  intros Hm. unfold OperatorMessage_unjson, OperatorMessage_json.
  match goal with |- context [JObj ?l] => set (fields := l) end.
  assert (default JNull (jget "Matches" fields) = json_pointer Matches_MarshalJSON (om_Matches m)) as E
    by by destruct m as [? [] ?].
  assert (json_string "MessageType" fields = Ok (om_MessageType m)) as E1 by done.
  assert (json_string "ErrorType" fields = Ok (om_ErrorType m)) as E2 by done.
  cbn [unmarshal_map mbind outcome_bind]. rewrite E, E1, E2. cbn [mbind outcome_bind].
  by rewrite (unjson_pointer_ok Matches_UnmarshalJSON _ Matches_sent matches_sendable) by (done || apply matches_ok).
Qed.

(** ** Whatever is decoded is what was sent *)

Lemma unjson_list_sent {A C} (f : json → outcome A) (g : C → json) (h : C → A) l l' :
  Forall (λ c, ∀ a, f (g c) = Ok a → a = h c) l → unjson_list f (g <$> l) = Ok l' → l' = h <$> l.
Proof.
  intros Hl. revert l'. induction Hl as [|c l Hc Hl IH]; intros l' E; cbn in E; go_inv; [done|].
  rewrite fmap_cons. f_equal; auto.
Qed.
Lemma unjson_pointer_sent {A C} (f : json → outcome A) (g : C → json) (h : C → A) x x' :
  (∀ c, g c ≠ JNull) → all_set (λ c, ∀ a, f (g c) = Ok a → a = h c) x →
  unjson_pointer f (json_pointer g x) = Ok x' → x' = h <$> x.
Proof.
  intros Hg Hx. destruct x as [c|]; [|by intros [= <-]]. cbn in *. unfold unjson_pointer.
  destruct (g c) eqn:E; [by apply Hg in E|..]; cbn; (destruct (f _) as [a|e|]; [|done..]);
    intros [= <-]; by rewrite (Hx a eq_refl).
Qed.
Definition has_amounts (t : Trade) : Prop := is_Some (t_Amount t) ∧ is_Some (t_PricePoint t).
Lemma order_sent_back o a : complete o → unjson_order (Order_MarshalJSON o) = Ok a → a = order_sent o.
Proof. intros Ho. rewrite order_ok by done. by intros [= <-]. Qed.
Lemma trade_sent_back t a : has_amounts t → unjson_trade (Trade_MarshalJSON t) = Ok a → a = trade_sent t.
Proof.
  intros [[x Ha] [p Hp]].
  unfold unjson_trade, Trade_UnmarshalJSON, Trade_MarshalJSON, required, set_string, field_string, jget,
    trade_sent, unless_zero.
  rewrite Ha, Hp. destruct t; simpl in *.
  repeat case_decide; simpl; subst; try done;
    rewrite ?HexToHash_Hex, ?HexToHash_Text, ?HexToAddress_Hex, ?HexToAddress_Text, ?Parse_Format,
      ?ToBigInt_String_Z, ?big_UnmarshalJSON_String; simpl; by intros [= <-].
Qed.
Definition matches_complete (m : Matches) : Prop :=
  Forall (all_set complete) (MakerOrders m) ∧ all_set complete (TakerOrder m) ∧ Forall (all_set has_amounts) (Trades m).
Lemma matches_sent_back m a : matches_complete m →
  Matches_UnmarshalJSON (Matches_MarshalJSON m) = Ok a → a = Matches_sent m.
Proof.
  intros (Hm & Ht & Htr). rewrite matches_decode by done.
  intros E. go_inv.
  apply (unjson_list_sent _ _ (option_map trade_sent)) in Heqo as ->; [done|].
  eapply Forall_impl; [exact Htr|]. intros t Hs x. apply unjson_pointer_sent; [done|].
  destruct t as [t|]; [|done]. intros y. by apply trade_sent_back.
Qed.

(** Of an answer with matches and an order: the status, the order and the matches. *)
Lemma response_sent_back r a : all_set complete (er_Order r) → all_set matches_complete (er_Matches r) →
  EngineResponse_unjson (EngineResponse_json r) = Ok a →
  er_Status a = er_Status r ∧ er_Order a = order_sent <$> er_Order r ∧ er_Matches a = Matches_sent <$> er_Matches r.
Proof.
  intros Ho Hm. unfold EngineResponse_unjson. destruct (response_fields r) as (l & -> & E1 & E2 & E3 & _).
  cbn [unmarshal_map mbind outcome_bind]. rewrite E1, E2, E3. cbn [mbind outcome_bind].
  rewrite (unjson_pointer_ok unjson_order _ order_sent complete) by (done || apply order_ok).
  cbn [mbind outcome_bind].
  intros E. go_inv. split_and!; [done|done|].
  apply (unjson_pointer_sent Matches_UnmarshalJSON _ Matches_sent) in Heqo; [done..|].
  destruct (er_Matches r); [|done]. intros y. by apply matches_sent_back.
Qed.
Lemma response_status_back r a : EngineResponse_unjson (EngineResponse_json r) = Ok a → er_Status a = er_Status r.
Proof.
  unfold EngineResponse_unjson. destruct (response_fields r) as (l & -> & E1 & _).
  cbn [unmarshal_map mbind outcome_bind]. rewrite E1. cbn [mbind outcome_bind]. intros E. by go_inv.
Qed.

(** ** What a consumer is handed *)

(** A delivery was published to the queue, and consuming publishes nothing. *)
Class AmqpConsumeLaws (B : Type) `{Amqp B, !AmqpConsume B} :=
  ChannelConsume_ok q ack s : wp (ChannelConsume q ack) (λ r s',
    published s' = published s ∧
    match r with Ok msgs => Forall (λ j, (q, j) ∈ published s) msgs | Err _ => True | Panic => False end) s.

Lemma started_all {A C} (unmarshal : json → outcome A) (g : C → json) (h : C → A) msgs :
  Forall (λ j, ∃ c, j = g c ∧ unmarshal (g c) = Ok (h c)) msgs →
  ∃ cs, msgs = g <$> cs ∧ started unmarshal msgs = Ok (h <$> cs).
Proof.
  induction 1 as [|j msgs (c & -> & Hc) Hm (cs & -> & IH)]; [by exists []|].
  exists (c :: cs). cbn in *. by rewrite Hc, IH.
Qed.

Lemma or_fatal_answers {S A} (m : M S A) s : wp (or_fatal m) (λ r _, ∀ e, r ≠ Err e) s.
Proof. apply wp_or_fatal. unfold wp. by destruct (m s) as [[]]. Qed.
Lemma GetChannel_answers {B} `{Amqp B} id (c : Connection B) : wp (GetChannel id) (λ r _, ∀ e, r ≠ Err e) c.
Proof.
  apply wp_bind. cbn. case_decide; [done|]. apply wp_bind.
  eapply wp_mono; [|apply or_fatal_answers]. intros [[]|e|] c' Hr; [done| |done]. by destruct (Hr e).
Qed.

(** When the engine publishes nothing but responses whose fields are set, the service's
    handler is started for every response that is delivered, on what was sent of it. *)
Theorem responses_received {B} `{AmqpLaws B} `{!AmqpConsume B, !AmqpConsumeLaws B} (c : Connection B) :
  (∀ j, ("engineResponse", j) ∈ sent c → ∃ r, j = EngineResponse_json r ∧ response_sendable r) →
  wp SubscribeEngineResponses (λ res c', match res with
    | Ok rs => ∃ published, Forall (λ r, ("engineResponse", EngineResponse_json r) ∈ sent c) published ∧
        rs = Some ∘ response_sent <$> published
    | Err _ => False
    | Panic => True
    end) c.
Proof.
  intros Hs. unfold SubscribeEngineResponses, subscribe.
  apply wp_bind. eapply wp_mono; [|apply wp_and; [apply (GetChannel_silent "erSub")|apply GetChannel_answers]].
  intros r c1 [E1 Hn1]. destruct r as [[]|e|]; [|by destruct (Hn1 e)|done]. cbn [wp_next].
  apply wp_bind. eapply wp_mono; [|apply wp_and; [apply (GetQueue_silent "engineResponse")|apply or_fatal_answers]].
  intros r c2 [E2 Hn2]. destruct r as [[]|e|]; [|by destruct (Hn2 e)|done]. cbn [wp_next].
  apply wp_bind, wp_or_fatal, wp_zoom. eapply wp_mono; [|apply ChannelConsume_ok].
  intros [msgs|e|] b [_ Hm]; [|done..]. cbn [wp_next]. apply wp_lift.
  destruct (started_all (unjson_pointer EngineResponse_unjson) (λ r : {r | ("engineResponse", EngineResponse_json r) ∈ sent c},
    EngineResponse_json (`r)) (λ r, Some (response_sent (`r))) msgs) as (rs & -> & ->).
  - eapply Forall_impl; [exact Hm|]. intros j Hj. change (("engineResponse", j) ∈ sent c2) in Hj. rewrite E2, E1 in Hj.
    destruct (Hs j Hj) as (r & -> & Hr). exists (r ↾ Hj). split; [done|]. cbn [proj1_sig].
    change (unjson_pointer EngineResponse_unjson (EngineResponse_json r)) with
      (Some <$> EngineResponse_unjson (EngineResponse_json r)). by rewrite EngineResponse_roundtrip.
  - exists (proj1_sig <$> rs). rewrite <- list_fmap_compose. split; [|done].
    apply Forall_fmap, Forall_forall. by intros [r Hr] _.
Qed.
End roundtrips.
