(* ===== verification/Engine.v ===== *)
(** Package [engine]: the order book ([engine/orderbook.go]) and the dispatch of
    the messages of the order queue ([engine/engine.go]).

    The code runs against the interfaces of the daos and the broker.  Every
    operation holds the book's mutex from its first to its last line, so it is
    one step of the model.  An order passed by pointer and changed in place is
    an argument and a result. *)
From S2P Require Import Prelude BigMath Types Mongo Json Orders MatchTypes OrderCodec TradeCodec OrderDao OrderStore TradeDao Rabbit.

(** The two collections and the connection the book works on. *)
Record World (OS TS B : Type) := mkWorld {
  w_orders : OS;
  w_trades : TS;
  w_broker : Connection B
}.
Arguments mkWorld {OS TS B}. Arguments w_orders {OS TS B}.
Arguments w_trades {OS TS B}. Arguments w_broker {OS TS B}.

Section engine.
Context {OS TS B : Type} `{IOrderDao OS, ITradeDao TS, Amqp B}.
Context `{EthCommon, Codecs, Big.Undefined, Sprint}.
#[local] Abbreviation World := (World OS TS B).

Definition orders_lens : lens World OS :=
  Lens w_orders (λ o w, mkWorld o (w_trades w) (w_broker w)).
Definition trades_lens : lens World TS :=
  Lens w_trades (λ t w, mkWorld (w_orders w) t (w_broker w)).
Definition broker_lens : lens World (Connection B) :=
  Lens w_broker (λ b w, mkWorld (w_orders w) (w_trades w) b).

(** ** engine/orderbook.go *)

Definition is_unfilled (o : Order) : bool :=
  match o_FilledAmount o with None => true | Some f => IsZero f end.

Definition addOrder (o : Order) : M World (Order * (error + unit)) :=
  let o := if is_unfilled o then set_o_Status "OPEN" o else o in
  '(o, r) ← zoom orders_lens (od_FindAndModify (o_Hash o) o);
  mret (o, match r with inl e => inl e | inr _ => inr tt end).

(** [_, err := ob.orderDao.FindAndModify(o.Hash, o)], returning on an error. *)
Definition save (o : Order) : M World Order :=
  '(o, r) ← zoom orders_lens (od_FindAndModify (o_Hash o) o);
  _ ← check r;
  mret o.

Definition make_trade (takerOrder makerOrder : Order) (tradeAmount : Z) : Trade :=
  let trade := {|
    t_ID := ""; t_Amount := Some tradeAmount; t_PricePoint := o_PricePoint takerOrder;
    t_BaseToken := o_BaseToken takerOrder; t_QuoteToken := o_QuoteToken takerOrder;
    t_MakerOrderHash := o_Hash makerOrder; t_TakerOrderHash := o_Hash takerOrder;
    t_Taker := o_UserAddress takerOrder; t_PairName := o_PairName takerOrder;
    t_Maker := o_UserAddress makerOrder; t_Status := PENDING;
    t_Hash := 0; t_Side := ""; t_Signature := None; t_TxHash := 0;
    t_CreatedAt := 0; t_UpdatedAt := 0 |} in
  set_t_Hash (Trade_ComputeHash trade) trade.

(** Returns the taker and maker orders as changed, and the trade. *)
Definition execute (takerOrder makerOrder : Order) : M World (Order * Order * Trade) :=
  mr ← lift (RemainingAmount makerOrder);
  tr ← lift (RemainingAmount takerOrder);
  '(tradeAmount, makerOrder) ←
    (if IsStrictlyGreaterThan mr tr then
       mf ← lift (deref (o_FilledAmount makerOrder));
       let makerOrder := set_o_Status "PARTIAL_FILLED"
                           (set_o_FilledAmount (Some (Add mf tr)) makerOrder) in
       makerOrder ← save makerOrder;
       mret (tr, makerOrder)
     else
       let makerOrder := set_o_Status "FILLED"
                           (set_o_FilledAmount (o_Amount makerOrder) makerOrder) in
       makerOrder ← save makerOrder;
       mret (mr, makerOrder));
  tf ← lift (deref (o_FilledAmount takerOrder));
  let takerOrder := set_o_FilledAmount (Some (Add tf tradeAmount)) takerOrder in
  mret (takerOrder, makerOrder, make_trade takerOrder makerOrder tradeAmount).

(** The loop over the matching orders.  [remainingAmount] is
    [remainingOrder.Amount]; the result says whether the loop returned because
    it became zero. *)
Fixpoint fill_loop (o : Order) (remainingAmount : Z) (matches : list (Order * Trade))
    (matchingOrders : list Order) : M World (Order * list (Order * Trade) * bool) :=
  match matchingOrders with
  | [] => mret (o, matches, false)
  | mo :: rest =>
    '(o, mo, trade) ← execute o mo;
    let matches := matches ++ [(mo, trade)] in
    ta ← lift (deref (t_Amount trade));
    let remainingAmount := Sub remainingAmount ta in
    if IsZero remainingAmount then
      let o := set_o_Status "FILLED" (set_o_FilledAmount (o_Amount o) o) in
      o ← save o;
      mret (o, matches, true)
    else fill_loop o remainingAmount matches rest
  end.

Definition response (status : string) (o : Order) (matches : option (list (Order * Trade))) :
    EngineResponse :=
  mkEngineResponse status (Some o)
    ((λ l, mkMatches ((Some ∘ fst) <$> l) (Some o) ((Some ∘ snd) <$> l)) <$> matches)
    None None.

(** What both sides do with the orders they matched. *)
Definition fill (o : Order) (matchingOrders : list Order) : M World EngineResponse :=
  amount ← lift (deref (o_Amount o));
  '(o, matches, filled) ← fill_loop o amount [] matchingOrders;
  if (filled : bool) then mret (response "ORDER_FILLED" o (Some matches))
  else
    o ← save (set_o_Status "PARTIAL_FILLED" o);
    mret (response "ORDER_PARTIALLY_FILLED" o (Some matches)).

Definition buyOrder (o : Order) : M World EngineResponse :=
  matchingOrders ← zoom orders_lens (od_GetMatchingSellOrders o);
  match matchingOrders with
  | [] =>
    '(o, _) ← addOrder o;
    mret (response "ORDER_ADDED" o None)
  | _ => fill o matchingOrders
  end.

Definition sellOrder (o : Order) : M World EngineResponse :=
  matchingOrders ← zoom orders_lens (od_GetMatchingBuyOrders o);
  match matchingOrders with
  | [] =>
    '(o, _) ← addOrder (set_o_Status "OPEN" o);
    mret (response "ORDER_ADDED" o None)
  | _ => fill o matchingOrders
  end.

Definition publish_response (r : EngineResponse) : M World unit :=
  zoom broker_lens (PublishEngineResponse r).

Definition newOrder (o : Order) : M World unit :=
  res ← (if decide (o_Side o = "SELL") then sellOrder o
         else if decide (o_Side o = "BUY") then buyOrder o
         else mret er_empty);
  publish_response res.

Definition cancelOrder (o : Order) : M World unit :=
  let o := set_o_Status "CANCELLED" o in
  zoom orders_lens (od_UpdateOrderStatus (o_Hash o) "CANCELLED") ;;
  publish_response (response "ORDER_CANCELLED" o None).

(** [for i, _ := range orders { f(trades[i]) }] *)
Fixpoint hashes_at (f : Trade → Hash) (n : nat) (trades : list (option Trade)) :
    outcome (list Hash) :=
  match n with
  | O => Ok []
  | S n' =>
    p ← deref (head trades); t ← deref p;
    hs ← hashes_at f n' (tail trades);
    Ok (f t :: hs)
  end.

Definition republish (o : Order) : M World unit :=
  log_error (zoom broker_lens (PublishNewOrderMessage o)).

Definition invalidateMakerOrders (matches : Matches) : M World unit :=
  tradeAmounts ← lift (TradeAmounts matches);
  let n := length (MakerOrders matches) in
  makerOrderHashes ← lift (hashes_at t_MakerOrderHash n (Trades matches));
  takerOrderHashes ← lift (hashes_at t_TakerOrderHash n (Trades matches));
  takerOrders ← zoom orders_lens (od_UpdateOrderFilledAmounts takerOrderHashes tradeAmounts);
  makerOrders ← zoom orders_lens (od_UpdateOrderStatusesByHashes "INVALIDATED" makerOrderHashes);
  cancelledTrades ← zoom trades_lens
    (td_UpdateTradeStatusesByOrderHashes "CANCELLED" takerOrderHashes);
  log_error (publish_response (mkEngineResponse "TRADES_CANCELLED" None None
    (Some makerOrders) (Some cancelledTrades))) ;;
  mforeach republish takerOrders.

Definition invalidateTakerOrders (matches : Matches) : M World unit :=
  tradeAmounts ← lift (TradeAmounts matches);
  makerOrderHashes ← lift (hashes_at t_MakerOrderHash (length (Trades matches)) (Trades matches));
  makerOrders ← zoom orders_lens (od_UpdateOrderFilledAmounts makerOrderHashes tradeAmounts);
  takerOrder ← lift (deref (TakerOrder matches));
  invalidatedOrders ← zoom orders_lens
    (od_UpdateOrderStatusesByHashes "INVALIDATED" [o_Hash takerOrder]);
  cancelledTrades ← zoom trades_lens
    (td_UpdateTradeStatusesByOrderHashes "CANCELLED" makerOrderHashes);
  publish_response (mkEngineResponse "TRADES_CANCELLED" None None
    (Some invalidatedOrders) (Some cancelledTrades)) ;;
  mforeach republish makerOrders.

Definition InvalidateOrder (o : Order) : M World EngineResponse :=
  let o := set_o_Status "ERROR" o in
  zoom orders_lens (od_UpdateOrderStatus (o_Hash o) "ERROR") ;;
  mret (response "INVALIDATED" o None).

(** ** engine/engine.go *)

(** The codes of [e.orderbooks]; the books differ only by their key. *)
Abbreviation Engine := (gset string).

Definition NewEngine (pairs : list Pair) : Engine := list_to_set (Pair_Code <$> pairs).

Definition find_orderbook (e : Engine) (code : string) : M World unit :=
  if decide (code ∈ e) then mret tt else fail "Orderbook error".

Definition unmarshal_order (bytes : json) : M World Order :=
  lift (Order_UnmarshalJSON bytes zero_Order).

Definition handleAddOrder (e : Engine) (bytes : json) : M World unit :=
  o ← unmarshal_order bytes;
  code ← lift (PairCode o);
  find_orderbook e code ;;
  '(_, r) ← addOrder o;
  check r.

Definition handleNewOrder (e : Engine) (bytes : json) : M World unit :=
  o ← unmarshal_order bytes;
  code ← lift (PairCode o);
  find_orderbook e code ;;
  newOrder o.

Definition handleCancelOrder (e : Engine) (bytes : json) : M World unit :=
  o ← unmarshal_order bytes;
  code ← lift (PairCode o);
  find_orderbook e code ;;
  cancelOrder o.

Definition handleInvalidateMakerOrders (e : Engine) (bytes : json) : M World unit :=
  m ← lift (Matches_UnmarshalJSON bytes);
  code ← lift (Matches_PairCode m);
  find_orderbook e code ;;
  invalidateMakerOrders m.

(** Without an order book this one logs and returns the error it has, nil. *)
Definition handleInvalidateTakerOrders (e : Engine) (bytes : json) : M World unit :=
  m ← lift (Matches_UnmarshalJSON bytes);
  code ← lift (Matches_PairCode m);
  if decide (code ∈ e) then invalidateTakerOrders m else mret tt.

Definition HandleOrders (e : Engine) (type : string) (data : json) : M World unit :=
  if decide (type = "NEW_ORDER") then handleNewOrder e data
  else if decide (type = "ADD_ORDER") then handleAddOrder e data
  else if decide (type = "CANCEL_ORDER") then handleCancelOrder e data
  else if decide (type = "INVALIDATE_MAKER_ORDERS") then handleInvalidateMakerOrders e data
  else if decide (type = "INVALIDATE_TAKER_ORDERS") then handleInvalidateTakerOrders e data
  else mret tt.
End engine.
