(* ===== verification/Toy.v ===== *)
(** A running engine for the witnesses: list-backed collections, a broker that
    only records what it is given, and the toy codecs. *)
From S2P Require Import Prelude BigMath Types Mongo ListMongo Json Fixtures Orders MatchTypes OrderCodec TradeCodec OrderDao OrderStore OrderDaoRefine TradeDao Rabbit Engine.

(** Imported by the witnesses, after the theorems they apply. *)
Module Running.
#[export] Existing Instance toy_eth.
#[export] Existing Instance toy_eth_laws.
#[export] Existing Instance toy_config.
#[export] Existing Instance toy_codecs.
#[export] Existing Instance toy_codec_laws.
#[export] Existing Instance toy_undefined.
#[export] Existing Instance toy_decimals.
#[export] Instance toy_sprint : Sprint := λ _, "".

#[export] Instance toy_amqp : Amqp (list (string * json)) := {|
  OpenChannel := mret tt;
  QueueDeclare _ := mret tt;
  QueueInspect _ := mret tt;
  QueuePurge _ := mret tt;
  AmqpPublish q j s := (Ok tt, s ++ [(q, j)]);
  published s := s
|}.
#[export] Instance toy_amqp_laws : AmqpLaws (list (string * json)).
Proof. split; intros; by unfold keeps_published, wp. Defined.

(** The order collection has its unique index on the hash. *)
#[export] Instance toy_mongo : Mongo coll := ListMongo OrderDao.unique_index.
#[export] Instance toy_mongo_laws : MongoLaws coll := ListMongo_laws OrderDao.unique_index.

(** The trade collection has no unique index. *)
#[export] Instance toy_trade_dao : ITradeDao coll := trade_dao (H4 := ListMongo []).
#[export] Instance toy_trade_dao_spec : TradeDaoSpec coll.
Proof. apply (@trade_dao_spec _ _ _ _ _ _ _ _ (ListMongo []) (ListMongo_laws [])). Defined.

Abbreviation toy_world := (World coll coll (list (string * json))).
Definition toy_start : toy_world :=
  mkWorld (Coll [] 5000000 0) (Coll [] 0 0) (mkConnection [] ∅ ∅).

(** The orders the collection holds, as (hash, status, filled amount). *)
Definition toy_orders (w : toy_world) : list (Z * string * option Z) :=
  (λ o, (o_Hash o, o_Status o, o_FilledAmount o)) <$> omap decode (docs (w_orders w)).

Definition toy_run (os : list Order) : outcome unit * toy_world :=
  mforeach newOrder os toy_start.
End Running.
