(* ===== verification/EngineSpec.v ===== *)
(** What the order book does: its matching loop against an abstract allocation
    of the taker's amount, conservation of amounts, when an order is reported
    filled, and the effect of every outcome on the abstract book. *)
From S2P Require Import Prelude BigMath Types Mongo Json Orders MatchTypes OrderCodec TradeCodec OrderDao OrderStore TradeDao Rabbit Engine.

(** ** The allocation of a taker among makers *)

(** An order whose filled amount is between zero and its amount. *)
Definition order_ok (o : Order) : Prop := 0 ≤ filled o ≤ amount o.

Definition fill_maker (rem : Z) (m : Order) : Order :=
  set_o_Status (if rem <? remaining m then "PARTIAL_FILLED" else "FILLED")
    (set_o_FilledAmount (Some (filled m + Z.min (remaining m) rem)) m).

(** The makers a taker trades with, as they are left, and the traded amounts:
    [rem] is what the taker has left, [q] the counter the loop stops on. *)
Fixpoint allocate (q rem : Z) (l : list Order) : list (Order * Z) :=
  match l with
  | [] => []
  | m :: l' =>
    let a := Z.min (remaining m) rem in
    (fill_maker rem m, a) ::
    if q - a =? 0 then [] else allocate (q - a) (rem - a) l'
  end.
Fixpoint exhausted (q rem : Z) (l : list Order) : bool :=
  match l with
  | [] => false
  | m :: l' =>
    let a := Z.min (remaining m) rem in
    (q - a =? 0) || exhausted (q - a) (rem - a) l'
  end.
Definition total (al : list (Order * Z)) : Z := sumZ (snd <$> al).
Definition supply (l : list Order) : Z := sumZ (remaining <$> l).

(** The taker as it is left. *)
Definition fill_taker (done : bool) (traded : Z) (o : Order) : Order :=
  if done then set_o_Status "FILLED" (set_o_FilledAmount (o_Amount o) o)
  else set_o_Status "PARTIAL_FILLED" (set_o_FilledAmount (Some (filled o + traded)) o).

(** ** Lemmas on the allocation *)

Lemma remaining_nonneg o : order_ok o → 0 ≤ remaining o.
Proof. unfold order_ok, remaining. lia. Qed.

Lemma supply_nonneg l : Forall order_ok l → 0 ≤ supply l.
Proof.
  intros Hl. apply sumZ_nonneg, Forall_fmap.
  eapply Forall_impl; [exact Hl|]. apply remaining_nonneg.
Qed.

Lemma fill_maker_amounts rem m :
  filled (fill_maker rem m) = filled m + Z.min (remaining m) rem ∧
  amount (fill_maker rem m) = amount m.
Proof. done. Qed.

Lemma fill_maker_ok rem m : 0 ≤ rem → order_ok m → order_ok (fill_maker rem m).
Proof.
  unfold order_ok. destruct (fill_maker_amounts rem m) as [-> ->].
  unfold remaining. lia.
Qed.

Lemma allocate_ok q rem l :
  0 ≤ rem → Forall order_ok l →
  Forall (λ ma, order_ok ma.1 ∧ 0 ≤ ma.2) (allocate q rem l).
Proof.
  revert q rem. induction l as [|m l IH]; intros q rem Hr Hl; simpl; [done|].
  apply Forall_cons in Hl as [Hm Hl]. pose proof (remaining_nonneg m Hm).
  constructor.
  - split; [by apply fill_maker_ok|]. simpl. lia.
  - case_match; [done|]. apply IH; [lia|done].
Qed.

Lemma total_cons ma al : total (ma :: al) = ma.2 + total al.
Proof. done. Qed.
Lemma supply_cons m l : supply (m :: l) = remaining m + supply l.
Proof. done. Qed.

(** No trade takes more than the taker has left. *)
Lemma allocate_le q rem l :
  0 ≤ rem → Forall order_ok l → 0 ≤ total (allocate q rem l) ≤ rem.
Proof.
  revert q rem. induction l as [|m l IH]; intros q rem Hr Hl; [done|].
  apply Forall_cons in Hl as [Hm Hl]. pose proof (remaining_nonneg m Hm).
  cbn [allocate]. rewrite total_cons. simpl.
  case_match; [unfold total; simpl; lia|].
  destruct (IH (q - Z.min (remaining m) rem) (rem - Z.min (remaining m) rem));
    [lia|done|lia].
Qed.

(** A fresh taker trades what the makers offer, up to its amount, and the loop
    returns early exactly when they offer enough. *)
Lemma allocate_fresh q l :
  0 < q → Forall order_ok l →
  total (allocate q q l) = Z.min q (supply l) ∧
  exhausted q q l = (q <=? supply l).
Proof.
  revert q. induction l as [|m l IH]; intros q Hq Hl; cbn [allocate exhausted].
  - unfold total, supply. simpl. split; [lia|]. symmetry. apply Z.leb_gt. lia.
  - apply Forall_cons in Hl as [Hm Hl]. rewrite total_cons, supply_cons. simpl.
    pose proof (remaining_nonneg m Hm). pose proof (supply_nonneg l Hl).
    destruct (Z.eqb_spec (q - Z.min (remaining m) q) 0); simpl.
    + unfold total. simpl. split; [lia|]. symmetry. apply Z.leb_le. lia.
    + destruct (IH (q - Z.min (remaining m) q)) as [IH1 IH2]; [lia|done|].
      rewrite IH1, IH2. split; [lia|].
      destruct (Z.leb_spec (q - Z.min (remaining m) q) (supply l));
        symmetry; [apply Z.leb_le|apply Z.leb_gt]; lia.
Qed.

(** A taker that was partially filled before never exhausts the loop's counter:
    it goes through all the makers. *)
Lemma allocate_rerun q rem l :
  0 ≤ rem < q → Forall order_ok l →
  exhausted q rem l = false ∧ length (allocate q rem l) = length l ∧
  total (allocate q rem l) = Z.min rem (supply l).
Proof.
  revert q rem. induction l as [|m l IH]; intros q rem Hr Hl; cbn [allocate exhausted].
  - unfold total, supply. simpl. split_and!; [done|done|lia].
  - apply Forall_cons in Hl as [Hm Hl]. rewrite total_cons, supply_cons. simpl.
    pose proof (remaining_nonneg m Hm). pose proof (supply_nonneg l Hl).
    destruct (Z.eqb_spec (q - Z.min (remaining m) rem) 0); [lia|]. simpl.
    destruct (IH (q - Z.min (remaining m) rem) (rem - Z.min (remaining m) rem))
      as (IH1 & IH2 & IH3); [lia|done|].
    rewrite IH1, IH2, IH3. split_and!; [done|done|lia].
Qed.

(** What such an order takes from each: the smaller of what is left of the two. *)
Lemma allocate_rerun_each q rem l i m :
  0 ≤ rem < q → Forall order_ok l → l !! i = Some m →
  (snd <$> allocate q rem l) !! i =
    Some (Z.min (remaining m) (rem - sumZ (take i (snd <$> allocate q rem l)))).
Proof.
  revert q rem i. induction l as [|m0 l IH]; intros q rem i Hr Hl Hm; [done|].
  apply Forall_cons in Hl as [Hm0 Hl]. pose proof (remaining_nonneg m0 Hm0). cbn [allocate].
  destruct (Z.eqb_spec (q - Z.min (remaining m0) rem) 0); [lia|].
  rewrite fmap_cons. destruct i as [|i]; simpl in *.
  - injection Hm as <-. do 2 f_equal. lia.
  - rewrite (IH (q - Z.min (remaining m0) rem) (rem - Z.min (remaining m0) rem) i) by (done || lia).
    do 2 f_equal. lia.
Qed.

Lemma allocate_prefix q rem l :
  o_Hash ∘ fst <$> allocate q rem l `prefix_of` o_Hash <$> l.
Proof.
  revert q rem. induction l as [|m l IH]; intros q rem; simpl; [done|].
  apply prefix_cons. case_match; [apply prefix_nil|apply IH].
Qed.

(** ** Updates of the book *)

(** Storing one order, then several. *)
Definition saved (bk bk' : book) (o : Order) : Prop :=
  ∃ u, upserted bk o u ∧ bk' = <[o_Hash o := u]> bk.
Fixpoint saved_all (bk bk' : book) (l : list Order) : Prop :=
  match l with
  | [] => bk' = bk
  | o :: l' => ∃ bk1, saved bk bk1 o ∧ saved_all bk1 bk' l'
  end.

Lemma saved_all_app bk bk1 bk' l k :
  saved_all bk bk1 l → saved_all bk1 bk' k → saved_all bk bk' (l ++ k).
Proof.
  revert bk. induction l as [|o l IH]; intros bk; simpl; [by intros ->|].
  intros (bk2 & ? & ?) ?. exists bk2. eauto.
Qed.

Lemma saved_lookup_ne bk bk' o h : saved bk bk' o → h ≠ o_Hash o → bk' !! h = bk !! h.
Proof. intros (u & _ & ->) Hne. by rewrite lookup_insert_ne. Qed.

Lemma saved_all_ne bk bk' l h :
  saved_all bk bk' l → h ∉ o_Hash <$> l → bk' !! h = bk !! h.
Proof.
  revert bk. induction l as [|o l IH]; intros bk; simpl; [by intros -> _|].
  intros (bk1 & Hs & Hl) Hni. rewrite not_elem_of_cons in Hni. destruct Hni as [Hne Hni].
  rewrite (IH bk1 Hl Hni). by eapply saved_lookup_ne.
Qed.

Lemma saved_all_lookup bk bk' l o :
  saved_all bk bk' l → NoDup (o_Hash <$> l) → o ∈ l →
  ∃ u, bk' !! o_Hash o = Some u ∧ same_content o u ∧
       ∀ old, bk !! o_Hash o = Some old → o_CreatedAt u = o_CreatedAt old.
Proof.
  revert bk. induction l as [|x l IH]; intros bk; simpl; [by intros _ _ ?%elem_of_nil|].
  intros (bk1 & Hs & Hl) [Hni Hn]%NoDup_cons [->|Hin]%elem_of_cons.
  - rewrite (saved_all_ne bk1 bk' l _ Hl Hni).
    destruct Hs as (u & [Hu Hc] & ->). exists u. by rewrite lookup_insert_eq.
  - destruct (IH bk1 Hl Hn Hin) as (u & ? & ? & Hc). exists u. split_and!; [done..|].
    intros old Hold. apply Hc. rewrite <-Hold. eapply saved_lookup_ne; [done|].
    intros Heq. apply Hni. rewrite <-Heq. apply list_elem_of_fmap. by exists o.
Qed.

Lemma same_content_ok o u : same_content o u → order_ok o → order_ok u.
Proof. intros ->. done. Qed.

Definition book_ok (bk : book) : Prop := map_Forall (λ _, order_ok) bk.

Lemma saved_all_ok bk bk' l :
  saved_all bk bk' l → Forall order_ok l → book_ok bk → book_ok bk'.
Proof.
  revert bk. induction l as [|o l IH]; intros bk; simpl; [by intros ->|].
  intros (bk1 & (u & [Hu _] & ->) & Hl) [Ho Hok]%Forall_cons Hbk.
  apply (IH _ Hl Hok). apply map_Forall_insert_2; [|done]. by eapply same_content_ok.
Qed.

(** ** The operations *)

Section engine.
Context {OS TS B : Type} `{OrderDaoSpec OS, ITradeDao TS, AmqpLaws B}.
Context `{EthCommon, Codecs, Big.Undefined, Sprint}.
#[local] Abbreviation World := (World OS TS B).
Implicit Types w : World.

Definition wbook w : book := order_book (w_orders w).
Definition winv w : Prop := od_inv (w_orders w).
Definition same_rest w w' : Prop :=
  w_trades w' = w_trades w ∧ w_broker w' = w_broker w.

Lemma same_rest_trans w1 w2 w3 : same_rest w1 w2 → same_rest w2 w3 → same_rest w1 w3.
Proof. intros [] []. split; congruence. Qed.

(** A call of the order dao only changes the orders. *)
Lemma wp_orders {A} (m : M OS A) Q w :
  wp m (λ r s, ∀ w', w_orders w' = s → same_rest w w' → Q r w') (w_orders w) →
  wp (zoom orders_lens m) Q w.
Proof. intros Hm. apply wp_zoom. eapply wp_mono; [|exact Hm]. intros r s Hs. by apply Hs. Qed.

Lemma save_spec o w :
  winv w → complete o →
  wp (save o) (λ r w', winv w' ∧ same_rest w w' ∧
    match r with
    | Ok o' => (∃ t, o' = set_o_UpdatedAt t o) ∧ saved (wbook w) (wbook w') o
    | Err _ => wbook w' = wbook w ∨ saved (wbook w) (wbook w') o
    | Panic => False
    end) w.
Proof.
  intros Hi Ho. unfold save. apply wp_bind, wp_orders.
  eapply wp_mono; [|apply (FindAndModify_spec o Ho _ Hi)].
  intros [[o' [e|u]]|e|] s [Hi' Hr] w' <- Hsame; [| |done..].
  - destruct Hr as [Ht Hb]. apply wp_bind, wp_fail. split_and!; [done..|].
    destruct Hb as [Hb|(u & Hu & Hb)]; [by left|]. right. by exists u.
  - destruct Hr as (Ht & Hu & Hb). apply wp_bind, wp_ret, wp_ret.
    split_and!; [done..|]. by exists u.
Qed.

Lemma RemainingAmount_complete o : complete o → RemainingAmount o = Ok (remaining o).
Proof.
  intros [[a Ha] [f Hf] _ _ _ _ _]. unfold RemainingAmount, remaining, amount, filled.
  by rewrite Ha, Hf.
Qed.

Lemma complete_fill_maker rem m : complete m → complete (fill_maker rem m).
Proof. intros []. by constructor. Qed.

Lemma execute_spec o m w :
  winv w → complete o → complete m →
  wp (execute o m) (λ r w', winv w' ∧ same_rest w w' ∧
    match r with
    | Ok (o', m', t) =>
      let a := Z.min (remaining m) (remaining o) in
      o' = set_o_FilledAmount (Some (filled o + a)) o ∧
      (∃ tm, m' = set_o_UpdatedAt tm (fill_maker (remaining o) m)) ∧
      t = make_trade o m a ∧
      saved (wbook w) (wbook w') (fill_maker (remaining o) m)
    | Err _ => wbook w' = wbook w ∨ saved (wbook w) (wbook w') (fill_maker (remaining o) m)
    | Panic => False
    end) w.
Proof.
  intros Hi Ho Hm. unfold execute. rewrite (RemainingAmount_complete m Hm),
    (RemainingAmount_complete o Ho). apply wp_bind, wp_lift. simpl. apply wp_bind, wp_lift. simpl.
  pose proof (complete_fill_maker (remaining o) m Hm) as Hfm.
  destruct (has_filled _ Ho) as [f Hf], (has_filled _ Hm) as [fm Hfm'], (has_amount _ Hm) as [am Ham].
  assert (filled m = fm) as Hfilled by (unfold filled; by rewrite Hfm').
  assert (filled o = f) as Hfilledo by (unfold filled; by rewrite Hf).
  rewrite IsStrictlyGreaterThan_spec.
  destruct (Z.ltb_spec (remaining o) (remaining m)) as [Hlt|Hge].
  - rewrite Hfm'. simpl. apply wp_bind, wp_bind, wp_lift. simpl.
    assert (set_o_Status "PARTIAL_FILLED" (set_o_FilledAmount (Some (Add fm (remaining o))) m)
      = fill_maker (remaining o) m) as ->.
    { unfold fill_maker. rewrite Hfilled, Z.min_r, (proj2 (Z.ltb_lt _ _) Hlt) by lia. done. }
    wp_step (save_spec _ w Hi Hfm). intros [m'|e|] w' (Hi' & Hs' & Hr); [|by split_and!|done].
    destruct Hr as [[tm ->] Hsv]. apply wp_ret, wp_bind, wp_lift. rewrite Hf. simpl. apply wp_ret.
    rewrite Z.min_r, Hfilledo by lia. split_and!; [done..| |done|done].
    by eexists.
  - assert (set_o_Status "FILLED" (set_o_FilledAmount (o_Amount m) m)
      = fill_maker (remaining o) m) as ->.
    { unfold fill_maker. rewrite Z.min_l, (proj2 (Z.ltb_ge _ _) Hge) by lia.
      unfold remaining, amount. rewrite Ham. simpl. do 2 f_equal. f_equal. lia. }
    apply wp_bind. wp_step (save_spec _ w Hi Hfm).
    intros [m'|e|] w' (Hi' & Hs' & Hr); [|by split_and!|done].
    destruct Hr as [[tm ->] Hsv]. apply wp_ret, wp_bind, wp_lift. rewrite Hf. simpl. apply wp_ret.
    rewrite Z.min_l, Hfilledo by lia. split_and!; [done..| |done|done].
    by eexists.
Qed.

(** One entry of the matches against the allocation. *)
Definition match_of (o : Order) (p : Order * Trade) (ma : Order * Z) : Prop :=
  (∃ t, p.1 = set_o_UpdatedAt t ma.1) ∧ p.2 = make_trade o ma.1 ma.2.

(** The makers come from the book, once each, and are not the taker. *)
Definition makers_of (bk : book) (o : Order) (l : list Order) : Prop :=
  NoDup (o_Hash <$> l) ∧ o_Hash o ∉ o_Hash <$> l ∧ Forall complete l.

Lemma make_trade_fill o f m rem a :
  make_trade (set_o_FilledAmount f o) (fill_maker rem m) a = make_trade o m a.
Proof. done. Qed.

Lemma complete_filled f o : complete o → complete (set_o_FilledAmount (Some f) o).
Proof. intros []. by constructor. Qed.

Lemma complete_status st o : complete o → complete (set_o_Status st o).
Proof. intros []. by constructor. Qed.

Lemma complete_full o : complete o → complete (set_o_FilledAmount (o_Amount o) o).
Proof. intros []. by constructor. Qed.

(** What the loop stores: the makers, and the taker when it returns early. *)
Definition stored_by_loop (o : Order) (q : Z) (l : list Order) : list Order :=
  (allocate q (remaining o) l).*1 ++
  if exhausted q (remaining o) l
  then [set_o_Status "FILLED" (set_o_FilledAmount (o_Amount o) o)] else [].

Lemma fill_loop_spec l o q acc w :
  winv w → complete o → Forall complete l →
  wp (fill_loop o q acc l) (λ r w', winv w' ∧ same_rest w w' ∧
    match r with
    | Ok (o', ms, done) =>
      done = exhausted q (remaining o) l ∧
      (∃ new, ms = acc ++ new ∧ Forall2 (match_of o) new (allocate q (remaining o) l)) ∧
      (if done then ∃ t, o' = set_o_UpdatedAt t
                          (set_o_Status "FILLED" (set_o_FilledAmount (o_Amount o) o))
       else o' = set_o_FilledAmount
              (Some (filled o + total (allocate q (remaining o) l))) o) ∧
      saved_all (wbook w) (wbook w') (stored_by_loop o q l)
    | Err _ => ∃ n, saved_all (wbook w) (wbook w') (take n (stored_by_loop o q l))
    | Panic => False
    end) w.
Proof.
  revert o q acc w. induction l as [|m l IH]; intros o q acc w Hi Ho Hl.
  - apply wp_ret. split_and!; [done..| | |reflexivity].
    + exists []. by rewrite app_nil_r.
    + destruct (has_filled _ Ho) as [f Hf]. unfold filled, total. rewrite Hf. simpl.
      rewrite Z.add_0_r, <-Hf. by destruct o.
  - apply Forall_cons in Hl as [Hm Hl]. cbn [fill_loop].
    wp_step (execute_spec o m w Hi Ho Hm).
    set (a := Z.min (remaining m) (remaining o)).
    intros [[[o1 m1] t1]|e|] w1 (Hi1 & Hs1 & Hr); [| |done].
    2:{ split_and!; [done..|]. unfold stored_by_loop. cbn [allocate]. fold a.
        destruct Hr as [Hr|Hr]; [by exists 0%nat|]. exists 1%nat. simpl. eauto. }
    destruct Hr as (-> & Hm1 & -> & Hsv). fold a in Hsv |- *.
    apply wp_bind, wp_lift. simpl. rewrite IsZero_spec. unfold Sub.
    set (o1 := set_o_FilledAmount (Some (filled o + a)) o).
    assert (remaining o1 = remaining o - a) as Hrem.
    { unfold a, remaining at 1. change (filled o1) with (filled o + a).
      change (amount o1) with (amount o). unfold a, remaining. lia. }
    unfold stored_by_loop. cbn [allocate exhausted]. fold a.
    destruct (Z.eqb_spec (q - a) 0) as [Hz|Hz]; simpl.
    + wp_step (save_spec _ w1 Hi1). 2:{ by apply complete_status, (complete_full o1), complete_filled. }
      intros [o2|e|] w2 (Hi2 & Hs2 & Hr); [| |done].
      * destruct Hr as [[t ->] Hsv2]. apply wp_ret.
        split_and!; [done|by eapply same_rest_trans|done| | |].
        -- exists [(m1, make_trade o m a)]. split; [done|].
           constructor; [|constructor]. split; [exact Hm1|done].
        -- by exists t.
        -- exists (wbook w1). split; [done|]. by exists (wbook w2).
      * split_and!; [done|by eapply same_rest_trans|].
        destruct Hr as [Hr|Hr].
        -- exists 1%nat. simpl. rewrite Hr. eauto.
        -- exists 2%nat. simpl. exists (wbook w1). split; [done|]. by exists (wbook w2).
    + eapply wp_mono; [|apply (IH o1 (q - a) _ w1 Hi1); [by apply complete_filled|done]].
      rewrite Hrem.
      intros [[[o2 ms] b]|e|] w2 (Hi2 & Hs2 & Hr); [| |done].
      * destruct Hr as (-> & (new & -> & Hnew) & Ho2 & Hsv2).
        split_and!; [done|by eapply same_rest_trans|done| | |].
        -- exists ((m1, make_trade o m a) :: new). rewrite <-app_assoc. split; [done|].
           constructor; [by split|]. exact Hnew.
        -- destruct (exhausted _ _ l); [done|]. rewrite Ho2, total_cons. simpl.
           change (filled o1) with (filled o + a). by rewrite Z.add_assoc.
        -- exists (wbook w1). split; [done|].
           unfold stored_by_loop in Hsv2. rewrite Hrem in Hsv2. exact Hsv2.
      * split_and!; [done|by eapply same_rest_trans|].
        destruct Hr as (n & Hr). exists (S n). simpl. exists (wbook w1). split; [done|].
        unfold stored_by_loop in Hr. rewrite Hrem in Hr. exact Hr.
Qed.

(** The taker against its makers: what is answered and what is stored. *)
Definition executed (o : Order) (l : list Order) (bk bk' : book) (r : EngineResponse) : Prop :=
  let al := allocate (amount o) (remaining o) l in
  let done := exhausted (amount o) (remaining o) l in
  let after := fill_taker done (total al) o in
  ∃ t ms, r = response (if done then "ORDER_FILLED" else "ORDER_PARTIALLY_FILLED")
                (set_o_UpdatedAt t after) (Some ms) ∧
    Forall2 (match_of o) ms al ∧ saved_all bk bk' (al.*1 ++ [after]).

Lemma fill_spec o l w :
  winv w → complete o → Forall complete l →
  wp (fill o l) (λ r w', winv w' ∧ same_rest w w' ∧
    match r with
    | Ok res => executed o l (wbook w) (wbook w') res
    | Err _ => ∃ n, saved_all (wbook w) (wbook w')
        (take n ((allocate (amount o) (remaining o) l).*1 ++
                 [fill_taker (exhausted (amount o) (remaining o) l)
                    (total (allocate (amount o) (remaining o) l)) o]))
    | Panic => False
    end) w.
Proof.
  intros Hi Ho Hl. unfold fill. destruct (has_amount _ Ho) as [am Ham].
  rewrite Ham. apply wp_bind, wp_lift. simpl.
  assert (amount o = am) as Hamount by (unfold amount; by rewrite Ham).
  rewrite <-Hamount. unfold executed.
  wp_step (fill_loop_spec l o (amount o) [] w Hi Ho Hl).
  set (al := allocate (amount o) (remaining o) l).
  unfold stored_by_loop. fold al.
  intros [[[o1 ms] b]|e|] w1 (Hi1 & Hs1 & Hr); [| |done].
  - destruct Hr as (-> & (new & -> & Hnew) & Ho1 & Hsv). simpl.
    destruct (exhausted (amount o) (remaining o) l) eqn:Hex.
    + destruct Ho1 as [t ->]. apply wp_ret. split_and!; [done..|].
      by exists t, new.
    + rewrite app_nil_r in Hsv. rewrite Ho1.
      wp_step (save_spec _ w1 Hi1); [|apply complete_status; by apply complete_filled].
      intros [o2|e|] w2 (Hi2 & Hs2 & Hr); [| |done].
      * destruct Hr as [[t ->] Hsv2]. apply wp_ret.
        split_and!; [done|by eapply same_rest_trans|].
        exists t, new. split_and!; [done..|]. eapply saved_all_app; [exact Hsv|].
        by exists (wbook w2).
      * split_and!; [done|by eapply same_rest_trans|].
        destruct Hr as [Hr|Hr].
        -- exists (length al.*1). rewrite take_app_length, Hr. done.
        -- exists (S (length al.*1)). rewrite take_ge by (rewrite length_app; simpl; lia).
           eapply saved_all_app; [exact Hsv|]. by exists (wbook w2).
  - split_and!; [done..|]. destruct Hr as (n & Hr).
    destruct (exhausted (amount o) (remaining o) l).
    + exists n. exact Hr.
    + exists (Nat.min n (length al.*1)).
      rewrite app_nil_r in Hr. rewrite take_app_le by lia.
      rewrite <-take_take, (take_ge al.*1) by lia. exact Hr.
Qed.

(** ** The handlers *)

(** What a taker can trade with, by its side, and in which order. *)
Definition crosses (o m : Order) : Prop :=
  if decide (o_Side o = BUY) then matches_sell o m else matches_buy o m.
#[export] Instance crosses_dec o m : Decision (crosses o m).
Proof. unfold crosses. case_decide; apply _. Defined.
Definition priority (o : Order) : Order → Order → Prop :=
  if decide (o_Side o = BUY) then sell_priority else buy_priority.

Lemma crosses_buy o (l : list Order) :
  o_Side o = BUY → base.filter (crosses o) l = base.filter (matches_sell o) l.
Proof. intros Hs. apply list_filter_iff. intros m. unfold crosses. by rewrite decide_True. Qed.
Lemma crosses_sell o (l : list Order) :
  o_Side o = SELL → base.filter (crosses o) l = base.filter (matches_buy o) l.
Proof.
  intros Hs. apply list_filter_iff. intros m. unfold crosses. rewrite decide_False; [done|].
  by rewrite Hs.
Qed.

(** An order the engine can be given: every field set, a side, an exact price. *)
Record acceptable (o : Order) : Prop := {
  acc_complete : complete o;
  acc_side : o_Side o = BUY ∨ o_Side o = SELL;
  acc_price : price_exact o
}.

(** The candidates, as the dao returns them. *)
Definition candidates (bk : book) (o : Order) (l : list Order) : Prop :=
  l ≡ₚ base.filter (crosses o) (orders_of bk) ∧ StronglySorted (priority o) l.

Definition added (o : Order) : Order :=
  if is_unfilled o || bool_decide (o_Side o = SELL) then set_o_Status "OPEN" o else o.

(** The outcome of a new order on the book, and the answer. *)
Definition new_order_result (o : Order) (bk bk' : book) (res : EngineResponse) : Prop :=
  ∃ l, candidates bk o l ∧
    match l with
    | [] => (∃ t, res = response "ORDER_ADDED" (set_o_UpdatedAt t (added o)) None) ∧
            (bk' = bk ∨ saved bk bk' (added o))
    | _ => executed o l bk bk' res
    end.

(** What a failing run may have stored. *)
Definition new_order_partial (o : Order) (bk bk' : book) : Prop :=
  (∃ res, new_order_result o bk bk' res) ∨
  ∃ l n, candidates bk o l ∧
    saved_all bk bk' (take n ((allocate (amount o) (remaining o) l).*1 ++
       [fill_taker (exhausted (amount o) (remaining o) l)
          (total (allocate (amount o) (remaining o) l)) o])) ∨
  bk' = bk.

Lemma candidates_complete w o l :
  winv w → candidates (wbook w) o l → Forall complete l.
Proof.
  intros Hi [Hp _]. apply Forall_forall. intros m Hm. rewrite Hp in Hm.
  apply list_elem_of_filter in Hm as [_ Hm]. unfold orders_of in Hm.
  apply list_elem_of_fmap in Hm as ([h m'] & -> & Hm%elem_of_map_to_list).
  by apply (book_complete _ h m' Hi).
Qed.

Lemma addOrder_spec o w :
  winv w → complete o →
  wp (addOrder o) (λ r w', winv w' ∧ same_rest w w' ∧
    match r with
    | Ok (o', res) =>
      let o1 := if is_unfilled o then set_o_Status "OPEN" o else o in
      (∃ t, o' = set_o_UpdatedAt t o1) ∧
      match res with
      | inr _ => saved (wbook w) (wbook w') o1
      | inl _ => wbook w' = wbook w ∨ saved (wbook w) (wbook w') o1
      end
    | _ => False
    end) w.
Proof.
  intros Hi Ho. unfold addOrder. set (o1 := if is_unfilled o then _ else o).
  assert (complete o1) as Ho1 by (unfold o1; case_match; [by apply complete_status|done]).
  apply wp_bind, wp_orders. eapply wp_mono; [|apply (FindAndModify_spec o1 Ho1 _ Hi)].
  intros [[o' [e|u]]|e|] s [Hi' Hr] w' <- Hsame; [| |done..].
  - destruct Hr as [Ht Hb]. apply wp_ret. split_and!; [done..|].
    destruct Hb as [Hb|(u & Hu & Hb)]; [by left|]. right. by exists u.
  - destruct Hr as (Ht & Hu & Hb). apply wp_ret. split_and!; [done..|]. by exists u.
Qed.

Lemma no_match_spec o w :
  winv w → complete o →
  wp ('(o', _) ← addOrder o; mret (response "ORDER_ADDED" o' None)) (λ r w',
    winv w' ∧ same_rest w w' ∧ ∃ t,
    let o1 := if is_unfilled o then set_o_Status "OPEN" o else o in
    r = Ok (response "ORDER_ADDED" (set_o_UpdatedAt t o1) None) ∧
    (wbook w' = wbook w ∨ saved (wbook w) (wbook w') o1)) w.
Proof.
  intros Hi Ho. wp_step (addOrder_spec o w Hi Ho).
  intros [[o' r]|e|] w' (Hi' & Hs & Hr); [|done..]. destruct Hr as [[t ->] Hr].
  apply wp_ret. split_and!; [done..|]. exists t. split; [done|]. destruct r; auto.
Qed.

(** The body shared by [buyOrder] and [sellOrder], once the candidates are in. *)
Lemma matched_spec o o0 l w :
  winv w → complete o → complete o0 → candidates (wbook w) o l →
  added o = (if is_unfilled o0 then set_o_Status "OPEN" o0 else o0) →
  wp (match l with
      | [] => '(o', _) ← addOrder o0; mret (response "ORDER_ADDED" o' None)
      | _ => fill o l
      end) (λ r w', winv w' ∧ same_rest w w' ∧
    match r with
    | Ok res => new_order_result o (wbook w) (wbook w') res
    | Err _ => new_order_partial o (wbook w) (wbook w')
    | Panic => False
    end) w.
Proof.
  intros Hi Ho Ho0 Hc Hadd. destruct l as [|m l'] eqn:Hl.
  - eapply wp_mono; [|apply (no_match_spec o0 w Hi Ho0)].
    intros r w' (Hi' & Hs & t & -> & Hb). split_and!; [done..|].
    exists []. rewrite Hadd. eauto.
  - rewrite <-Hl in *.
    eapply wp_mono; [|apply (fill_spec o l w Hi Ho)]; [|by eapply candidates_complete].
    intros [res|e|] w' (Hi' & Hs & Hr); [| |done]; split_and!; try done.
    + exists l. split; [done|]. by rewrite Hl in *.
    + destruct Hr as [n Hr]. right. exists l, n. left. by split.
Qed.

Lemma buyOrder_spec o w :
  winv w → acceptable o → o_Side o = BUY → book_prices_exact (wbook w) →
  wp (buyOrder o) (λ r w', winv w' ∧ same_rest w w' ∧
    match r with
    | Ok res => new_order_result o (wbook w) (wbook w') res
    | Err _ => new_order_partial o (wbook w) (wbook w')
    | Panic => False
    end) w.
Proof.
  intros Hi [Hc Hside Hp] Hbuy Hx. unfold buyOrder. apply wp_bind, wp_orders.
  eapply wp_mono; [|apply (GetMatchingSellOrders_spec o _ Hi); [apply Hc|done|done]].
  intros [l|e|] s (Hi' & Hb & Hr) w' <- Hs; [| |done].
  - fold (wbook w') in Hb. fold (wbook w) in *.
    eapply wp_mono; [|apply (matched_spec o o l w' Hi' Hc Hc)].
    + intros r w'' (? & ? & Hr'). rewrite Hb in Hr'. split_and!; [done| |exact Hr'].
      by eapply same_rest_trans.
    + rewrite Hb. unfold candidates, priority.
      by rewrite (crosses_buy o _ Hbuy), decide_True.
    + unfold added. rewrite bool_decide_eq_false_2 by (by rewrite Hbuy). by rewrite orb_false_r.
  - split_and!; [done..|]. right. exists [], 0%nat. by right.
Qed.

Lemma sellOrder_spec o w :
  winv w → acceptable o → o_Side o = SELL → book_prices_exact (wbook w) →
  wp (sellOrder o) (λ r w', winv w' ∧ same_rest w w' ∧
    match r with
    | Ok res => new_order_result o (wbook w) (wbook w') res
    | Err _ => new_order_partial o (wbook w) (wbook w')
    | Panic => False
    end) w.
Proof.
  intros Hi [Hc Hside Hp] Hsell Hx. unfold sellOrder. apply wp_bind, wp_orders.
  eapply wp_mono; [|apply (GetMatchingBuyOrders_spec o _ Hi); [apply Hc|done|done]].
  intros [l|e|] s (Hi' & Hb & Hr) w' <- Hs; [| |done].
  - fold (wbook w') in Hb. fold (wbook w) in *.
    eapply wp_mono; [|apply (matched_spec o (set_o_Status "OPEN" o) l w' Hi' Hc)].
    + intros r w'' (? & ? & Hr'). rewrite Hb in Hr'. split_and!; [done| |exact Hr'].
      by eapply same_rest_trans.
    + by apply complete_status.
    + rewrite Hb. unfold candidates, priority.
      rewrite (crosses_sell o _ Hsell), decide_False; [done|]. by rewrite Hsell.
    + unfold added. rewrite bool_decide_eq_true_2 by done. rewrite orb_true_r.
      by case_match.
  - split_and!; [done..|]. right. exists [], 0%nat. by right.
Qed.

Definition wsent w : list (string * json) := sent (w_broker w).

Lemma wp_broker (m : M (Connection B) unit) q j Q w :
  publishes m q j →
  (∀ r w', w_orders w' = w_orders w → w_trades w' = w_trades w →
     match r with Ok _ => wsent w' = wsent w ++ [(q, j)] | _ => wsent w' = wsent w end →
     Q r w') →
  wp (zoom broker_lens m) Q w.
Proof. intros Hm HQ. apply wp_zoom. eapply wp_mono; [|apply Hm]. intros r c Hr. by apply HQ. Qed.

Lemma newOrder_spec o w :
  winv w → acceptable o → book_prices_exact (wbook w) →
  wp (newOrder o) (λ r w', winv w' ∧ w_trades w' = w_trades w ∧
    match r with
    | Ok _ => ∃ res, new_order_result o (wbook w) (wbook w') res ∧
        wsent w' = wsent w ++ [("engineResponse", EngineResponse_json res)]
    | _ => new_order_partial o (wbook w) (wbook w') ∧ wsent w' = wsent w
    end) w.
Proof.
  intros Hi Ha Hx. unfold newOrder. apply wp_bind.
  assert (wp (if decide (o_Side o = "SELL") then sellOrder o
              else if decide (o_Side o = "BUY") then buyOrder o else mret er_empty)
    (λ r w', winv w' ∧ same_rest w w' ∧
    match r with
    | Ok res => new_order_result o (wbook w) (wbook w') res
    | Err _ => new_order_partial o (wbook w) (wbook w')
    | Panic => False
    end) w) as Hside.
  { destruct (acc_side _ Ha) as [Hs|Hs]; rewrite Hs; simpl;
      [by apply buyOrder_spec|by apply sellOrder_spec]. }
  eapply wp_mono; [|exact Hside].
  intros [res|e|] w1 (Hi1 & [Ht Hbr] & Hr); [| |done]; simpl.
  - eapply wp_broker; [apply publish_on_ok|].
    intros r w2 Ho2 Ht2 Hs2. unfold winv, wbook in *. rewrite Ho2.
    split_and!; [done|congruence|]. unfold wsent in *. rewrite Hbr in Hs2.
    destruct r as [[]|e|]; [eauto| |]; (split; [left; eauto|done]).
  - split_and!; [done..|]. unfold wsent. by rewrite Hbr.
Qed.
End engine.

(** ** What the outcome keeps of the orders *)

Lemma complete_updated t o : complete o → complete (set_o_UpdatedAt t o).
Proof. intros []. by constructor. Qed.
Lemma complete_taker d x o : complete o → complete (fill_taker d x o).
Proof. intros Ho. destruct d; apply complete_status; [by apply complete_full|by apply complete_filled]. Qed.
Lemma complete_added o : complete o → complete (added o).
Proof. intros Ho. unfold added. destruct (_ || _); [by apply complete_status|done]. Qed.

Lemma allocate_makers (P : Order → Prop) q rem l :
  (∀ rem m, P m → P (fill_maker rem m)) → Forall P l → Forall (λ ma, P ma.1) (allocate q rem l).
Proof.
  intros Hf. revert q rem. induction l as [|m l IH]; intros q rem; [done|].
  intros [Hm Hl]%Forall_cons. cbn [allocate]. constructor; [by apply Hf|]. case_match; auto.
Qed.
