(* ===== verification/EngineProps.v ===== *)
(** The properties of the matching engine: exact filling, price-time priority,
    the uncrossed book, bounds on the filled amounts, and the behaviours the
    code does not intend (re-run takers, replayed orders). *)
From S2P Require Import Prelude BigMath Types Mongo ListMongo Json Fixtures Orders MatchTypes OrderCodec TradeCodec OrderDao OrderStore OrderDaoRefine TradeDao Rabbit Engine Toy EngineSpec.

(** The amounts of the trades of a response. *)
Definition traded (r : EngineResponse) : list Z :=
  match er_Matches r with
  | None => []
  | Some m => (λ p, match p with Some t => default 0 (t_Amount t) | None => 0 end) <$> Trades m
  end.

Definition book_keyed (bk : book) : Prop := ∀ h o, bk !! h = Some o → o_Hash o = h.

Definition makers_in (r : EngineResponse) : list Order :=
  match er_Matches r with None => [] | Some m => omap id (MakerOrders m) end.
Definition trades_in (r : EngineResponse) : list Trade :=
  match er_Matches r with None => [] | Some m => omap id (Trades m) end.

Lemma orders_of_elem bk o : book_keyed bk → o ∈ orders_of bk ↔ bk !! o_Hash o = Some o.
Proof.
  intros Hk. unfold orders_of. rewrite list_elem_of_fmap. split.
  - intros ([h o'] & -> & Ho%elem_of_map_to_list). simpl. by rewrite (Hk h o' Ho).
  - intros Ho. exists (o_Hash o, o). split; [done|]. by apply elem_of_map_to_list.
Qed.

Lemma orders_of_nodup bk : book_keyed bk → NoDup (o_Hash <$> orders_of bk).
Proof.
  intros Hk. unfold orders_of. rewrite <-list_fmap_compose.
  rewrite (list_fmap_ext _ fst); [apply NoDup_fst_map_to_list|].
  intros i [h o] Hi. simpl. apply Hk, elem_of_map_to_list, list_elem_of_lookup. by exists i.
Qed.

Lemma filter_nodup (P : Order → Prop) `{∀ o, Decision (P o)} os :
  NoDup (o_Hash <$> os) → NoDup (o_Hash <$> base.filter P os).
Proof.
  induction os as [|o os IH]; [done|]. rewrite fmap_cons, NoDup_cons, filter_cons.
  intros [Hni Hn]. case_decide; [|by apply IH]. rewrite fmap_cons, NoDup_cons.
  split; [|by apply IH]. rewrite !list_elem_of_fmap in *.
  intros (o' & ? & Ho'%list_elem_of_filter). naive_solver.
Qed.

Lemma candidates_elem bk o l m :
  book_keyed bk → candidates bk o l → m ∈ l ↔ crosses o m ∧ bk !! o_Hash m = Some m.
Proof. intros Hk [Hp _]. by rewrite Hp, list_elem_of_filter, orders_of_elem. Qed.

Lemma candidates_nodup bk o l :
  book_keyed bk → candidates bk o l → NoDup (o_Hash <$> l).
Proof. intros Hk [Hp _]. rewrite Hp. by apply filter_nodup, orders_of_nodup. Qed.

Lemma candidates_ok bk o l :
  book_keyed bk → book_ok bk → candidates bk o l → Forall order_ok l.
Proof.
  intros Hk Hok Hc. apply Forall_forall. intros m Hm.
  apply (candidates_elem bk o l m Hk Hc) in Hm as [_ Hm]. by apply (Hok _ _ Hm).
Qed.

Lemma executed_traded `{EthCommon} o l bk bk' r :
  executed o l bk bk' r → traded r = (allocate (amount o) (remaining o) l).*2.
Proof.
  intros (t & new & -> & Hf & _). unfold traded. simpl.
  rewrite <-list_fmap_compose. induction Hf as [|[m tr] [m' a] new al [_ Hm] Hf IH]; [done|].
  rewrite !fmap_cons, IH. simpl in *. by rewrite Hm.
Qed.

Lemma omap_Some_fmap {A C} (f : A → C) (l : list A) : omap id ((Some ∘ f) <$> l) = f <$> l.
Proof. induction l as [|x l IH]; [done|]. rewrite !fmap_cons. simpl. by rewrite <-IH. Qed.

Lemma executed_matches `{EthCommon} o l bk bk' r :
  executed o l bk bk' r → ∃ ms, makers_in r = ms.*1 ∧ trades_in r = ms.*2 ∧
    Forall2 (match_of o) ms (allocate (amount o) (remaining o) l).
Proof.
  intros (t & ms & -> & Hf & _). exists ms. unfold makers_in, trades_in. simpl.
  by rewrite !omap_Some_fmap.
Qed.

Lemma executed_status `{EthCommon} o l bk bk' r :
  executed o l bk bk' r →
  er_Status r = (if exhausted (amount o) (remaining o) l
                 then "ORDER_FILLED" else "ORDER_PARTIALLY_FILLED").
Proof. by intros (t & new & -> & _). Qed.

(** What is stored of the taker and of the makers. *)
Lemma stored_nodup o l q rem after :
  o_Hash after = o_Hash o → NoDup (o_Hash <$> l) → o_Hash o ∉ o_Hash <$> l →
  NoDup (o_Hash <$> ((allocate q rem l).*1 ++ [after])).
Proof.
  intros Ha Hn Hni. rewrite fmap_app, <-list_fmap_compose. simpl. rewrite Ha.
  pose proof (allocate_prefix q rem l) as [k Hk].
  rewrite Hk in Hn, Hni. apply NoDup_app in Hn as (Hn & _ & _).
  rewrite not_elem_of_app in Hni. destruct Hni as [Hni _]. apply NoDup_app.
  split; [done|]. split; [|apply NoDup_singleton].
  intros h Hh ->%list_elem_of_singleton. contradiction.
Qed.

Lemma fill_taker_hash d x o : o_Hash (fill_taker d x o) = o_Hash o.
Proof. unfold fill_taker. by case_match. Qed.

(** Every maker but the last one is left filled: a worse candidate is touched
    only when the better ones have nothing left. *)
Lemma allocate_front q l i ma :
  0 < q → Forall order_ok l → (S i < length (allocate q q l))%nat →
  allocate q q l !! i = Some ma → o_Status ma.1 = "FILLED" ∧ filled ma.1 = amount ma.1.
Proof.
  revert q i. induction l as [|m l IH]; intros q i Hq Hl; [done|].
  apply Forall_cons in Hl as [Hm Hl]. pose proof (remaining_nonneg m Hm).
  cbn [allocate]. destruct (Z.eqb_spec (q - Z.min (remaining m) q) 0); simpl; [lia|].
  destruct i as [|i]; simpl; [|intros ?; apply IH; [lia|done|lia]].
  intros _ [= <-]. destruct (fill_maker_amounts q m) as [Hf Ha]. split.
  - unfold fill_maker. simpl. destruct (Z.ltb_spec q (remaining m)); [lia|done].
  - simpl. rewrite Hf, Ha. unfold remaining in *. lia.
Qed.

(** A taker the loop does not exhaust takes all that every candidate has. *)
Lemma allocate_all q l :
  0 < q → Forall order_ok l → exhausted q q l = false →
  o_Hash ∘ fst <$> allocate q q l = o_Hash <$> l ∧
  Forall (λ ma, o_Status ma.1 = "FILLED") (allocate q q l).
Proof.
  revert q. induction l as [|m l IH]; intros q Hq Hl; [done|].
  apply Forall_cons in Hl as [Hm Hl]. pose proof (remaining_nonneg m Hm).
  cbn [allocate exhausted].
  destruct (Z.eqb_spec (q - Z.min (remaining m) q) 0); simpl; [done|].
  intros Hex. destruct (IH (q - Z.min (remaining m) q)) as [IH1 HF]; [lia|done..|].
  split; [by f_equal|]. constructor; [|done].
  unfold fill_maker. simpl. destruct (Z.ltb_spec q (remaining m)); [lia|done].
Qed.

Lemma allocate_elem q rem l ma :
  ma ∈ allocate q rem l → ∃ m rem', m ∈ l ∧ ma.1 = fill_maker rem' m.
Proof.
  revert q rem. induction l as [|m l IH]; intros q rem; simpl; [by intros ?%elem_of_nil|].
  rewrite elem_of_cons. intros [->|Hin].
  - exists m, rem. split; [by left|done].
  - case_match; [by apply elem_of_nil in Hin|].
    destruct (IH _ _ Hin) as (m' & rem' & ? & ?). exists m', rem'. split; [by right|done].
Qed.

Lemma saved_all_inv bk bk' l h u :
  saved_all bk bk' l → NoDup (o_Hash <$> l) → bk' !! h = Some u →
  (∃ o, o ∈ l ∧ o_Hash o = h ∧ same_content o u) ∨
  (h ∉ o_Hash <$> l ∧ bk !! h = Some u).
Proof.
  intros Hs Hn Hu. destruct (decide (h ∈ o_Hash <$> l)) as [Hin|Hni].
  - left. apply list_elem_of_fmap in Hin as (o & -> & Hin). exists o.
    destruct (saved_all_lookup _ _ _ o Hs Hn Hin) as (u' & Hu' & Hc & _).
    by simplify_eq.
  - right. split; [done|]. by rewrite <-(saved_all_ne _ _ _ _ Hs Hni).
Qed.

(** Two orders a trader sees as the same offer. *)
Definition same_offer (a b : Order) : Prop :=
  o_Side a = o_Side b ∧ same_pair a b ∧ o_PricePoint a = o_PricePoint b.

(** The book holds no pair of orders that could trade. *)
Definition uncrossed (bk : book) : Prop := ∀ h h' a b,
  bk !! h = Some a → bk !! h' = Some b → is_open a → o_Side a = BUY → ¬ matches_sell a b.

Lemma uncrossed_step bk bk' o :
  (∀ h u, bk' !! h = Some u → is_open u →
     (∃ u0, bk !! h = Some u0 ∧ is_open u0 ∧ same_offer u0 u) ∨
     (same_offer o u ∧ ∀ h' m, bk' !! h' = Some m → is_open m → ¬ crosses o m)) →
  uncrossed bk → uncrossed bk'.
Proof.
  intros Hstep Hun h h' a b Ha Hb Hao Hside (Hbo & Hpair & Hsell & Hp).
  destruct (Hstep h a Ha Hao) as [(a0 & Ha0 & Hao0 & Ea1 & Ea2 & Ea3)|[(Ea1 & Ea2 & Ea3) Hno]].
  - destruct (Hstep h' b Hb Hbo) as [(b0 & Hb0 & Hbo0 & Eb1 & Eb2 & Eb3)|[(Eb1 & Eb2 & Eb3) Hno]].
    + apply (Hun h h' a0 b0 Ha0 Hb0 Hao0); [congruence|].
      unfold matches_sell, same_pair, price in *. rewrite Ea3, Eb3.
      destruct_and!; split_and!; first [done|congruence].
    + apply (Hno h a Ha Hao). unfold crosses. rewrite decide_False by (by rewrite Eb1, Hsell).
      unfold matches_buy, same_pair, price in *. rewrite Eb3.
      destruct_and!; split_and!; first [done|congruence].
  - apply (Hno h' b Hb Hbo). unfold crosses. rewrite decide_True by congruence.
    unfold matches_sell, same_pair, price in *. rewrite Ea3.
    destruct_and!; split_and!; first [done|congruence].
Qed.

Lemma crosses_offer o m0 m : is_open m0 → same_offer m0 m → crosses o m → crosses o m0.
Proof.
  intros Hopen (E1 & [E2 E3] & E4). unfold crosses, matches_sell, matches_buy, same_pair, price.
  rewrite E1, E2, E3, E4. case_decide; naive_solver.
Qed.

Lemma not_crosses_self o m : same_offer o m → ¬ crosses o m.
Proof.
  intros [Hs _]. unfold crosses, matches_sell, matches_buy. rewrite <-Hs.
  case_decide as Hb; [rewrite Hb|]; by intros (_ & _ & ? & _).
Qed.

(** Validation reads every field but the filled amount. *)
Lemma Validate_any_filled `{EthCommon, AppConfig} f o :
  (Validate (set_o_FilledAmount f o)).1 = (Validate o).1.
Proof.
  unfold Validate, VerifySignature, mbind, M_bind, get, lift, modify.
  change (Validate_fields (set_o_FilledAmount f o)) with (Validate_fields o).
  change (Order_ComputeHash (set_o_FilledAmount f o)) with (Order_ComputeHash o).
  change (o_Signature (set_o_FilledAmount f o)) with (o_Signature o).
  change (o_UserAddress (set_o_FilledAmount f o)) with (o_UserAddress o).
  destruct (Validate_fields o); [|done..]. destruct (Order_ComputeHash o); [|done..].
  destruct (deref (o_Signature o)); [|done..]. destruct (Sig.Verify _ _); [|done..].
  by destruct (reject_if (bool_decide _) _).
Qed.

Section properties.
Context {OS TS B : Type} `{OrderDaoSpec OS, ITradeDao TS, AmqpLaws B}.
Context `{EthCommon, Codecs, Big.Undefined, Sprint}.
#[local] Abbreviation World := (World OS TS B).
Implicit Types w : World.

Lemma wbook_keyed w : winv w → book_keyed (wbook w).
Proof. intros Hi h o Ho. by apply (book_complete _ _ _ Hi) in Ho as [_ ?]. Qed.

Lemma newOrder_run o w r w' :
  winv w → acceptable o → book_prices_exact (wbook w) → newOrder o w = (r, w') →
  winv w' ∧ w_trades w' = w_trades w ∧
  match r with
  | Ok _ => ∃ res, new_order_result o (wbook w) (wbook w') res ∧
      wsent w' = wsent w ++ [("engineResponse", EngineResponse_json res)]
  | _ => new_order_partial o (wbook w) (wbook w') ∧ wsent w' = wsent w
  end.
Proof.
  intros Hi Ha Hx Hrun. pose proof (newOrder_spec o w Hi Ha Hx) as Hs.
  apply (wp_run _ _ _ _ _ Hrun Hs).
Qed.

(** An order the book has never seen, to be run on a well-formed book. *)
Record fresh (o : Order) w : Prop := {
  fr_inv : winv w;
  fr_acceptable : acceptable o;
  fr_exact : book_prices_exact (wbook w);
  fr_ok : book_ok (wbook w);
  fr_filled : filled o = 0;
  fr_amount : 0 < amount o;
  fr_new : wbook w !! o_Hash o = None
}.

(** C1: a fresh order trades exactly what the book offers at its price, up to
    its amount: the trades it is answered with sum up to the smaller of its
    amount and the candidates' supply, it is reported (and stored as) filled
    exactly when the supply suffices, and without candidates it is only added. *)
Theorem newOrder_fills_exactly o w w' :
  fresh o w →
  newOrder o w = (Ok tt, w') →
  ∃ l res, candidates (wbook w) o l ∧
    wsent w' = wsent w ++ [("engineResponse", EngineResponse_json res)] ∧
    (l = [] → er_Status res = "ORDER_ADDED" ∧ traded res = []) ∧
    (l ≠ [] → sumZ (traded res) = Z.min (amount o) (supply l) ∧
      er_Status res = (if amount o <=? supply l then "ORDER_FILLED"
                       else "ORDER_PARTIALLY_FILLED") ∧
      ∃ u, wbook w' !! o_Hash o = Some u ∧ filled u = Z.min (amount o) (supply l) ∧
           o_Status u = (if amount o <=? supply l then "FILLED" else "PARTIAL_FILLED")).
Proof.
  intros [Hi Ha Hx Hok Hf Hpos Hnew] Hrun.
  destruct (newOrder_run o w _ w' Hi Ha Hx Hrun) as (_ & _ & res & (l & Hc & Hl) & Hsent).
  exists l, res. split_and!; [done|done|..].
  - intros ->. destruct Hl as [[t ->] _]. done.
  - intros Hne. assert (executed o l (wbook w) (wbook w') res) as Hex by (by destruct l).
    clear Hl. pose proof (wbook_keyed w Hi) as Hk.
    pose proof (candidates_ok _ _ _ Hk Hok Hc) as Hlok.
    assert (remaining o = amount o) as Hrem by (unfold remaining; lia).
    destruct (allocate_fresh (amount o) l Hpos Hlok) as [Htot Hexh].
    rewrite (executed_traded _ _ _ _ _ Hex), (executed_status _ _ _ _ _ Hex), Hrem, Hexh.
    split_and!; [exact Htot|done|].
    destruct Hex as (t & new & _ & _ & Hsv). rewrite Hrem, Hexh in Hsv.
    set (after := fill_taker _ _ o) in Hsv.
    assert (o_Hash after = o_Hash o) as Hah by apply fill_taker_hash.
    destruct (saved_all_lookup _ _ _ after Hsv) as (u & Hu & Huc & _).
    + apply (stored_nodup o); [done|by eapply candidates_nodup|].
      rewrite list_elem_of_fmap. intros (m & Hm & Hin).
      apply (candidates_elem _ _ _ m Hk Hc) in Hin as [_ Hin]. rewrite <-Hm, Hnew in Hin. done.
    + apply elem_of_app. right. by left.
    + exists u. rewrite <-Hah. split; [done|]. rewrite Huc. clear Huc Hu Hah Hsv.
      unfold after, fill_taker, filled. simpl.
      destruct (Z.leb_spec (amount o) (supply l)); simpl; split; try done.
      * rewrite Z.min_l by lia. unfold amount in *. by destruct (o_Amount o).
      * rewrite Htot. unfold filled in Hf. lia.
Qed.

(** The hashes a run stores are distinct. *)
Lemma executed_nodup w o l d x :
  winv w → candidates (wbook w) o l → wbook w !! o_Hash o = None →
  NoDup (o_Hash <$> ((allocate (amount o) (remaining o) l).*1 ++ [fill_taker d x o])).
Proof.
  intros Hi Hc Hnew. pose proof (wbook_keyed w Hi) as Hk.
  apply (stored_nodup o); [apply fill_taker_hash|by eapply candidates_nodup|].
  rewrite list_elem_of_fmap. intros (m & Hm & Hin).
  apply (candidates_elem _ _ _ m Hk Hc) in Hin as [_ Hin]. congruence.
Qed.

(** An open order of the book after a fresh taker was executed was there
    before, with the same offer, or is the taker, left with an amount. *)
Lemma executed_open w o l bk' res h u :
  winv w → candidates (wbook w) o l → wbook w !! o_Hash o = None →
  executed o l (wbook w) bk' res → bk' !! h = Some u → is_open u →
  (∃ u0, wbook w !! h = Some u0 ∧ is_open u0 ∧ same_offer u0 u) ∨
  (same_offer o u ∧ exhausted (amount o) (remaining o) l = false).
Proof.
  intros Hi Hc Hnew (t & new & _ & _ & Hsv) Hu Hopen.
  pose proof (wbook_keyed w Hi) as Hk.
  destruct (saved_all_inv _ _ _ h u Hsv) as [(x & Hx & <- & Hsc)|[_ Hold]];
    [by eapply executed_nodup|done| |].
  - apply elem_of_app in Hx as [Hx| ->%list_elem_of_singleton].
    + left. apply list_elem_of_fmap in Hx as (ma & -> & Hma).
      destruct (allocate_elem _ _ _ _ Hma) as (m & rem' & Hm & Hfm).
      apply (candidates_elem _ _ _ m Hk Hc) in Hm as [Hcr Hm].
      exists m. rewrite Hfm. split; [done|]. rewrite Hsc, Hfm. split; [|done].
      unfold crosses, matches_sell, matches_buy in Hcr. by case_decide; destruct Hcr.
    + right. unfold fill_taker in Hsc. rewrite Hsc in Hopen |- *.
      destruct (exhausted _ _ l); [|done]. destruct Hopen; discriminate.
  - left. by exists u.
Qed.

(** A taker that is left open leaves no order it could trade with. *)
Lemma executed_exhausts w o l bk' res h m :
  winv w → candidates (wbook w) o l → book_ok (wbook w) → wbook w !! o_Hash o = None →
  filled o = 0 → 0 < amount o →
  executed o l (wbook w) bk' res → exhausted (amount o) (remaining o) l = false →
  bk' !! h = Some m → is_open m → ¬ crosses o m.
Proof.
  intros Hi Hc Hok Hnew Hf Hpos Hex Hno Hm Hopen Hcr.
  pose proof (wbook_keyed w Hi) as Hk.
  destruct (executed_open w o l bk' res h m Hi Hc Hnew Hex Hm Hopen)
    as [(m0 & Hm0 & Ho0 & Hsame)|[Hsame _]]; [|by eapply not_crosses_self].
  assert (m0 ∈ l) as Hin.
  { apply (candidates_elem _ _ _ m0 Hk Hc). split; [by eapply crosses_offer|].
    by rewrite (Hk _ _ Hm0). }
  assert (remaining o = amount o) as Hrem by (unfold remaining; lia).
  destruct (allocate_all (amount o) l) as [Hhs HF]; [done| |by rewrite <-Hrem at 2|].
  { by eapply candidates_ok. }
  assert (o_Hash m0 ∈ o_Hash ∘ fst <$> allocate (amount o) (amount o) l) as Hma.
  { rewrite Hhs. apply list_elem_of_fmap. by exists m0. }
  apply list_elem_of_fmap in Hma as (ma & Hh & Hma).
  destruct Hex as (t & new & _ & _ & Hsv).
  destruct (saved_all_lookup _ _ _ ma.1 Hsv) as (u & Hu & Huc & _).
  - by eapply executed_nodup.
  - rewrite Hrem. apply elem_of_app. left. apply list_elem_of_fmap. by exists ma.
  - simpl in Hh. rewrite <-Hh, (Hk _ _ Hm0), Hm in Hu. injection Hu as <-.
    rewrite Forall_forall in HF. specialize (HF ma Hma).
    rewrite Huc in Hopen. destruct Hopen as [Ho|Ho]; simpl in Ho; congruence.
Qed.


Lemma is_unfilled_false o : filled o ≠ 0 → is_unfilled o = false.
Proof.
  unfold is_unfilled, filled. destruct (o_FilledAmount o) as [f|]; simpl; [|done].
  rewrite IsZero_spec. apply Z.eqb_neq.
Qed.

(** An order whose hash the book has on the same side is stored once. *)
Lemma rerun_nodup o l w q rem b tr :
  winv w → candidates (wbook w) o l →
  (∀ m, wbook w !! o_Hash o = Some m → o_Side m = o_Side o) →
  NoDup (o_Hash <$> (allocate q rem l).*1 ++ [fill_taker b tr o]).
Proof.
  intros Hi Hc Hown. pose proof (wbook_keyed w Hi) as Hk.
  apply (stored_nodup o); [apply fill_taker_hash|by eapply candidates_nodup|].
  rewrite list_elem_of_fmap. intros (m & Hm & Hin).
  apply (candidates_elem _ _ _ m Hk Hc) in Hin as [Hcr Hin]. rewrite <-Hm in Hin.
  specialize (Hown m Hin). unfold crosses, matches_sell, matches_buy in Hcr.
  case_decide as Hb; destruct Hcr as (_ & _ & Hs & _); [|congruence].
  rewrite Hown, Hb in Hs. done.
Qed.

(** C25: an order that was filled in part before and finds candidates is matched
    against every one of them: each gets a trade of what it has left or of what is left
    of the order after the ones before it, whichever is less, so of zero once the order
    is complete; and the order is reported and stored as partially filled even when
    nothing of it is left.  Without a candidate it is reported as added and its filled
    amount stays; if that is stored, it is as OPEN for a sell order and under the status
    it came with for a buy order. *)
Theorem newOrder_rerun_partial o w w' :
  winv w → acceptable o → book_prices_exact (wbook w) → book_ok (wbook w) →
  0 < filled o ≤ amount o →
  (∀ m, wbook w !! o_Hash o = Some m → o_Side m = o_Side o) →
  newOrder o w = (Ok tt, w') →
  ∃ l res, candidates (wbook w) o l ∧
    wsent w' = wsent w ++ [("engineResponse", EngineResponse_json res)] ∧
    (l ≠ [] → er_Status res = "ORDER_PARTIALLY_FILLED" ∧
       length (traded res) = length l ∧
       (∀ i m, l !! i = Some m → traded res !! i =
          Some (Z.min (remaining m) (remaining o - sumZ (take i (traded res))))) ∧
       (∀ i, (i < length l)%nat → sumZ (take i (traded res)) = remaining o → traded res !! i = Some 0) ∧
       sumZ (traded res) = Z.min (remaining o) (supply l) ∧
       ∃ u, wbook w' !! o_Hash o = Some u ∧ o_Status u = "PARTIAL_FILLED" ∧
         filled u = filled o + Z.min (remaining o) (supply l)) ∧
    (l = [] → er_Status res = "ORDER_ADDED" ∧ traded res = [] ∧
       (wbook w' = wbook w ∨ ∃ u, wbook w' = <[o_Hash o := u]> (wbook w) ∧ filled u = filled o ∧
          o_Status u = if decide (o_Side o = "SELL") then "OPEN" else o_Status o)).
Proof.
  intros Hi Ha Hx Hok Hf Hown Hrun.
  destruct (newOrder_run o w _ w' Hi Ha Hx Hrun) as (_ & _ & res & (l & Hc & Hl) & Hsent).
  exists l, res. split; [done|]. split; [done|]. split.
  2: { intros ->. destruct Hl as [[t ->] Hb]. split; [done|]. split; [done|].
       destruct Hb as [Hb|(u & [Hu _] & Hb)]; [by left|right]. exists u.
       assert (added o = if decide (o_Side o = "SELL") then set_o_Status "OPEN" o else o) as Had.
       { unfold added. rewrite (is_unfilled_false o) by lia. simpl.
         unfold SELL. by case_bool_decide; case_decide. }
       rewrite Had in Hu, Hb. case_decide; (split; [exact Hb|by rewrite Hu]). }
  intros Hne.
  assert (executed o l (wbook w) (wbook w') res) as Hex by (by destruct l). clear Hl.
  pose proof (wbook_keyed w Hi) as Hk. pose proof (candidates_ok _ _ _ Hk Hok Hc) as Hlok.
  assert (0 ≤ remaining o < amount o) as Hr by (unfold remaining; lia).
  destruct (allocate_rerun (amount o) (remaining o) l Hr Hlok) as (He & Hlen & Htot).
  pose proof (λ i m, allocate_rerun_each _ _ l i m Hr Hlok) as Heach.
  rewrite (executed_traded _ _ _ _ _ Hex), (executed_status _ _ _ _ _ Hex), He.
  split; [done|]. split; [by rewrite length_fmap|]. split; [exact Heach|]. split; [|split; [exact Htot|]].
  { intros i Hil Hz. apply lookup_lt_is_Some_2 in Hil as [m Hm]. rewrite (Heach i m Hm), Hz. f_equal.
    assert (order_ok m) as Hmok by (by eapply Forall_lookup_1). pose proof (remaining_nonneg m Hmok). lia. }
  destruct Hex as (t & new & _ & _ & Hsv). rewrite He, Htot in Hsv.
  destruct (saved_all_lookup _ _ _ (fill_taker false (Z.min (remaining o) (supply l)) o) Hsv)
    as (u & Hu & Huc & _).
  - by apply (rerun_nodup o l w).
  - apply elem_of_app. right. by left.
  - exists u. split; [exact Hu|]. rewrite Huc. done.
Qed.

(** C5: running a fresh order keeps the book uncrossed: if no two open orders
    of the book could trade before, none can after the order was executed or
    added. *)
Theorem newOrder_uncrossed o w w' :
  fresh o w →
  uncrossed (wbook w) → newOrder o w = (Ok tt, w') → uncrossed (wbook w').
Proof.
  intros [Hi Ha Hx Hok Hf Hpos Hnew] Hun Hrun.
  destruct (newOrder_run o w _ w' Hi Ha Hx Hrun) as (_ & _ & res & (l & Hc & Hl) & _).
  pose proof (wbook_keyed w Hi) as Hk. apply (uncrossed_step (wbook w) _ o); [|done].
  intros h u Hu Hopen. destruct l as [|m l'].
  - assert (∀ h u, wbook w' !! h = Some u → is_open u →
      (∃ u0, wbook w !! h = Some u0 ∧ is_open u0 ∧ same_offer u0 u) ∨ same_offer o u) as Hold.
    { clear h u Hu Hopen. intros h u Hu Hopen.
      destruct Hl as [_ [Hl|(v & [Hv _] & Hl)]]; rewrite Hl in Hu; [left; by exists u|].
      apply lookup_insert_Some in Hu as [[_ <-]|[_ Hu]]; [right|left; by exists u].
      rewrite Hv. unfold added. by case_match. }
    destruct (Hold h u Hu Hopen) as [?|Hs]; [by left|right]. split; [done|].
    intros h' m Hm Hmo Hcr.
    destruct (Hold h' m Hm Hmo) as [(m0 & Hm0 & Ho0 & Hsame)|?]; [|by eapply not_crosses_self].
    apply (not_elem_of_nil m0), (candidates_elem _ _ _ m0 Hk Hc).
    split; [by eapply crosses_offer|]. by rewrite (Hk _ _ Hm0).
  - destruct (executed_open w o _ _ res h u Hi Hc Hnew Hl Hu Hopen) as [?|[? ?]]; [by left|].
    right. split; [done|]. intros h' x ??. by eapply executed_exhausts.
Qed.

(** C6: whatever the outcome of running an order, a success, an error of the
    database or of the broker or a panic, every stored order keeps a filled
    amount between zero and its amount, and the trades are untouched. *)
Theorem newOrder_keeps_bounds o w r w' :
  winv w → acceptable o → book_prices_exact (wbook w) → book_ok (wbook w) →
  order_ok o → newOrder o w = (r, w') → book_ok (wbook w') ∧ w_trades w' = w_trades w.
Proof.
  intros Hi Ha Hx Hok Ho Hrun. pose proof (wbook_keyed w Hi) as Hk.
  destruct (newOrder_run o w r w' Hi Ha Hx Hrun) as (_ & Ht & Hr). split; [|done]. clear Hrun.
  assert (new_order_partial o (wbook w) (wbook w')) as Hp.
  { destruct r as [[]|e|]; [|by destruct Hr..]. destruct Hr as (res & Hr & _). left. by exists res. }
  clear Hr r.
  assert (∀ l n, candidates (wbook w) o l → saved_all (wbook w) (wbook w')
      (take n ((allocate (amount o) (remaining o) l).*1 ++
       [fill_taker (exhausted (amount o) (remaining o) l)
          (total (allocate (amount o) (remaining o) l)) o])) → book_ok (wbook w')) as Htake.
  { intros l n Hc Hsv. eapply saved_all_ok; [exact Hsv| |done]. apply Forall_take, Forall_app.
    pose proof (candidates_ok _ _ _ Hk Hok Hc) as Hl. pose proof (remaining_nonneg o Ho) as Hrem.
    split.
    - apply Forall_fmap. eapply Forall_impl; [by apply allocate_ok|]. by intros ma [? _].
    - constructor; [|constructor].
      pose proof (allocate_le (amount o) (remaining o) l Hrem Hl) as Hle.
      unfold remaining, order_ok in *. unfold fill_taker. case_match; unfold filled, amount; simpl;
        unfold filled, amount in *; lia. }
  destruct Hp as [(res & l & Hc & Hl)|(l & n & [[Hc Hsv]|Heq])].
  - destruct l as [|m l'].
    + destruct Hl as [_ [->|(u & [Hu _] & ->)]]; [done|].
      apply map_Forall_insert_2; [|done]. apply (same_content_ok (added o)); [done|].
      unfold added. by case_match.
    + destruct Hl as (t & ms & _ & _ & Hsv).
      eapply (Htake _ (length _) Hc). rewrite take_ge by done. exact Hsv.
  - by eapply Htake.
  - by rewrite Heq.
Qed.
(** ** Cancelling and invalidating *)

(** C27: cancelling an order marks the stored order cancelled, changes nothing
    else of the book, and answers with the order; a failed cancellation answers
    nothing. *)
Theorem cancelOrder_effect o w r w' :
  winv w → cancelOrder o w = (r, w') →
  winv w' ∧ w_trades w' = w_trades w ∧
  match r with
  | Ok _ =>
    (∃ m, wbook w !! o_Hash o = Some m ∧
          wbook w' = <[o_Hash o := set_o_Status "CANCELLED" m]> (wbook w)) ∧
    wsent w' = wsent w ++ [("engineResponse", EngineResponse_json
      (response "ORDER_CANCELLED" (set_o_Status "CANCELLED" o) None))]
  | _ =>
    (wbook w' = wbook w ∨ ∃ m, wbook w !! o_Hash o = Some m ∧
       wbook w' = <[o_Hash o := set_o_Status "CANCELLED" m]> (wbook w)) ∧
    wsent w' = wsent w
  end.
Proof.
  intros Hi Hrun. by_wp Hrun. unfold cancelOrder. apply wp_bind, wp_orders.
  eapply wp_mono; [|apply (UpdateOrderStatus_spec (o_Hash o) "CANCELLED" _ Hi)].
  intros [[]|e|] s [Hi' Hr] w1 <- [Ht Hb]; [| |done]; simpl.
  - eapply wp_broker; [apply publish_on_ok|]. intros r2 w2 Ho2 Ht2 Hs2.
    unfold winv, wbook in *. rewrite Ho2. split_and!; [done|congruence|].
    unfold wsent in *. rewrite Hb in Hs2. destruct r2; [by split|..]; (split; [by right|done]).
  - split_and!; [done..| |unfold wsent; by rewrite Hb].
    destruct Hr as [?|[[] Hr]]; [by left|by right].
Qed.

(** The orders that are published again; a failure is logged. *)
Definition again (os : list Order) : list (string * json) :=
  (λ o, ("order", Message "NEW_ORDER" (Order_MarshalJSON o))) <$> os.
Lemma republish_spec os w :
  wp (mforeach republish os) (λ r w', w_orders w' = w_orders w ∧ w_trades w' = w_trades w ∧
    ∃ l, l `sublist_of` again os ∧ wsent w' = wsent w ++ l) w.
Proof.
  revert w. induction os as [|o os IH]; intros w.
  { apply wp_ret. split_and!; [done..|]. exists []. by rewrite app_nil_r. }
  cbn [mforeach]. apply wp_bind, wp_log_error.
  eapply wp_broker; [apply publish_on_ok|]. intros r w1 Ho Ht Hs.
  assert (∃ l1, l1 `sublist_of` again [o] ∧ wsent w1 = wsent w ++ l1) as (l1 & Hl1 & Hs1).
  { destruct r as [[]|e|]; [by eexists|exists []; rewrite app_nil_r; split; [by apply sublist_nil_l|done]..]. }
  assert (∀ l2 w2, l2 `sublist_of` again os → wsent w2 = wsent w1 ++ l2 →
    ∃ l, l `sublist_of` again (o :: os) ∧ wsent w2 = wsent w ++ l) as Hcons.
  { intros l2 w2 Hl2 ->. exists (l1 ++ l2). rewrite Hs1, (assoc_L (++)). split; [|done].
    by apply (sublist_app l1 (again [o])). }
  destruct r as [[]|e|].
  1,2: cbn; eapply wp_mono; [|apply IH]; intros r w2 (Ho2 & Ht2 & l2 & Hl2 & Hs2);
    split_and!; [congruence..|]; by eapply Hcons.
  cbn. split_and!; [done..|]. apply (Hcons []); [apply sublist_nil_l|by rewrite app_nil_r].
Qed.

Lemma wp_trades {A} (m : M TS A) Q w :
  wp m (λ r s, ∀ w', w_trades w' = s → w_orders w' = w_orders w → w_broker w' = w_broker w →
    Q r w') (w_trades w) →
  wp (zoom trades_lens m) Q w.
Proof. intros Hm. apply wp_zoom. eapply wp_mono; [|exact Hm]. intros r s Hs. by apply Hs. Qed.

Lemma hashes_at_ok (f : Trade → Hash) n ts :
  (n ≤ length ts)%nat → hashes_at f n (Some <$> ts) = Ok (f <$> take n ts).
Proof.
  revert ts. induction n as [|n IH]; intros [|t ts] Hn; simpl in *; [done..|lia|].
  by rewrite IH by lia.
Qed.

Lemma trade_amounts_ok ts : trade_amounts (Some <$> ts) = Ok (t_Amount <$> ts).
Proof. induction ts as [|t ts IH]; [done|]. rewrite fmap_cons. cbn. by rewrite IH. Qed.

(** The amounts given back to the orders with these hashes, as the database
    lists them; [us] are the orders after that. *)
Definition refilled (bk : book) (hs : list Hash) (amounts : list (option Z)) (us : list Order)
    (bk' : book) : Prop :=
  ∃ os, os ≡ₚ base.filter (λ o, o_Hash o ∈ hs) (orders_of bk) ∧
    refill_all os amounts = Some us ∧ bk' = insert_orders us bk.
(** The orders with these hashes marked, and answered when they can be read back.  The
    dao swallows a failure of the database: then it answers none, and may have marked
    none. *)
Definition invalidated (bk : book) (hs : list Hash) (ios : list Order) (bk' : book) : Prop :=
  (orders_marked OS → ∃ t, bk' = mark t "INVALIDATED" hs bk) ∧
  (bk' = bk ∧ ios = [] ∨
   (∃ t, bk' = mark t "INVALIDATED" hs bk) ∧
   (ios = [] ∨ ios ≡ₚ base.filter (λ o, o_Hash o ∈ hs) (orders_of bk'))).
Definition cancelled `{!TradeDaoSpec TS} (hs : list Hash) (cts : list Trade) (s s' : TS) : Prop :=
  let marked := ∃ t, trades s' ≡ₚ mark_trades (λ x, t_MakerOrderHash x ∈ hs) "CANCELLED" t (trades s) in
  (trades_marked TS → marked) ∧ (trades s' = trades s ∧ cts = [] ∨ marked).

Lemma invalidate_orders_spec hs w : winv w →
  wp (zoom orders_lens (od_UpdateOrderStatusesByHashes "INVALIDATED" hs)) (λ r w',
    match r with
    | Ok ios => winv w' ∧ w_trades w' = w_trades w ∧ wsent w' = wsent w ∧
        invalidated (wbook w) hs ios (wbook w')
    | _ => True
    end) w.
Proof.
  intros Hi. apply wp_orders.
  eapply wp_mono; [|apply (wp_and _ _ _ _ (UpdateOrderStatusesByHashes_spec "INVALIDATED" hs _ Hi) (wp_self _ _))].
  intros [ios|e|] s [[Hi' Hr] [_ Hself]] w' E [Ht Hb]; [|done..].
  unfold winv, wbook, wsent. rewrite E, Hb. split_and!; [done..|].
  split; [|exact Hr]. intros Hm. rewrite Hself. exact (Hm "INVALIDATED" hs _ Hi).
Qed.
Lemma cancel_trades_spec `{!TradeDaoSpec TS} hs w : td_inv (w_trades w) →
  wp (zoom trades_lens (td_UpdateTradeStatusesByOrderHashes "CANCELLED" hs)) (λ r w',
    ∃ cts, r = Ok cts ∧ td_inv (w_trades w') ∧ w_orders w' = w_orders w ∧ wsent w' = wsent w ∧
      cancelled hs cts (w_trades w) (w_trades w')) w.
Proof.
  intros Hi. apply wp_trades.
  eapply wp_mono; [|apply (wp_and _ _ _ _ (UpdateTradeStatusesByOrderHashes_spec "CANCELLED" hs _ Hi) (wp_self _ _))].
  intros r s [(Hi' & cts & -> & Hr) [_ Hself]] w' E Ho Hb.
  exists cts. unfold wsent. rewrite E, Ho, Hb. split_and!; [done..|].
  split; [|exact Hr]. intros Hm. rewrite Hself. exact (Hm "CANCELLED" hs _ Hi).
Qed.

(** What the three updates of an invalidation leave behind: the orders [us] given their
    amounts back, the invalidated orders [ios] and the cancelled trades [cts]. *)
Definition invalidation `{!TradeDaoSpec TS} (back : list Hash) (amounts : list (option Z))
    (inval canc : list Hash) (us ios : list Order) (cts : list Trade) w w' : Prop :=
  winv w' ∧ td_inv (w_trades w') ∧
  ∃ bk1, refilled (wbook w) back amounts us bk1 ∧ invalidated bk1 inval ios (wbook w') ∧
    cancelled canc cts (w_trades w) (w_trades w').

(** The three updates both invalidations make. *)
Lemma invalidate_spec `{!TradeDaoSpec TS} back amounts inval canc w
    (k : list Order → list Order → list Trade → M World unit) Q :
  winv w → td_inv (w_trades w) →
  (∀ us ios cts w1, invalidation back amounts inval canc us ios cts w w1 → wsent w1 = wsent w →
     wp (k us ios cts) Q w1) →
  (∀ e w', Q (Err e) w') → (∀ w', Q Panic w') →
  wp (us ← zoom orders_lens (od_UpdateOrderFilledAmounts back amounts);
      ios ← zoom orders_lens (od_UpdateOrderStatusesByHashes "INVALIDATED" inval);
      cts ← zoom trades_lens (td_UpdateTradeStatusesByOrderHashes "CANCELLED" canc);
      k us ios cts) Q w.
Proof.
  intros Hi Hti Hk He Hp. apply wp_bind, wp_orders.
  eapply wp_mono; [|apply (UpdateOrderFilledAmounts_spec back amounts _ Hi)].
  intros [us|e|] s [Hi1 (os & Hos & Hr)] w1 <- [Ht1 Hb1]; [|apply He|apply Hp]. simpl.
  apply wp_bind. eapply wp_mono; [|apply (invalidate_orders_spec inval w1 Hi1)].
  intros [ios|e|] w2; [|intros _; apply He|intros _; apply Hp]. intros (Hi2 & Ht2 & Hs2 & Hv). simpl.
  apply wp_bind. eapply wp_mono; [|apply (cancel_trades_spec canc w2); by rewrite Ht2, Ht1].
  intros r w3 (cts & -> & Hti3 & Ho3 & Hs3 & Hc). simpl.
  apply Hk; [|by rewrite Hs3, Hs2; unfold wsent; rewrite Hb1].
  split_and!; [by unfold winv; rewrite Ho3|done|].
  exists (wbook w1). split; [by exists os; destruct Hr|]. rewrite <-Ht1, <-Ht2.
  split; [|exact Hc]. unfold wbook at 2. by rewrite Ho3.
Qed.

Lemma invalidation_rest `{!TradeDaoSpec TS} back amounts inval canc us ios cts w w1 w2 :
  w_orders w2 = w_orders w1 → w_trades w2 = w_trades w1 →
  invalidation back amounts inval canc us ios cts w w1 →
  invalidation back amounts inval canc us ios cts w w2.
Proof. unfold invalidation, winv, wbook. by intros -> ->. Qed.

Lemma publish_response_rest x w :
  wp (publish_response x) (λ r w', w_orders w' = w_orders w ∧ w_trades w' = w_trades w ∧
    (r = Ok tt → wsent w' = wsent w ++ [("engineResponse", EngineResponse_json x)])) w.
Proof. eapply wp_broker; [apply publish_on_ok|]. intros r w' Ho Ht Hs. split_and!; [done..|]. by intros ->. Qed.

(** The answer to an invalidation. *)
Definition trades_cancelled (ios : list Order) (cts : list Trade) : EngineResponse :=
  mkEngineResponse "TRADES_CANCELLED" None None (Some ios) (Some cts).

Lemma invalidateTakerOrders_spec `{!TradeDaoSpec TS} mos o ts w :
  winv w → td_inv (w_trades w) →
  wp (invalidateTakerOrders (mkMatches mos (Some o) (Some <$> ts)))
    (λ r w', r = Ok tt → ∃ us ios cts l,
       invalidation (t_MakerOrderHash <$> ts) (t_Amount <$> ts) [o_Hash o]
         (t_MakerOrderHash <$> ts) us ios cts w w' ∧
       l `sublist_of` again us ∧
       wsent w' = wsent w ++ ("engineResponse", EngineResponse_json (trades_cancelled ios cts)) :: l) w.
Proof.
  intros Hi Hti. unfold invalidateTakerOrders, TradeAmounts. simpl Trades.
  rewrite trade_amounts_ok. apply wp_bind, wp_lift. simpl.
  rewrite length_fmap, hashes_at_ok, take_ge by done. apply wp_bind, wp_lift. simpl.
  eapply (invalidate_spec _ _ [o_Hash o] _ w); [done..| |done|done].
  intros us ios cts w1 Hinv Hs1. apply wp_bind.
  eapply wp_mono; [|apply publish_response_rest].
  intros [[]|e|] w2 (Ho2 & Ht2 & Hs2); [|done..]. simpl.
  eapply wp_mono; [|apply republish_spec]. intros r w3 (Ho3 & Ht3 & l & Hl & Hs3) _.
  exists us, ios, cts, l. split; [eapply (invalidation_rest _ _ _ _ _ _ _ w w1); [congruence..|done]|].
  split; [done|]. by rewrite Hs3, Hs2, Hs1, <-(assoc_L (++)).
Qed.

Lemma invalidateMakerOrders_spec `{!TradeDaoSpec TS} mos to ts w :
  winv w → td_inv (w_trades w) → length mos = length ts →
  wp (invalidateMakerOrders (mkMatches mos to (Some <$> ts)))
    (λ r w', r = Ok tt → ∃ us ios cts, invalidation (t_TakerOrderHash <$> ts) (t_Amount <$> ts)
       (t_MakerOrderHash <$> ts) (t_TakerOrderHash <$> ts) us ios cts w w') w.
Proof.
  intros Hi Hti Hlen. unfold invalidateMakerOrders, TradeAmounts. simpl Trades. simpl MakerOrders.
  rewrite trade_amounts_ok. apply wp_bind, wp_lift. simpl.
  rewrite Hlen, hashes_at_ok, take_ge by done. apply wp_bind, wp_lift. simpl.
  rewrite hashes_at_ok, take_ge by done. apply wp_bind, wp_lift. simpl.
  eapply invalidate_spec; [done..| |done|done].
  intros us ios cts w1 Hinv _. apply wp_bind, wp_log_error.
  eapply wp_mono; [|apply publish_response_rest].
  assert (∀ w2, w_orders w2 = w_orders w1 → w_trades w2 = w_trades w1 →
    wp (mforeach republish us) (λ r w', r = Ok tt → ∃ us ios cts, invalidation (t_TakerOrderHash <$> ts)
      (t_Amount <$> ts) (t_MakerOrderHash <$> ts) (t_TakerOrderHash <$> ts) us ios cts w w') w2) as Hrep.
  { intros w2 Ho2 Ht2. eapply wp_mono; [|apply republish_spec]. intros r w3 (Ho3 & Ht3 & _) _.
    exists us, ios, cts. eapply (invalidation_rest _ _ _ _ _ _ _ w w1); [congruence..|done]. }
  intros [[]|e|] w2 (Ho2 & Ht2 & _); simpl; [by apply Hrep..|done].
Qed.


Lemma mark_trades_other (P : Trade → Prop) `{∀ t, Decision (P t)} st now ts t :
  t ∈ ts → ¬ P t → t ∈ mark_trades P st now ts.
Proof.
  intros Ht HP. apply list_elem_of_fmap. exists t. by rewrite decide_False.
Qed.

(** When the makers of a batch are found invalid, its trades stay as they
    were: the trades marked cancelled are looked up by maker with the hashes of
    the takers. *)
Theorem invalidateMakerOrders_keeps_trades `{!TradeDaoSpec TS} mos to ts w w' t :
  winv w → td_inv (w_trades w) → length mos = length ts →
  invalidateMakerOrders (mkMatches mos to (Some <$> ts)) w = (Ok tt, w') →
  t ∈ trades (w_trades w) → t_MakerOrderHash t ∉ t_TakerOrderHash <$> ts →
  t ∈ trades (w_trades w').
Proof.
  intros Hi Hti Hlen Hrun Ht Hni.
  destruct (wp_run _ _ _ _ _ Hrun (invalidateMakerOrders_spec mos to ts w Hi Hti Hlen) eq_refl)
    as (us & ios & cts & _ & _ & bk1 & _ & _ & _ & [[-> _]|[now ->]]); [done|].
  by apply mark_trades_other.
Qed.

(** A taker whose makers are found invalid gets back the amount of the
    first trade of the batch only, whatever the number of trades. *)
Theorem invalidateMakerOrders_gives_back_first `{!TradeDaoSpec TS} mos to ts w w' h m a :
  winv w → td_inv (w_trades w) → length mos = length ts →
  invalidateMakerOrders (mkMatches mos to (Some <$> ts)) w = (Ok tt, w') →
  Forall (λ t, t_TakerOrderHash t = h) ts → h ∉ t_MakerOrderHash <$> ts →
  head (t_Amount <$> ts) = Some (Some a) → wbook w !! h = Some m →
  wbook w' !! h = Some (refill m a).
Proof.
  intros Hi Hti Hlen Hrun Htk Hmk Ha Hm. pose proof (wbook_keyed w Hi) as Hk.
  destruct (wp_run _ _ _ _ _ Hrun (invalidateMakerOrders_spec mos to ts w Hi Hti Hlen) eq_refl)
    as (us & ios & cts & _ & _ & bk1 & (os & Hos & Hus & ->) & [_ Hv] & _).
  assert (o_Hash m = h) as Hmh by by apply Hk.
  assert (os ≡ₚ [m]) as Hone.
  { rewrite Hos. apply NoDup_Permutation; [|apply NoDup_singleton|].
    - apply NoDup_filter, (NoDup_fmap_1 o_Hash). by apply orders_of_nodup.
    - intros x. rewrite list_elem_of_filter, list_elem_of_singleton, (orders_of_elem _ _ Hk).
      split.
      + intros [Hin Hx]. apply list_elem_of_fmap in Hin as (t & Heq & Ht).
        rewrite Forall_forall in Htk. rewrite (Htk t Ht) in Heq. rewrite Heq, Hm in Hx. congruence.
      + intros ->. rewrite Hmh. split; [|done]. destruct ts as [|t ts]; [done|].
        apply Forall_cons in Htk as [<- _]. rewrite fmap_cons. by left. }
  apply Permutation_singleton_r in Hone as ->.
  destruct (t_Amount <$> ts) as [|x xs]; simpl in Ha; [done|]. injection Ha as ->.
  injection Hus as <-. simpl in Hv.
  assert (o_Hash (refill m a) = h) as Hrh by (unfold refill; by repeat case_match).
  rewrite Hrh in Hv. destruct Hv as [[-> _]|[[now ->] _]]; [by rewrite lookup_insert_eq|].
  unfold mark. rewrite lookup_fmap, lookup_insert_eq. simpl. by rewrite Hrh, decide_False.
Qed.
(** ** Dispatch *)

(** What an order loses on the order queue. *)
Definition delivered (o : Order) : Order := set_o_ID "" (set_o_UpdatedAt 0 o).

(** C26: an order of a pair the engine was started with is delivered: the
    message published for it is decoded to the order, but for its identifier and
    update time, and run (or cancelled) by the book. *)
Theorem HandleOrders_delivers `{!EthCommonLaws _, !CodecLaws _ _} pairs p o w :
  p ∈ pairs → PairCode o = Ok (Pair_Code p) → complete o →
  HandleOrders (NewEngine pairs) "NEW_ORDER" (Order_MarshalJSON o) w = newOrder (delivered o) w ∧
  HandleOrders (NewEngine pairs) "CANCEL_ORDER" (Order_MarshalJSON o) w =
    cancelOrder (delivered o) w.
Proof.
  intros Hp Hcode Ho.
  assert (∀ (k : Order → M World unit), (o' ← unmarshal_order (Order_MarshalJSON o);
    code ← lift (PairCode o'); find_orderbook (NewEngine pairs) code ;; k o') w = k (delivered o) w)
    as Hrun; [|split; [apply (Hrun newOrder)|apply (Hrun cancelOrder)]].
  intros k. unfold unmarshal_order. rewrite Order_json_roundtrip' by done.
  unfold mbind, M_bind, lift. change (PairCode (set_o_ID _ _)) with (PairCode o).
  rewrite Hcode. unfold find_orderbook. rewrite decide_True; [done|].
  apply elem_of_list_to_set, list_elem_of_fmap. by exists p.
Qed.

(** A message for a pair the engine has no book for changes nothing; it is
    an error, except for an invalidation of takers, which is dropped silently. *)
Theorem HandleOrders_no_book e o m w code :
  PairCode o = Ok code → code ∉ e →
  (∀ j, Order_UnmarshalJSON j zero_Order = Ok o → ∀ type,
     type ∈ ["NEW_ORDER"; "ADD_ORDER"; "CANCEL_ORDER"] →
     HandleOrders e type j w = (Err "Orderbook error", w)) ∧
  (∀ j, Matches_UnmarshalJSON j = Ok m → TakerOrder m = Some o →
     HandleOrders e "INVALIDATE_MAKER_ORDERS" j w = (Err "Orderbook error", w) ∧
     HandleOrders e "INVALIDATE_TAKER_ORDERS" j w = (Ok tt, w)).
Proof.
  intros Hcode He. split.
  - intros j Hj type Htype.
    assert (∀ (k : Order → M World unit), (o ← unmarshal_order j;
      code ← lift (PairCode o); find_orderbook e code ;; k o) w = (Err "Orderbook error", w)) as Hrun.
    { intros k. unfold unmarshal_order, mbind, M_bind, lift. rewrite Hj, Hcode.
      unfold find_orderbook. by rewrite decide_False. }
    repeat (apply elem_of_cons in Htype as [->|Htype]; [apply Hrun|]).
    by apply elem_of_nil in Htype.
  - intros j Hj Hm.
    change (HandleOrders e "INVALIDATE_MAKER_ORDERS" j w)
      with (handleInvalidateMakerOrders e j w).
    change (HandleOrders e "INVALIDATE_TAKER_ORDERS" j w)
      with (handleInvalidateTakerOrders e j w).
    unfold handleInvalidateMakerOrders, handleInvalidateTakerOrders, Matches_PairCode.
    unfold mbind, M_bind, lift. rewrite Hj, Hm. simpl. rewrite Hcode.
    unfold find_orderbook. by rewrite !decide_False.
Qed.

(** ** Behaviours that are not meant *)

(** An order is not checked against the stored order with its hash: one
    that was filled, cancelled or invalidated, submitted again with a filled
    amount of zero when nothing can trade with it, is answered as added, and if
    it is stored, it replaces the old one and is open again. *)
Theorem newOrder_reopens o w w' m :
  winv w → acceptable o → book_prices_exact (wbook w) → filled o = 0 →
  wbook w !! o_Hash o = Some m →
  (∀ h x, wbook w !! h = Some x → ¬ crosses o x) → newOrder o w = (Ok tt, w') →
  (∃ t, wsent w' = wsent w ++ [("engineResponse", EngineResponse_json
     (response "ORDER_ADDED" (set_o_UpdatedAt t (set_o_Status "OPEN" o)) None))]) ∧
  (wbook w' = wbook w ∨ ∃ u, wbook w' = <[o_Hash o := u]> (wbook w) ∧
     o_Status u = "OPEN" ∧ filled u = 0 ∧ amount u = amount o ∧ o_CreatedAt u = o_CreatedAt m).
Proof.
  intros Hi Ha Hx Hf Hm Hno Hrun. pose proof (wbook_keyed w Hi) as Hk.
  destruct (newOrder_run o w _ w' Hi Ha Hx Hrun) as (_ & _ & res & (l & Hc & Hl) & Hsent).
  destruct l as [|x l'].
  2:{ assert (x ∈ x :: l') as Hin by by left.
      apply (candidates_elem _ _ _ x Hk Hc) in Hin as [Hcr Hin]. by destruct (Hno _ _ Hin). }
  assert (added o = set_o_Status "OPEN" o) as Hadd.
  { unfold added, is_unfilled. destruct (has_filled _ (acc_complete _ Ha)) as [f Hof].
    unfold filled in Hf. rewrite Hof in *. simpl in Hf. by rewrite Hf. }
  rewrite Hadd in Hl. destruct Hl as [[t ->] Hb]. split; [by exists t|].
  destruct Hb as [?|(u & [Hu Hcr] & Hb)]; [by left|right]. exists u. rewrite Hb.
  split_and!; [done|by rewrite Hu..|by apply Hcr].
Qed.
(** C39: nothing checks the filled amount an order comes with, so that one with
    a negative filled amount passes validation, and then trades more than the
    amount its signature covers. *)
Theorem newOrder_overtrades `{AppConfig} o w w' m :
  winv w → acceptable o → book_prices_exact (wbook w) →
  filled o < 0 → 0 < amount o → candidates (wbook w) o [m] → remaining o ≤ remaining m →
  newOrder o w = (Ok tt, w') →
  ((Validate o).1 = (Validate (set_o_FilledAmount (Some 0) o)).1) ∧
  ∃ res, wsent w' = wsent w ++ [("engineResponse", EngineResponse_json res)] ∧
    traded res = [amount o - filled o] ∧ amount o < amount o - filled o.
Proof.
  intros Hi Ha Hx Hf Hpos Hc1 Hle Hrun.
  destruct (newOrder_run o w _ w' Hi Ha Hx Hrun) as (_ & _ & res & (l & Hc & Hl) & Hsent).
  assert (l = [m]) as ->.
  { destruct Hc as [Hp _], Hc1 as [Hp1 _]. rewrite <-Hp1 in Hp.
    by apply Permutation_singleton_r in Hp. }
  split.
  - symmetry. apply Validate_any_filled.
  - exists res. split; [done|]. rewrite (executed_traded _ _ _ _ _ Hl). simpl.
    rewrite Z.min_r by done. case_match; (split; [done|lia]).
Qed.
End properties.

(** An order that could not be stored is answered as added all the same:
    the error of the database is dropped and the response is published. *)
Theorem buyOrder_drops_error {OS TS B : Type}
    `{IOrderDao OS, ITradeDao TS, Amqp B, EthCommon, Codecs, Big.Undefined, Sprint}
    (o o' : Order) (w : World OS TS B) s1 s2 e :
  o_Side o = BUY → is_unfilled o = true →
  od_GetMatchingSellOrders o (w_orders w) = (Ok [], s1) →
  od_FindAndModify (o_Hash o) (set_o_Status "OPEN" o) s1 = (Ok (o', inl e), s2) →
  newOrder o w = publish_response (response "ORDER_ADDED" o' None)
                   (mkWorld s2 (w_trades w) (w_broker w)).
Proof.
  intros Hs Hu Hm Hf. unfold newOrder. rewrite Hs, decide_False, decide_True by done.
  unfold buyOrder, addOrder, mbind, M_bind, zoom. simpl. rewrite Hm. simpl.
  rewrite Hu. simpl. by rewrite Hf.
Qed.
