(* ===== verification/EngineWitness.v ===== *)
(** The engine's theorems at work: each is applied to a concrete run of the
    engine of [Toy], on a book with two sell orders. *)
From S2P Require Import Prelude BigMath Types Mongo ListMongo Json Fixtures Orders MatchTypes OrderCodec TradeCodec OrderDao OrderStore OrderDaoRefine DaoProps TradeDao Rabbit Engine Toy EngineSpec EngineProps.
Import Running.

(** Closing a decidable goal on concrete data. *)
Ltac by_compute := apply (bool_decide_unpack _); vm_compute; exact I.

#[local] Instance order_ok_dec o : Decision (order_ok o).
Proof. unfold order_ok. apply _. Defined.

Lemma toy_start_inv : winv toy_start.
Proof. exists []. split; constructor. Defined.
Lemma toy_step_inv o (w : toy_world) :
  winv w → acceptable o → book_prices_exact (wbook w) → winv (newOrder o w).2.
Proof. intros Hi Ha Hx. eapply newOrder_run; [done..|]. apply surjective_pairing. Defined.
Lemma toy_order_acceptable u side h a pp :
  decimal_exact pp = true → acceptable (toy_order u side h a pp).
Proof.
  intros Hpp. split; [split; by eexists| |done]. unfold toy_order. simpl.
  destruct (side =? 0); auto.
Defined.

(** Ten at three, then twenty at four. *)
Definition sell1 := toy_order 1 1 5 10 3.
Definition sell2 := toy_order 1 1 6 20 4.
Definition toy_w1 : toy_world := (newOrder sell2 (newOrder sell1 toy_start).2).2.
Definition buy1 := toy_order 2 0 7 15 4.
Definition toy_w2 : toy_world := (newOrder buy1 toy_w1).2.

Lemma toy_w1_inv : winv toy_w1.
Proof.
  apply toy_step_inv; [|by apply toy_order_acceptable|by_compute].
  apply toy_step_inv; [apply toy_start_inv|by apply toy_order_acceptable|by_compute].
Defined.
Lemma toy_w2_inv : winv toy_w2.
Proof. apply toy_step_inv; [apply toy_w1_inv|by apply toy_order_acceptable|by_compute]. Defined.
Lemma toy_w2_run : newOrder buy1 toy_w1 = (Ok tt, toy_w2).
Proof. vm_compute. reflexivity. Defined.
Lemma buy1_fresh : fresh buy1 toy_w1.
Proof.
  split; [apply toy_w1_inv|by apply toy_order_acceptable|by_compute|by_compute|done|done|].
  vm_compute. reflexivity.
Defined.

(** The sell orders are used up in their order: ten, then five of the twenty. *)
Example toy_w2_orders :
  toy_orders toy_w2 = [(7, "FILLED", Some 15); (6, "PARTIAL_FILLED", Some 5);
                       (5, "FILLED", Some 10)].
Proof. vm_compute. reflexivity. Qed.

Lemma newOrder_fills_exactly_witness : ∃ l res, candidates (wbook toy_w1) buy1 l ∧
  (l ≠ [] → sumZ (traded res) = Z.min 15 (supply l) ∧
            er_Status res = (if 15 <=? supply l then "ORDER_FILLED"
                             else "ORDER_PARTIALLY_FILLED")).
Proof.
  destruct (newOrder_fills_exactly buy1 toy_w1 toy_w2 buy1_fresh toy_w2_run)
    as (l & res & Hc & _ & _ & Hl).
  exists l, res. split; [exact Hc|]. intros Hne. destruct (Hl Hne) as (H1 & H2 & _).
  split; [exact H1|exact H2].
Defined.


#[local] Instance uncrossed_dec (bk : book) : Decision (map_Forall (λ _ a, map_Forall (λ _ b,
  ¬ (is_open a ∧ o_Side a = BUY ∧ matches_sell a b)) bk) bk).
Proof. apply _. Defined.

Lemma toy_w1_uncrossed : uncrossed (wbook toy_w1).
Proof.
  assert (map_Forall (λ _ a, map_Forall (λ _ b,
    ¬ (is_open a ∧ o_Side a = BUY ∧ matches_sell a b)) (wbook toy_w1)) (wbook toy_w1)) as Hall
    by by_compute.
  intros h h' a b Ha Hb Ho Hs Hm. by apply (Hall h a Ha h' b Hb).
Defined.
Lemma newOrder_uncrossed_witness : uncrossed (wbook toy_w2).
Proof. apply (newOrder_uncrossed buy1 toy_w1 toy_w2 buy1_fresh), toy_w2_run. apply toy_w1_uncrossed. Defined.

Lemma newOrder_keeps_bounds_witness : book_ok (wbook toy_w2) ∧ w_trades toy_w2 = w_trades toy_w1.
Proof.
  apply (newOrder_keeps_bounds buy1 toy_w1 (Ok tt));
    [apply toy_w1_inv|by apply toy_order_acceptable|by_compute|by_compute|by_compute|
     apply toy_w2_run].
Defined.

(** An order of fifteen of which five were filled before. *)
Definition rerun : Order := set_o_FilledAmount (Some 5) (toy_order 2 0 8 15 4).
Lemma rerun_acceptable : acceptable rerun.
Proof. split; [split; by eexists|by left|done]. Defined.
Lemma newOrder_rerun_partial_witness : ∃ l res, candidates (wbook toy_w1) rerun l ∧
  (l ≠ [] → er_Status res = "ORDER_PARTIALLY_FILLED" ∧ length (traded res) = length l ∧
     ∀ i, (i < length l)%nat → sumZ (take i (traded res)) = 10 → traded res !! i = Some 0).
Proof.
  destruct (newOrder_rerun_partial rerun toy_w1 (newOrder rerun toy_w1).2)
    as (l & res & Hc & _ & Hl & _).
  - apply toy_w1_inv.
  - apply rerun_acceptable.
  - by_compute.
  - by_compute.
  - by_compute.
  - intros m Hm. exfalso. revert Hm. vm_compute. discriminate.
  - vm_compute. reflexivity.
  - exists l, res. split; [exact Hc|]. intros Hne. destruct (Hl Hne) as (H1 & H2 & _ & H3 & _).
    split; [exact H1|]. split; [exact H2|exact H3].
Defined.
(** It is complete after the first sell order, and trades zero with the second. *)
Example rerun_orders :
  toy_orders (newOrder rerun toy_w1).2 =
    [(8, "PARTIAL_FILLED", Some 15); (6, "PARTIAL_FILLED", Some 0); (5, "FILLED", Some 10)].
Proof. vm_compute. reflexivity. Qed.

(** A buy order that comes as filled, and finds nothing, is stored as it came. *)
Example filled_added :
  toy_orders (newOrder (set_o_Status "FILLED" rerun) toy_start).2 = [(8, "FILLED", Some 5)].
Proof. vm_compute. reflexivity. Qed.

Lemma cancelOrder_effect_witness :
  wsent (cancelOrder sell2 toy_w1).2 = wsent toy_w1 ++ [("engineResponse", EngineResponse_json
    (response "ORDER_CANCELLED" (set_o_Status "CANCELLED" sell2) None))].
Proof.
  destruct (cancelOrder_effect sell2 toy_w1 (Ok tt) (cancelOrder sell2 toy_w1).2)
    as (_ & _ & _ & Hs); [apply toy_w1_inv|vm_compute; reflexivity|exact Hs].
Defined.

(** ** Invalidation *)

(** The trades of [buy1], and a world in which they are recorded. *)
Definition t1 := make_trade buy1 sell1 10.
Definition t2 := make_trade buy1 sell2 5.
Definition with_trades (ts : list Trade) (w : toy_world) : toy_world :=
  mkWorld (w_orders w) (td_Create ts (w_trades w)).2 (w_broker w).
Definition toy_w3 : toy_world := with_trades [t1; t2] toy_w2.

Lemma with_trades_inv ts w :
  winv w → td_inv (w_trades w) → Forall (λ t, is_Some (t_Amount t) ∧ is_Some (t_PricePoint t)) ts →
  winv (with_trades ts w) ∧ td_inv (w_trades (with_trades ts w)).
Proof. intros Hi Ht Hts. split; [exact Hi|]. exact (proj1 (Create_spec ts _ Ht Hts)). Defined.
Lemma toy_w2_trades : docs (w_trades toy_w2) = [].
Proof. vm_compute. reflexivity. Defined.
Lemma no_trades_inv (s : coll) : docs s = [] → td_inv s.
Proof. intros Hs. change (trades_inv s). unfold trades_inv. rewrite Hs. constructor. Defined.

Lemma toy_w3_inv : winv toy_w3 ∧ td_inv (w_trades toy_w3).
Proof.
  apply with_trades_inv; [apply toy_w2_inv|apply no_trades_inv, toy_w2_trades|].
  repeat constructor; eexists; reflexivity.
Defined.

Abbreviation toy_matches := (mkMatches [Some sell1; Some sell2] (Some buy1) [Some t1; Some t2]).

(** The collections take the updates. *)
Lemma toy_orders_marked : orders_marked coll.
Proof.
  apply orders_marked_updates. intros hs t st s [os Hr]. cbn. unfold commit.
  rewrite decide_True; [done|]. exact (represents_unique _ _ (represents_marked hs t st _ _ Hr)).
Defined.
Lemma toy_trades_marked : trades_marked coll.
Proof.
  apply (@trades_marked_updates _ _ _ _ _ _ _ _ (ListMongo []) (ListMongo_laws [])).
  intros q u s. cbn. unfold commit. rewrite decide_True; [done|]. by intros ks ?%elem_of_nil.
Defined.

(** The collection lists order 6 before order 5, so that each of them is given
    the other's amount: order 5 keeps a filled amount of five. *)
Example invalidated_taker_orders :
  toy_orders (invalidateTakerOrders toy_matches toy_w3).2 =
    [(5, "PARTIAL_FILLED", Some 5); (6, "OPEN", Some 0); (7, "INVALIDATED", Some 15)].
Proof. vm_compute. reflexivity. Qed.

Lemma invalidateMakerOrders_keeps_trades_witness :
  ∃ t, t_Status t = "PENDING" ∧
    t ∈ trades (w_trades (invalidateMakerOrders toy_matches toy_w3).2).
Proof.
  destruct toy_w3_inv as [Hi Ht].
  exists (default t1 (head (dao_trades (w_trades toy_w3)))).
  split; [vm_compute; reflexivity|].
  apply (invalidateMakerOrders_keeps_trades [Some sell1; Some sell2] (Some buy1) [t1; t2] toy_w3).
  - exact Hi.
  - exact Ht.
  - reflexivity.
  - vm_compute. reflexivity.
  - by_compute.
  - by_compute.
Defined.

Lemma invalidateMakerOrders_gives_back_first_witness : ∃ m,
  wbook toy_w3 !! 7 = Some m ∧
  wbook (invalidateMakerOrders toy_matches toy_w3).2 !! 7 = Some (refill m 10).
Proof.
  destruct toy_w3_inv as [Hi Ht].
  destruct (wbook toy_w3 !! 7) as [m|] eqn:Hm; [|exfalso; revert Hm; vm_compute; discriminate].
  exists m. split; [reflexivity|].
  apply (invalidateMakerOrders_gives_back_first [Some sell1; Some sell2] (Some buy1) [t1; t2]
    toy_w3 (invalidateMakerOrders toy_matches toy_w3).2 7 m 10).
  - exact Hi.
  - exact Ht.
  - reflexivity.
  - vm_compute. reflexivity.
  - repeat constructor.
  - by_compute.
  - reflexivity.
  - exact Hm.
Defined.

(** ** Dispatch *)
Definition toy_engine : gset string := NewEngine [toy_pair].
Lemma HandleOrders_delivers_witness :
  HandleOrders toy_engine "NEW_ORDER" (Order_MarshalJSON buy1) toy_w1 =
    newOrder (delivered buy1) toy_w1.
Proof.
  destruct (HandleOrders_delivers [toy_pair] toy_pair buy1 toy_w1) as [Hd _];
    [by left|vm_compute; reflexivity|split; by eexists|exact Hd].
Defined.
Lemma HandleOrders_no_book_witness :
  HandleOrders (∅ : gset string) "NEW_ORDER" (Order_MarshalJSON buy1) toy_w1 =
    (Err "Orderbook error", toy_w1).
Proof.
  destruct (HandleOrders_no_book ∅ (delivered buy1) toy_matches toy_w1 (Pair_Code toy_pair))
    as [Hn _]; [vm_compute; reflexivity|apply not_elem_of_empty|].
  apply Hn; [vm_compute; reflexivity|by left].
Defined.

(** ** Behaviours that are not meant *)

(** A book whose only sell order is used up by order 7, which comes back. *)
Definition buy2 := toy_order 2 0 7 10 3.
Definition toy_w4 : toy_world := (newOrder buy2 (newOrder sell1 toy_start).2).2.
Lemma toy_w4_inv : winv toy_w4.
Proof.
  apply toy_step_inv; [|by apply toy_order_acceptable|by_compute].
  apply toy_step_inv; [apply toy_start_inv|by apply toy_order_acceptable|by_compute].
Defined.
Lemma newOrder_reopens_witness : ∃ m, wbook toy_w4 !! 7 = Some m ∧ o_Status m = "FILLED" ∧
  (wbook (newOrder buy2 toy_w4).2 = wbook toy_w4 ∨ ∃ u,
     wbook (newOrder buy2 toy_w4).2 = <[7 := u]> (wbook toy_w4) ∧ o_Status u = "OPEN").
Proof.
  destruct (wbook toy_w4 !! 7) as [m|] eqn:Hm; [|exfalso; revert Hm; vm_compute; discriminate].
  exists m. split; [reflexivity|]. split.
  { revert Hm. vm_compute. intros [= <-]. reflexivity. }
  destruct (newOrder_reopens buy2 toy_w4 (newOrder buy2 toy_w4).2 m) as [_ Hr].
  - apply toy_w4_inv.
  - by apply toy_order_acceptable.
  - by_compute.
  - reflexivity.
  - exact Hm.
  - assert (map_Forall (λ _ x, ¬ crosses buy2 x) (wbook toy_w4)) as Hall by by_compute.
    exact Hall.
  - vm_compute. reflexivity.
  - destruct Hr as [?|(u & Hu & Hs & _)]; [by left|right]. exists u. split; [exact Hu|exact Hs].
Defined.
Example reopened : toy_orders (newOrder buy2 toy_w4).2 = [(7, "OPEN", Some 0); (5, "FILLED", Some 10)].
Proof. vm_compute. reflexivity. Qed.

(** Signed for ten, sent with minus five filled: it trades fifteen. *)
Definition toy_w5 : toy_world := (newOrder sell2 toy_start).2.
Definition negative : Order := set_o_FilledAmount (Some (-5)) (toy_order 2 0 9 10 4).
Definition sell2_stored : Order := default sell2 (wbook toy_w5 !! 6).
Lemma newOrder_overtrades_witness : ∃ res,
  wsent (newOrder negative toy_w5).2 =
    wsent toy_w5 ++ [("engineResponse", EngineResponse_json res)] ∧ traded res = [15].
Proof.
  destruct (newOrder_overtrades negative toy_w5 (newOrder negative toy_w5).2 sell2_stored)
    as (_ & res & Hs & Ht & _).
  - apply toy_step_inv; [apply toy_start_inv|by apply toy_order_acceptable|by_compute].
  - split; [split; by eexists|by left|done].
  - by_compute.
  - reflexivity.
  - reflexivity.
  - split; [vm_compute; reflexivity|repeat constructor].
  - vm_compute. discriminate.
  - vm_compute. reflexivity.
  - exists res. split; [exact Hs|exact Ht].
Defined.

(** A collection that answers queries with nothing and refuses writes. *)
Definition broken_dao : IOrderDao unit := {|
  od_Create o := mret (o, inl "down");
  od_FindAndModify h o := mret (o, inl "down");
  od_UpdateOrderStatus h st := fail "down";
  od_UpdateOrderStatusesByHashes st hs := fail "down";
  od_UpdateOrderFilledAmounts hs amounts := fail "down";
  od_GetByHash h := mret None;
  od_GetByHashes hs := mret [];
  od_GetByUserAddress a n := mret [];
  od_GetCurrentByUserAddress a n := mret [];
  od_GetHistoryByUserAddress a n := mret [];
  od_GetMatchingBuyOrders o := mret [];
  od_GetMatchingSellOrders o := mret [];
  od_GetUserLockedBalance a t p := mret 0;
  od_GetRawOrderBook p := mret [];
  od_GetOrderBook p := mret ([], []);
  od_GetSideOrderBook p side sort limit := mret [];
  od_GetOrderBookPricePoint p pp side := mret None
|}.
#[local] Existing Instance broken_dao.
Lemma buyOrder_drops_error_witness :
  let w := mkWorld tt (Coll [] 0 0) (mkConnection [] ∅ ∅) in
  newOrder buy1 w = publish_response (response "ORDER_ADDED" (set_o_Status "OPEN" buy1) None) w.
Proof.
  intros w. apply (buyOrder_drops_error buy1 _ w tt tt "down"); reflexivity.
Defined.

(** * The collection of orders at work *)

Definition two_sells : coll := w_orders toy_w1.
(** The first of them, filled by four. *)
Definition sell1_filled : Order :=
  set_o_Status "PARTIAL_FILLED" (set_o_FilledAmount (Some 4) sell1).
Definition saved := OrderDao.FindAndModify 5 sell1_filled two_sells.
Definition saved_args : Order := match saved.1 with Ok (o', _) => o' | _ => sell1 end.
Definition saved_order : Order := match saved.1 with Ok (_, inr u) => u | _ => sell1 end.

Lemma saved_run : OrderDao.FindAndModify 5 sell1_filled two_sells = (Ok (saved_args, inr saved_order), saved.2).
Proof. vm_compute. reflexivity. Defined.
Definition other_read := OrderDao.GetByHash 6 saved.2.
Definition other_order : option Order := match other_read.1 with Ok r => r | _ => None end.
Lemma other_run : OrderDao.GetByHash 6 saved.2 = (Ok other_order, other_read.2).
Proof. vm_compute. reflexivity. Defined.

(** The other order reads as before. *)
Lemma OrderDao_save_read_witness :
  same_content sell1_filled saved_order ∧ other_order = dao_book two_sells !! 6.
Proof.
  assert (complete sell1_filled) as Hc by (split; by eexists).
  destruct (OrderDao_save_read sell1_filled two_sells saved_args saved_order saved.2 6 other_order
    other_read.2 Hc toy_w1_inv saved_run other_run) as (H1 & _ & H2).
  split; [exact H1|]. rewrite H2. reflexivity.
Defined.

Definition candidates_read := matching_orders buy1 two_sells.
Definition candidate_orders : list Order := match candidates_read.1 with Ok l => l | _ => [] end.
Lemma candidates_run : matching_orders buy1 two_sells = (Ok candidate_orders, candidates_read.2).
Proof. vm_compute. reflexivity. Defined.

