(* ===== verification/ReplyProps.v ===== *)
(** The way back from the engine: what the order book answers to a new order is published,
    delivered and decoded by the order service to the same answer. *)
From S2P Require Import Prelude BigMath Types Mongo ListMongo Json Fixtures Orders MatchTypes OrderCodec TradeCodec OrderDao OrderStore OrderDaoRefine TradeDao Rabbit Consumers Engine Toy EngineSpec EngineProps EngineWitness.
Import Running.

(** ** What the engine answers can be sent *)

Section sendable.
Context {OS TS B : Type} `{OrderDaoSpec OS, ITradeDao TS, AmqpLaws B}.
Context `{EthCommon, Codecs, Big.Undefined, Sprint}.
#[local] Abbreviation World := (World OS TS B).
Implicit Types w : World.

(** An order that can be a maker of a trade that is read back. *)
Definition named (o : Order) : Prop := complete o ∧ o_Hash o ≠ 0.

Lemma match_sendable o p ma : complete o → o_BaseToken o ≠ 0 → o_QuoteToken o ≠ 0 →
  named ma.1 → match_of o p ma → complete p.1 ∧ trade_sendable p.2.
Proof.
  intros Ho Hb Hq [Hc Hh] [[t Hp] Ht]. rewrite Hp, Ht. split; [by apply complete_updated|].
  split_and!; [by eexists|apply (has_price _ Ho)|done..].
Qed.
Lemma response_ok st o ms : complete o →
  all_set (Forall (λ p : Order * Trade, complete p.1 ∧ trade_sendable p.2)) ms →
  response_sendable (response st o ms).
Proof.
  intros Ho Hms. split_and!; [done| |done..]. destruct ms as [l|]; [|done].
  split_and!; [|done|]; apply Forall_fmap; eapply Forall_impl; try exact Hms; by intros p [].
Qed.
Lemma result_sendable o bk bk' res : complete o → o_BaseToken o ≠ 0 → o_QuoteToken o ≠ 0 →
  (∀ l, candidates bk o l → Forall named l) → new_order_result o bk bk' res → response_sendable res.
Proof.
  intros Ho Hb Hq Hn (l & Hc & Hr). specialize (Hn l Hc). destruct l as [|m l].
  - destruct Hr as [[t ->] _]. apply response_ok; [|done]. by apply complete_updated, complete_added.
  - destruct Hr as (t & ms & -> & Hms & _). apply response_ok; [by apply complete_updated, complete_taker|].
    apply (allocate_makers named (amount o) (remaining o)) in Hn;
      [|intros rem m' []; split; [by apply complete_fill_maker|done]].
    eapply Forall2_Forall_l; [exact Hms|]. eapply Forall_impl; [exact Hn|].
    intros ma Hma p Hp. exact (match_sendable o p ma Ho Hb Hq Hma Hp).
Qed.

(** ** The answer comes back *)

Context `{!EthCommonLaws _, !CodecLaws _ _}.
Lemma traded_sent r : traded (response_sent r) = traded r.
Proof.
  unfold traded. destruct r as [st ro [[mos to ts]|] io ct]; [|done]. cbn. rewrite <- list_fmap_compose.
  apply list_fmap_ext. by intros _ [t|] _.
Qed.
Lemma makers_sent r : makers_in (response_sent r) = order_sent <$> makers_in r.
Proof.
  unfold makers_in. destruct r as [st ro [[mos to ts]|] io ct]; [|done]. cbn.
  induction mos as [|[o|] mos IH]; [done|..]; cbn in *; by rewrite IH.
Qed.

(** C9: what the engine answers to a fresh order comes back to the order service as it was
    published: the message is decoded to the same status, traded amounts and makers, but
    for the identifiers and times that are not sent. *)
Theorem newOrder_reply_received o w w' :
  fresh o w → o_BaseToken o ≠ 0 → o_QuoteToken o ≠ 0 → wbook w !! 0 = None →
  newOrder o w = (Ok tt, w') →
  ∃ res, new_order_result o (wbook w) (wbook w') res ∧
    wsent w' = wsent w ++ [("engineResponse", EngineResponse_json res)] ∧
    EngineResponse_unjson (EngineResponse_json res) = Ok (response_sent res) ∧
    er_Status (response_sent res) = er_Status res ∧ traded (response_sent res) = traded res ∧
    makers_in (response_sent res) = order_sent <$> makers_in res.
Proof.
  intros [Hi Ha Hx Hok Hf Hpos Hnew] Hb Hq Hz Hrun.
  destruct (newOrder_run o w _ w' Hi Ha Hx Hrun) as (_ & _ & res & Hr & Hsent).
  exists res. split_and!; [done|done| |done|apply traded_sent|apply makers_sent].
  apply EngineResponse_roundtrip. eapply result_sendable; [by apply acc_complete|done|done| |done].
  intros l Hc. pose proof (wbook_keyed w Hi) as Hk. apply Forall_forall. intros m Hm.
  split; [exact (proj1 (Forall_forall _ _) (candidates_complete w o l Hi Hc) m Hm)|].
  apply (candidates_elem _ _ _ m Hk Hc) in Hm as [_ Hm]. intros E. rewrite E, Hz in Hm. done.
Qed.
End sendable.

Lemma newOrder_reply_received_witness : ∃ res,
  EngineResponse_unjson (EngineResponse_json res) = Ok (response_sent res) ∧ traded (response_sent res) = traded res ∧
  wsent toy_w2 = wsent toy_w1 ++ [("engineResponse", EngineResponse_json res)].
Proof.
  destruct (newOrder_reply_received buy1 toy_w1 toy_w2 buy1_fresh) as (res & _ & Hs & Hj & _ & Ht & _);
    [discriminate|discriminate|vm_compute; reflexivity|exact toy_w2_run|].
  exists res. exact (conj Hj (conj Ht Hs)).
Defined.
