(* ===== verification/Ws.v ===== *)
(** Package [ws]: the WebSocket clients, the registries that say who is sent
    what ([orders.go], [deposit.go], [trades.go], [orderbook.go],
    [raw_orderbook.go], [ohlcv.go]) and what happens when a connection closes.

    A [*Client] is its identity.  The unsubscribe handlers are closures over an
    address or a channel: they are their own type here.  The channel of a client has
    no buffer: a message that its [writeHandler] receives is put in its inbox, in the
    order of the sends, and a send that nobody receives any more waits for ever, with
    the client's mutex locked.  Such a send has no result ([Panic], as for all code that
    goes no further) and is kept in [stuck].  The iteration over a map of clients has no
    order. *)
From S2P Require Import Prelude BigMath Types Tokens Ticks DepositTypes MatchTypes.

Definition Client := nat.

(** ** Data *)

(** The payloads the services send: an [interface{}] in the code. *)
Inductive payload :=
  | PNil
  | PString (s : string)
  | PMessage (m : list (string * string))
  | POrder (o : Order)
  | POrders (os : list Order)
  | PTrades (ts : list (option Trade))
  | PMatches (m : Matches)
  | POrderBook (pairName : string) (bids asks : list (list (string * string)))
  | PRawOrderBook (pairName : string) (os : list Order)
  | PAssociation (r : AddressAssociationRecord)
  | PGenerated (r : GenerateAddressResponse)
  | PTick (t : Tick)
  | PTicks (ts : list Tick)
  | PTokens (ts : list Token)
  | POther (s : string).

(** [types.WebsocketMessage] with its [WebsocketEvent]. *)
Record WebsocketMessage := mkWebsocketMessage {
  wm_Channel : string;
  wm_Type : string;
  wm_Hash : string;
  wm_Payload : payload
}.

(** [subscriptions] and [subscriptionsList] of a socket. *)
Record Socket := mkSocket {
  subscriptions : gmap string (gmap Client bool);
  subscriptionsList : gmap Client (list string)
}.

(** The four sockets are one code. *)
Inductive SocketKind := TradeSocket | OrderBookSocket | RawOrderBookSocket | OHLCVSocket.
#[export] Instance SocketKind_eq_dec : EqDecision SocketKind.
Proof. solve_decision. Defined.

(** The closures given to [RegisterConnectionUnsubscribeHandler]. *)
Inductive Handler :=
  | OrderSocketUnsubscribe (a : Address)
  | DepositSocketUnsubscribe (a : Address)
  | ChannelUnsubscribe (k : SocketKind) (channelID : string)
  | SocketUnsubscribe (k : SocketKind).
#[export] Instance Handler_eq_dec : EqDecision Handler.
Proof. solve_decision. Defined.

(** The package's variables; the trade broadcasts that were started and have not run
    yet; the [writeHandler]s that return, with how many messages each still receives
    before it does (those that go on are not in it), and the sends that nobody will
    receive. *)
Record Ws := mkWs {
  orderConnections : gmap string (list Client);
  depositConnections : gmap string (list Client);
  sockets : SocketKind → Socket;
  unsubscribeHandlers : gmap Client (list Handler);
  inbox : gmap Client (list WebsocketMessage);
  pending : list (string * payload);
  quits : gmap Client nat;
  stuck : list (Client * WebsocketMessage)
}.
Definition set_orderConnections (f : gmap string (list Client) → gmap string (list Client)) (w : Ws) : Ws :=
  mkWs (f (orderConnections w)) (depositConnections w) (sockets w) (unsubscribeHandlers w) (inbox w) (pending w) (quits w) (stuck w).
Definition set_depositConnections (f : gmap string (list Client) → gmap string (list Client)) (w : Ws) : Ws :=
  mkWs (orderConnections w) (f (depositConnections w)) (sockets w) (unsubscribeHandlers w) (inbox w) (pending w) (quits w) (stuck w).
Definition set_socket (k : SocketKind) (s : Socket) (w : Ws) : Ws :=
  mkWs (orderConnections w) (depositConnections w)
    (λ k', if decide (k' = k) then s else sockets w k') (unsubscribeHandlers w) (inbox w) (pending w) (quits w) (stuck w).
Definition set_unsubscribeHandlers f (w : Ws) : Ws :=
  mkWs (orderConnections w) (depositConnections w) (sockets w) (f (unsubscribeHandlers w)) (inbox w) (pending w) (quits w) (stuck w).
Definition set_inbox f (w : Ws) : Ws :=
  mkWs (orderConnections w) (depositConnections w) (sockets w) (unsubscribeHandlers w) (f (inbox w)) (pending w) (quits w) (stuck w).
Definition set_pending f (w : Ws) : Ws :=
  mkWs (orderConnections w) (depositConnections w) (sockets w) (unsubscribeHandlers w) (inbox w) (f (pending w)) (quits w) (stuck w).
Definition set_quits f (w : Ws) : Ws :=
  mkWs (orderConnections w) (depositConnections w) (sockets w) (unsubscribeHandlers w) (inbox w) (pending w) (f (quits w)) (stuck w).
Definition set_stuck f (w : Ws) : Ws :=
  mkWs (orderConnections w) (depositConnections w) (sockets w) (unsubscribeHandlers w) (inbox w) (pending w) (quits w) (f (stuck w)).

Definition NewSocket : Socket := mkSocket ∅ ∅.
Definition empty_ws : Ws := mkWs ∅ ∅ (λ _, NewSocket) ∅ ∅ [] ∅ [].

(** ws/channels.go *)
Definition OrderChannel : string := "orders".
Definition DepositChannel : string := "deposit".
Definition channel_of (k : SocketKind) : string :=
  match k with
  | TradeSocket => "trades" | OrderBookSocket => "orderbook"
  | RawOrderBookSocket => "raw_orderbook" | OHLCVSocket => "ohlcv"
  end.

(** ** ws/client.go *)

Definition deliver (c : Client) (m : WebsocketMessage) (w : Ws) : Ws :=
  set_inbox (λ ib, <[c := default [] (ib !! c) ++ [m]]> ib) w.

(** [c.mu.Lock(); c.send <- m]: the send is over when the [writeHandler] has received
    the message; when that has returned it never is. *)
Definition send_on (c : Client) (m : WebsocketMessage) : M Ws unit := λ w,
  match quits w !! c with
  | None => (Ok tt, deliver c m w)
  | Some (S n) => (Ok tt, deliver c m (set_quits <[c := n]> w))
  | Some O => (Panic, set_stuck (λ l, l ++ [(c, m)]) w)
  end.
(** The [writeHandler] has returned. *)
Definition stop_writing (c : Client) : M Ws unit := modify (set_quits <[c := O]>).

Definition NewClient (c : Client) : M Ws unit :=
  w ← get;
  match unsubscribeHandlers w !! c with
  | None => modify (set_unsubscribeHandlers <[c := []]>)
  | Some _ => mret tt
  end.

Definition SendMessage (c : Client) (channel type : string) (p : payload) : M Ws unit :=
  send_on c (mkWebsocketMessage channel type "" p).
Definition SendMessageHash (c : Client) (channel type : string) (p : payload) (h : string) :
    M Ws unit :=
  send_on c (mkWebsocketMessage channel type h p).

Definition SendOrderErrorMessage `{EthCommon} (c : Client) (err : error) (h : Hash) : M Ws unit :=
  send_on c (mkWebsocketMessage OrderChannel "ERROR" ""
    (PMessage [("message", err); ("hash", Hash_Hex h)])).

(** ws/connection.go *)
Definition RegisterConnectionUnsubscribeHandler (c : Client) (fn : Handler) : M Ws unit :=
  modify (set_unsubscribeHandlers (λ hs, <[c := default [] (hs !! c) ++ [fn]]> hs)).

(** ** ws/orders.go and ws/deposit.go: the connections of an address *)

Fixpoint isClientConnected (clients : list Client) (client : Client) : bool :=
  match clients with
  | [] => false
  | c :: cs => if decide (c = client) then true else isClientConnected cs client
  end.

(** [for i, c := range s { if client == c { s = append(s[:i], s[i+1:]...) } }]:
    the range goes through the [n] elements of the slice as it was, in the
    backing array [arr] that [append] overwrites; [len] is the length of [s].
    Slicing from [i+1] panics beyond [len]. *)
Fixpoint remove_loop (client : Client) (n i : nat) (arr : list Client) (len : nat) :
    outcome (list Client) :=
  match n with
  | O => Ok (take len arr)
  | S n' =>
    c ← deref (arr !! i);
    if decide (client = c) then
      if decide (len < S i)%nat then Panic
      else
        let arr := take i arr ++ drop (S i) (take len arr) ++ drop (len - 1) arr in
        remove_loop client n' (S i) arr (len - 1)
    else remove_loop client n' (S i) arr len
  end.
Definition remove_client (client : Client) (s : list Client) : outcome (list Client) :=
  remove_loop client (length s) 0 s (length s).

Section connections.
Context `{EthCommon}.

(** [GetOrderConnections]: an address with an empty slice is not nil. *)
Definition GetOrderConnections (a : Address) (w : Ws) : option (list Client) :=
  orderConnections w !! Address_Hex a.
Definition GetDepositConnections (a : Address) (w : Ws) : option (list Client) :=
  depositConnections w !! Address_Hex a.

(** Without connections the nil slice is written back, which reads as before. *)
Definition OrderSocketUnsubscribeHandler (a : Address) (client : Client) : M Ws unit :=
  w ← get;
  match orderConnections w !! Address_Hex a with
  | None => mret tt
  | Some s =>
    orderConnection ← lift (remove_client client s);
    modify (set_orderConnections <[Address_Hex a := orderConnection]>)
  end.

Definition DepositSocketUnsubscribeHandler (a : Address) (client : Client) : M Ws unit :=
  w ← get;
  match depositConnections w !! Address_Hex a with
  | None => mret tt
  | Some s =>
    depositConnection ← lift (remove_client client s);
    modify (set_depositConnections <[Address_Hex a := depositConnection]>)
  end.

Definition RegisterOrderConnection (a : Address) (c : Client) : M Ws unit :=
  w ← get;
  (match orderConnections w !! Address_Hex a with
   | None =>
     modify (set_orderConnections <[Address_Hex a := [c]]>) ;;
     RegisterConnectionUnsubscribeHandler c (OrderSocketUnsubscribe a)
   | Some _ => mret tt
   end) ;;
  w ← get;
  match orderConnections w !! Address_Hex a with
  | None => mret tt
  | Some s =>
    if isClientConnected s c then mret tt
    else
      modify (set_orderConnections <[Address_Hex a := s ++ [c]]>) ;;
      RegisterConnectionUnsubscribeHandler c (OrderSocketUnsubscribe a)
  end.

Definition RegisterDepositConnection (a : Address) (c : Client) : M Ws unit :=
  w ← get;
  (match depositConnections w !! Address_Hex a with
   | None =>
     modify (set_depositConnections <[Address_Hex a := [c]]>) ;;
     RegisterConnectionUnsubscribeHandler c (DepositSocketUnsubscribe a)
   | Some _ => mret tt
   end) ;;
  w ← get;
  match depositConnections w !! Address_Hex a with
  | None => mret tt
  | Some s =>
    if isClientConnected s c then mret tt
    else
      modify (set_depositConnections <[Address_Hex a := s ++ [c]]>) ;;
      RegisterConnectionUnsubscribeHandler c (DepositSocketUnsubscribe a)
  end.

Definition SendOrderMessage (msgType : string) (a : Address) (p : payload) : M Ws unit :=
  w ← get;
  match GetOrderConnections a w with
  | None => mret tt
  | Some conn => mforeach (λ c, SendMessage c OrderChannel msgType p) conn
  end.

Definition SendDepositMessage (msgType : string) (a : Address) (p : payload) : M Ws unit :=
  w ← get;
  match GetDepositConnections a w with
  | None => mret tt
  | Some conn => mforeach (λ c, SendMessage c DepositChannel msgType p) conn
  end.
End connections.

(** ** The sockets *)

(** A connection that is nil is refused. *)
Definition Subscribe (k : SocketKind) (channelID : string) (c : option Client) : M Ws unit :=
  match c with
  | None => fail "No connection found"
  | Some c =>
    w ← get;
    let s := sockets w k in
    let subs := <[channelID := <[c := true]> (default ∅ (subscriptions s !! channelID))]>
                  (subscriptions s) in
    let list := <[c := default [] (subscriptionsList s !! c) ++ [channelID]]>
                  (subscriptionsList s) in
    modify (set_socket k (mkSocket subs list))
  end.

(** [s.subscriptions[channelID][c]]; a missing key is false. *)
Definition subscribed (s : Socket) (channelID : string) (c : Client) : bool :=
  match subscriptions s !! channelID with
  | None => false
  | Some m => default false (m !! c)
  end.

Definition unsubscribe_channel (channelID : string) (c : Client) (s : Socket) : Socket :=
  if subscribed s channelID c then
    mkSocket (alter (λ m, delete c (<[c := false]> m)) channelID (subscriptions s))
      (subscriptionsList s)
  else s.

Definition UnsubscribeChannel (k : SocketKind) (channelID : string) (c : Client) : M Ws unit :=
  w ← get; modify (set_socket k (unsubscribe_channel channelID c (sockets w k))).

Definition Unsubscribe (k : SocketKind) (c : Client) : M Ws unit :=
  w ← get;
  match subscriptionsList (sockets w k) !! c with
  | None => mret tt
  | Some ids => mforeach (λ id, UnsubscribeChannel k id c) ids
  end.

(** [for c, active := range s.subscriptions[channelID]]: the clients that are
    active, in no order. *)
Definition targets (k : SocketKind) (channelID : string) (w : Ws) : list Client :=
  (base.filter (λ cb, cb.2 = true)
     (map_to_list (default ∅ (subscriptions (sockets w k) !! channelID)))).*1.

Definition SendErrorMessage (k : SocketKind) (c : Client) (p : payload) : M Ws unit :=
  SendMessage c (channel_of k) "ERROR" p.
Definition SendInitMessage (k : SocketKind) (c : Client) (p : payload) : M Ws unit :=
  SendMessage c (channel_of k) "INIT" p.
Definition SendUpdateMessage (k : SocketKind) (c : Client) (p : payload) : M Ws unit :=
  SendMessage c (channel_of k) "UPDATE" p.

Definition broadcast_now (k : SocketKind) (channelID : string) (p : payload) : M Ws unit :=
  w ← get; mforeach (λ c, SendUpdateMessage k c p) (targets k channelID w).

(** The trade socket alone broadcasts in a goroutine: the broadcast is pending
    until it is run. *)
Definition BroadcastMessage (k : SocketKind) (channelID : string) (p : payload) : M Ws unit :=
  match k with
  | TradeSocket => modify (set_pending (λ ps, ps ++ [(channelID, p)]))
  | _ => broadcast_now k channelID p
  end.

(** The [i]-th of the goroutines runs; they are not ordered. *)
Definition run_pending (i : nat) : M Ws unit :=
  w ← get;
  match pending w !! i with
  | None => mret tt
  | Some (channelID, p) =>
    modify (set_pending (delete i)) ;; broadcast_now TradeSocket channelID p
  end.

(** ** Closing a connection *)
Section close.
Context `{EthCommon}.

Definition run_handler (c : Client) (h : Handler) : M Ws unit :=
  match h with
  | OrderSocketUnsubscribe a => OrderSocketUnsubscribeHandler a c
  | DepositSocketUnsubscribe a => DepositSocketUnsubscribeHandler a c
  | ChannelUnsubscribe k id => UnsubscribeChannel k id c
  | SocketUnsubscribe k => Unsubscribe k c
  end.

(** [closeConnection] starts a goroutine per handler: they run in the order
    [hs], some permutation of the registered handlers.  The handlers stay
    registered, and a second call runs them again. *)
Definition closeConnection (c : Client) (hs : list Handler) : M Ws unit :=
  mforeach (run_handler c) hs.
Definition handlers_of (c : Client) (w : Ws) : list Handler :=
  default [] (unsubscribeHandlers w !! c).
End close.

(** What every service does to subscribe a client to a channel
    ([TradeService.Subscribe], [OrderBookService.SubscribeOrderBook], ...). *)
Definition SubscribeClient (k : SocketKind) (channelID : string) (c : Client) : M Ws unit :=
  Subscribe k channelID (Some c) ;;
  RegisterConnectionUnsubscribeHandler c (ChannelUnsubscribe k channelID).

(** ** Runs

    The services and the connections' goroutines, one operation at a time; the
    handlers of a closing connection are steps of their own.  At any time it may turn
    out that a [writeHandler] returns, at once or after some more messages: its socket
    fails. *)
Inductive ws_step `{EthCommon} : Ws → Ws → Prop :=
  | step_new c w r w' : NewClient c w = (r, w') → ws_step w w'
  | step_order a c w r w' : RegisterOrderConnection a c w = (r, w') → ws_step w w'
  | step_deposit a c w r w' : RegisterDepositConnection a c w = (r, w') → ws_step w w'
  | step_subscribe k id c w r w' : SubscribeClient k id c w = (r, w') → ws_step w w'
  | step_unsubscribe k id c w r w' : UnsubscribeChannel k id c w = (r, w') → ws_step w w'
  | step_unsubscribe_all k c w r w' : Unsubscribe k c w = (r, w') → ws_step w w'
  | step_send c channel type p w r w' : SendMessage c channel type p w = (r, w') → ws_step w w'
  | step_order_message type a p w r w' : SendOrderMessage type a p w = (r, w') → ws_step w w'
  | step_deposit_message type a p w r w' : SendDepositMessage type a p w = (r, w') → ws_step w w'
  | step_broadcast k id p w r w' : BroadcastMessage k id p w = (r, w') → ws_step w w'
  | step_pending i w r w' : run_pending i w = (r, w') → ws_step w w'
  | step_handler c h w r w' :
      h ∈ handlers_of c w → run_handler c h w = (r, w') → ws_step w w'
  | step_quit c n w : quits w !! c = None → ws_step w (set_quits <[c := n]> w).
