(* ===== verification/WsProps.v ===== *)
(** The WebSocket registries: a message goes exactly once to each client that is
    registered for it, unless the sender comes to one whose [writeHandler] has returned
    and waits there for ever; the registries stay well formed, and a closed connection
    is forgotten by all of them, in whatever order its handlers run. *)
From S2P Require Import Prelude BigMath Types Mongo ListMongo Json Fixtures MatchTypes Ws.

Lemma filter_absent (c : Client) (s : list Client) : c ∉ s → base.filter (λ x, x ≠ c) s = s.
Proof.
  induction s as [|x s IH]; [done|]. rewrite not_elem_of_cons, filter_cons.
  intros [Hx Hs]. rewrite decide_True by auto. by rewrite IH.
Qed.

(** ** Removing a client from a slice in place *)

Lemma remove_loop_absent client n i arr len :
  (i + n ≤ length arr)%nat → client ∉ drop i arr → remove_loop client n i arr len = Ok (take len arr).
Proof.
  revert i. induction n as [|n IH]; intros i Hlen Hni; [done|]. simpl.
  destruct (arr !! i) as [c|] eqn:Hc; [|apply lookup_ge_None in Hc; lia]. simpl.
  rewrite (drop_S arr c i Hc), not_elem_of_cons in Hni. destruct Hni as [Hne Hni].
  rewrite decide_False by done. apply IH; [lia|done].
Qed.

Lemma remove_loop_present client l1 l2 i n :
  client ∉ l1 → client ∉ l2 → (i ≤ length l1)%nat → (i + n = length l1 + S (length l2))%nat →
  remove_loop client n i (l1 ++ client :: l2) (length (l1 ++ client :: l2)) = Ok (l1 ++ l2).
Proof.
  intros Hn1 Hn2. revert i. induction n as [|n IH]; intros i Hi Hn; [lia|]. simpl.
  destruct (decide (i = length l1)) as [->|Hne].
  - rewrite list_lookup_middle by done. simpl. rewrite decide_True by done.
    rewrite decide_False by (rewrite length_app; simpl; lia).
    set (arr := l1 ++ client :: l2).
    assert (take (length l1) arr = l1) as -> by (unfold arr; by rewrite take_app_length).
    assert (drop (S (length l1)) (take (length arr) arr) = l2) as ->.
    { rewrite take_ge by done. unfold arr. change (S (length l1)) with (1 + length l1)%nat.
      rewrite Nat.add_comm, <-drop_drop, drop_app_length. done. }
    assert (length arr = length l1 + S (length l2))%nat as Hlen
      by (unfold arr; rewrite length_app; simpl; lia).
    rewrite remove_loop_absent.
    + f_equal. rewrite app_assoc, take_app_le by (rewrite length_app; lia).
      apply take_ge. rewrite length_app. lia.
    + rewrite !length_app, length_drop. lia.
    + replace (S (length l1)) with (length l1 + 1)%nat by lia.
      rewrite <-drop_drop, drop_app_length. destruct l2 as [|x l2]; simpl.
      * rewrite Hlen. unfold arr. simpl. replace (length l1 + 1 - 1)%nat with (length l1) by lia.
        rewrite drop_app_length. apply not_elem_of_nil.
      * rewrite drop_0, not_elem_of_app. rewrite not_elem_of_cons in Hn2. split; [apply Hn2|].
        replace (drop (length arr - 1) arr) with (drop (length l2) (x :: l2)).
        -- intros [j Hj]%list_elem_of_lookup. rewrite lookup_drop in Hj.
           apply list_elem_of_lookup_2, elem_of_cons in Hj. tauto.
        -- rewrite Hlen. simpl length. unfold arr.
           replace (length l1 + S (S (length l2)) - 1)%nat with (length l1 + (1 + length l2))%nat by lia.
           by rewrite <-!drop_drop, drop_app_length.
  - assert (∃ c, (l1 ++ client :: l2) !! i = Some c ∧ client ≠ c) as (c & Hc & Hcne).
    { rewrite lookup_app_l by lia. destruct (l1 !! i) as [c|] eqn:Hc;
        [|apply lookup_ge_None in Hc; lia].
      exists c. split; [done|]. intros ->. apply Hn1. by eapply list_elem_of_lookup_2. }
    rewrite Hc. simpl. rewrite decide_False by done. apply IH; lia.
Qed.

Lemma remove_client_spec client s :
  NoDup s → remove_client client s = Ok (base.filter (λ c, c ≠ client) s).
Proof.
  intros Hn. unfold remove_client.
  destruct (decide (client ∈ s)) as [Hin|Hni].
  - apply list_elem_of_split in Hin as (l1 & l2 & ->).
    apply NoDup_app in Hn as (_ & Hd & Hn2). apply NoDup_cons in Hn2 as [Hn2 _].
    assert (client ∉ l1) as Hn1 by (intros H%Hd; apply H; by left).
    rewrite (remove_loop_present client l1 l2 0);
      [|done|done|lia|rewrite length_app; simpl; lia].
    f_equal. rewrite filter_app, filter_cons, decide_False by tauto.
    by rewrite !filter_absent.
  - rewrite remove_loop_absent, take_ge by (rewrite ?drop_0; done || lia).
    by rewrite filter_absent.
Qed.

(** A client listed twice makes the loop slice out of range. *)
Example remove_client_twice : remove_client 1%nat [1%nat; 1%nat] = Panic.
Proof. reflexivity. Qed.

(** ** Who is known to the registries *)
Section registries.
Context `{EthCommonLaws}.

(** [c] is registered for what the handler [h] undoes. *)
Definition knows (w : Ws) (c : Client) (h : Handler) : Prop :=
  match h with
  | OrderSocketUnsubscribe a => ∃ s, orderConnections w !! Address_Hex a = Some s ∧ c ∈ s
  | DepositSocketUnsubscribe a => ∃ s, depositConnections w !! Address_Hex a = Some s ∧ c ∈ s
  | ChannelUnsubscribe k id => subscribed (sockets w k) id c = true
  | SocketUnsubscribe _ => False
  end.

Definition no_duplicates (w : Ws) : Prop :=
  map_Forall (λ _, NoDup (A:=Client)) (orderConnections w) ∧
  map_Forall (λ _, NoDup (A:=Client)) (depositConnections w).

(** A registration of [c] may be gone; nothing else changed. *)
Record forgets (c : Client) (w w' : Ws) : Prop := {
  fg_nodup : no_duplicates w → no_duplicates w';
  fg_handlers : unsubscribeHandlers w' = unsubscribeHandlers w;
  fg_inbox : inbox w' = inbox w;
  fg_less c' h : knows w' c' h → knows w c' h;
  fg_others c' h : c' ≠ c → knows w c' h → knows w' c' h
}.

#[export] Instance forgets_preorder c : PreOrder (forgets c).
Proof.
  split; [by constructor; auto|].
  intros w1 w2 w3 [] []. constructor; try congruence; eauto.
Qed.

Lemma unsubscribe_channel_spec k id c w :
  let w' := set_socket k (unsubscribe_channel id c (sockets w k)) w in
  forgets c w w' ∧ ¬ knows w' c (ChannelUnsubscribe k id).
Proof.
  assert (∀ id' c', subscribed (unsubscribe_channel id c (sockets w k)) id' c' =
    if decide (id' = id ∧ c' = c) then false else subscribed (sockets w k) id' c') as Hs.
  { intros id' c'. unfold unsubscribe_channel. destruct (subscribed (sockets w k) id c) eqn:Hc.
    - unfold subscribed. simpl. destruct (decide (id' = id)) as [->|Hne].
      + rewrite lookup_alter_eq. unfold subscribed in Hc.
        destruct (subscriptions (sockets w k) !! id) as [m|]; [|done]. simpl.
        destruct (decide (c' = c)) as [->|Hc'].
        * rewrite decide_True by done. by rewrite lookup_delete_eq.
        * rewrite decide_False by tauto. by rewrite lookup_delete_ne, lookup_insert_ne.
      + rewrite lookup_alter_ne by done. by rewrite decide_False by tauto.
    - case_decide as Hd; [|done]. by destruct Hd as [-> ->]. }
  split.
  - constructor; [done|done|done|..].
    + intros c' [a|a|k' id'|k']; simpl; [done|done| |done].
      case_decide; subst; [|done]. rewrite Hs. by case_decide.
    + intros c' [a|a|k' id'|k'] Hne; simpl; [done|done| |done].
      case_decide; subst; [|done]. rewrite Hs. by rewrite decide_False by tauto.
  - simpl. rewrite decide_True, Hs by done. by rewrite decide_True.
Qed.

(** Taking a client out of the connections of one address. *)
Lemma removed_connected (m : gmap string (list Client)) key s c key' c' :
  m !! key = Some s →
  (∃ s', <[key := base.filter (λ x, x ≠ c) s]> m !! key' = Some s' ∧ c' ∈ s') ↔
  (∃ s', m !! key' = Some s' ∧ c' ∈ s') ∧ ¬ (key' = key ∧ c' = c).
Proof.
  intros Hs. destruct (decide (key' = key)) as [->|Hne].
  - rewrite lookup_insert_eq. split.
    + intros (s' & [= <-] & [Hc Hin]%list_elem_of_filter). split; [by exists s|tauto].
    + intros [(s' & Hs' & Hin) Hc]. eexists. split; [done|].
      apply list_elem_of_filter. split; [tauto|congruence].
  - rewrite lookup_insert_ne by done. split; [intros ?; split; [done|tauto]|tauto].
Qed.

Lemma removed_nodup (m : gmap string (list Client)) key s c :
  m !! key = Some s → map_Forall (λ _, NoDup (A:=Client)) m →
  map_Forall (λ _, NoDup (A:=Client)) (<[key := base.filter (λ x, x ≠ c) s]> m).
Proof. intros Hs Hm. apply map_Forall_insert_2; [|done]. apply NoDup_filter. by eapply Hm. Qed.

(** Every handler runs to its end, forgets what it is for, and touches nobody
    else's registrations. *)
Lemma run_handler_spec c h w :
  no_duplicates w →
  wp (run_handler c h) (λ r w', r = Ok tt ∧ forgets c w w' ∧ ¬ knows w' c h) w.
Proof.
  intros Hn. destruct h as [a|a|k id|k].
  - unfold run_handler, OrderSocketUnsubscribeHandler. apply wp_bind. unfold get, wp; simpl.
    destruct (orderConnections w !! Address_Hex a) as [s|] eqn:Hs; simpl.
    + rewrite (remove_client_spec c s) by (by eapply (proj1 Hn)). simpl.
      split; [done|]. split; [constructor|]; [|done|done|..].
      * intros [Ho Hd]. split; [|done]. by apply removed_nodup.
      * intros c' [a'|a'|k id|k]; simpl; [|done..]. rewrite removed_connected by done. tauto.
      * intros c' [a'|a'|k id|k] Hne; simpl; [|done..]. rewrite removed_connected by done. tauto.
      * simpl. rewrite removed_connected by done. tauto.
    + split; [done|]. split; [reflexivity|]. simpl. rewrite Hs. by intros (? & ? & _).
  - unfold run_handler, DepositSocketUnsubscribeHandler. apply wp_bind. unfold get, wp; simpl.
    destruct (depositConnections w !! Address_Hex a) as [s|] eqn:Hs; simpl.
    + rewrite (remove_client_spec c s) by (by eapply (proj2 Hn)). simpl.
      split; [done|]. split; [constructor|]; [|done|done|..].
      * intros [Ho Hd]. split; [done|]. by apply removed_nodup.
      * intros c' [a'|a'|k id|k]; simpl; [done| |done..]. rewrite removed_connected by done. tauto.
      * intros c' [a'|a'|k id|k] Hne; simpl; [done| |done..]. rewrite removed_connected by done. tauto.
      * simpl. rewrite removed_connected by done. tauto.
    + split; [done|]. split; [reflexivity|]. simpl. rewrite Hs. by intros (? & ? & _).
  - split; [done|]. apply unsubscribe_channel_spec.
  - unfold run_handler, Unsubscribe. apply wp_bind. unfold get, wp; simpl.
    destruct (subscriptionsList (sockets w k) !! c) as [ids|]; simpl;
      [|split; [done|split; [reflexivity|by intros []]]].
    change (wp (mforeach (λ id, UnsubscribeChannel k id c) ids)
      (λ r w', r = Ok tt ∧ forgets c w w' ∧ ¬ False) w).
    eapply wp_mono; [|apply (wp_mforeach _ (forgets c w) (λ _ _, False))]; [|..|reflexivity].
    + intros [[]|e|] w' Hw'; [|done..]. split; [done|split; [done|by intros []]].
    + intros id w1 _ Hw1. unfold wp, UnsubscribeChannel. simpl.
      etrans; [exact Hw1|]. apply unsubscribe_channel_spec.
Qed.

(** ** The invariant of the registries *)

(** No slice lists a client twice, and whoever is registered has the handler
    that undoes it. *)
Record ws_ok (w : Ws) : Prop := {
  ok_nodup : no_duplicates w;
  ok_handled c h : knows w c h → h ∈ handlers_of c w
}.

Lemma empty_ws_ok : ws_ok empty_ws.
Proof.
  split; [split; apply map_Forall_empty|].
  intros c [a|a|k id|k]; simpl; [by intros (? & ? & _)..|done|done].
Qed.

Lemma forgets_ok c w w' : forgets c w w' → ws_ok w → ws_ok w'.
Proof.
  intros Hf [Hn Hh]. split; [by apply Hf|]. intros c' h Hk. unfold handlers_of.
  rewrite (fg_handlers _ _ _ Hf). by apply Hh, (fg_less _ _ _ Hf).
Qed.

(** Only messages were delivered; a [writeHandler] that goes on still does. *)
Record sends (w w' : Ws) : Prop := {
  sd_orders : orderConnections w' = orderConnections w;
  sd_deposits : depositConnections w' = depositConnections w;
  sd_sockets : sockets w' = sockets w;
  sd_handlers : unsubscribeHandlers w' = unsubscribeHandlers w;
  sd_quits c : quits w !! c = None → quits w' !! c = None
}.
#[export] Instance sends_preorder : PreOrder sends.
Proof. split; [by constructor|]. intros w1 w2 w3 [] []. constructor; [congruence..|auto]. Qed.
Lemma sends_knows w w' c h : sends w w' → knows w' c h ↔ knows w c h.
Proof. intros [Ho Hd Hs Hh _]. destruct h; simpl; by rewrite ?Ho, ?Hd, ?Hs. Qed.
Lemma sends_ok w w' : sends w w' → ws_ok w → ws_ok w'.
Proof.
  intros Hw [[Ho Hd] Hh]. split.
  - split; [by rewrite (sd_orders _ _ Hw)|by rewrite (sd_deposits _ _ Hw)].
  - intros c h Hk. unfold handlers_of. rewrite (sd_handlers _ _ Hw). apply Hh. by apply (sends_knows _ _ _ _ Hw).
Qed.

Lemma handlers_registered c fn w :
  handlers_of c (RegisterConnectionUnsubscribeHandler c fn w).2 = handlers_of c w ++ [fn].
Proof. unfold handlers_of. simpl. by rewrite lookup_insert_eq. Qed.
Lemma handlers_registered_in c fn c' h w :
  h ∈ handlers_of c' w → h ∈ handlers_of c' (RegisterConnectionUnsubscribeHandler c fn w).2.
Proof.
  unfold handlers_of. simpl. destruct (decide (c' = c)) as [->|Hne].
  - rewrite lookup_insert_eq. simpl. intros Hin. apply elem_of_app. by left.
  - by rewrite lookup_insert_ne.
Qed.

(** Registering [c] for [fn], with its handler, keeps the invariant. *)
Lemma registered_ok c fn w w1 :
  ws_ok w → no_duplicates w1 → unsubscribeHandlers w1 = unsubscribeHandlers w →
  (∀ c' h, knows w1 c' h → knows w c' h ∨ (c' = c ∧ h = fn)) →
  ws_ok (RegisterConnectionUnsubscribeHandler c fn w1).2.
Proof.
  intros [Hn Hh] Hn1 Heq Hk. split; [exact Hn1|]. intros c' h Hkn.
  assert (knows w1 c' h) as Hkn1 by (by destruct h).
  destruct (Hk c' h Hkn1) as [Hw|[-> ->]].
  - apply handlers_registered_in. unfold handlers_of. rewrite Heq. by apply Hh.
  - rewrite handlers_registered. apply elem_of_app. right. by left.
Qed.

Lemma isClientConnected_spec s c : isClientConnected s c = true ↔ c ∈ s.
Proof.
  induction s as [|x s IH]; simpl; [split; [done|by intros ?%elem_of_nil]|].
  rewrite elem_of_cons. case_decide; subst; [tauto|]. rewrite IH. split; [tauto|].
  by intros [->|?].
Qed.

(** A client that is added to the connections of an address. *)
Lemma added_connected (m : gmap string (list Client)) key s c key' c' :
  default [] (m !! key) = s →
  (∃ s', <[key := s ++ [c]]> m !! key' = Some s' ∧ c' ∈ s') →
  (∃ s', m !! key' = Some s' ∧ c' ∈ s') ∨ (c' = c ∧ key' = key).
Proof.
  intros <-. destruct (decide (key' = key)) as [->|Hne].
  - rewrite lookup_insert_eq. intros (s' & [= <-] & [Hin|Hin]%elem_of_app).
    + destruct (m !! key) as [s|]; [left; by exists s|by apply elem_of_nil in Hin].
    + apply list_elem_of_singleton in Hin. auto.
  - rewrite lookup_insert_ne by done. auto.
Qed.
Lemma added_nodup (m : gmap string (list Client)) key s c :
  default [] (m !! key) = s → c ∉ s → map_Forall (λ _, NoDup (A:=Client)) m →
  map_Forall (λ _, NoDup (A:=Client)) (<[key := s ++ [c]]> m).
Proof.
  intros <- Hni Hm. apply map_Forall_insert_2; [|done]. apply NoDup_app.
  split_and!; [| |apply NoDup_singleton].
  - destruct (m !! key) as [s|] eqn:Hs; [by eapply Hm|apply NoDup_nil_2].
  - intros x Hx ->%list_elem_of_singleton. contradiction.
Qed.

Lemma RegisterOrderConnection_ok a c w :
  ws_ok w → wp (RegisterOrderConnection a c) (λ r w', r = Ok tt ∧ ws_ok w' ∧
    knows w' c (OrderSocketUnsubscribe a) ∧ inbox w' = inbox w) w.
Proof.
  intros Hok. unfold RegisterOrderConnection, wp, mbind, M_bind, get. simpl.
  assert (∀ s, default [] (orderConnections w !! Address_Hex a) = s → c ∉ s →
    ws_ok (RegisterConnectionUnsubscribeHandler c (OrderSocketUnsubscribe a)
      (set_orderConnections <[Address_Hex a := s ++ [c]]> w)).2) as Hadd.
  { intros s Hs Hni. apply (registered_ok c _ w); [done| |done|].
    - destruct (ok_nodup w Hok). split; [by apply added_nodup|done].
    - intros c' [a'|a'|k id|k]; simpl; [|auto..]. intros Hk.
      destruct (added_connected _ _ _ _ _ _ Hs Hk) as [?|[-> ->%(inj Address_Hex)]]; auto. }
  destruct (orderConnections w !! Address_Hex a) as [s|] eqn:Hs; simpl.
  - rewrite Hs. destruct (isClientConnected s c) eqn:Hc.
    + split_and!; [done|done| |done]. exists s. split; [done|]. by apply isClientConnected_spec.
    + split; [done|]. split; [apply Hadd; [done|]|split; [|done]].
      * intros Hin%isClientConnected_spec. congruence.
      * simpl. rewrite lookup_insert_eq. eexists. split; [done|]. apply elem_of_app. right. by left.
  - rewrite lookup_insert_eq. simpl. rewrite decide_True by done.
    split; [done|]. split; [apply (Hadd []); [done|apply not_elem_of_nil]|split; [|done]].
    simpl. rewrite lookup_insert_eq. eexists. split; [done|]. by left.
Qed.

Lemma RegisterDepositConnection_ok a c w :
  ws_ok w → wp (RegisterDepositConnection a c) (λ r w', r = Ok tt ∧ ws_ok w' ∧
    knows w' c (DepositSocketUnsubscribe a) ∧ inbox w' = inbox w) w.
Proof.
  intros Hok. unfold RegisterDepositConnection, wp, mbind, M_bind, get. simpl.
  assert (∀ s, default [] (depositConnections w !! Address_Hex a) = s → c ∉ s →
    ws_ok (RegisterConnectionUnsubscribeHandler c (DepositSocketUnsubscribe a)
      (set_depositConnections <[Address_Hex a := s ++ [c]]> w)).2) as Hadd.
  { intros s Hs Hni. apply (registered_ok c _ w); [done| |done|].
    - destruct (ok_nodup w Hok). split; [done|by apply added_nodup].
    - intros c' [a'|a'|k id|k]; simpl; [auto| |auto..]. intros Hk.
      destruct (added_connected _ _ _ _ _ _ Hs Hk) as [?|[-> ->%(inj Address_Hex)]]; auto. }
  destruct (depositConnections w !! Address_Hex a) as [s|] eqn:Hs; simpl.
  - rewrite Hs. destruct (isClientConnected s c) eqn:Hc.
    + split_and!; [done|done| |done]. exists s. split; [done|]. by apply isClientConnected_spec.
    + split; [done|]. split; [apply Hadd; [done|]|split; [|done]].
      * intros Hin%isClientConnected_spec. congruence.
      * simpl. rewrite lookup_insert_eq. eexists. split; [done|]. apply elem_of_app. right. by left.
  - rewrite lookup_insert_eq. simpl. rewrite decide_True by done.
    split; [done|]. split; [apply (Hadd []); [done|apply not_elem_of_nil]|split; [|done]].
    simpl. rewrite lookup_insert_eq. eexists. split; [done|]. by left.
Qed.

Lemma SubscribeClient_ok k id c w :
  ws_ok w → wp (SubscribeClient k id c) (λ r w', r = Ok tt ∧ ws_ok w' ∧
    knows w' c (ChannelUnsubscribe k id) ∧ inbox w' = inbox w) w.
Proof.
  intros Hok. unfold SubscribeClient, Subscribe, wp, mbind, M_bind, get, modify. simpl.
  set (s := mkSocket _ _).
  assert (∀ id' c', subscribed s id' c' =
    if decide (id' = id ∧ c' = c) then true else subscribed (sockets w k) id' c') as Hs.
  { intros id' c'. unfold subscribed, s. simpl. destruct (decide (id' = id)) as [->|Hne].
    - rewrite lookup_insert_eq. destruct (decide (c' = c)) as [->|Hc].
      + by rewrite decide_True, lookup_insert_eq.
      + rewrite decide_False, lookup_insert_ne by naive_solver.
        by destruct (subscriptions (sockets w k) !! id).
    - by rewrite decide_False, lookup_insert_ne by naive_solver. }
  split; [done|]. split; [|split; [|done]].
  - apply (registered_ok c (ChannelUnsubscribe k id) w); [done|by apply Hok|done|].
    intros c' [a|a|k' id'|k']; simpl; [auto..| |auto].
    destruct (decide (k' = k)) as [->|]; [|auto]. rewrite Hs. case_decide as Hd; [|auto].
    destruct Hd as [-> ->]. auto.
  - simpl. rewrite decide_True, Hs by done. by rewrite decide_True.
Qed.

(** ** Delivery *)
Definition received (w : Ws) (c : Client) : list WebsocketMessage := default [] (inbox w !! c).

(** [m] was delivered, once, to the clients of [P] and to nobody else. *)
Definition delivered_to (P : Client → Prop) `{∀ c, Decision (P c)} (m : WebsocketMessage)
    (w w' : Ws) : Prop :=
  sends w w' ∧ ∀ c, received w' c = received w c ++ (if decide (P c) then [m] else []).

(** The [writeHandler] of [c] receives a message more. *)
Definition listens (w : Ws) (c : Client) : Prop := quits w !! c ≠ Some O.
(** What becomes of [m], which is sent to each client of [P]: they all get it, or the
    sender is stuck for ever at one of them that no longer listens, and some of the
    others got it; it is stuck just when one of them does not listen. *)
Definition sent_to (P : Client → Prop) `{∀ c, Decision (P c)} (m : WebsocketMessage) (w : Ws)
    (r : outcome unit) (w' : Ws) : Prop :=
  sends w w' ∧ (r = Ok tt ↔ ∀ c, P c → listens w c) ∧
  match r with
  | Ok _ => stuck w' = stuck w ∧ ∀ c, received w' c = received w c ++ (if decide (P c) then [m] else [])
  | Err _ => False
  | Panic => ∃ (c : Client) (told : list Client), P c ∧ ¬ listens w c ∧ stuck w' = stuck w ++ [(c, m)] ∧
      (∀ c', c' ∈ told → P c' ∧ listens w c') ∧
      ∀ c', received w' c' = received w c' ++ (if decide (c' ∈ told) then [m] else [])
  end.
Lemma received_deliver c m c' w :
  received (deliver c m w) c' = received w c' ++ (if decide (c' = c) then [m] else []).
Proof.
  unfold received, deliver. simpl. destruct (decide (c' = c)) as [->|Hne].
  - by rewrite lookup_insert_eq.
  - by rewrite lookup_insert_ne, app_nil_r.
Qed.

(** One send. *)
Lemma send_on_ok c m w :
  wp (send_on c m) (λ r w', sent_to (λ c', c' = c) m w r w' ∧
    (∀ c', c' ≠ c → quits w' !! c' = quits w !! c')) w.
Proof.
  unfold wp, send_on, sent_to, listens. destruct (quits w !! c) as [[|n]|] eqn:Hq; simpl.
  - split_and!; [done|split; [done|intros Hall; by destruct (Hall c)]| |done].
    exists c, []. split_and!; [done|by rewrite Hq; intros []|done|by intros c' ?%elem_of_nil|].
    intros c'. rewrite decide_False by apply not_elem_of_nil. by rewrite app_nil_r.
  - split_and!; [|split; [by intros _ c' ->; rewrite Hq|done]|done|intros c'; apply (received_deliver c m c' w)|].
    + constructor; [done..|]. intros c' Hc'. simpl. rewrite lookup_insert_ne; [done|congruence].
    + intros c' Hne. by rewrite lookup_insert_ne.
  - split_and!; [done|split; [by intros _ c' ->; rewrite Hq|done]|done|intros c'; apply received_deliver|done].
Qed.

Lemma send_loop channel type p l w :
  NoDup l →
  wp (mforeach (λ c, SendMessage c channel type p) l) 
    (sent_to (λ c, c ∈ l) (mkWebsocketMessage channel type "" p) w) w.
Proof.
  set (m := mkWebsocketMessage channel type "" p).
  revert w. induction l as [|c l IH]; intros w Hl.
  - split; [done|]. split; [split; [by intros _ c ?%elem_of_nil|done]|]. split; [done|].
    intros c. by rewrite decide_False, app_nil_r by apply not_elem_of_nil.
  - apply NoDup_cons in Hl as [Hni Hl]. cbn [mforeach]. apply wp_bind.
    eapply wp_mono; [|apply (send_on_ok c m w)]. intros r w1 [(Hs1 & Hr1 & Hw1) Hq1].
    assert (∀ c', c' ∈ l → listens w1 c' ↔ listens w c') as Hlis.
    { intros c' Hc'. unfold listens. rewrite Hq1; [done|]. by intros ->. }
    destruct r as [[]|e|]; cbn [wp_next]; [|done|].
    + destruct Hw1 as [Hst1 Hw1]. pose proof (proj1 Hr1 eq_refl c eq_refl) as Hc.
      eapply wp_mono; [|apply (IH w1 Hl)]. intros r w2 (Hs2 & Hr2 & Hw2).
      split_and!; [by etrans| |].
      * rewrite Hr2. split; [intros Hall c' [->|Hc']%elem_of_cons; [done|by apply Hlis, Hall]|].
        intros Hall c' Hc'. apply Hlis; [done|]. apply Hall. by right.
      * destruct r as [[]|e|]; [|done|].
        -- destruct Hw2 as [Hst2 Hw2]. split; [congruence|]. intros c'. rewrite Hw2, Hw1.
           destruct (decide (c' = c)) as [->|Hne].
           ++ rewrite (decide_False (P := c ∈ l)) by done. rewrite app_nil_r. by rewrite decide_True by (by left).
           ++ rewrite app_nil_r. f_equal. apply decide_ext. rewrite elem_of_cons. tauto.
        -- destruct Hw2 as (x & told & Hx & Hxl & Hst2 & Htold & Hw2). exists x, (c :: told).
           assert (c ∉ told) as Hct by (intros Hin; by apply Hni, Htold).
           split_and!; [by right|by rewrite <-Hlis|congruence| |].
           ++ intros c' [->|Hc']%elem_of_cons; [split; [by left|done]|].
              destruct (Htold c' Hc') as [Hin Hl']. split; [by right|by apply Hlis].
           ++ intros c'. rewrite Hw2, Hw1. destruct (decide (c' = c)) as [->|Hne].
              ** rewrite (decide_False (P := c ∈ told)) by done. rewrite app_nil_r. by rewrite decide_True by (by left).
              ** rewrite app_nil_r. f_equal. apply decide_ext. rewrite elem_of_cons. tauto.
    + destruct Hw1 as (x & told & -> & Hc & Hst1 & Htold & Hw1).
      assert (told = [] ∨ c ∈ told) as Htl.
      { destruct told as [|y told]; [by left|right]. destruct (Htold y) as [-> Hy]; [by left|by left]. }
      destruct Htl as [->|Hin]; [|by destruct (Htold c Hin)].
      split_and!; [done| |].
      * split; [done|]. intros Hall. destruct Hc. apply Hall. by left.
      * exists c, []. split_and!; [by left|done|done|by intros c' ?%elem_of_nil|exact Hw1].
Qed.

Lemma sent_to_ext P Q `{∀ c, Decision (P c), ∀ c, Decision (Q c)} m w r w' :
  (∀ c, P c ↔ Q c) → sent_to P m w r w' → sent_to Q m w r w'.
Proof.
  intros HPQ (Hs & Hr & Hw). split_and!; [done|rewrite Hr; split; intros Hall c Hc; apply Hall; by apply HPQ|].
  destruct r as [[]|e|]; [|done|].
  - destruct Hw as [Hst Hw]. split; [done|]. intros c. rewrite Hw. f_equal. by apply decide_ext.
  - destruct Hw as (c & told & Hc & Hl & Hst & Ht & Hw). exists c, told.
    split_and!; [by apply HPQ|done|done| |done]. intros c' Hc'. rewrite <-HPQ. by apply Ht.
Qed.
(** The send that is stuck is to a client whose [writeHandler] is to return. *)
Lemma sent_to_stuck P `{∀ c, Decision (P c)} m w0 w w' :
  sends w0 w → sent_to P m w Panic w' → ∃ c, P c ∧ quits w0 !! c ≠ None.
Proof.
  intros Hs (_ & _ & c & told & Hc & Hl & _). exists c. split; [done|].
  intros Hq. apply Hl. unfold listens. by rewrite (sd_quits _ _ Hs c Hq).
Qed.
Lemma sent_to_done P `{∀ c, Decision (P c)} m w w' :
  sent_to P m w (Ok tt) w' → delivered_to P m w w'.
Proof. by intros (Hs & _ & _ & Hd). Qed.

#[export] Instance knows_dec w c h : Decision (knows w c h).
Proof.
  destruct h as [a|a|k id|k]; simpl; [..|apply _|apply _].
  - destruct (orderConnections w !! Address_Hex a) as [s|].
    + destruct (decide (c ∈ s)); [left; by exists s|right; by intros (? & [= <-] & ?)].
    + right. by intros (? & ? & _).
  - destruct (depositConnections w !! Address_Hex a) as [s|].
    + destruct (decide (c ∈ s)); [left; by exists s|right; by intros (? & [= <-] & ?)].
    + right. by intros (? & ? & _).
Defined.

Lemma NoDup_fmap_filter {A B} (f : A → B) P `{∀ x, Decision (P x)} (l : list A) :
  NoDup (f <$> l) → NoDup (f <$> base.filter P l).
Proof.
  induction l as [|x l IH]; [done|]. rewrite fmap_cons. intros [Hni Hl]%NoDup_cons.
  rewrite filter_cons. destruct (decide (P x)); [|by apply IH].
  rewrite fmap_cons. apply NoDup_cons. split; [|by apply IH].
  intros (y & Hxy & [_ Hy]%list_elem_of_filter)%list_elem_of_fmap.
  apply Hni. rewrite Hxy. apply list_elem_of_fmap_2, Hy.
Qed.

Lemma targets_spec k id w : NoDup (targets k id w) ∧
  ∀ c, c ∈ targets k id w ↔ knows w c (ChannelUnsubscribe k id).
Proof.
  unfold targets. simpl. unfold subscribed.
  set (m := default ∅ (subscriptions (sockets w k) !! id)). split.
  - apply NoDup_fmap_filter, NoDup_fst_map_to_list.
  - intros c. rewrite list_elem_of_fmap.
    assert (m !! c = (subscriptions (sockets w k) !! id) ≫= (λ m, m !! c)) as Hm
      by (unfold m; by destruct (subscriptions (sockets w k) !! id)).
    split.
    + intros ([c' b] & -> & [Hb Hin]%list_elem_of_filter). simpl in *. subst b.
      apply elem_of_map_to_list in Hin. rewrite Hm in Hin.
      destruct (subscriptions (sockets w k) !! id); [|done]. simpl in *. by rewrite Hin.
    + intros Hs. exists (c, true). split; [done|]. apply list_elem_of_filter. split; [done|].
      apply elem_of_map_to_list. rewrite Hm.
      destruct (subscriptions (sockets w k) !! id) as [m'|]; [|done]. simpl in *.
      destruct (m' !! c) as [[]|]; done.
Qed.

Lemma broadcast_now_ok k id p w :
  wp (broadcast_now k id p)
    (sent_to (λ c, knows w c (ChannelUnsubscribe k id)) (mkWebsocketMessage (channel_of k) "UPDATE" "" p) w) w.
Proof.
  destruct (targets_spec k id w) as [Hn Ht]. unfold broadcast_now. apply wp_bind.
  unfold get, wp at 1. simpl. eapply wp_mono; [|apply (send_loop (channel_of k) "UPDATE" p _ w Hn)].
  intros r w' Hd. eapply sent_to_ext; [exact Ht|exact Hd].
Qed.

Lemma BroadcastMessage_sends k id p w : wp (BroadcastMessage k id p) (λ _ w', sends w w') w.
Proof.
  destruct k; [done|..]; (eapply wp_mono; [|apply broadcast_now_ok]); by intros r w' [Hs _].
Qed.

(** A pending trade broadcast goes to those subscribed when it runs. *)
Lemma run_pending_ok i w :
  wp (run_pending i) (λ r w', sends w w' ∧
    ∀ id p, pending w !! i = Some (id, p) →
      sent_to (λ c, knows w c (ChannelUnsubscribe TradeSocket id)) (mkWebsocketMessage "trades" "UPDATE" "" p) w r w') w.
Proof.
  unfold run_pending. apply wp_bind. unfold get, wp at 1. simpl.
  destruct (pending w !! i) as [[id p]|] eqn:Hi; [|by apply wp_ret].
  apply wp_bind. unfold modify, wp at 1. cbn [fst snd wp_next].
  eapply wp_mono; [|apply broadcast_now_ok]. intros r w' Hd.
  assert (sends w (set_pending (delete i) w)) as Hs0 by done.
  split; [etrans; [exact Hs0|apply Hd]|]. intros id' p' [= <- <-].
  destruct Hd as (Hs & Hr & Hw). split_and!; [by etrans|exact Hr|exact Hw].
Qed.

Lemma SendOrderMessage_ok type a p w :
  no_duplicates w →
  wp (SendOrderMessage type a p)
    (sent_to (λ c, knows w c (OrderSocketUnsubscribe a)) (mkWebsocketMessage OrderChannel type "" p) w) w.
Proof.
  intros [Hn _]. unfold SendOrderMessage, GetOrderConnections. apply wp_bind.
  unfold get, wp at 1. cbn [fst snd wp_next].
  destruct (orderConnections w !! Address_Hex a) as [s|] eqn:Hs.
  - assert (∀ c, c ∈ s ↔ knows w c (OrderSocketUnsubscribe a)) as Hk.
    { intros c. split; [by exists s|]. intros (s' & Hs' & ?). by simplify_eq. }
    eapply wp_mono; [|apply (send_loop OrderChannel type p s w); by eapply Hn].
    intros r w' Hd. eapply sent_to_ext; [exact Hk|exact Hd].
  - assert (∀ c, ¬ knows w c (OrderSocketUnsubscribe a)) as Hk by (intros c (s & Hs' & _); by simplify_eq).
    apply wp_ret. split; [done|]. split; [by split; [intros _ c Hc%Hk|]|]. split; [done|].
    intros c. by rewrite decide_False, app_nil_r by apply Hk.
Qed.
Lemma SendDepositMessage_ok type a p w :
  wp (SendDepositMessage type a p) (λ _ w', sends w w') w.
Proof.
  unfold SendDepositMessage. apply wp_bind. unfold get, wp at 1. simpl.
  destruct (GetDepositConnections a w) as [s|]; [|by apply wp_ret].
  eapply wp_mono; [|apply (wp_mforeach _ (sends w) (λ _ w', sends w w'))]; [by intros []| |done].
  intros c w1 _ Hw1. eapply wp_mono; [|apply send_on_ok]. intros r w' [[Hs _] _].
  assert (sends w w') by (by etrans). by destruct r.
Qed.

(** ** Runs *)
Lemma ws_step_ok w w' : ws_step w w' → ws_ok w → ws_ok w'.
Proof.
  intros Hst Hok. pose proof (ok_nodup w Hok) as Hn. inversion_clear Hst as
    [c ? r ? Hr|a c ? r ? Hr|a c ? r ? Hr|k id c ? r ? Hr|k id c ? r ? Hr|k c ? r ? Hr|c ch ty p ? r ? Hr
    |ty a p ? r ? Hr|ty a p ? r ? Hr|k id p ? r ? Hr|i ? r ? Hr|c h ? r ? Hin Hr|c n ? Hq].
  - unfold NewClient, mbind, M_bind, get, modify in Hr. simpl in Hr.
    destruct (unsubscribeHandlers w !! c) eqn:Hc; injection Hr as <- <-; [done|].
    split; [exact Hn|]. intros c' h Hk. assert (knows w c' h) as Hk' by (by destruct h).
    apply Hok in Hk'. unfold handlers_of in *. simpl.
    rewrite lookup_insert_ne; [done|]. intros ->. rewrite Hc in Hk'. by apply elem_of_nil in Hk'.
  - by apply (wp_run _ _ _ _ _ Hr (RegisterOrderConnection_ok a c w Hok)).
  - by apply (wp_run _ _ _ _ _ Hr (RegisterDepositConnection_ok a c w Hok)).
  - by apply (wp_run _ _ _ _ _ Hr (SubscribeClient_ok k id c w Hok)).
  - eapply forgets_ok; [|done].
    apply (wp_run _ _ _ _ _ Hr (run_handler_spec c (ChannelUnsubscribe k id) w Hn)).
  - eapply forgets_ok; [|done].
    apply (wp_run _ _ _ _ _ Hr (run_handler_spec c (SocketUnsubscribe k) w Hn)).
  - eapply sends_ok; [|done]. apply (wp_run _ _ _ _ _ Hr (send_on_ok c _ w)).
  - eapply sends_ok; [|done]. apply (wp_run _ _ _ _ _ Hr (SendOrderMessage_ok ty a p w Hn)).
  - eapply sends_ok; [|done]. apply (wp_run _ _ _ _ _ Hr (SendDepositMessage_ok ty a p w)).
  - eapply sends_ok; [|done]. apply (wp_run _ _ _ _ _ Hr (BroadcastMessage_sends k id p w)).
  - eapply sends_ok; [|done]. apply (wp_run _ _ _ _ _ Hr (run_pending_ok i w)).
  - eapply forgets_ok; [|done]. apply (wp_run _ _ _ _ _ Hr (run_handler_spec c h w Hn)).
  - destruct Hok as [_ Hh]. by split.
Qed.

Lemma ws_reachable_ok w : rtc ws_step empty_ws w → ws_ok w.
Proof.
  assert (∀ w1 w2, rtc ws_step w1 w2 → ws_ok w1 → ws_ok w2) as Hind.
  { induction 1 as [|w1 w2 w3 Hst _ IH]; [done|]. intros Hok. eapply IH, ws_step_ok; eauto. }
  intros Hr. apply (Hind _ _ Hr), empty_ws_ok.
Qed.

Lemma closeConnection_spec c hs w :
  no_duplicates w →
  wp (closeConnection c hs) (λ r w', r = Ok tt ∧ forgets c w w' ∧
    ∀ h, h ∈ hs → ¬ knows w' c h) w.
Proof.
  revert w. induction hs as [|h hs IH]; intros w Hn; unfold closeConnection.
  - split; [done|]. split; [reflexivity|]. by intros h ?%elem_of_nil.
  - cbn [mforeach]. apply wp_bind. eapply wp_mono; [|apply (run_handler_spec c h w Hn)].
    intros r w1 (-> & Hf1 & Hh). simpl.
    eapply wp_mono; [|apply (IH w1); by apply Hf1]. intros r w2 (-> & Hf2 & Hhs).
    split; [done|]. split; [by etrans|]. intros h' [->|Hin]%elem_of_cons; [|auto].
    intros Hk. by apply Hh, (fg_less _ _ _ Hf2).
Qed.

(** In every reachable state of the WebSocket registries, no list of
    connections names a client twice, and a client that is registered for an
    address or a channel has, among the handlers its closing connection runs,
    the one that undoes the registration. *)
Theorem ws_registries_ok w :
  rtc ws_step empty_ws w →
  (∀ key s, orderConnections w !! key = Some s ∨ depositConnections w !! key = Some s → NoDup s) ∧
  (∀ c h, knows w c h → h ∈ handlers_of c w).
Proof.
  intros [[Ho Hd] Hh]%ws_reachable_ok. split; [|done].
  intros key s [Hs|Hs]; [by eapply Ho|by eapply Hd].
Qed.

(** C16: closing a connection always succeeds, whatever the order its handlers
    run in, and afterwards no registry knows the client: no broadcast and no
    message to an address reaches it again.  The other clients keep their
    registrations, and nothing is sent. *)
Theorem closeConnection_forgets w c hs :
  rtc ws_step empty_ws w → hs ≡ₚ handlers_of c w →
  ∃ w', closeConnection c hs w = (Ok tt, w') ∧ inbox w' = inbox w ∧
    (∀ h, ¬ knows w' c h) ∧
    (∀ c' h, c' ≠ c → knows w' c' h ↔ knows w c' h).
Proof.
  intros Hok%ws_reachable_ok Hp. destruct (closeConnection c hs w) as [r w'] eqn:Hrun.
  destruct (wp_run _ _ _ _ _ Hrun (closeConnection_spec c hs w (ok_nodup w Hok)))
    as (-> & Hf & Hno).
  exists w'. split; [done|]. split; [by apply Hf|]. split.
  - intros h Hk. apply (Hno h); [|done]. rewrite Hp. apply Hok. by apply (fg_less _ _ _ Hf).
  - intros c' h Hne. split; [apply Hf|by apply (fg_others _ _ _ Hf)].
Qed.

(** C17: a broadcast on a channel goes to the clients subscribed to it: at once on the
    order book, raw order book and OHLCV sockets, and on the trade socket when the
    goroutine it starts is run, to those subscribed at that moment; in a reachable
    state, a message to an address goes to its connections.  It comes back exactly when
    the [writeHandler] of each of them still receives, and then each has got the message
    once and nobody else anything.  Otherwise the sender waits for ever at one whose
    [writeHandler] has returned, and of the others some have got it, once. *)
Theorem messages_delivered_once w k id a type p :
  rtc ws_step empty_ws w →
  (k ≠ TradeSocket → wp (BroadcastMessage k id p)
    (sent_to (λ c, subscribed (sockets w k) id c = true) (mkWebsocketMessage (channel_of k) "UPDATE" "" p) w) w) ∧
  (∀ i, pending w !! i = Some (id, p) → wp (run_pending i)
    (sent_to (λ c, subscribed (sockets w TradeSocket) id c = true) (mkWebsocketMessage "trades" "UPDATE" "" p) w) w) ∧
  wp (SendOrderMessage type a p)
    (sent_to (λ c, c ∈ default [] (GetOrderConnections a w)) (mkWebsocketMessage OrderChannel type "" p) w) w.
Proof.
  intros Hok%ws_reachable_ok. split_and!.
  - intros Hk. assert (BroadcastMessage k id p = broadcast_now k id p) as -> by (by destruct k).
    eapply wp_mono; [|apply broadcast_now_ok]. intros r w' Hd. eapply sent_to_ext; [|exact Hd]. done.
  - intros i Hi. eapply wp_mono; [|apply run_pending_ok]. intros r w' [_ Hd].
    eapply sent_to_ext; [|exact (Hd id p Hi)]. done.
  - eapply wp_mono; [|apply SendOrderMessage_ok, Hok]. intros r w' Hd. eapply sent_to_ext; [|exact Hd].
    intros c. unfold GetOrderConnections. simpl. destruct (orderConnections w !! Address_Hex a) as [s|]; simpl.
    + split; [by intros (? & [= <-] & ?)|by exists s].
    + split; [by intros (? & ? & _)|by intros ?%elem_of_nil].
Qed.
End registries.

(** ** Witnesses *)
Section witnesses.
#[local] Existing Instance toy_eth.
#[local] Existing Instance toy_eth_laws.

(** Two clients of an address, the first also on a trade channel. *)
Definition demo_ws : Ws :=
  (SubscribeClient TradeSocket "x" 1%nat
    (RegisterOrderConnection 5 2%nat (RegisterOrderConnection 5 1%nat empty_ws).2).2).2.

Lemma demo_ws_reachable : rtc ws_step empty_ws demo_ws.
Proof.
  eapply rtc_l; [by eapply (step_order 5 1%nat)|].
  eapply rtc_l; [by eapply (step_order 5 2%nat)|].
  eapply rtc_l; [by eapply (step_subscribe TradeSocket "x" 1%nat)|]. apply rtc_refl.
Defined.

Lemma ws_registries_ok_witness :
  rtc ws_step empty_ws demo_ws ∧ knows demo_ws 1%nat (OrderSocketUnsubscribe 5) ∧
  OrderSocketUnsubscribe 5 ∈ handlers_of 1%nat demo_ws.
Proof.
  split; [exact demo_ws_reachable|].
  assert (knows demo_ws 1%nat (OrderSocketUnsubscribe 5)) as Hk by (by exists [1; 2]%nat; repeat constructor).
  split; [exact Hk|]. destruct (ws_registries_ok demo_ws demo_ws_reachable) as [_ H]. by apply H.
Defined.

Lemma closeConnection_forgets_witness :
  ∃ w', closeConnection 1%nat (reverse (handlers_of 1%nat demo_ws)) demo_ws = (Ok tt, w') ∧
    ¬ knows w' 1%nat (OrderSocketUnsubscribe 5) ∧ knows w' 2%nat (OrderSocketUnsubscribe 5).
Proof.
  destruct (closeConnection_forgets demo_ws 1%nat (reverse (handlers_of 1%nat demo_ws)) demo_ws_reachable
    (reverse_Permutation _)) as (w' & Hr & _ & Hn & Ho).
  exists w'. split; [exact Hr|]. split; [apply Hn|]. apply Ho; [done|].
  exists [1; 2]%nat. split; [reflexivity|]. repeat constructor.
Defined.

(** The [writeHandler] of the first client has returned. *)
Definition quit_ws : Ws := set_quits <[1%nat := O]> demo_ws.
Lemma quit_ws_reachable : rtc ws_step empty_ws quit_ws.
Proof.
  eapply rtc_r; [exact demo_ws_reachable|]. by apply (step_quit 1%nat 0).
Defined.

(** Both get the message; once the first one's [writeHandler] has returned, the sender
    waits at it for ever. *)
Lemma messages_delivered_once_witness :
  (∃ w', SendOrderMessage "ORDER_ADDED" 5 PNil demo_ws = (Ok tt, w') ∧
    received w' 2%nat = [mkWebsocketMessage OrderChannel "ORDER_ADDED" "" PNil] ∧ received w' 3%nat = []) ∧
  (∃ w', SendOrderMessage "ORDER_ADDED" 5 PNil quit_ws = (Panic, w') ∧ received w' 3%nat = []).
Proof.
  split.
  - destruct (messages_delivered_once demo_ws TradeSocket "x" 5 "ORDER_ADDED" PNil demo_ws_reachable)
      as (_ & _ & Hs).
    destruct (SendOrderMessage "ORDER_ADDED" 5 PNil demo_ws) as [r w'] eqn:Hrun.
    destruct (wp_run _ _ _ _ _ Hrun Hs) as (_ & Hr & Hd).
    assert (r = Ok tt) as -> by (apply Hr; intros c _; unfold listens; change (quits demo_ws) with (∅ : gmap Client nat);
      by rewrite lookup_empty).
    exists w'. split; [reflexivity|]. destruct Hd as [_ Hd]. by rewrite !Hd.
  - destruct (messages_delivered_once quit_ws TradeSocket "x" 5 "ORDER_ADDED" PNil quit_ws_reachable)
      as (_ & _ & Hs).
    destruct (SendOrderMessage "ORDER_ADDED" 5 PNil quit_ws) as [r w'] eqn:Hrun.
    destruct (wp_run _ _ _ _ _ Hrun Hs) as (_ & Hr & Hd). destruct r as [[]|e|]; [|done|].
    + exfalso. by apply (proj1 Hr eq_refl 1%nat); [repeat constructor|].
    + exists w'. split; [reflexivity|]. destruct Hd as (c & told & _ & _ & _ & Ht & Hd).
      rewrite (Hd 3%nat), decide_False; [done|]. intros [H3 _]%Ht.
      change (3%nat ∈ [1%nat; 2%nat]) in H3. set_solver.
Defined.
End witnesses.
