(* ===== verification/Services.v ===== *)
(** What the services share: the collections, the Ethereum provider, the broker
    and the WebSocket registries, and [utils.Retry] and the channel names of
    [utils/common.go]. *)
From Stdlib Require Import Ascii.
From S2P Require Import Prelude BigMath Types Mongo Json MatchTypes Rabbit Engine Ws.

(** [interfaces.EthereumProvider], the calls the validator makes. *)
Class IEthereumProvider (ES : Type) := {
  BalanceOf : Address → Address → M ES Z;
  Allowance : Address → Address → Address → M ES Z
}.

(** A call reads the chain; it may fail, and it changes no balance. *)
Class EthereumProviderSpec (ES : Type) `{IEthereumProvider ES} := {
  balance : ES → Address → Address → Z;
  allowance : ES → Address → Address → Address → Z;
  BalanceOf_spec a t s : wp (BalanceOf a t) (λ r s',
    balance s' = balance s ∧ allowance s' = allowance s ∧
    match r with Ok v => v = balance s a t | Err _ => True | Panic => False end) s;
  Allowance_spec a o t s : wp (Allowance a o t) (λ r s',
    balance s' = balance s ∧ allowance s' = allowance s ∧
    match r with Ok v => v = allowance s a o t | Err _ => True | Panic => False end) s
}.

(** The state of the whole server. *)
Record Services (OS TS PS ES B : Type) := mkServices {
  s_orders : OS;
  s_trades : TS;
  s_pairs : PS;
  s_eth : ES;
  s_broker : Connection B;
  s_ws : Ws
}.
Arguments mkServices {OS TS PS ES B}. Arguments s_orders {OS TS PS ES B}.
Arguments s_trades {OS TS PS ES B}. Arguments s_pairs {OS TS PS ES B}.
Arguments s_eth {OS TS PS ES B}. Arguments s_broker {OS TS PS ES B}.
Arguments s_ws {OS TS PS ES B}.

Section lenses.
Context {OS TS PS ES B : Type}.
#[local] Abbreviation Services := (Services OS TS PS ES B).
Definition on_orders : lens Services OS :=
  Lens s_orders (λ x w, mkServices x (s_trades w) (s_pairs w) (s_eth w) (s_broker w) (s_ws w)).
Definition on_trades : lens Services TS :=
  Lens s_trades (λ x w, mkServices (s_orders w) x (s_pairs w) (s_eth w) (s_broker w) (s_ws w)).
Definition on_pairs : lens Services PS :=
  Lens s_pairs (λ x w, mkServices (s_orders w) (s_trades w) x (s_eth w) (s_broker w) (s_ws w)).
Definition on_eth : lens Services ES :=
  Lens s_eth (λ x w, mkServices (s_orders w) (s_trades w) (s_pairs w) x (s_broker w) (s_ws w)).
Definition on_broker : lens Services (Connection B) :=
  Lens s_broker (λ x w, mkServices (s_orders w) (s_trades w) (s_pairs w) (s_eth w) x (s_ws w)).
Definition on_ws : lens Services Ws :=
  Lens s_ws (λ x w, mkServices (s_orders w) (s_trades w) (s_pairs w) (s_eth w) (s_broker w) x).
(** The part the matching engine works on. *)
Definition on_engine : lens Services (World OS TS B) :=
  Lens (λ w, mkWorld (s_orders w) (s_trades w) (s_broker w))
    (λ x w, mkServices (w_orders x) (w_trades x) (s_pairs w) (s_eth w) (w_broker x) (s_ws w)).
End lenses.

(** ** utils/common.go *)

(** A count below one still makes one call.  The pause is no state. *)
Fixpoint Retry {S A} (retries : nat) (fn : M S A) : M S A :=
  r ← attempt fn;
  match r with
  | inr a => mret a
  | inl err =>
    match retries with
    | Datatypes.S (Datatypes.S _ as retries') => Retry retries' fn
    | _ => fail err
    end
  end.

Definition to_lower (c : ascii) : ascii :=
  let n := nat_of_ascii c in
  if decide (65 ≤ n ∧ n ≤ 90)%nat then ascii_of_nat (n + 32) else c.
Fixpoint ToLower (s : string) : string :=
  match s with "" => "" | String c s' => String (to_lower c) (ToLower s') end.

Section channels.
Context `{EthCommon}.
Definition GetPairKey (bt qt : Address) : string :=
  ToLower (Address_Hex bt +:+ "::" +:+ Address_Hex qt).
Definition GetTradeChannelID (bt qt : Address) : string :=
  ToLower (Address_Hex bt +:+ "::" +:+ Address_Hex qt).
Definition GetOrderBookChannelID (bt qt : Address) : string :=
  ToLower (Address_Hex bt +:+ "::" +:+ Address_Hex qt).
Definition GetOHLCVChannelID (bt qt : Address) (unit : string) (duration : Z) : string :=
  GetPairKey bt qt +:+ "::" +:+ Big.String_Z duration +:+ "::" +:+ unit.
Definition GetTickChannelID (bt qt : Address) (unit : string) (duration : Z) : string :=
  GetPairKey bt qt +:+ "::" +:+ Big.String_Z duration +:+ "::" +:+ unit.
End channels.

(** ** What retrying does *)

(** [k] calls in a row, all of them failing. *)
Inductive failing_calls {S A} (fn : M S A) : nat → S → S → Prop :=
  | no_calls s : failing_calls fn 0 s s
  | one_more k s e s1 s2 :
      fn s = (Err e, s1) → failing_calls fn k s1 s2 →
      failing_calls fn (Datatypes.S k) s s2.

Lemma Retry_eq {S A} retries (fn : M S A) s : Retry retries fn s =
  match fn s with
  | (Ok a, s') => (Ok a, s')
  | (Panic, s') => (Panic, s')
  | (Err e, s') => match retries with
                   | Datatypes.S (Datatypes.S _ as n) => Retry n fn s' | _ => (Err e, s') end
  end.
Proof.
  destruct retries as [|[|n]]; simpl; unfold attempt, mbind, M_bind;
    by destruct (fn s) as [[a|e|] s'].
Qed.

(** C40: [Retry] ends after at most [retries] calls (one, when the count is below
    one): it makes [k] calls that fail and returns the outcome of the next one,
    which is not an error unless it was the last call allowed. *)
Theorem Retry_bounded {S A} retries (fn : M S A) s : ∃ k s1,
  (k < Nat.max 1 retries)%nat ∧ failing_calls fn k s s1 ∧ Retry retries fn s = fn s1 ∧
  ((∀ e, (fn s1).1 ≠ Err e) ∨ Datatypes.S k = Nat.max 1 retries).
Proof.
  revert s. induction retries as [|n IH]; intros s; rewrite Retry_eq;
    destruct (fn s) as [[a|e|] s'] eqn:Hf.
  all: try (exists 0%nat, s; split_and!;
    [lia|constructor|by rewrite Hf|first [by left; rewrite Hf|by right]]).
  destruct n as [|n].
  - exists 0%nat, s. split_and!; [lia|constructor|by rewrite Hf|by right].
  - destruct (IH s') as (k & s1 & Hk & Hc & Hrun & Hlast).
    exists (Datatypes.S k), s1. split_and!; [lia|by econstructor|done|].
    destruct Hlast as [?|Hk']; [by left|right; lia].
Qed.

(** A call's invariant and the property of its successes are those of [Retry]. *)
Lemma wp_Retry {S A} retries (fn : M S A) (Q : outcome A → S → Prop) (I : S → Prop) s :
  (∀ s, I s → wp fn (λ r s', I s' ∧ Q r s') s) → I s →
  wp (Retry retries fn) (λ r s', I s' ∧ Q r s') s.
Proof.
  intros Hf HI. destruct (Retry_bounded retries fn s) as (k & s1 & _ & Hc & Hrun & _).
  unfold wp. rewrite Hrun. apply Hf. clear Hrun. induction Hc as [|k s e s1 s2 Hs _ IH]; [done|].
  apply IH. specialize (Hf s HI). unfold wp in Hf. rewrite Hs in Hf. by apply Hf.
Qed.
