(* ===== verification/AccountService.v ===== *)
(** The server's state with its accounts and tokens, and [services/account.go]. *)
From S2P Require Import Prelude BigMath Types Mongo Json Orders MatchTypes OrderDao Rabbit Engine Ws Services Accounts Tokens.

(** What the endpoints work on. *)
Record Site (OS TS PS ES B AS KS : Type) := mkSite {
  site_services : Services OS TS PS ES B;
  site_accounts : AS;
  site_tokens : KS
}.
Arguments mkSite {OS TS PS ES B AS KS}.
Arguments site_services {OS TS PS ES B AS KS}.
Arguments site_accounts {OS TS PS ES B AS KS}.
Arguments site_tokens {OS TS PS ES B AS KS}.

Section lenses.
Context {OS TS PS ES B AS KS : Type}.
#[local] Abbreviation Site := (Site OS TS PS ES B AS KS).
Definition on_services : lens Site (Services OS TS PS ES B) :=
  Lens site_services (λ x w, mkSite x (site_accounts w) (site_tokens w)).
Definition on_accounts : lens Site AS :=
  Lens site_accounts (λ x w, mkSite (site_services w) x (site_tokens w)).
Definition on_tokens : lens Site KS :=
  Lens site_tokens (λ x w, mkSite (site_services w) (site_accounts w) x).
End lenses.

Module AccountService.
Section service.
Context {OS TS PS ES B AS KS : Type} `{IAccountDao AS, ITokenDao KS}.
#[local] Abbreviation Site := (Site OS TS PS ES B AS KS).

Definition ErrAccountExists : error := "Account already Exists".

(** Every token of the collection, with balances of zero. *)
Definition zero_balance (t : Token) : TokenBalance :=
  mkTokenBalance (k_ContractAddress t) (k_Symbol t) (Some 0) (Some 0) (Some 0) (Some 0).
Definition zero_balances (tokens : list Token) : gmap Z TokenBalance :=
  foldl (λ m t, <[k_ContractAddress t := zero_balance t]> m) ∅ tokens.
Definition opened (a : Account) (tokens : list Token) : Account :=
  mkAccount (a_ID a) (a_Address a) (zero_balances tokens) false (a_CreatedAt a) (a_UpdatedAt a).

Definition Create (a : Account) : M Site Account :=
  acc ← zoom on_accounts (ad_GetByAddress (a_Address a));
  match acc with
  | Some _ => fail ErrAccountExists
  | None =>
    tokens ← zoom on_tokens kd_GetAll;
    '(a, r) ← zoom on_accounts (ad_Create (opened a tokens));
    check r ;;
    mret a
  end.

Definition FindOrCreate (addr : Address) : M Site Account :=
  a ← zoom on_accounts (ad_GetByAddress addr);
  match a with
  | Some a => mret a
  | None =>
    tokens ← zoom on_tokens kd_GetAll;
    '(a, r) ← zoom on_accounts (ad_Create (opened (mkAccount "" addr ∅ false (0) (0)) tokens));
    check r ;;
    mret a
  end.

Definition GetByID (id : string) : M Site Account := zoom on_accounts (ad_GetByID id).
Definition GetAll : M Site (list Account) := zoom on_accounts ad_GetAll.
Definition GetByAddress (a : Address) : M Site (option Account) :=
  zoom on_accounts (ad_GetByAddress a).
Definition GetTokenBalance (owner token : Address) : M Site (option TokenBalance) :=
  zoom on_accounts (ad_GetTokenBalance owner token).
Definition GetTokenBalances (owner : Address) : M Site (option (gmap Z TokenBalance)) :=
  zoom on_accounts (ad_GetTokenBalances owner).
End service.
End AccountService.

(** ** What the service promises *)
Section spec.
Context {OS TS PS ES B AS KS : Type} `{AccountDaoSpec AS, TokenDaoSpec KS}.
#[local] Abbreviation Site := (Site OS TS PS ES B AS KS).
Import AccountService.
Implicit Types w : Site.

Lemma zero_balances_lookup ts a :
  zero_balances ts !! a = last (zero_balance <$> base.filter (λ t, k_ContractAddress t = a) ts).
Proof.
  unfold zero_balances. induction ts as [|t ts IH] using rev_ind; [done|].
  rewrite foldl_app, filter_app, fmap_app. simpl.
  destruct (decide (k_ContractAddress t = a)) as [<-|Ht].
  - rewrite lookup_insert_eq, filter_cons_True by done. simpl. by rewrite last_snoc.
  - rewrite lookup_insert_ne, filter_cons_False, IH by done. simpl. by rewrite app_nil_r.
Qed.

Lemma zero_balances_known ts : amounts_known (zero_balances ts).
Proof.
  intros a v. rewrite zero_balances_lookup. intros Hv%last_Some_elem_of.
  apply list_elem_of_fmap in Hv as (t & -> & _). simpl. eauto 10.
Qed.

(** A new account knows every token of the collection, and nothing of the
    server changes but the accounts. *)
Definition rest_kept w w' : Prop := site_services w' = site_services w.
Definition fresh_account (addr : Address) (ts : list Token) (a : Account) : Prop :=
  a_Address a = addr ∧ a_IsBlocked a = false ∧
  ∀ t, t ∈ ts → a_TokenBalances a !! k_ContractAddress t = Some (zero_balance t).

Lemma opened_fresh a ts ts' :
  ts' ≡ₚ ts → NoDup (k_ContractAddress <$> ts) → fresh_account (a_Address a) ts (opened a ts').
Proof.
  intros Hp Hn. split_and!; [done..|]. intros t Ht. simpl. rewrite zero_balances_lookup.
  assert (base.filter (λ t', k_ContractAddress t' = k_ContractAddress t) ts' = [t]) as ->; [|done].
  apply Permutation_singleton_r. rewrite Hp. clear Hp ts'.
  induction ts as [|x ts IH]; [by apply not_elem_of_nil in Ht|].
  rewrite fmap_cons in Hn. apply NoDup_cons in Hn as [Hx Hn].
  apply elem_of_cons in Ht as [->|Ht].
  - rewrite filter_cons_True by done. f_equiv.
    rewrite filter_none; [done|]. apply Forall_forall. intros y Hy Hyx. apply Hx.
    rewrite <-Hyx. apply list_elem_of_fmap. by exists y.
  - rewrite filter_cons_False; [by apply IH|]. intros Hxt. apply Hx. rewrite Hxt.
    apply list_elem_of_fmap. by exists t.
Qed.

Lemma Create_new_ok a l ts w :
  accounts (site_accounts w) l → tokens (site_tokens w) ts → a_Address a ∉ a_Address <$> l →
  wp (tokens ← zoom on_tokens kd_GetAll;
      '(a, r) ← zoom on_accounts (ad_Create (opened a tokens)); check r ;; mret a) (λ r w',
    rest_kept w w' ∧ tokens (site_tokens w') ts ∧ r ≠ Panic ∧
    ∃ l', accounts (site_accounts w') l' ∧
      match r with
      | Ok a' => fresh_account (a_Address a) ts a' ∧ l' ≡ₚ written a' :: l
      | _ => l' = l ∨ ∃ a', fresh_account (a_Address a) ts a' ∧ l' ≡ₚ written a' :: l
      end) w.
Proof.
  intros Ha Ht Hni. pose proof (tokens_unique _ _ Ht) as Hn. apply wp_bind, wp_zoom.
  eapply wp_mono; [|by apply kd_GetAll_spec]. intros r s1 [Hs1 Hr].
  destruct r as [ts'|e|]; [|by split_and!; [..|exists l; auto]|done]. cbn [wp_next].
  apply wp_bind, wp_zoom. eapply wp_mono; [|apply ad_Create_spec; [done|apply zero_balances_known]].
  intros r2 s2 (l' & Hl' & Hr2). cbn [lset lget on_accounts on_tokens] in *.
  destruct r2 as [[a' [e|[]]]|e|]; [| |done..]; cbn [wp_next].
  - apply wp_bind, wp_fail. split_and!; [done..|]. exists l'. split; [done|].
    destruct Hr2 as [->|[(id & t1 & t2 & ->) Hp]]; [by left|right]. eexists. split; [|exact Hp].
    exact (opened_fresh (set_times t1 t2 (set_a_ID id a)) ts ts' Hr Hn).
  - apply wp_bind, wp_ret, wp_ret. split_and!; [done..|]. exists l'. split; [done|].
    destruct Hr2 as [(id & t1 & t2 & ->) Hp]. split; [|exact Hp].
    exact (opened_fresh (set_times t1 t2 (set_a_ID id a)) ts ts' Hr Hn).
Qed.

Lemma FindOrCreate_ok addr l ts w :
  accounts (site_accounts w) l → tokens (site_tokens w) ts →
  wp (FindOrCreate addr) (λ r w',
    site_services w' = site_services w ∧ tokens (site_tokens w') ts ∧ r ≠ Panic ∧
    ∃ l', accounts (site_accounts w') l' ∧
      match r with
      | Ok a => if decide (addr ∈ a_Address <$> l) then l' = l ∧ a ∈ l ∧ a_Address a = addr
                else fresh_account addr ts a ∧ l' ≡ₚ written a :: l
      | _ => l' = l ∨ ∃ a, addr ∉ a_Address <$> l ∧ fresh_account addr ts a ∧ l' ≡ₚ written a :: l
      end) w.
Proof.
  intros Ha Ht. unfold FindOrCreate.
  apply wp_bind, wp_zoom. eapply wp_mono; [|by apply (GetByAddress_spec addr l)].
  intros r1 s1 [Hs1 Hr1]. destruct r1 as [[a|]|e|]; [| |by split_and!; [..|exists l; auto]|done].
  - apply wp_ret. split_and!; [done..|]. exists l. split; [done|]. destruct Hr1 as [Hin <-].
    rewrite decide_True; [done|]. apply list_elem_of_fmap. by exists a.
  - cbn [wp_next]. eapply wp_mono; [|apply (Create_new_ok (mkAccount "" addr ∅ false (0) (0)) l ts);
      done].
    intros r2 w2 (Hk & Ht2 & Hp & l' & Hl' & Hr2). split_and!; [done..|]. exists l'.
    split; [done|]. destruct r2 as [a|e|]; [by rewrite decide_False| |done].
    destruct Hr2 as [->|(a & ? & ?)]; [by left|right; eauto].
Qed.

(** [FindOrCreate] answers the account of the address when there is one, and
    changes nothing then; otherwise it answers, and stores, a new one that is
    not blocked and has a balance of zero of every token.  It never panics, and
    touches only the accounts: no other account appears, and none is lost. *)
Theorem FindOrCreate_account addr l ts w r w' :
  accounts (site_accounts w) l → tokens (site_tokens w) ts →
  FindOrCreate addr w = (r, w') →
  site_services w' = site_services w ∧ tokens (site_tokens w') ts ∧ r ≠ Panic ∧
  ∃ l', accounts (site_accounts w') l' ∧
    match r with
    | Ok a => if decide (addr ∈ a_Address <$> l) then l' = l ∧ a ∈ l ∧ a_Address a = addr
              else fresh_account addr ts a ∧ l' ≡ₚ written a :: l
    | _ => l' = l ∨ ∃ a, addr ∉ a_Address <$> l ∧ fresh_account addr ts a ∧ l' ≡ₚ written a :: l
    end.
Proof. intros Ha Ht Hrun. exact (wp_run _ _ _ _ _ Hrun (FindOrCreate_ok addr l ts w Ha Ht)). Qed.
End spec.
