(* ===== verification/PairService.v ===== *)
(** [services/pair.go]: pairs of tokens and the statistics of their trades and
    orders, with the [Aggregate] methods of [daos/trade.go] and [daos/order.go].

    [now] is [time.Now()], in nanoseconds; the server's time zone is taken to be
    UTC, where a day has always 24 hours. *)
From S2P Require Import Prelude BigMath Types Mongo Json Aggregation Ticks Orders MatchTypes OrderDao OrderStore Pairs TradeDao Rabbit Engine Ws Services Accounts Tokens AccountService.

(** ** The aggregations of the daos *)
Class ITickDao (TS : Type) := td_Aggregate : list astage → M TS (list Tick).
Class IOrderDataDao (OS : Type) := od_Aggregate : list astage → M OS (list OrderData).

Section aggregate.
Context {W : Type} `{EthCommon, Big.Undefined, ServerDecimal, Aggregator W}.
Definition TradeDao_Aggregate (q : list astage) : M W (list Tick) :=
  res ← RunAggregate q; lift (decode_all Tick_SetBSON res).
Definition OrderDao_Aggregate (q : list astage) : M W (list OrderData) :=
  orderData ← RunAggregate q; lift (decode_all OrderData_SetBSON orderData).
End aggregate.

(** What the node says of a token's contract ([ethereum/provider.go]). *)
Class IContractInfo (ES : Type) := {
  Symbol : Address → M ES string;
  TokenDecimals : Address → M ES Z
}.

(** [time.Unix(s, 0)] as a date of the database; the seconds of [now] and of a week
    before it. *)
Definition date_of_seconds (s : Z) : Z := s * 1000.
Definition seconds (now : Z) : Z := now / 10 ^ 9.
Definition week_before (now : Z) : Z := seconds (now - 7 * 86400 * 10 ^ 9).

Module PairService.
Definition ErrPairExists : error := "Pairs already exists".
Definition ErrBaseTokenNotFound : error := "BaseToken not found".
Definition ErrQuoteTokenNotFound : error := "QuoteToken not found".
Definition ErrQuoteTokenInvalid : error := "Quote Token Invalid (not a quote)".
Definition ErrNoContractCode : error := "Contract not found at given address".

Section service.
Context {OS TS PS ES B AS KS : Type}.
Context `{IPairDao PS, ITokenDao KS, IContractInfo ES, ITickDao TS, IOrderDataDao OS, EthCommon}.
#[local] Abbreviation Site := (Site OS TS PS ES B AS KS).

(** ** Creating pairs *)
Definition no_code {A} (m : M ES A) : M Site A :=
  r ← attempt (zoom on_services (zoom on_eth m));
  match r with inl _ => fail ErrNoContractCode | inr a => mret a end.
Definition unlisted_token (symbol : string) (addr : Address) (decimals : Z) : Token :=
  mkToken "" "" symbol addr (mkImage "" []) 0 decimals true false false None None 0 0.
(** The token of the collection, or one that is made from its contract. *)
Definition base_token (addr : Address) : M Site Token :=
  base ← zoom on_tokens (kd_GetByAddress addr);
  match base with
  | Some base => mret base
  | None =>
    symbol ← no_code (Symbol addr);
    decimals ← no_code (TokenDecimals addr);
    '(base, r) ← zoom on_tokens (kd_Create (unlisted_token symbol addr decimals));
    check r ;;
    mret base
  end.
Definition pair_with (base q : Token) : Pair :=
  mkPair "" (k_Symbol base) (k_Address base) (k_Decimals base) (k_Symbol q) (k_Address q)
    (k_Decimals q) false true 0 (k_MakeFee q) (k_TakeFee q) 0 0.
Fixpoint create_pairs (addr : Address) (base : Token) (quotes : list Token) : M Site (list Pair) :=
  match quotes with
  | [] => mret []
  | q :: quotes =>
    p ← zoom on_services (zoom on_pairs (pd_GetByTokenAddress addr (k_Address q)));
    match p with
    | Some _ => create_pairs addr base quotes
    | None =>
      '(p, r) ← zoom on_services (zoom on_pairs (pd_Create (pair_with base q)));
      check r ;;
      pairs ← create_pairs addr base quotes;
      mret (p :: pairs)
    end
  end.
Definition CreatePairs (addr : Address) : M Site (list Pair) :=
  quotes ← zoom on_tokens kd_GetQuoteTokens;
  base ← base_token addr;
  create_pairs addr base quotes.

(** The pair that is passed is changed before it is stored. *)
Definition completed (pair : Pair) (bt st : Token) : Pair :=
  mkPair (p_ID pair) (k_Symbol bt) (k_ContractAddress bt) (k_Decimals bt)
    (k_Symbol st) (k_ContractAddress st) (k_Decimals st) (p_Listed pair) (p_Active pair)
    (p_Rank pair) (p_MakeFee pair) (p_TakeFee pair) (p_CreatedAt pair) (p_UpdatedAt pair).
Definition Create (pair : Pair) : M Site Pair :=
  p ← zoom on_services (zoom on_pairs
        (pd_GetByTokenAddress (p_BaseTokenAddress pair) (p_QuoteTokenAddress pair)));
  match p with
  | Some _ => fail ErrPairExists
  | None =>
    bt ← zoom on_tokens (kd_GetByAddress (p_BaseTokenAddress pair));
    match bt with
    | None => fail ErrBaseTokenNotFound
    | Some bt =>
      st ← zoom on_tokens (kd_GetByAddress (p_QuoteTokenAddress pair));
      match st with
      | None => fail ErrQuoteTokenNotFound
      | Some st =>
        if negb (k_Quote st) then fail ErrQuoteTokenInvalid
        else
          '(p, r) ← zoom on_services (zoom on_pairs (pd_Create (completed pair bt st)));
          check r ;;
          mret p
      end
    end
  end.

Definition on_pairs_site {A} (m : M PS A) : M Site A := zoom on_services (zoom on_pairs m).
Definition GetByID (id : string) : M Site Pair := on_pairs_site (pd_GetByID id).
Definition GetByTokenAddress (bt qt : Address) : M Site (option Pair) :=
  on_pairs_site (pd_GetByTokenAddress bt qt).
Definition GetAll : M Site (list Pair) := on_pairs_site pd_GetAll.
Definition GetListedPairs : M Site (list Pair) := on_pairs_site pd_GetListedPairs.
Definition GetUnlistedPairs : M Site (list Pair) := on_pairs_site pd_GetUnlistedPairs.

(** ** Statistics *)
Definition since_week (now : Z) : string * acond :=
  ("createdAt", ADates (date_of_seconds (week_before now)) (date_of_seconds (seconds now))).
Definition successful : string * acond := ("status", AIn [BStr SUCCESS]).
Definition dollar (k : string) : expr := EField [k].
Definition one : expr := EConst (BDec 1).
Definition by_pair_id : list (string * expr) :=
  [("pairName", dollar "pairName"); ("baseToken", dollar "baseToken"); ("quoteToken", dollar "quoteToken")].
(** What is computed of the prices and amounts of the trades of a group. *)
Definition price_accumulators (price amount : expr) : accumulators :=
  [("count", (ASum, one)); ("open", (AFirst, price)); ("high", (AMax, price));
   ("low", (AMin, price)); ("close", (ALast, price)); ("volume", (ASum, amount))].

Definition token_pair_query (now : Z) (bt qt : Address) : list astage :=
  [AMatch (mkMatch [since_week now; successful; ("baseToken", AEqual (BStr (Address_Hex bt)));
                    ("quoteToken", AEqual (BStr (Address_Hex qt)))] None);
   AGroup by_pair_id (price_accumulators (EToDecimal (dollar "pricepoint")) (EToDecimal (dollar "amount")))].
Definition GetTokenPairData (now : Z) (bt qt : Address) : M Site (list Tick) :=
  zoom on_services (zoom on_trades (td_Aggregate (token_pair_query now bt qt))).

(** The prices are not converted to decimals here. *)
Definition trade_data_query (now : Z) : list astage :=
  [AMatch (mkMatch [since_week now; successful] None);
   AGroup by_pair_id (price_accumulators (dollar "pricepoint") (EToDecimal (dollar "amount")))].
Definition side_query (side : string) (best : accumulator) : list astage :=
  [AMatch (mkMatch [("status", AIn [BStr "OPEN"; BStr "PARTIAL_FILLED"]); ("side", AEqual (BStr side))] None);
   AGroup by_pair_id
     [("orderCount", (ASum, one));
      ("orderVolume", (ASum, ESubtract (EToDecimal (dollar "amount")) (EToDecimal (dollar "filledAmount"))));
      ("bestPrice", (best, dollar "pricepoint"))]].

Definition empty_data (p : Pair) : PairData :=
  mkPairData (mkPairID (Pair_Name p) (p_BaseTokenAddress p) (p_QuoteTokenAddress p))
    (Some 0) (Some 0) (Some 0) (Some 0) (Some 0) (Some 0) 0 (Some 0) (Some 0) (Some 0) (Some 0)
    (Some 0) 0.
Definition with_trades (x : PairData) (t : Tick) : PairData :=
  mkPairData (pdt_Pair x) (tk_Close t) (tk_Count t) (tk_High t) (tk_Low t) (tk_Open t) (tk_Volume t)
    (pdt_Timestamp x) (pdt_OrderVolume x) (pdt_OrderCount x) (pdt_AskPrice x) (pdt_BidPrice x)
    (pdt_Price x) (pdt_Rank x).
Definition with_orders (x : PairData) (volume count ask bid price : option Z) : PairData :=
  mkPairData (pdt_Pair x) (pdt_Close x) (pdt_Count x) (pdt_High x) (pdt_Low x) (pdt_Open x)
    (pdt_Volume x) (pdt_Timestamp x) volume count ask bid price (pdt_Rank x).
Definition with_bids (x : PairData) (o : OrderData) : PairData :=
  with_orders x (odt_OrderVolume o) (odt_OrderCount o) (pdt_AskPrice x) (odt_BestPrice o) (pdt_Price x).
Definition with_asks (x : PairData) (o : OrderData) : outcome PairData :=
  v ← deref (pdt_OrderVolume x); v' ← deref (odt_OrderVolume o);
  c ← deref (pdt_OrderCount x); c' ← deref (odt_OrderCount o);
  bid ← deref (pdt_BidPrice x); ask ← deref (odt_BestPrice o);
  price ← (if IsNotEqual bid 0 && IsNotEqual ask 0 then Avg bid ask else Ok 0);
  Ok (with_orders x (Some (Add v v')) (Some (Add c c')) (Some ask) (Some bid) (Some price)).
Definition Pair_AddressCode (p : Pair) : string :=
  Address_Hex (p_BaseTokenAddress p) +:+ "::" +:+ Address_Hex (p_QuoteTokenAddress p).
(** The elements of an aggregation that are of the pair's two tokens. *)
Definition of_pair {A} (code : A → string) (p : Pair) (l : list A) : list A :=
  base.filter (λ a, code a = Pair_AddressCode p) l.
Fixpoint ofold {A B} (f : B → A → outcome B) (b : B) (l : list A) : outcome B :=
  match l with [] => Ok b | a :: l => b ← f b a; ofold f b l end.
Definition pair_data (tradeData : list Tick) (bidsData asksData : list OrderData) (p : Pair) :
    outcome PairData :=
  let x := foldl with_trades (empty_data p) (of_pair Tick_AddressCode p tradeData) in
  let x := foldl with_bids x (of_pair OrderData_AddressCode p bidsData) in
  ofold with_asks x (of_pair OrderData_AddressCode p asksData).
Fixpoint outcomes {A B} (f : A → outcome B) (l : list A) : outcome (list B) :=
  match l with [] => Ok [] | a :: l => b ← f a; r ← outcomes f l; Ok (b :: r) end.
Definition GetAllTokenPairData (now : Z) : M Site (list PairData) :=
  pairs ← on_pairs_site pd_GetActivePairs;
  tradeData ← zoom on_services (zoom on_trades (td_Aggregate (trade_data_query now)));
  bidsData ← zoom on_services (zoom on_orders (od_Aggregate (side_query "BUY" AMax)));
  asksData ← zoom on_services (zoom on_orders (od_Aggregate (side_query "SELL" AMin)));
  lift (outcomes (pair_data tradeData bidsData asksData) pairs).
End service.
End PairService.
