(* ===== verification/PairServiceProps.v ===== *)
(** What [PairService.Create] and [CreatePairs] of [services/pair.go] do to the
    collection of pairs. *)
From S2P Require Import Prelude BigMath Types Mongo Json Aggregation Ticks Orders MatchTypes OrderDao OrderStore Pairs TradeDao Rabbit Engine Ws Services Accounts Tokens AccountService PairService.

Section props.
Context {OS TS PS ES B AS KS : Type}.
Context `{PairDaoSpec PS, TokenDaoSpec KS, IContractInfo ES}.
#[local] Abbreviation Site := (Site OS TS PS ES B AS KS).
Implicit Types w : Site.

(** The pairs and the tokens of the server, and what is not them. *)
Definition site_in (ps : list Pair) (ks : list Token) w : Prop :=
  pairs (s_pairs (site_services w)) ps ∧ tokens (site_tokens w) ks.
Definition elsewhere w : OS * TS * ES * Connection B * Ws * AS :=
  let s := site_services w in (s_orders s, s_trades s, s_eth s, s_broker s, s_ws s, site_accounts w).
Definition tokens_of (p : Pair) : Address * Address := (p_BaseTokenAddress p, p_QuoteTokenAddress p).

Lemma on_pairs_ok {A} (m : M PS A) w ps ks (Q : outcome A → Site → Prop) : site_in ps ks w →
  wp m (λ r t, ∀ w', elsewhere w' = elsewhere w → s_pairs (site_services w') = t → tokens (site_tokens w') ks →
                 Q r w') (s_pairs (site_services w)) →
  wp (zoom on_services (zoom on_pairs m)) Q w.
Proof.
  intros [_ Hk] Hm. apply wp_zoom, wp_zoom. eapply wp_mono; [|exact Hm]. intros r t Ht. by apply Ht.
Qed.
Lemma on_tokens_ok {A} (m : M KS A) w ps ks (Q : outcome A → Site → Prop) : site_in ps ks w →
  wp m (λ r t, ∀ w', elsewhere w' = elsewhere w → site_tokens w' = t →
                 pairs (s_pairs (site_services w')) ps → Q r w') (site_tokens w) →
  wp (zoom on_tokens m) Q w.
Proof. intros [Hp _] Hm. apply wp_zoom. eapply wp_mono; [|exact Hm]. intros r t Ht. by apply Ht. Qed.

(** A pair as the collection has it once created: its tokens are registered, the
    second one as a quote, and no pair has them yet. *)
Definition stamped (p p' : Pair) : Prop :=
  ∃ id t1 t2, p' = set_p_UpdatedAt t2 (set_p_CreatedAt t1 (set_p_ID id p)).
Definition new_pair (pair : Pair) (ps : list Pair) (ks : list Token) (p : Pair) : Prop :=
  tokens_of pair ∉ tokens_of <$> ps ∧
  ∃ bt st, bt ∈ ks ∧ k_ContractAddress bt = p_BaseTokenAddress pair ∧
    st ∈ ks ∧ k_ContractAddress st = p_QuoteTokenAddress pair ∧ k_Quote st = true ∧
    stamped (PairService.completed pair bt st) p.
Lemma new_pair_tokens pair ps ks p : new_pair pair ps ks p → tokens_of (pair_kept p) = tokens_of pair.
Proof. intros (_ & bt & st & _ & Hb & _ & Hq & _ & id & t1 & t2 & ->). unfold tokens_of. simpl. by rewrite Hb, Hq. Qed.

Lemma find_pair_ok b q w ps ks (Q : outcome (option Pair) → Site → Prop) : site_in ps ks w →
  (∀ r w', elsewhere w' = elsewhere w → site_in ps ks w' →
    match r with
    | Ok (Some p) => (b, q) ∈ tokens_of <$> ps
    | Ok None => (b, q) ∉ tokens_of <$> ps
    | Err _ => True
    | Panic => False
    end → Q r w') →
  wp (zoom on_services (zoom on_pairs (pd_GetByTokenAddress b q))) Q w.
Proof.
  intros Hw HQ. eapply on_pairs_ok; [done|]. eapply wp_mono; [|apply GetByTokenAddress_spec, Hw].
  intros r t [Ht Hr] w' He <- Hk. apply HQ; [done|done|]. destruct r as [[p|]|e|]; try done.
  - destruct Hr as (Hp & <- & <-). by apply (list_elem_of_fmap_2 tokens_of).
  - intros (p & E & Hp)%list_elem_of_fmap. apply (Hr p Hp). by injection E as -> ->.
Qed.
Lemma store_pair_ok p w ps ks (Q : outcome (Pair * (error + unit)) → Site → Prop) : site_in ps ks w →
  (∀ p' r ps' w', elsewhere w' = elsewhere w → site_in ps' ks w' →
    stamped p p' → ps' ≡ₚ pair_kept p' :: ps ∨ ps' = ps ∧ is_inl r → Q (Ok (p', r)) w') →
  wp (zoom on_services (zoom on_pairs (pd_Create p))) Q w.
Proof.
  intros Hw HQ. eapply on_pairs_ok; [done|]. eapply wp_mono; [|apply pd_Create_spec, Hw].
  intros r t (ps' & Ht & Hr) w' He <- Hk. destruct r as [[p' r]|e|]; [|done..]. destruct Hr. by eapply HQ.
Qed.
Lemma find_token_ok addr w ps ks (Q : outcome (option Token) → Site → Prop) : site_in ps ks w →
  (∀ r w', elsewhere w' = elsewhere w → site_in ps ks w' →
    match r with
    | Ok (Some t) => t ∈ ks ∧ k_ContractAddress t = addr
    | Ok None => addr ∉ k_ContractAddress <$> ks
    | Err _ => True
    | Panic => False
    end → Q r w') →
  wp (zoom on_tokens (kd_GetByAddress addr)) Q w.
Proof.
  intros Hw HQ. eapply on_tokens_ok; [done|]. eapply wp_mono; [|apply kd_GetByAddress_spec, Hw].
  intros r t [Ht Hr] w' He <- Hp. by apply HQ.
Qed.

Definition created (pair : Pair) (ps : list Pair) (ks : list Token) w (r : outcome Pair) w' : Prop :=
  elsewhere w' = elsewhere w ∧ ∃ ps', site_in ps' ks w' ∧
    (NoDup (tokens_of <$> ps) → NoDup (tokens_of <$> ps')) ∧
    match r with
    | Ok p => new_pair pair ps ks p ∧ ps' ≡ₚ pair_kept p :: ps
    | Err _ => ps' = ps ∨ ∃ p, new_pair pair ps ks p ∧ ps' ≡ₚ pair_kept p :: ps
    | Panic => False
    end.
Lemma refused pair ps ks w w' e : elsewhere w' = elsewhere w → site_in ps ks w' →
  created pair ps ks w (Err e) w'.
Proof. intros He Hw. split; [done|]. exists ps. split_and!; [done..|by left]. Qed.
Lemma Create_ok pair ps ks w : site_in ps ks w →
  wp (PairService.Create pair) (created pair ps ks w) w.
Proof.
  intros Hw. unfold PairService.Create. apply wp_bind. eapply find_pair_ok; [done|].
  intros [[p|]|e|] w1 He1 Hw1 Hp; [by apply refused| |by apply refused|done].
  apply wp_bind. eapply find_token_ok; [done|].
  intros [[bt|]|e|] w2 He2 Hw2 Hbt; [|apply refused; [cbn; by rewrite He2|done]..|done].
  apply wp_bind. eapply find_token_ok; [done|].
  intros [[st|]|e|] w3 He3 Hw3 Hst; [|apply refused; [cbn; by rewrite He3, He2|done]..|done].
  cbn [wp_next]. destruct (k_Quote st) eqn:Hq; simpl negb; cbn match; [|apply refused; [cbn; by rewrite He3, He2|done]].
  apply wp_bind. eapply store_pair_ok; [done|].
  intros p' r ps' w4 He4 Hw4 Hs Hr.
  assert (new_pair pair ps ks p') as Hnew.
  { split; [done|]. destruct Hbt, Hst. by exists bt, st. }
  assert (NoDup (tokens_of <$> ps) → NoDup (tokens_of <$> ps')) as Hnd.
  { intros Hn. destruct Hr as [->|[-> _]]; [|done]. rewrite fmap_cons, (new_pair_tokens pair ps ks p' Hnew).
    apply NoDup_cons. by split. }
  destruct r as [e|[]]; (split; [exact (eq_trans He4 (eq_trans He3 (eq_trans He2 He1)))|]); exists ps'; split_and!; try done.
  - destruct Hr as [Hr|[-> _]]; [right|by left]. by exists p'.
  - destruct Hr as [Hr|[_ []]]. done.
Qed.
(** C21: [PairService.Create] answers, and stores, a pair of two registered tokens, the
    second one a quote token, that no stored pair has; it takes their symbols and
    decimals.  On every other outcome at most such a pair was stored.  So two stored
    pairs never have the same tokens, and nothing but the pairs changes. *)
Theorem Create_new_pair pair ps ks w : site_in ps ks w →
  wp (PairService.Create pair) (created pair ps ks w) w.
Proof. apply Create_ok. Qed.

(** ** Pairs of a token with every quote token *)
Definition zero_pairs (ps ps' : list Pair) (l : list Pair) : Prop :=
  Forall (λ p, tokens_of p = (0, 0)) l ∧ ps' ≡ₚ (pair_kept <$> l) ++ ps.
Definition pairs_added (ps : list Pair) (ks : list Token) (n : nat) w (r : outcome (list Pair)) w' : Prop :=
  elsewhere w' = elsewhere w ∧ ∃ ps' l, site_in ps' ks w' ∧ zero_pairs ps ps' l ∧
    match r with Ok l' => l' = l ∧ length l = n | Err _ => True | Panic => False end.
Lemma none_added ps ks n w w' e : elsewhere w' = elsewhere w → site_in ps ks w' →
  pairs_added ps ks n w (Err e) w'.
Proof. intros He Hw. split; [done|]. exists ps, []. by split_and!; [|constructor|..]. Qed.

Lemma create_pairs_zero addr base quotes ps ks w : site_in ps ks w → k_Address base = 0 → addr ≠ 0 →
  (addr, 0) ∉ tokens_of <$> ps → Forall (λ q, k_Address q = 0) quotes →
  wp (PairService.create_pairs addr base quotes) (pairs_added ps ks (length quotes) w) w.
Proof.
  intros Hw Hb Ha Hps Hq. revert ps w Hw Hps. induction Hq as [|q quotes Hq0 _ IH]; intros ps w Hw Hps.
  { apply wp_ret. split; [done|]. exists ps, []. by split_and!; [|constructor|..]. }
  cbn [PairService.create_pairs]. rewrite Hq0. apply wp_bind. eapply find_pair_ok; [done|].
  intros [[p|]|e|] w1 He1 Hw1 Hp; [done| |by apply none_added|done].
  cbn [wp_next]. apply wp_bind. eapply store_pair_ok; [done|].
  intros p' r ps1 w2 He2 Hw2 (id & t1 & t2 & Hp') Hr.
  assert (tokens_of p' = (0, 0)) as Hp0 by (rewrite Hp'; unfold tokens_of; simpl; by rewrite Hb, Hq0).
  destruct r as [e|[]]; cbn [wp_next].
  - apply wp_bind, wp_fail. split; [exact (eq_trans He2 He1)|].
    destruct Hr as [Hr|[-> _]]; [exists ps1, [p']|exists ps, []]; by (split_and!; [|repeat constructor|..]).
  - destruct Hr as [Hr|[_ []]]. apply wp_bind, wp_ret. cbn [wp_next]. apply wp_bind.
    eapply wp_mono; [|apply (IH ps1 w2); [done|]].
    2:{ rewrite Hr, fmap_cons, not_elem_of_cons. split; [|done]. intros E. apply Ha.
        assert (tokens_of p' = (addr, 0)) as E' by exact (eq_sym E). rewrite Hp0 in E'. by injection E'. }
    intros r w3 (He3 & ps3 & l & Hw3 & [Hl Hps3] & Hres).
    assert (elsewhere w3 = elsewhere w) as He by exact (eq_trans He3 (eq_trans He2 He1)).
    assert (zero_pairs ps ps3 (p' :: l)) as Hz.
    { split; [by constructor|]. rewrite Hps3, Hr, fmap_cons. symmetry. apply Permutation_middle. }
    destruct r as [l'|e|]; [|by split; [|exists ps3, (p' :: l)]|done].
    destruct Hres as [-> Hlen]. apply wp_ret. split; [done|]. exists ps3, (p' :: l).
    split_and!; [done..|simpl; congruence].
Qed.

(** [CreatePairs] of a registered token stores one new pair for each quote token,
    and every one of them has the zero address for both of its tokens: the service
    takes the addresses from a field that the collection of tokens does not keep. *)
Theorem CreatePairs_zero_tokens addr ps ks w : site_in ps ks w → addr ∈ k_ContractAddress <$> ks →
  addr ≠ 0 → (addr, 0) ∉ tokens_of <$> ps →
  wp (PairService.CreatePairs addr)
    (pairs_added ps ks (length (base.filter (λ t, k_Quote t = true) ks)) w) w.
Proof.
  intros Hw Ha Ha0 Hps. assert (∀ t, t ∈ ks → k_Address t = 0) as Hk0.
  { intros t Ht. by rewrite <-(tokens_recorded _ _ t (proj2 Hw) Ht). }
  unfold PairService.CreatePairs. apply wp_bind. eapply on_tokens_ok; [done|].
  eapply wp_mono; [|apply kd_GetQuoteTokens_spec, Hw]. intros r t [Ht Hr] w1 He1 <- Hp1.
  destruct r as [quotes|e|]; [|by apply none_added|done]. cbn [wp_next]. unfold PairService.base_token.
  apply wp_bind, wp_bind. eapply find_token_ok; [by split|].
  intros [[b|]|e|] w2 He2 Hw2 Hb; [|done|by apply none_added; [cbn; rewrite He2|]|done].
  apply wp_ret. cbn [wp_next]. rewrite <-Hr.
  eapply wp_mono; [|apply (create_pairs_zero addr b quotes ps ks w2 Hw2); [apply Hk0, Hb|done..|]].
  - intros r w3 [He3 Hres]. split; [exact (eq_trans He3 (eq_trans He2 He1))|done].
  - rewrite Hr. rewrite !Forall_forall in *. intros q [_ Hq]%list_elem_of_filter. auto.
Qed.
End props.
