(* ===== verification/MarketService.v ===== *)
(** [services/trade.go] and [services/orderbook.go]: trades, order books and the
    subscriptions to them. *)
From S2P Require Import Prelude BigMath Types Mongo Json Orders MatchTypes OrderDao OrderStore Pairs TradeDao Rabbit Engine Ws Services.

Section subscribe.
Context {OS TS PS ES B : Type}.
#[local] Abbreviation Services := (Services OS TS PS ES B).

(** What every [Subscribe] does with the data it read: an error is sent to the
    client and ends it; otherwise the client is subscribed, its handler for
    closing is registered and the data sent as the first message.  [c] is nil
    when there is no connection: [Subscribe] then fails, and sending the error
    panics, whatever the error's payload. *)
Definition subscribe_with (k : SocketKind) (id : string) (c : option Client)
    (r : error + payload) : M Services unit :=
  let report (e : error) : M Services unit :=
    c ← lift (deref c); zoom on_ws (SendErrorMessage k c (PString e)) in
  match r with
  | inl e => report e
  | inr p =>
    s ← attempt (zoom on_ws (Subscribe k id c));
    match s with
    | inl e => report e
    | inr _ =>
      c ← lift (deref c);
      zoom on_ws (RegisterConnectionUnsubscribeHandler c (ChannelUnsubscribe k id)) ;;
      zoom on_ws (SendInitMessage k c p)
    end
  end.

End subscribe.

(** ** services/trade.go *)
Module TradeService.
Section service.
Context {OS TS PS ES B : Type} `{IOrderDao OS, ITradeDao TS, IPairDao PS, EthCommon}.
#[local] Abbreviation Services := (Services OS TS PS ES B).
Definition GetAllTradesByPairAddress (bt qt : Address) : M Services (list Trade) :=
  zoom on_trades (td_GetAllTradesByPairAddress bt qt).
Definition GetSortedTradesByUserAddress (a : Address) (limit : nat) : M Services (list Trade) :=
  zoom on_trades (td_GetSortedTradesByUserAddress a limit).
Definition GetSortedTrades (bt qt : Address) (n : nat) : M Services (list Trade) :=
  zoom on_trades (td_GetSortedTrades bt qt n).
Definition GetByUserAddress (a : Address) : M Services (list Trade) :=
  zoom on_trades (td_GetByUserAddress a).
Definition GetByHash (h : Hash) : M Services Trade := zoom on_trades (td_GetByHash h).
Definition GetByMakerOrderHash (h : Hash) : M Services (list Trade) :=
  zoom on_trades (td_GetByMakerOrderHash h).
Definition GetByTakerOrderHash (h : Hash) : M Services (list Trade) :=
  zoom on_trades (td_GetByTakerOrderHash h).
Definition GetByOrderHashes (hs : list Hash) : M Services (list Trade) :=
  zoom on_trades (td_GetByOrderHashes hs).

Definition Subscribe (c : option Client) (bt qt : Address) : M Services unit :=
  r ← attempt (GetSortedTrades bt qt 40);
  subscribe_with TradeSocket (GetTradeChannelID bt qt) c
    (match r with inl e => inl e | inr ts => inr (PTrades (Some <$> ts)) end).
Definition UnsubscribeChannel (c : Client) (bt qt : Address) : M Services unit :=
  zoom on_ws (Ws.UnsubscribeChannel TradeSocket (GetTradeChannelID bt qt) c).
Definition Unsubscribe (c : Client) : M Services unit := zoom on_ws (Ws.Unsubscribe TradeSocket c).

(** The stored trade is returned; the trade passed by pointer is changed too, to
    the state and the hash of the transaction. *)
Definition UpdatePendingTrade (t : Trade) (txh : Hash) : M Services Trade :=
  let t := set_t_TxHash txh (set_t_Status PENDING t) in
  '(_, r) ← zoom on_trades (td_FindAndModify (t_Hash t) t);
  check r.
Definition UpdateSuccessfulTrade (t : Trade) : M Services Trade :=
  let t := set_t_Status SUCCESS t in
  '(_, r) ← zoom on_trades (td_FindAndModify (t_Hash t) t);
  check r.
Definition UpdateTradeTxHash (tr : Trade) (txh : Hash) : M Services unit :=
  let tr := set_t_TxHash txh tr in
  '(_, r) ← zoom on_trades (td_UpdateByHash (t_Hash tr) tr);
  check r.
End service.
End TradeService.

(** ** services/orderbook.go *)
Module OrderBookService.
Section service.
Context {OS TS PS ES B : Type} `{IOrderDao OS, ITradeDao TS, IPairDao PS, EthCommon}.
#[local] Abbreviation Services := (Services OS TS PS ES B).

(** The pair of two tokens; without one the two readers fail in their own words. *)
Definition find_pair (bt qt : Address) (missing : error) : M Services Pair :=
  p ← zoom on_pairs (pd_GetByTokenAddress bt qt);
  match p with None => fail missing | Some p => mret p end.

Definition GetOrderBook (bt qt : Address) : M Services payload :=
  p ← find_pair bt qt "Pair not found";
  '(bids, asks) ← zoom on_orders (od_GetOrderBook (Some p));
  mret (POrderBook (Pair_Name p) bids asks).

Definition GetRawOrderBook (bt qt : Address) : M Services payload :=
  p ← find_pair bt qt "Pair does not exist";
  orders ← zoom on_orders (od_GetRawOrderBook p);
  mret (PRawOrderBook (Pair_Name p) orders).

Definition SubscribeOrderBook (c : option Client) (bt qt : Address) : M Services unit :=
  ob ← attempt (GetOrderBook bt qt);
  subscribe_with OrderBookSocket (GetOrderBookChannelID bt qt) c ob.
Definition UnsubscribeOrderBook (c : Client) : M Services unit :=
  zoom on_ws (Ws.Unsubscribe OrderBookSocket c).
Definition UnsubscribeOrderBookChannel (c : Client) (bt qt : Address) : M Services unit :=
  zoom on_ws (Ws.UnsubscribeChannel OrderBookSocket (GetOrderBookChannelID bt qt) c).

Definition SubscribeRawOrderBook (c : option Client) (bt qt : Address) : M Services unit :=
  ob ← attempt (GetRawOrderBook bt qt);
  subscribe_with RawOrderBookSocket (GetOrderBookChannelID bt qt) c ob.
Definition UnsubscribeRawOrderBook (c : Client) : M Services unit :=
  zoom on_ws (Ws.Unsubscribe RawOrderBookSocket c).
Definition UnsubscribeRawOrderBookChannel (c : Client) (bt qt : Address) : M Services unit :=
  zoom on_ws (Ws.UnsubscribeChannel RawOrderBookSocket (GetOrderBookChannelID bt qt) c).
End service.
End OrderBookService.
