(* ===== verification/Validator.v ===== *)
(** [services/validator.go]: the balance and allowance checks. *)
From S2P Require Import Prelude BigMath Types Mongo Json Orders MatchTypes OrderCodec OrderDao OrderStore Pairs Rabbit Engine Ws Services.

Section validator.
Context {OS TS PS ES B : Type} `{IOrderDao OS, IPairDao PS, IEthereumProvider ES}.
Context `{EthCommon, AppConfig}.
#[local] Abbreviation Services := (Services OS TS PS ES B).

(** [x.Cmp(y) == -1]; a nil [y] panics. *)
Definition below (x : Z) (y : option Z) : outcome bool :=
  y ← deref y; Ok (Big.Cmp x y =? -1).
Definition reject_below (x : Z) (y : option Z) (o : Order) (msg : string → string) :
    outcome unit :=
  b ← below x y;
  if (b : bool) then sym ← SellTokenSymbol o; Err (msg sym) else Ok tt.

Definition insufficient_balance (sym : string) : error := "Insufficient " +:+ sym +:+ " Balance".
Definition insufficient_allowance (sym : string) : error :=
  "Insufficient " +:+ sym +:+ " Allowance".
Definition insufficient_allowance_available (sym : string) : error :=
  "Insufficient " +:+ sym +:+ " allowance available".
(** [fmt.Errorf("Insufficient % available", ...)]: a verb that does not exist. *)
Definition insufficient_available (sym : string) : error :=
  "Insufficient %!a(string=" +:+ sym +:+ ")vailable".

(** The pair and the amount both checks start from; [PairMultiplier] of a nil
    pair panics. *)
Definition required (o : Order) : M Services (Pair * option Z) :=
  pair ← zoom on_pairs (pd_GetByTokenAddress (o_BaseToken o) (o_QuoteToken o));
  p ← lift (deref pair);
  total ← lift (TotalRequiredSellAmount p o);
  mret (p, total).

Definition sell_balance (o : Order) : M Services Z :=
  Retry 3 (zoom on_eth (BalanceOf (o_UserAddress o) (SellToken o))).
Definition sell_allowance (o : Order) : M Services Z :=
  Retry 3 (zoom on_eth (Allowance (o_UserAddress o) (HexToAddress exchange_address) (SellToken o))).

(** The comparisons, in the code's order. *)
Definition check_available (o : Order) (totalRequiredAmount : option Z)
    (sellTokenBalance sellTokenAllowance sellTokenLockedBalance : Z) : outcome unit :=
  let availableSellTokenBalance := Sub sellTokenBalance sellTokenLockedBalance in
  let availableSellTokenAllowance := Sub sellTokenAllowance sellTokenLockedBalance in
  reject_below sellTokenBalance totalRequiredAmount o insufficient_balance ;;
  reject_below availableSellTokenBalance totalRequiredAmount o insufficient_available ;;
  reject_below sellTokenAllowance totalRequiredAmount o insufficient_allowance ;;
  reject_below availableSellTokenAllowance totalRequiredAmount o insufficient_allowance_available.
Definition check_balance (o : Order) (totalRequiredAmount : option Z)
    (sellTokenBalance sellTokenAllowance : Z) : outcome unit :=
  reject_below sellTokenBalance totalRequiredAmount o insufficient_balance ;;
  reject_below sellTokenAllowance totalRequiredAmount o insufficient_allowance.

Definition ValidateAvailableBalance (o : Order) : M Services unit :=
  '(p, totalRequiredAmount) ← required o;
  sellTokenBalance ← sell_balance o;
  sellTokenAllowance ← sell_allowance o;
  sellTokenLockedBalance ← zoom on_orders
    (od_GetUserLockedBalance (o_UserAddress o) (SellToken o) p);
  lift (check_available o totalRequiredAmount sellTokenBalance sellTokenAllowance
          sellTokenLockedBalance).

Definition ValidateBalance (o : Order) : M Services unit :=
  '(p, totalRequiredAmount) ← required o;
  sellTokenBalance ← sell_balance o;
  sellTokenAllowance ← sell_allowance o;
  lift (check_balance o totalRequiredAmount sellTokenBalance sellTokenAllowance).
End validator.

(** ** The comparisons *)
Lemma reject_below_ok x y o msg : reject_below x (Some y) o msg = Ok tt ↔ y ≤ x.
Proof.
  unfold reject_below, below, Big.Cmp. simpl. destruct (Z.compare_spec x y); simpl;
    [split; [lia|done]|split; [by destruct (SellTokenSymbol o)|lia]|split; [lia|done]].
Qed.

Lemma reject_below_no_panic x y o msg :
  SellTokenSymbol o ≠ Panic → reject_below x (Some y) o msg ≠ Panic.
Proof.
  unfold reject_below, below. simpl. intros Hs. case_match; [|done].
  by destruct (SellTokenSymbol o).
Qed.

Lemma then_ok {A} (m : outcome unit) (k : outcome A) a : (m ;; k) = Ok a ↔ m = Ok tt ∧ k = Ok a.
Proof. destruct m as [[]|e|]; simpl; naive_solver. Qed.
Lemma then_no_panic {A} (m : outcome unit) (k : outcome A) :
  m ≠ Panic → k ≠ Panic → (m ;; k) ≠ Panic.
Proof. by destruct m. Qed.

Lemma check_available_ok o total b a l :
  check_available o (Some total) b a l = Ok tt ↔ total + Z.max 0 l ≤ Z.min b a.
Proof. unfold check_available. rewrite !then_ok, !reject_below_ok. unfold Sub. lia. Qed.
Lemma check_balance_ok o total b a :
  check_balance o (Some total) b a = Ok tt ↔ total ≤ Z.min b a.
Proof. unfold check_balance. rewrite !then_ok, !reject_below_ok. lia. Qed.

Lemma check_available_no_panic o total b a l :
  SellTokenSymbol o ≠ Panic → check_available o (Some total) b a l ≠ Panic.
Proof. intros Hs. unfold check_available. auto 10 using then_no_panic, reject_below_no_panic. Qed.
Lemma check_balance_no_panic o total b a :
  SellTokenSymbol o ≠ Panic → check_balance o (Some total) b a ≠ Panic.
Proof. intros Hs. unfold check_balance. auto 10 using then_no_panic, reject_below_no_panic. Qed.

(** ** What the validator promises *)
Section spec.
Context {OS TS PS ES B : Type} `{OrderDaoSpec OS, PairDaoSpec PS, EthereumProviderSpec ES}.
Context `{EthCommon, AppConfig}.
#[local] Abbreviation Services := (Services OS TS PS ES B).
Implicit Types w : Services.

(** The collections are as their daos keep them. *)
Definition services_ok (ps : list Pair) w : Prop :=
  od_inv (s_orders w) ∧ pairs (s_pairs w) ps.

(** A step that may query, and changes nothing that can be observed. *)
Record only_reads (ps : list Pair) w w' : Prop := {
  or_ok : services_ok ps w → services_ok ps w';
  or_book : services_ok ps w → order_book (s_orders w') = order_book (s_orders w);
  or_balance : balance (s_eth w') = balance (s_eth w);
  or_allowance : allowance (s_eth w') = allowance (s_eth w);
  or_trades : s_trades w' = s_trades w;
  or_broker : s_broker w' = s_broker w;
  or_ws : s_ws w' = s_ws w
}.
#[export] Instance only_reads_refl ps : Reflexive (only_reads ps).
Proof. by intros w. Qed.
#[export] Instance only_reads_trans ps : Transitive (only_reads ps).
Proof.
  intros w1 w2 w3 [? ? ? ? ? ? ?] [? ? ? ? ? ? ?]. split; try congruence; [auto|].
  intros Hw. rewrite <-(or_book0 Hw). auto.
Qed.

(** What an account's open orders lock of a token, counted with a pair's
    multiplier. *)
Definition locked_amount (bk : book) (p : Pair) (account token : Address) : option Z :=
  sumZ <$> mapM (λ o, match RemainingSellAmount p o with Ok x => Some x | _ => None end)
    (base.filter (locked_by account token) (orders_of bk)).

Definition sell_token_balance w (o : Order) : Z :=
  balance (s_eth w) (o_UserAddress o) (SellToken o).
Definition sell_token_allowance w (o : Order) : Z :=
  allowance (s_eth w) (o_UserAddress o) (HexToAddress exchange_address) (SellToken o).

(** The user owns and has approved what the order sells. *)
Definition funded (ps : list Pair) w (o : Order) : Prop := ∃ p total,
  p ∈ ps ∧ pair_of (o_BaseToken o) (o_QuoteToken o) p ∧
  TotalRequiredSellAmount p o = Ok (Some total) ∧
  total ≤ Z.min (sell_token_balance w o) (sell_token_allowance w o).
(** ... on top of what the open orders lock. *)
Definition funded_available (ps : list Pair) w (o : Order) : Prop := ∃ p total locked,
  p ∈ ps ∧ pair_of (o_BaseToken o) (o_QuoteToken o) p ∧
  TotalRequiredSellAmount p o = Ok (Some total) ∧
  locked_amount (order_book (s_orders w)) p (o_UserAddress o) (SellToken o) = Some locked ∧
  total + Z.max 0 locked ≤ Z.min (sell_token_balance w o) (sell_token_allowance w o).

Lemma required_ok ps o w :
  services_ok ps w →
  wp (required o) (λ r w', only_reads ps w w' ∧
    match r with
    | Ok (p, total) => p ∈ ps ∧ pair_of (o_BaseToken o) (o_QuoteToken o) p ∧
                       TotalRequiredSellAmount p o = Ok total
    | _ => True
    end) w.
Proof.
  intros Hw. unfold required. apply wp_bind, wp_zoom.
  eapply wp_mono; [|apply (GetByTokenAddress_spec _ _ ps), Hw]. intros r s' [Hs Hr].
  assert (only_reads ps w (lset on_pairs s' w)) as Ho by (split; simpl; unfold services_ok; tauto).
  destruct r as [[p|]|e|]; simpl; try by split. destruct Hr as [Hin Hp].
  apply wp_bind, wp_lift. simpl. apply wp_bind, wp_lift.
  by destruct (TotalRequiredSellAmount p o) eqn:Ht; simpl; [apply wp_ret|..].
Qed.

Lemma sell_balance_ok ps o w :
  wp (sell_balance o) (λ r w', only_reads ps w w' ∧
    match r with Ok v => v = sell_token_balance w o | Err _ => True | Panic => False end) w.
Proof.
  unfold sell_balance. eapply wp_mono; [|apply (wp_Retry _ _
    (λ r _, match r with Ok v => v = sell_token_balance w o | Err _ => True | Panic => False end)
    (only_reads ps w))]; [done| |done].
  intros w1 Hw. apply wp_zoom. eapply wp_mono; [|apply BalanceOf_spec].
  intros r s' (Hb & Ha & Hr). split.
  - etrans; [exact Hw|]. by split.
  - destruct r; [|done..]. unfold sell_token_balance. rewrite <-(or_balance _ _ _ Hw). done.
Qed.

Lemma sell_allowance_ok ps o w :
  wp (sell_allowance o) (λ r w', only_reads ps w w' ∧
    match r with Ok v => v = sell_token_allowance w o | Err _ => True | Panic => False end) w.
Proof.
  unfold sell_allowance. eapply wp_mono; [|apply (wp_Retry _ _
    (λ r _, match r with Ok v => v = sell_token_allowance w o | Err _ => True | Panic => False end)
    (only_reads ps w))]; [done| |done].
  intros w1 Hw. apply wp_zoom. eapply wp_mono; [|apply Allowance_spec].
  intros r s' (Hb & Ha & Hr). split.
  - etrans; [exact Hw|]. by split.
  - destruct r; [|done..]. unfold sell_token_allowance. rewrite <-(or_allowance _ _ _ Hw). done.
Qed.

Lemma only_reads_token ps w w' o : only_reads ps w w' →
  sell_token_balance w' o = sell_token_balance w o ∧
  sell_token_allowance w' o = sell_token_allowance w o.
Proof. intros []. unfold sell_token_balance, sell_token_allowance. split; congruence. Qed.

Lemma locked_ok ps p o w :
  services_ok ps w →
  wp (zoom on_orders (od_GetUserLockedBalance (o_UserAddress o) (SellToken o) p)) (λ r w',
    only_reads ps w w' ∧
    match r with
    | Ok l => locked_amount (order_book (s_orders w)) p (o_UserAddress o) (SellToken o) = Some l
    | Err _ => True | Panic => False
    end) w.
Proof.
  intros [Hw ?]. apply wp_zoom. eapply wp_mono; [|by apply GetUserLockedBalance_spec].
  intros r s' (Hi & Hb & Hr). split.
  - split; simpl; unfold services_ok; tauto.
  - destruct r as [l|e|]; [|done..]. destruct Hr as (vs & Hvs & ->).
    unfold locked_amount. cbn in *. by rewrite Hvs.
Qed.

(** A check reads the collections and the chain and changes nothing; when it
    passes, the user has the funds. *)
Lemma ValidateAvailableBalance_sound ps o w :
  services_ok ps w →
  wp (ValidateAvailableBalance o) (λ r w', only_reads ps w w' ∧
    (r = Ok tt → funded_available ps w o)) w.
Proof.
  intros Hw. unfold ValidateAvailableBalance.
  wp_step (required_ok ps o w Hw). intros [[p total]|e|] w1 [R1 Hp]; [|by split..].
  unfold wp_next. wp_step (sell_balance_ok ps o). intros [b|e|] w2 [R2 Hb]; [|by split; [etrans|]..].
  unfold wp_next. wp_step (sell_allowance_ok ps o).
  intros [a|e|] w3 [R3 Ha]; [|by split; [do 2 (etrans; [done|])|]..].
  assert (only_reads ps w w3) as R13 by (do 2 (etrans; [done|]); done).
  unfold wp_next. wp_step (locked_ok ps p o w3 (or_ok _ _ _ R13 Hw)).
  intros [l|e|] w4 [R4 Hl]; [|by split; [etrans|]..].
  assert (only_reads ps w w4) as R14 by (by etrans).
  apply wp_lift. split; [done|]. intros Hc. destruct Hp as (Hin & Hpo & Ht).
  destruct total as [total|]; [|done].
  apply check_available_ok in Hc. exists p, total, l. split_and!; [done..| |].
  - by rewrite <-(or_book _ _ _ R13 Hw).
  - destruct (only_reads_token ps w w1 o R1) as [E1 _].
    pose proof (only_reads_trans _ _ _ _ R1 R2) as R12.
    destruct (only_reads_token ps w w2 o R12) as [_ E2]. congruence.
Qed.

Lemma ValidateBalance_sound ps o w :
  services_ok ps w →
  wp (ValidateBalance o) (λ r w', only_reads ps w w' ∧ (r = Ok tt → funded ps w o)) w.
Proof.
  intros Hw. unfold ValidateBalance.
  wp_step (required_ok ps o w Hw). intros [[p total]|e|] w1 [R1 Hp]; [|by split..].
  unfold wp_next. wp_step (sell_balance_ok ps o). intros [b|e|] w2 [R2 Hb]; [|by split; [etrans|]..].
  unfold wp_next. wp_step (sell_allowance_ok ps o).
  intros [a|e|] w3 [R3 Ha]; [|by split; [do 2 (etrans; [done|])|]..].
  pose proof (only_reads_trans _ _ _ _ R1 R2) as R12.
  apply wp_lift. split; [by etrans|]. intros Hc. destruct Hp as (Hin & Hpo & Ht).
  destruct total as [total|]; [|done]. apply check_balance_ok in Hc. exists p, total.
  split_and!; [done..|]. destruct (only_reads_token ps w w1 o R1) as [E1 _].
  destruct (only_reads_token ps w w2 o R12) as [_ E2]. congruence.
Qed.

Lemma Retry_on_eth {A} n (m : M ES A) w : Retry n (zoom on_eth m) w = zoom on_eth (Retry n m) w.
Proof.
  revert w. induction n as [|n IH]; intros w; unfold zoom at 2; rewrite !Retry_eq;
    unfold zoom at 1; simpl; destruct (m (s_eth w)) as [[a|e|] s']; try done.
  destruct n as [|n]; [done|]. rewrite IH. unfold zoom. simpl. by case_match.
Qed.

(** The answers a check needs: the pair, the locked amount, and the provider
    within the calls it is given. *)
Definition reads_answer (o : Order) w (p : Pair) : Prop :=
  (pd_GetByTokenAddress (o_BaseToken o) (o_QuoteToken o) (s_pairs w)).1 = Ok (Some p) ∧
  (∃ l, (od_GetUserLockedBalance (o_UserAddress o) (SellToken o) p (s_orders w)).1 = Ok l) ∧
  ∀ s : ES,
    (∃ b, (Retry 3 (BalanceOf (o_UserAddress o) (SellToken o)) s).1 = Ok b) ∧
    (∃ a, (Retry 3 (Allowance (o_UserAddress o) (HexToAddress exchange_address) (SellToken o)) s).1
          = Ok a).

Lemma required_answers o w p total :
  reads_answer o w p → TotalRequiredSellAmount p o = Ok (Some total) →
  wp (required o) (λ r w', r = Ok (p, Some total) ∧ s_orders w' = s_orders w) w.
Proof.
  intros (Hp & _) Ht. unfold required. apply wp_bind, wp_zoom. unfold wp at 1. simpl in *.
  rewrite Hp. simpl. apply wp_bind, wp_lift. simpl. apply wp_bind, wp_lift. by rewrite Ht.
Qed.

Lemma eth_answers {A} (m : M ES A) w :
  (∀ s, ∃ b, (Retry 3 m s).1 = Ok b) →
  wp (Retry 3 (zoom on_eth m)) (λ r w', (∃ b, r = Ok b) ∧ s_orders w' = s_orders w) w.
Proof.
  intros Hm. unfold wp. rewrite Retry_on_eth. unfold zoom. destruct (Hm (s_eth w)) as [b Hb].
  change (lget on_eth w) with (s_eth w). revert Hb. destruct (Retry 3 m (s_eth w)) as [r s'].
  intros Hb. split; [by exists b|done].
Qed.

(** C32: when the database and, within three calls, the provider answer, an order
    passes the balance check exactly when the user's balance and allowance of
    the token it sells each cover the amount it requires on top of what the
    user's open orders lock; the check never panics, and reads only. *)
Theorem ValidateAvailableBalance_accepts ps o w p total :
  services_ok ps w → reads_answer o w p →
  TotalRequiredSellAmount p o = Ok (Some total) → SellTokenSymbol o ≠ Panic →
  ∃ r w' l, ValidateAvailableBalance o w = (r, w') ∧ only_reads ps w w' ∧ r ≠ Panic ∧
    locked_amount (order_book (s_orders w)) p (o_UserAddress o) (SellToken o) = Some l ∧
    (r = Ok tt ↔ total + Z.max 0 l ≤ Z.min (sell_token_balance w o) (sell_token_allowance w o)).
Proof.
  intros Hw Hra Ht Hsym. pose proof Hra as (Hp & [l Hl] & Heth).
  pose proof (wp_run _ _ _ _ _ (surjective_pairing _) (locked_ok ps p o w Hw)) as [_ Hlk].
  unfold zoom in Hlk. simpl in Hlk. destruct (od_GetUserLockedBalance _ _ _ _) as [r0 s0] eqn:Hlr.
  simpl in Hl, Hlk. subst r0. cut (wp (ValidateAvailableBalance o) (λ r w', only_reads ps w w' ∧
    r = check_available o (Some total) (sell_token_balance w o) (sell_token_allowance w o) l) w).
  { intros [Hor Hr]. destruct (ValidateAvailableBalance o w) as [r w'] eqn:Hrun. simpl in *.
    exists r, w', l. split_and!; [done..| |done|].
    - subst r. by apply check_available_no_panic.
    - subst r. apply check_available_ok. }
  unfold ValidateAvailableBalance.
  wp_step (wp_and _ _ _ _ (required_ok ps o w Hw) (required_answers o w p total Hra Ht)).
  intros r w1 ([R1 _] & -> & O1). unfold wp_next.
  wp_step (wp_and _ _ _ _ (sell_balance_ok ps o w1) (eth_answers _ w1 (λ s, proj1 (Heth s)))).
  intros r w2 ([R2 Hb] & [b ->] & O2). unfold wp_next.
  wp_step (wp_and _ _ _ _ (sell_allowance_ok ps o w2) (eth_answers _ w2 (λ s, proj2 (Heth s)))).
  intros r w3 ([R3 Ha] & [a ->] & O3). unfold wp_next.
  pose proof (only_reads_trans _ _ _ _ R1 R2) as R12.
  pose proof (only_reads_trans _ _ _ _ R12 R3) as R13.
  assert (s_orders w3 = s_orders w) as O13 by congruence.
  wp_step (wp_and _ _ _ _ (locked_ok ps p o w3 (or_ok _ _ _ R13 Hw)) (wp_self _ _)).
  intros r w4 ([R4 _] & Hr & _). unfold zoom in Hr. cbn in Hr.
  rewrite O13, Hlr in Hr. simpl in Hr. subst r.
  unfold wp_next. apply wp_lift. split; [by etrans|].
  destruct (only_reads_token ps w w1 o R1) as [E1 _].
  destruct (only_reads_token ps w w2 o R12) as [_ E2]. congruence.
Qed.
End spec.
