(* ===== verification/OrderService.v ===== *)
(** [services/order.go]: accepting and cancelling orders, and what the server
    does with the answers of the engine and of the operator. *)
From S2P Require Import Prelude BigMath Types Mongo Json Orders OrderCancels MatchTypes OrderCodec TradeCodec OrderDao OrderStore Pairs TradeDao Rabbit Engine Ws Services Validator.

Section service.
Context {OS TS PS ES B : Type} `{IOrderDao OS, ITradeDao TS, IPairDao PS, IEthereumProvider ES, Amqp B}.
Context `{EthCommon, AppConfig, Codecs}.
#[local] Abbreviation Services := (Services OS TS PS ES B).

(** ** The getters *)
Definition GetByUserAddress (a : Address) (limit : nat) : M Services (list Order) :=
  zoom on_orders (od_GetByUserAddress a limit).
Definition GetByHash (h : Hash) : M Services (option Order) := zoom on_orders (od_GetByHash h).
Definition GetByHashes (hs : list Hash) : M Services (list Order) :=
  zoom on_orders (od_GetByHashes hs).
Definition GetCurrentByUserAddress (a : Address) (limit : nat) : M Services (list Order) :=
  zoom on_orders (od_GetCurrentByUserAddress a limit).
Definition GetHistoryByUserAddress (a : Address) (limit : nat) : M Services (list Order) :=
  zoom on_orders (od_GetHistoryByUserAddress a limit).

(** ** Accepting an order

    The order is changed in place: it is a part of the state. *)
Definition the_order : lens (Order * Services) Order := Lens fst (λ o ow, (o, ow.2)).
Definition the_server : lens (Order * Services) Services := Lens snd (λ w ow, (ow.1, w)).

(** The end of [NewOrder], with the pair it found; [t1] and [t2] are what
    [time.Now] answers in [Process]. *)
Definition place_order (t1 t2 : Z) (p : Pair) : M (Order * Services) unit :=
  '(o, _) ← get;
  quoteAmount ← lift (QuoteAmount p o);
  minQuoteAmount ← lift (MinQuoteAmount p);
  lift (reject_if (IsStrictlySmallerThan quoteAmount minQuoteAmount) "Order amount too low") ;;
  zoom the_order (Process p t1 t2) ;;
  '(o, _) ← get;
  zoom the_server (ValidateAvailableBalance o) ;;
  zoom the_server (zoom on_broker (PublishNewOrderMessage o)).

Definition NewOrder (t1 t2 : Z) : M (Order * Services) unit :=
  zoom the_order Validate ;;
  r ← attempt (zoom the_order VerifySignature);
  lift (reject_if (match r with inr ok => negb ok | inl _ => true end) "Invalid Signature") ;;
  '(o, _) ← get;
  p ← zoom the_server (zoom on_pairs (pd_GetByTokenAddress (o_BaseToken o) (o_QuoteToken o)));
  match p with
  | None => fail "Pair not found"
  | Some p => place_order t1 t2 p
  end.

(** ** Cancelling an order *)
Definition cancellable (o : Order) : bool :=
  negb (bool_decide (o_Status o = FILLED ∨ o_Status o = ERROR_STATUS ∨ o_Status o = CANCELLED)).

Definition CancelOrder (oc : OrderCancel) : M Services unit :=
  o ← zoom on_orders (od_GetByHash (oc_OrderHash oc));
  match o with
  | None => fail "No order with corresponding hash"
  | Some o =>
    lift (reject_if (negb (cancellable o)) ("Cannot cancel order. Status is " +:+ o_Status o)) ;;
    zoom on_broker (PublishCancelOrderMessage o)
  end.

(** ** Broadcasts *)

(** [math/big]'s [String] of the amount at a price, 0 without one. *)
Definition book_update (p : Pair) (o : Order) : M Services (list (string * string)) :=
  r ← attempt (zoom on_orders (od_GetOrderBookPricePoint p (o_PricePoint o) (o_Side o)));
  let amount := match r with inr (Some a) => a | _ => 0 end in
  mret [("pricepoint", Big.Stringp (o_PricePoint o)); ("amount", Big.String_Z amount)].

Fixpoint book_updates (p : Pair) (orders : list Order)
    (bids asks : list (list (string * string))) :
    M Services (list (list (string * string)) * list (list (string * string))) :=
  match orders with
  | [] => mret (bids, asks)
  | o :: orders' =>
    update ← book_update p o;
    if decide (o_Side o = "BUY") then book_updates p orders' (bids ++ [update]) asks
    else book_updates p orders' bids (asks ++ [update])
  end.

(** [orders[0]] panics on an empty slice; an order without tokens is logged. *)
Definition broadcastOrderBookUpdate (orders : list Order) : M Services unit :=
  o ← lift (deref (head orders));
  p ← attempt (lift (Order_Pair o));
  match p with
  | inl _ => mret tt
  | inr p =>
    '(bids, asks) ← book_updates p orders [] [];
    zoom on_ws (BroadcastMessage OrderBookSocket
      (GetOrderBookChannelID (p_BaseTokenAddress p) (p_QuoteTokenAddress p))
      (POrderBook (o_PairName o) bids asks))
  end.

Definition broadcastRawOrderBookUpdate (orders : list Order) : M Services unit :=
  o ← lift (deref (head orders));
  p ← attempt (lift (Order_Pair o));
  match p with
  | inl _ => mret tt
  | inr p =>
    zoom on_ws (BroadcastMessage RawOrderBookSocket
      (GetOrderBookChannelID (p_BaseTokenAddress p) (p_QuoteTokenAddress p)) (POrders orders))
  end.

Definition broadcastTradeUpdate (trades : list (option Trade)) : M Services unit :=
  t ← lift (deref (head trades)); t ← lift (deref t);
  p ← attempt (lift (Trade_Pair t));
  match p with
  | inl _ => mret tt
  | inr p =>
    zoom on_ws (BroadcastMessage TradeSocket
      (GetTradeChannelID (p_BaseTokenAddress p) (p_QuoteTokenAddress p)) (PTrades trades))
  end.

Definition send (type : string) (a : Address) (p : payload) : M Services unit :=
  zoom on_ws (SendOrderMessage type a p).

(** ** The engine's answers *)

Definition handleEngineOrderAdded (res : EngineResponse) : M Services unit :=
  o ← lift (deref (er_Order res));
  send "ORDER_ADDED" (o_UserAddress o) (POrder o) ;;
  broadcastOrderBookUpdate [o] ;;
  broadcastRawOrderBookUpdate [o].

(** What the loop of [handleEngineOrderMatched] collects; [flags] remembers which
    trades were kept, for the pointers the two lists of trades share. *)
Record matched := mkMatched {
  m_orders : list Order;
  m_valid : Matches;
  m_invalid : Matches;
  m_flags : list bool
}.

(** One iteration per trade; [makerOrders[i]] is out of range when there are fewer
    maker orders than trades. *)
Fixpoint match_loop (trades : list (option Trade)) (makerOrders : list (option Order))
    (acc : matched) : M Services matched :=
  match trades with
  | [] => mret acc
  | t :: trades' =>
    mo ← lift (deref (head makerOrders));
    o ← lift (deref mo);
    r ← attempt (ValidateBalance o);
    match_loop trades' (tail makerOrders)
      (match r with
       | inl _ => mkMatched (m_orders acc) (m_valid acc) (AppendMatch mo t (m_invalid acc))
                    (m_flags acc ++ [false])
       | inr _ => mkMatched (m_orders acc ++ [o]) (AppendMatch mo t (m_valid acc)) (m_invalid acc)
                    (m_flags acc ++ [true])
       end)
  end.

(** The trades of the message after [Create] changed those that were kept. *)
Fixpoint write_back (flags : list bool) (trades : list (option Trade)) (created : list Trade) :
    list (option Trade) :=
  match flags, trades, created with
  | true :: flags', _ :: trades', t :: created' => Some t :: write_back flags' trades' created'
  | false :: flags', t :: trades', _ => t :: write_back flags' trades' created
  | _, _, _ => trades
  end.

Definition set_trades (ts : list (option Trade)) (m : Matches) : Matches :=
  mkMatches (MakerOrders m) (TakerOrder m) ts.

(** [if err != nil { ws.SendOrderMessage("ERROR", taker, err); return }]: the
    boolean says that the handler goes on. *)
Definition or_report {A} (taker : Address) (m : M Services A) : M Services bool :=
  r ← attempt m;
  match r with
  | inl err => send "ERROR" taker (PString err) ;; mret false
  | inr _ => mret true
  end.

(** The maker orders at cause are sent back to the engine. *)
Definition publish_invalid (l : matched) : M Services unit :=
  if decide (0 < Matches_Length (m_invalid l))%nat then
    log_error (zoom on_broker (PublishInvalidateMakerOrdersMessage (m_invalid l)))
  else mret tt.

(** The valid matches are stored and sent to the operator; the boolean is false
    when the handler returns early. *)
Definition publish_valid (taker : Address) (matches : Matches) (l : matched) : M Services bool :=
  if decide (0 < Matches_Length (m_valid l))%nat then
    valid ← lift (mapM deref (Trades (m_valid l)));
    '(created, r) ← zoom on_trades (td_Create valid);
    stored ← or_report taker (check r);
    if negb stored then mret false
    else
      let validMatches := set_trades (Some <$> created) (m_valid l) in
      published ← or_report taker (zoom on_broker (PublishTrades (Some validMatches)));
      if negb published then mret false
      else
        send "ORDER_MATCHED" taker
          (PMatches (set_trades (write_back (m_flags l) (Trades matches) created) matches)) ;;
        mret true
  else mret true.

Definition handleEngineOrderMatched (res : EngineResponse) : M Services unit :=
  o ← lift (deref (er_Order res));
  let taker := o_UserAddress o in
  matches ← lift (deref (er_Matches res));
  let none := mkMatches [] (Some o) [] in
  l ← match_loop (Trades matches) (MakerOrders matches) (mkMatched [o] none none []);
  publish_invalid l ;;
  go_on ← publish_valid taker matches l;
  if negb go_on then mret tt
  else if decide (Matches_Length (m_invalid l) = 0%nat) then
    broadcastOrderBookUpdate (m_orders l) ;;
    broadcastRawOrderBookUpdate (m_orders l)
  else mret tt.

Definition handleOrderCancelled (res : EngineResponse) : M Services unit :=
  o ← lift (deref (er_Order res));
  send "ORDER_CANCELLED" (o_UserAddress o) (POrder o) ;;
  broadcastOrderBookUpdate [o] ;;
  broadcastRawOrderBookUpdate [o].

(** [orders] is dereferenced before it is compared with nil. *)
Definition handleOrdersInvalidated (res : EngineResponse) : M Services unit :=
  orders ← lift (deref (er_InvalidatedOrders res));
  mforeach (λ o, send "ORDER_INVALIDATED" (o_UserAddress o) (POrder o)) orders ;;
  (match orders with [] => mret tt | _ => broadcastOrderBookUpdate orders end) ;;
  (match orders with [] => mret tt | _ => broadcastRawOrderBookUpdate orders end) ;;
  match er_CancelledTrades res with
  | None | Some [] => mret tt
  | Some trades => broadcastTradeUpdate (Some <$> trades)
  end.

Definition handleEngineError (res : EngineResponse) : M Services unit :=
  o ← lift (deref (er_Order res));
  send "ERROR" (o_UserAddress o) PNil.

(** The errors of the handlers are dropped; an unknown message is printed. *)
Definition HandleEngineResponse (res : EngineResponse) : M Services unit :=
  log_error
    (if decide (er_Status res = ORDER_ADDED) then handleEngineOrderAdded res
     else if decide (er_Status res = ORDER_FILLED) then handleEngineOrderMatched res
     else if decide (er_Status res = ORDER_PARTIALLY_FILLED) then handleEngineOrderMatched res
     else if decide (er_Status res = ORDER_CANCELLED) then handleOrderCancelled res
     else if decide (er_Status res = TRADES_CANCELLED) then handleOrdersInvalidated res
     else if decide (er_Status res = ERROR_STATUS) then handleEngineError res
     else mret tt).

(** ** The operator's messages *)

Definition trade_hashes (trades : list (option Trade)) : outcome (list Hash) :=
  ts ← mapM deref trades; Ok (t_Hash <$> ts).

(** [trades[0].Taker] *)
Definition first_taker (trades : list (option Trade)) : outcome Address :=
  t ← deref (head trades); t ← deref t; Ok (t_Taker t).

(** [for _, o := range orders { send(type, o.UserAddress, p(o)) }] *)
Definition send_makers (type : string) (p : Order → payload) (orders : list (option Order)) :
    M Services unit :=
  mforeach (λ mo, o ← lift (deref mo); send type (o_UserAddress o) (p o)) orders.

Definition handleOperatorTradeTxPending (msg : OperatorMessage) : M Services unit :=
  matches ← lift (deref (om_Matches msg));
  taker ← lift (first_taker (Trades matches));
  send "ORDER_PENDING" taker (PMatches matches) ;;
  send_makers "ORDER_PENDING" (λ _, PMatches matches) (MakerOrders matches) ;;
  broadcastTradeUpdate (Trades matches).

(** [for i, _ := range trades { matches.NthMatch(i) ... }] from [i], for [n] more *)
Fixpoint send_matches (m : Matches) (i n : nat) : M Services unit :=
  match n with
  | O => mret tt
  | Datatypes.S n' =>
    match_ ← lift (NthMatch m i);
    mo ← lift (index (MakerOrders match_) 0); o ← lift (deref mo);
    send "ORDER_SUCCESS" (o_UserAddress o) (PMatches match_) ;;
    send_matches m (Datatypes.S i) n'
  end.

(** The trades sent on are the ones the database answers, without regard to the
    order, or the number, of those of the message. *)
Definition handleOperatorTradeTxSuccess (msg : OperatorMessage) : M Services unit :=
  matches ← lift (deref (om_Matches msg));
  hashes ← lift (trade_hashes (Trades matches));
  match hashes with
  | [] => mret tt
  | _ =>
    r ← attempt (zoom on_trades (td_UpdateTradeStatuses SUCCESS hashes));
    let trades := match r with inl _ => [] | inr ts => Some <$> ts end in
    taker ← lift (first_taker trades);
    send "ORDER_SUCCESS" taker (PMatches matches) ;;
    send_matches matches 0 (length trades) ;;
    broadcastTradeUpdate trades
  end.

(** One iteration per trade: an update whose error is logged, then
    [t.Status = "ERROR"]. *)
Fixpoint mark_errors (trades : list (option Trade)) : M Services (list (option Trade)) :=
  match trades with
  | [] => mret []
  | t :: trades' =>
    t ← lift (deref t);
    log_error (zoom on_trades (td_UpdateTradeStatus (t_Hash t) "ERROR")) ;;
    rest ← mark_errors trades';
    mret (Some (set_t_Status "ERROR" t) :: rest)
  end.

(** The three error handlers are the same code; a maker is sent his order. *)
Definition handleOperatorTradeError (msg : OperatorMessage) : M Services unit :=
  matches ← lift (deref (om_Matches msg));
  trades ← mark_errors (Trades matches);
  let matches := set_trades trades matches in
  taker ← lift (first_taker trades);
  send "ORDER_ERROR" taker (PMatches matches) ;;
  send_makers "ORDER_ERROR" POrder (MakerOrders matches) ;;
  broadcastTradeUpdate trades.
Definition handleOperatorTradeTxError (msg : OperatorMessage) : M Services unit :=
  handleOperatorTradeError msg.
Definition handleOperatorTradeInvalid (msg : OperatorMessage) : M Services unit :=
  handleOperatorTradeError msg.

Definition HandleOperatorMessages (msg : OperatorMessage) : M Services unit :=
  log_error
    (if decide (om_MessageType msg = TRADE_ERROR) then handleOperatorTradeError msg
     else if decide (om_MessageType msg = TRADE_TX_PENDING) then handleOperatorTradeTxPending msg
     else if decide (om_MessageType msg = TRADE_TX_SUCCESS) then handleOperatorTradeTxSuccess msg
     else if decide (om_MessageType msg = TRADE_TX_ERROR) then handleOperatorTradeTxError msg
     else if decide (om_MessageType msg = TRADE_INVALID) then handleOperatorTradeInvalid msg
     else mret tt).
End service.
