(* ===== verification/OrderServiceProps.v ===== *)
(** What the order service promises: which orders reach the engine, what a
    cancellation needs, which trades reach the operator, who is told. *)
From S2P Require Import Prelude BigMath Types Mongo Json Orders OrderCancels MatchTypes OrderCodec TradeCodec OrderDao OrderStore Pairs TradeDao Rabbit Engine EngineSpec EngineProps Ws WsProps Services Validator OrderService.

Section spec.
Context {OS TS PS ES B : Type}.
Context `{OrderDaoSpec OS, TradeDaoSpec TS, PairDaoSpec PS, EthereumProviderSpec ES, AmqpLaws B}.
Context `{EthCommonLaws} `{AppConfig} `{!Codecs, !CodecLaws _ _}.
#[local] Abbreviation Services := (Services OS TS PS ES B).
Implicit Types w : Services.

(** ** Accepting an order *)

(** What [NewOrder] has checked of an order it leaves as [o']. *)
Record accepted (ps : list Pair) (t1 t2 : Z) w (o o' : Order) : Prop := {
  acc_fields : order_fields_ok o;
  acc_signed : ∃ h sig, Order_ComputeHash o = Ok h ∧ o_Signature o = Some sig ∧
    Sig.Verify sig (signed_message h) = Ok (o_UserAddress o) ∧ o_Hash o' = h;
  acc_pair : ∃ p q m, p ∈ ps ∧ pair_of (o_BaseToken o) (o_QuoteToken o) p ∧
    o_MakeFee o = p_MakeFee p ∧ o_TakeFee o = p_TakeFee p ∧
    QuoteAmount p o = Ok q ∧ MinQuoteAmount p = Ok m ∧ m ≤ q ∧
    o' = processed p t1 t2 (set_o_Hash (o_Hash o') o);
  acc_funded : funded_available ps w o'
}.

(** A run that only reads, but for what it may send to one queue. *)
Definition reads_and_sends (ps : list Pair) (l : list (string * json)) w w' : Prop :=
  ∃ w1 b, only_reads ps w w1 ∧ w' = lset on_broker b w1 ∧ sent b = sent (s_broker w) ++ l.

Lemma reads_sends_nothing ps w w' : only_reads ps w w' → reads_and_sends ps [] w w'.
Proof.
  intros Hr. exists w', (s_broker w'). split_and!; [done|by destruct w'|].
  rewrite app_nil_r. by rewrite (or_broker _ _ _ Hr).
Qed.

Lemma publishes_in ps m q j w w1 :
  publishes m q j → only_reads ps w w1 →
  wp (zoom on_broker m) (λ r w',
    reads_and_sends ps (match r with Ok _ => [(q, j)] | _ => [] end) w w') w1.
Proof.
  intros Hm Hr. apply wp_zoom. eapply wp_mono; [|apply Hm]. intros r b Hb.
  exists w1, b. split_and!; [done..|]. rewrite <-(or_broker _ _ _ Hr).
  destruct r; rewrite ?app_nil_r; exact Hb.
Qed.

Definition new_order_message (o : Order) : string * json :=
  ("order", Message "NEW_ORDER" (Order_MarshalJSON o)).

(** What [place_order] has checked. *)
Definition placed (ps : list Pair) (t1 t2 : Z) w (p : Pair) (o o' : Order) : Prop :=
  o_MakeFee o = p_MakeFee p ∧ o_TakeFee o = p_TakeFee p ∧
  (∃ q m, QuoteAmount p o = Ok q ∧ MinQuoteAmount p = Ok m ∧ m ≤ q) ∧
  o' = processed p t1 t2 o ∧ funded_available ps w o'.

Lemma place_order_ok ps t1 t2 p o w w1 :
  services_ok ps w → only_reads ps w w1 →
  wp (place_order t1 t2 p) (λ r ow,
    reads_and_sends ps (match r with Ok _ => [new_order_message ow.1] | _ => [] end) w ow.2 ∧
    (r = Ok tt → placed ps t1 t2 w p o ow.1)) (o, w1).
Proof.
  intros Hw Hr1. unfold place_order. pose proof (reads_sends_nothing ps w w1 Hr1) as Hno.
  apply wp_bind. unfold wp at 1, get. cbn [fst snd wp_next].
  apply wp_bind, wp_lift. destruct (QuoteAmount p _) as [q|e|] eqn:Hq; [|by split..].
  unfold wp_next at 1. apply wp_bind, wp_lift.
  destruct (MinQuoteAmount p) as [m|e|] eqn:Hm; [|by split..].
  unfold wp_next at 1. apply wp_bind, wp_lift.
  destruct (IsStrictlySmallerThan q m) eqn:Hlow; [by split|].
  cbn [reject_if wp_next]. apply wp_bind, wp_zoom. cbn [lget the_order fst snd lset].
  destruct (Process p t1 t2 o) as [rp o3] eqn:Hpr. unfold wp at 1. rewrite Hpr.
  cbn [fst snd]. destruct rp as [[]|e|]; [|by split..].
  apply Process_ok in Hpr as (_ & Hmf & _ & Htf & ->).
  unfold wp_next at 1. apply wp_bind. unfold wp at 1, get. cbn [fst snd wp_next].
  apply wp_bind, wp_zoom. cbn [lget the_server fst snd].
  eapply wp_mono; [|apply (ValidateAvailableBalance_sound ps), (or_ok _ _ _ Hr1 Hw)].
  intros r w2 [Hr2 Hfund]. pose proof (only_reads_trans _ _ _ _ Hr1 Hr2) as Hr12.
  destruct r as [[]|e|]; cbn [wp_next lset the_server fst snd];
    [|by split; [apply reads_sends_nothing|]..].
  apply wp_zoom. eapply wp_mono; [|apply (publishes_in ps); [apply publish_on_ok|exact Hr12]].
  intros r w3 Hsent. split; [exact Hsent|]. intros _. cbn [fst lset the_server].
  split_and!; [done..| |done|].
  - exists q, m. split_and!; [done..|]. bigmath. by rewrite Z.ltb_ge in Hlow.
  - destruct (Hfund eq_refl) as (p' & total & locked & Hf'). exists p', total, locked.
    destruct (only_reads_token ps w w1 (processed p t1 t2 o) Hr1) as [<- <-].
    by rewrite <-(or_book _ _ _ Hr1 Hw).
Qed.

Lemma NewOrder_ok ps t1 t2 o w :
  services_ok ps w →
  wp (NewOrder t1 t2) (λ r ow,
    reads_and_sends ps (match r with Ok _ => [new_order_message ow.1] | _ => [] end) w ow.2 ∧
    (r = Ok tt → accepted ps t1 t2 w o ow.1)) (o, w).
Proof.
  intros Hw. unfold NewOrder.
  pose proof (reads_sends_nothing ps w w (reflexivity w)) as Hno.
  apply wp_bind, wp_zoom. cbn [lget the_order fst snd lset].
  destruct (Validate o) as [r o1] eqn:Hv. unfold wp at 1. rewrite Hv. cbn [fst snd].
  destruct r as [[]|e|]; [|by split..].
  apply Validate_accepts in Hv as (Hf & h & sig & Hh & Hsig & Hver & ->).
  unfold wp_next. apply wp_bind, wp_attempt, wp_zoom. cbn [lget the_order fst snd lset].
  destruct (VerifySignature (set_o_Hash h o)) as [rv o2] eqn:Hv. unfold wp at 1. rewrite Hv.
  cbn [fst snd]. destruct rv as [[]|e|]; [| | |by split].
  2, 3: unfold wp_next; apply wp_bind, wp_lift; by split.
  apply VerifySignature_true in Hv as (_ & h' & sig' & Hh' & _ & _ & ->).
  change (Order_ComputeHash (set_o_Hash h o)) with (Order_ComputeHash o) in Hh'.
  assert (h' = h) as -> by congruence. change (set_o_Hash h (set_o_Hash h o)) with (set_o_Hash h o).
  unfold wp_next at 1. apply wp_bind, wp_lift. cbn [negb reject_if wp_next].
  apply wp_bind. unfold wp at 1, get. cbn [fst snd wp_next].
  apply wp_bind, wp_zoom, wp_zoom. cbn [lget the_server on_pairs fst snd].
  eapply wp_mono; [|apply (GetByTokenAddress_spec _ _ ps), Hw]. intros r s' [Hs Hr].
  assert (only_reads ps w (lset on_pairs s' w)) as Ho1
    by (split; simpl; unfold services_ok in *; tauto).
  destruct r as [[p|]|e|]; cbn [wp_next lset the_server fst snd];
    [|by split; [apply reads_sends_nothing|]..].
  destruct Hr as [Hin Hpair].
  eapply wp_mono; [|apply (place_order_ok ps t1 t2 p _ w _ Hw Ho1)]. cbn beta.
  intros r ow [Hsent Hacc]. split; [done|]. intros Hok.
  destruct (Hacc Hok) as (Hmf & Htf & (q & m & Hq) & -> & Hfund).
  split; [done|by exists h, sig|by exists p, q, m; destruct_and?|done].
Qed.


(** ** Cancelling an order *)

(** C30: a cancellation is published, once, only for a stored order that is not
    filled, in error or cancelled, and then for that order as it is stored; in
    every other case nothing is published and nothing changes.  Neither the
    hash nor the signature of the request is looked at. *)
Theorem CancelOrder_publishes ps oc w r w' :
  services_ok ps w → CancelOrder oc w = (r, w') →
  match r with
  | Ok _ => ∃ o, order_book (s_orders w) !! oc_OrderHash oc = Some o ∧
      o_Status o ≠ FILLED ∧ o_Status o ≠ ERROR_STATUS ∧ o_Status o ≠ CANCELLED ∧
      reads_and_sends ps [("order", Message "CANCEL_ORDER" (Order_MarshalJSON o))] w w'
  | _ => reads_and_sends ps [] w w'
  end ∧
  ∀ h sig, CancelOrder (mkOrderCancel (oc_OrderHash oc) h sig) w = (r, w').
Proof.
  intros Hw Hrun. split; [|by intros]. by_wp Hrun. unfold CancelOrder.
  apply wp_bind, wp_zoom. eapply wp_mono; [|apply (GetByHash_spec _ _ (proj1 Hw))].
  intros r1 s1 (Hi & Hb & Hr).
  assert (only_reads ps w (lset on_orders s1 w)) as Ho
    by (split; simpl; unfold services_ok in *; tauto).
  pose proof (reads_sends_nothing _ _ _ Ho) as Hno.
  destruct r1 as [[o|]|e|]; simpl; [|done..].
  apply wp_bind, wp_lift. unfold cancellable. rewrite negb_involutive.
  case_bool_decide as Hst; simpl; [done|]. cbn beta in Hr.
  eapply wp_mono; [|apply (publishes_in ps); [apply publish_on_ok|exact Ho]].
  intros r2 w2 Hs. cbn beta in Hs. destruct r2 as [[]|e|]; [|done..].
  exists o. split_and!; [by rewrite Hr|tauto..|exact Hs].
Qed.

(** ** From the service to the order book *)
Section reach.
Context `{Big.Undefined, Sprint}.

Lemma accepted_complete ps t1 t2 w o o' :
  accepted ps t1 t2 w o o' → (∀ s, o_Signature o = Some s → 0 ≤ sig_V s < 256) → complete o'.
Proof.
  intros [Hf Hs (p & q & m & _ & _ & _ & _ & _ & _ & _ & ->) _] Hv.
  destruct Hf as [? ? ? ? ? Hmf Htf [sg Hsg] (n & Hn & _) (a & Ha & _) (pp & Hpp & _)].
  split; simpl; rewrite ?Hn, ?Ha, ?Hpp; eauto.
Qed.

(** C8: an order the service accepts reaches the order book of its pair: the one
    message it publishes is decoded by the engine to that order, but for its
    identifier and update time, and run as a new order by the book registered
    for a pair of its two tokens. *)
Theorem accepted_order_reaches_book ps t1 t2 o w o' w' :
  services_ok ps w → NewOrder t1 t2 (o, w) = (Ok tt, (o', w')) →
  (∀ s, o_Signature o = Some s → 0 ≤ sig_V s < 256) →
  ∃ j, sent (s_broker w') = sent (s_broker w) ++ [("order", Message "NEW_ORDER" j)] ∧
    ∀ x : World OS TS B, HandleOrders (NewEngine ps) "NEW_ORDER" j x = newOrder (delivered o') x.
Proof.
  intros Hw Hrun Hv. destruct (wp_run _ _ _ _ _ Hrun (NewOrder_ok ps t1 t2 o w Hw)) as [Hs Hacc].
  specialize (Hacc eq_refl). cbn [fst snd] in *.
  destruct Hs as (w1 & b & _ & -> & Hb). exists (Order_MarshalJSON o'). split; [exact Hb|].
  intros x. pose proof (accepted_complete _ _ _ _ _ _ Hacc Hv) as Hc.
  destruct (acc_pair _ _ _ _ _ _ Hacc) as (p & q & m & Hin & [Hbt Hqt] & Hmf & Htf & _ & _ & _ & Ho').
  apply (HandleOrders_delivers ps p o' x Hin); [|exact Hc].
  eapply (Process_PairCode p t1 t2 (set_o_Hash (o_Hash o') o)); [done..|].
  apply Process_ok. destruct (acc_fields _ _ _ _ _ _ Hacc). done.
Qed.
End reach.

(** ** The trades of a matched order *)

(** A batch of matches as the engine answers it. *)
Definition batch (o : Order) (l : list (Order * Trade)) : Matches :=
  mkMatches ((Some ∘ fst) <$> l) (Some o) ((Some ∘ snd) <$> l).

(** The matches with a given verdict. *)
Definition select (b : bool) (vs : list (bool * (Order * Trade))) : list (Order * Trade) :=
  (base.filter (λ v, v.1 = b) vs).*2.

(** A maker that passed the check has the funds. *)
Definition funded_verdicts (ps : list Pair) w (vs : list (bool * (Order * Trade))) : Prop :=
  Forall (λ v, v.1 = true → funded ps w v.2.1) vs.

Lemma funded_reads ps w w1 o : only_reads ps w w1 → funded ps w1 o → funded ps w o.
Proof.
  intros Hr (p & total & Hf). exists p, total.
  by destruct (only_reads_token ps w w1 o Hr) as [<- <-].
Qed.

Lemma batch_snoc o l x : AppendMatch (Some x.1) (Some x.2) (batch o l) = batch o (l ++ [x]).
Proof. unfold AppendMatch, batch. simpl. by rewrite !fmap_app. Qed.

Lemma match_loop_ok ps o ms : ∀ os l1 l0 fl w,
  services_ok ps w →
  wp (match_loop ((Some ∘ snd) <$> ms) ((Some ∘ fst) <$> ms)
        (mkMatched os (batch o l1) (batch o l0) fl)) (λ r w', only_reads ps w w' ∧
    match r with
    | Ok acc => ∃ vs, vs.*2 = ms ∧ funded_verdicts ps w vs ∧
        acc = mkMatched (os ++ (select true vs).*1) (batch o (l1 ++ select true vs))
                (batch o (l0 ++ select false vs)) (fl ++ vs.*1)
    | _ => True
    end) w.
Proof.
  induction ms as [|x ms IH]; intros os l1 l0 fl w Hw.
  - split; [done|]. exists []. rewrite !app_nil_r. split; [done|]. split; [constructor|done].
  - simpl. apply wp_bind, wp_lift. simpl. apply wp_bind, wp_lift. simpl.
    apply wp_bind, wp_attempt. eapply wp_mono; [|apply (ValidateBalance_sound ps _ _ Hw)].
    cbn beta. intros r w1 [Hr1 Hf].
    assert (∀ b, (b = true → funded ps w x.1) → wp (match_loop ((Some ∘ snd) <$> ms)
      ((Some ∘ fst) <$> ms) (mkMatched (if b then os ++ [x.1] else os)
        (batch o (if b then l1 ++ [x] else l1)) (batch o (if b then l0 else l0 ++ [x])) (fl ++ [b])))
      (λ r w', only_reads ps w w' ∧ match r with
        | Ok acc => ∃ vs, vs.*2 = x :: ms ∧ funded_verdicts ps w vs ∧
            acc = mkMatched (os ++ (select true vs).*1) (batch o (l1 ++ select true vs))
                (batch o (l0 ++ select false vs)) (fl ++ vs.*1)
        | _ => True end) w1) as Hstep.
    { intros b Hb. eapply wp_mono; [|apply IH, (or_ok _ _ _ Hr1 Hw)]. intros r2 w2 [Hr2 Hvs].
      split; [by etrans|]. destruct r2 as [acc|e|]; [|done..].
      destruct Hvs as (vs & Hms & Hv & ->). exists ((b, x) :: vs). split; [simpl; by f_equal|].
      split; [constructor; [exact Hb|]|].
      - eapply Forall_impl; [exact Hv|]. intros v Hv1 Hb1. by eapply funded_reads, Hv1.
      - unfold select. rewrite !filter_cons. by destruct b; simpl; rewrite <-!(assoc_L (++)). }
    destruct r as [[]|e|]; simpl; [| |by split].
    + rewrite batch_snoc. apply (Hstep true). intros _. by apply Hf.
    + rewrite batch_snoc. by apply (Hstep false).
Qed.

(** Code that neither publishes nor touches the trades. *)
Definition same_sent_trades w w' : Prop :=
  s_broker w' = s_broker w ∧ s_trades w' = s_trades w.
Definition quiet {A} (m : M Services A) : Prop := ∀ w, wp m (λ _ w', same_sent_trades w w') w.

Lemma quiet_ret {A} (r : outcome A) : quiet (lift r).
Proof. by intros w. Qed.
Lemma quiet_orders {A} (m : M OS A) : quiet (zoom on_orders m).
Proof. intros w. apply wp_zoom. done. Qed.
Lemma quiet_ws {A} (m : M Ws A) : quiet (zoom on_ws m).
Proof. intros w. apply wp_zoom. done. Qed.
Lemma quiet_bind {A C} (m : M Services A) (k : A → M Services C) :
  quiet m → (∀ a, quiet (k a)) → quiet (m ≫= k).
Proof.
  intros Hm Hk w. apply wp_bind. eapply wp_mono; [|apply Hm]. intros r w1 Hw1.
  destruct r as [a|e|]; simpl; [|done..]. eapply wp_mono; [|apply Hk].
  intros r w2 Hw2. cbn beta in *. unfold same_sent_trades in *. intuition congruence.
Qed.
Lemma quiet_attempt {A} (m : M Services A) : quiet m → quiet (attempt m).
Proof. intros Hm w. apply wp_attempt. eapply wp_mono; [|apply Hm]. by intros []. Qed.

Lemma quiet_updates p os : ∀ bids asks, quiet (book_updates p os bids asks).
Proof.
  induction os as [|x os IH]; intros bids asks; [by intros w|]. simpl.
  apply quiet_bind; [|intros u; case_decide; apply IH].
  apply quiet_bind; [|by intros r w]. apply quiet_attempt, quiet_orders.
Qed.
Lemma quiet_broadcast os : quiet (broadcastOrderBookUpdate os).
Proof.
  apply quiet_bind; [apply quiet_ret|]. intros x. apply quiet_bind; [apply quiet_attempt, quiet_ret|].
  intros [e|p]; [by intros w|]. apply quiet_bind; [apply quiet_updates|].
  intros [bids asks]. apply quiet_ws.
Qed.
Lemma quiet_raw_broadcast os : quiet (broadcastRawOrderBookUpdate os).
Proof.
  apply quiet_bind; [apply quiet_ret|]. intros x. apply quiet_bind; [apply quiet_attempt, quiet_ret|].
  intros [e|p]; [by intros w|]. apply quiet_ws.
Qed.

(** A message goes out, or waits for ever for somebody to receive it; it is never an
    error. *)
Lemma send_loop_no_error channel type p l : ∀ x e,
  (mforeach (λ c, SendMessage c channel type p) l x).1 ≠ Err e.
Proof.
  induction l as [|c l IH]; intros x e; [done|]. cbn [mforeach]. unfold mbind, M_bind, SendMessage, send_on.
  destruct (quits x !! c) as [[|n]|]; [done|apply IH..].
Qed.
Lemma send_ok type a p w : wp (send type a p) (λ r w', (r = Ok tt ∨ r = Panic) ∧ same_sent_trades w w') w.
Proof.
  split; [|apply quiet_ws]. unfold send, zoom, SendOrderMessage, mbind, M_bind, get. simpl.
  destruct (GetOrderConnections a (s_ws w)) as [l|]; [|by left].
  pose proof (send_loop_no_error OrderChannel type p l (s_ws w)) as Hl.
  destruct (mforeach _ _ _) as [[[]|e|] x]; [by left|by destruct (Hl e)|by right].
Qed.

(** ** What is published of a batch *)
Definition invalidation (o : Order) (l : list (Order * Trade)) : string * json :=
  ("order", Message "INVALIDATE_MAKER_ORDERS" (Matches_MarshalJSON (batch o l))).
Definition to_operator (o : Order) (l : list (Order * Trade)) (ts : list Trade) : string * json :=
  ("trades", OperatorMessage_json (mkOperatorMessage "NEW_ORDER"
    (Some (set_trades (Some <$> ts) (batch o l))) "")).
Definition stored_trades (l : list (Order * Trade)) (ts : list Trade) w w' : Prop :=
  t_Hash <$> ts = t_Hash <$> l.*2 ∧
  ∃ us, t_Hash <$> us = t_Hash <$> l.*2 ∧ trades (s_trades w') ≡ₚ us ++ trades (s_trades w).

(** The broker and the collection of trades, when they work. *)
Definition reliable_broker : Prop :=
  (∀ ch q j (c : Connection B), (publish_on ch q j c).1 = Ok tt) ∧
  (∀ m (c : Connection B), is_Some (TakerOrder m) → (PublishTrades (Some m) c).1 = Ok tt).
Definition reliable_trades : Prop :=
  ∀ ts (s : TS), td_inv s → ∃ ts' s', td_Create ts s = (Ok (ts', inr tt), s').

Lemma publish_invalid_ok o l0 os v fl w :
  wp (publish_invalid (mkMatched os v (batch o l0) fl)) (λ r w',
    s_trades w' = s_trades w ∧ ∃ inv, sent (s_broker w') = sent (s_broker w) ++ inv ∧
    (inv = [] ∨ inv = [invalidation o l0] ∧ l0 ≠ []) ∧
    (reliable_broker → l0 ≠ [] → r = Ok tt ∧ inv ≠ [])) w.
Proof.
  unfold publish_invalid, Matches_Length. simpl. rewrite length_fmap.
  destruct l0 as [|x l0]; simpl.
  { split; [done|]. exists []. rewrite app_nil_r. split; [done|]. split; [by left|done]. }
  apply wp_log_error, wp_zoom.
  eapply wp_mono; [|apply (wp_and _ _ _ _ (publish_on_ok "orderPublish" "order" _ _) (wp_self _ _))].
  intros r b [Hb [Hr _]].
  assert (reliable_broker → r = Ok tt) as Hrel by (intros [Hp _]; rewrite Hr; apply Hp).
  destruct r as [[]|e|]; (split; [done|]).
  - exists [invalidation o (x :: l0)]. split; [exact Hb|]. split; [by right|done].
  - exists []. rewrite app_nil_r. split; [exact Hb|]. split; [by left|]. intros Hw.
    by specialize (Hrel Hw).
  - exists []. rewrite app_nil_r. split; [exact Hb|]. split; [by left|]. intros Hw.
    by specialize (Hrel Hw).
Qed.

Lemma or_report_ok {A} taker (m : M Services A) (Q : bool → Services → Prop) w :
  wp m (λ r w1, match r with
    | Ok _ => Q true w1
    | Err _ => ∀ w2, same_sent_trades w1 w2 → Q false w2
    | Panic => True end) w →
  wp (or_report taker m) (λ r w', match r with Ok b => Q b w' | _ => True end) w.
Proof.
  intros Hm. unfold or_report. apply wp_bind, wp_attempt. eapply wp_mono; [|exact Hm].
  intros [a|e|] w1 Hr; simpl; [done| |done].
  wp_step (send_ok "ERROR" taker (PString e) w1). intros r w2 [[->| ->] Hw2]; [|done]. by apply Hr.
Qed.

Lemma mapM_deref {A} (l : list A) : mapM deref (Some <$> l) = Ok l.
Proof. induction l as [|x l IH]; [done|]. rewrite fmap_cons. cbn. by rewrite IH. Qed.

Definition trade_complete (t : Trade) : Prop := is_Some (t_Amount t) ∧ is_Some (t_PricePoint t).

Lemma publish_valid_ok o taker m l1 os i fl w :
  td_inv (s_trades w) → Forall trade_complete l1.*2 →
  wp (publish_valid taker m (mkMatched os (batch o l1) i fl)) (λ r w',
    match r with
    | Ok _ => ∃ tr, sent (s_broker w') = sent (s_broker w) ++ tr ∧
        (tr = [] ∨ ∃ ts, tr = [to_operator o l1 ts] ∧ l1 ≠ [] ∧ stored_trades l1 ts w w') ∧
        (reliable_broker → reliable_trades → l1 ≠ [] → tr ≠ [])
    | _ => True end) w.
Proof.
  intros Hi Hl. unfold publish_valid, Matches_Length. simpl. rewrite length_fmap.
  destruct (decide _) as [Hlen|Hlen].
  2: { destruct l1; [|simpl in Hlen; lia]. exists []. rewrite app_nil_r. auto. }
  assert (l1 ≠ []) as Hne by (by intros ->; simpl in Hlen; lia).
  assert ((Some ∘ snd) <$> l1 = Some <$> l1.*2) as -> by (by rewrite <-list_fmap_compose).
  rewrite mapM_deref. apply wp_bind, wp_lift. simpl.
  apply wp_bind, wp_zoom. eapply wp_mono; [|apply (wp_and _ _ _ _ (Create_spec l1.*2 _ Hi Hl) (wp_self _ _))].
  intros r t [[Hi' Hr] [Hself _]]. destruct r as [[ts res]|e|]; [|done..].
  destruct Hr as [Hhash Hres]. cbn [wp_next lset on_trades].
  set (w1 := mkServices _ t _ _ _ _).
  assert (reliable_trades → res = inr tt) as Hrel.
  { intros Hrel. destruct (Hrel l1.*2 _ Hi) as (ts' & s' & Hc). rewrite Hc in Hself.
    by injection Hself as _ ->. }
  assert (∀ w2, sent (s_broker w2) = sent (s_broker w) → (reliable_broker → ¬ reliable_trades) →
    ∃ tr, sent (s_broker w2) = sent (s_broker w) ++ tr ∧
      (tr = [] ∨ ∃ ts, tr = [to_operator o l1 ts] ∧ l1 ≠ [] ∧ stored_trades l1 ts w w2) ∧
      (reliable_broker → reliable_trades → l1 ≠ [] → tr ≠ [])) as Hnone.
  { intros w2 Hw2 Hno. exists []. rewrite app_nil_r. split; [done|]. split; [by left|].
    intros ? ?. by destruct Hno. }
  apply wp_bind. eapply wp_mono; [|apply (or_report_ok taker (check res)
    (λ b w2, same_sent_trades w1 w2 ∧ match res with inr _ => b = true | inl _ => b = false end))].
  2: { destruct res as [e|[]]; [|done]. intros w2 Hw2. done. }
  intros r w2 Hw2. destruct r as [b|e|]; [|done..]. destruct Hw2 as [[Hb2 Ht2] Hb].
  destruct res as [e|[]]; subst b; simpl.
  { apply wp_ret, Hnone; [by rewrite Hb2|]. intros _ Hx. by specialize (Hrel Hx). }
  destruct Hres as (us & Hus & Hperm).
  apply wp_bind. eapply wp_mono; [|apply (or_report_ok taker _ (λ b w3,
    s_trades w3 = t ∧ if b then sent (s_broker w3) = sent (s_broker w) ++ [to_operator o l1 ts]
      else sent (s_broker w3) = sent (s_broker w) ∧ ¬ reliable_broker))].
  - intros r w3 Hw3. destruct r as [b|e|]; [|done..]. destruct Hw3 as [Ht3 Hs3].
    destruct b; simpl; [|apply wp_ret, Hnone; [apply Hs3|intros ?; by destruct Hs3]].
    wp_step (send_ok _ _ _ w3). intros r w4 ([->| ->] & Hb4 & Ht4); [|done]. apply wp_ret.
    exists [to_operator o l1 ts]. rewrite Hb4. split; [done|]. split; [|done].
    right. exists ts. split; [done|]. split; [done|]. split; [done|]. exists us. by rewrite Ht4, Ht3.
  - apply wp_zoom. eapply wp_mono; [|apply (wp_and _ _ _ _ (PublishTrades_ok
      (set_trades (Some <$> ts) (batch o l1)) (ltac:(by eexists)) _) (wp_self _ _))].
    intros r b [Hb [Hr _]]. cbn [lset on_broker s_broker s_trades lget] in *. rewrite Hb2 in Hb.
    destruct r as [[]|e|]; [|intros w3 [Hb3 Ht3]; split; [by rewrite Ht3|]|done].
    + split; [by rewrite Ht2|exact Hb].
    + rewrite Hb3. split; [exact Hb|]. intros [_ Hp]. rewrite Hp in Hr; [done|by eexists].
Qed.

(** What a handled batch has published: an invalidation of the makers that failed
    the check, and one message to the operator with the trades of the others,
    stored before. *)
Definition batch_sent (ps : list Pair) (o : Order) (ms : list (Order * Trade)) w w' : Prop :=
  ∃ vs, vs.*2 = ms ∧ funded_verdicts ps w vs ∧
  ∃ inv tr, sent (s_broker w') = sent (s_broker w) ++ inv ++ tr ∧
    (inv = [] ∨ inv = [invalidation o (select false vs)] ∧ select false vs ≠ []) ∧
    (tr = [] ∨ ∃ ts, tr = [to_operator o (select true vs) ts] ∧ select true vs ≠ [] ∧
       stored_trades (select true vs) ts w w') ∧
    (reliable_broker → reliable_trades →
      (select false vs ≠ [] → inv ≠ []) ∧ (select true vs ≠ [] → tr ≠ [])).

Lemma select_complete vs :
  Forall trade_complete vs.*2.*2 → Forall trade_complete (select true vs).*2.
Proof.
  unfold select. rewrite !Forall_fmap. intros Hc. apply Forall_forall.
  intros v [_ Hv]%list_elem_of_filter. by apply (proj1 (Forall_forall _ _) Hc).
Qed.

Lemma handleEngineOrderMatched_ok ps o ms st io ct w :
  services_ok ps w → td_inv (s_trades w) → Forall trade_complete ms.*2 →
  wp (handleEngineOrderMatched (mkEngineResponse st (Some o) (Some (batch o ms)) io ct))
    (λ r w', r = Ok tt → batch_sent ps o ms w w') w.
Proof.
  intros Hw Hi Hc. unfold handleEngineOrderMatched. simpl.
  apply wp_bind, wp_lift. simpl. apply wp_bind, wp_lift. cbn [wp_next].
  apply wp_bind. eapply wp_mono; [|apply (match_loop_ok ps o ms [o] [] [] [] w Hw)].
  intros r w1 [Hr1 Hvs]. destruct r as [acc|e|]; [|done..].
  destruct Hvs as (vs & <- & Hf & ->). cbn [wp_next app].
  wp_step (publish_invalid_ok o (select false vs) _ _ _ w1).
  intros r w2 (Ht2 & inv & Hinv & Hinv' & Hrel). destruct r as [[]|e|]; [|done..]. cbn [wp_next].
  assert (s_trades w2 = s_trades w) as Ht by (by rewrite Ht2, (or_trades _ _ _ Hr1)).
  wp_step (publish_valid_ok o (o_UserAddress o) _ (select true vs) _ _ _ w2
    ltac:(by rewrite Ht) (select_complete vs Hc)).
  intros r w3 Hw3. destruct r as [go_on|e|]; [|done..]. cbn [wp_next].
  destruct Hw3 as (tr & Htr & Htr' & Hrel').
  assert (∀ w', same_sent_trades w3 w' → batch_sent ps o vs.*2 w w') as Hend.
  { intros w' [Hb3 Ht3]. exists vs. split; [done|]. split; [done|]. exists inv, tr.
    split; [by rewrite Hb3, Htr, Hinv, (or_broker _ _ _ Hr1), <-(assoc_L (++))|].
    split; [done|]. split; [|intros ? ?; split; [by apply Hrel|by apply Hrel']].
    destruct Htr' as [?|(ts & ? & ? & Hh & us & Hus & Hp)]; [by left|right].
    exists ts. split; [done|]. split; [done|]. split; [done|]. exists us. split; [done|].
    by rewrite Ht3, Hp, Ht. }
  destruct go_on; simpl; [|apply wp_ret; intros _; by apply Hend].
  destruct (decide _); [|apply wp_ret; intros _; by apply Hend].
  eapply wp_mono; [|apply (quiet_bind _ _ (quiet_broadcast _) (λ _, quiet_raw_broadcast _))].
  intros r w4 Hw4 _. by apply Hend.
Qed.

(** C11: of the trades the engine matched, the service sends to the operator, in
    one message and after storing them, exactly those whose maker still has
    the funds he sells, and it sends the other makers back to the engine to be
    invalidated; when the broker and the collection of trades work, neither
    message is missing. *)
Theorem matched_trades_sent ps o ms st io ct w w' :
  services_ok ps w → td_inv (s_trades w) → Forall trade_complete ms.*2 →
  handleEngineOrderMatched (mkEngineResponse st (Some o) (Some (batch o ms)) io ct) w = (Ok tt, w') →
  batch_sent ps o ms w w'.
Proof.
  intros Hw Hi Hc Hrun.
  by apply (wp_run _ _ _ _ _ Hrun (handleEngineOrderMatched_ok ps o ms st io ct w Hw Hi Hc)).
Qed.

(** ** Who is told of an added order *)

(** What is left at a price of a pair. *)
Definition volume (bk : book) (p : Pair) (pp : Z) (side : string) : Z :=
  sumZ (remaining <$> base.filter (at_price p pp side) (orders_of bk)).

Definition tokens_pair (o : Order) : Pair := Pair_of_addresses (o_BaseToken o) (o_QuoteToken o).
Definition book_channel (o : Order) : string :=
  GetOrderBookChannelID (o_BaseToken o) (o_QuoteToken o).

(** The update of the order book that goes out with an order. *)
Definition book_change (o : Order) (v : Z) : payload :=
  let u := [("pricepoint", Big.Stringp (o_PricePoint o)); ("amount", Big.String_Z v)] in
  if decide (o_Side o = "BUY") then POrderBook (o_PairName o) [u] []
  else POrderBook (o_PairName o) [] [u].

(** An order whose price level the database can sum exactly. *)
Record priced (o : Order) (pp : Z) w : Prop := {
  pr_base : o_BaseToken o ≠ 0;
  pr_quote : o_QuoteToken o ≠ 0;
  pr_price : o_PricePoint o = Some pp;
  pr_inv : od_inv (s_orders w);
  pr_exact : decimal_exact pp = true;
  pr_amounts : map_Forall (λ _ x, price_exact x ∧ amounts_exact x) (order_book (s_orders w));
  pr_volume : decimal_exact (volume (order_book (s_orders w)) (tokens_pair o) pp (o_Side o)) = true
}.

Lemma book_update_ok o pp w :
  priced o pp w →
  wp (book_update (tokens_pair o) o) (λ r w', s_ws w' = s_ws w ∧ ∃ v,
    r = Ok [("pricepoint", Big.Stringp (o_PricePoint o)); ("amount", Big.String_Z v)] ∧
    (v = volume (order_book (s_orders w)) (tokens_pair o) pp (o_Side o) ∨
     v = 0 ∧ ∃ e, (od_GetOrderBookPricePoint (tokens_pair o) (o_PricePoint o) (o_Side o)
                     (s_orders w)).1 = Err e)) w.
Proof.
  intros [_ _ Hpp Hi Hx Ha Hv]. unfold book_update. apply wp_bind, wp_attempt, wp_zoom. rewrite Hpp.
  eapply wp_mono; [|apply (wp_and _ _ _ _ (GetOrderBookPricePoint_spec (tokens_pair o) pp
    (o_Side o) _ Hi Hx Ha Hv) (wp_self _ _))].
  intros r s' [(_ & _ & Hr) [Hself _]]. destruct r as [a|e|]; [| |done]; apply wp_ret; split; try done.
  - subst a. unfold volume. destruct (base.filter _ _) as [|x l]; eexists; (split; [done|by left]).
  - exists 0. split; [done|]. right. split; [done|]. by exists e.
Qed.

Definition subscriber (k : SocketKind) (o : Order) (x : Ws) (c : Client) : Prop :=
  knows x c (ChannelUnsubscribe k (book_channel o)).
#[local] Instance subscriber_dec k o x c : Decision (subscriber k o x c).
Proof. apply knows_dec. Defined.

(** The amount an update announces: what is left at the price, or 0 when the
    database did not answer. *)
Definition announced (o : Order) (v : Z) w : Prop :=
  v = volume (order_book (s_orders w)) (tokens_pair o) (default 0 (o_PricePoint o)) (o_Side o) ∨
  v = 0 ∧ ∃ e, (od_GetOrderBookPricePoint (tokens_pair o) (o_PricePoint o) (o_Side o)
                  (s_orders w)).1 = Err e.

Lemma Order_Pair_tokens o pp w : priced o pp w → Order_Pair o = Ok (tokens_pair o).
Proof. intros [Hb Hq _ _ _ _ _]. unfold Order_Pair. by rewrite !decide_False. Qed.

Lemma broadcast_ok o pp w :
  priced o pp w →
  wp (broadcastOrderBookUpdate [o]) (λ r w', ∃ v, announced o v w ∧
    sent_to (subscriber OrderBookSocket o (s_ws w))
      (mkWebsocketMessage "orderbook" "UPDATE" "" (book_change o v)) (s_ws w) r (s_ws w')) w.
Proof.
  intros Hp. unfold broadcastOrderBookUpdate. apply wp_bind, wp_lift. simpl.
  apply wp_bind, wp_attempt, wp_lift. rewrite (Order_Pair_tokens o pp w Hp). cbn [wp_next].
  apply wp_bind. simpl. wp_step (book_update_ok o pp w Hp). intros r w1 (Hws & v & -> & Hv). cbn [wp_next].
  assert (announced o v w) as Ha by (unfold announced; by rewrite (pr_price _ _ _ Hp) in * ).
  unfold book_change. destruct (decide (o_Side o = "BUY")) as [Hs|Hs]; simpl;
    apply wp_zoom; (eapply wp_mono; [|apply broadcast_now_ok]); intros r x Hd;
    exists v; (split; [done|]); simpl in *; rewrite Hws in Hd; rewrite ?Hs; exact Hd.
Qed.

Lemma raw_broadcast_ok o w :
  Order_Pair o = Ok (tokens_pair o) →
  wp (broadcastRawOrderBookUpdate [o]) (λ r w',
    sent_to (subscriber RawOrderBookSocket o (s_ws w))
      (mkWebsocketMessage "raw_orderbook" "UPDATE" "" (POrders [o])) (s_ws w) r (s_ws w')) w.
Proof.
  intros Hp. unfold broadcastRawOrderBookUpdate. apply wp_bind, wp_lift. simpl.
  apply wp_bind, wp_attempt, wp_lift. rewrite Hp. cbn [wp_next].
  apply wp_zoom. eapply wp_mono; [|apply broadcast_now_ok]. done.
Qed.

(** Who is to hear of an added order. *)
Definition concerned (o : Order) (x : Ws) (c : Client) : Prop :=
  knows x c (OrderSocketUnsubscribe (o_UserAddress o)) ∨
  subscriber OrderBookSocket o x c ∨ subscriber RawOrderBookSocket o x c.

(** C31: when an order is added to the book, every connection of its user gets the
    order, every subscriber of the pair's order book gets the amount left at
    the order's price, and every subscriber of the raw order book gets the
    order; each of them exactly once and nobody else anything.  The amount is
    announced as 0 when the database fails to answer.  It is so whenever the call comes
    back; it never answers an error, and it waits for ever only when the
    [writeHandler] of one of these clients returns. *)
Theorem order_added_notifies o pp st m io ct w :
  rtc ws_step empty_ws (s_ws w) → priced o pp w →
  ∃ r w', handleEngineOrderAdded (mkEngineResponse st (Some o) m io ct) w = (r, w') ∧
  match r with
  | Ok _ => ∃ v, announced o v w ∧
    ∀ c, received (s_ws w') c = received (s_ws w) c ++
      (if decide (knows (s_ws w) c (OrderSocketUnsubscribe (o_UserAddress o)))
       then [mkWebsocketMessage "orders" "ORDER_ADDED" "" (POrder o)] else []) ++
      (if decide (subscriber OrderBookSocket o (s_ws w) c)
       then [mkWebsocketMessage "orderbook" "UPDATE" "" (book_change o v)] else []) ++
      (if decide (subscriber RawOrderBookSocket o (s_ws w) c)
       then [mkWebsocketMessage "raw_orderbook" "UPDATE" "" (POrders [o])] else [])
  | Err _ => False
  | Panic => ∃ c, concerned o (s_ws w) c ∧ quits (s_ws w) !! c ≠ None
  end.
Proof.
  intros Hws%ws_reachable_ok Hp. unfold handleEngineOrderAdded.
  match goal with |- ∃ r w', ?m w = (r, w') ∧ @?Q r w' => cut (wp m Q w) end.
  { unfold wp. intros Hc. eexists _, _. split; [apply surjective_pairing|exact Hc]. }
  apply wp_bind, wp_lift. simpl. apply wp_bind, wp_zoom.
  eapply wp_mono; [|apply SendOrderMessage_ok, Hws]. intros r x1 H1'.
  destruct r as [[]|e|]; [|by destruct H1' as (_ & _ & [])|].
  2: { destruct (sent_to_stuck _ _ _ _ _ (reflexivity _) H1') as (c & Hc & Hq). exists c. by split; [left|]. }
  apply sent_to_done in H1'. pose proof (proj1 H1') as Hs1. cbn [wp_next].
  set (w1 := lset on_ws x1 w). assert (priced o pp w1) as Hp1 by (by destruct Hp).
  wp_step (broadcast_ok o pp w1 Hp1). intros r w2 (v & Hv & H2').
  destruct r as [[]|e|]; [|by destruct H2' as (_ & _ & [])|].
  2: { destruct (sent_to_stuck _ _ _ _ _ Hs1 H2') as (c & Hc & Hq). exists c. split; [right; left|done].
       by apply (sends_knows _ _ _ _ Hs1). }
  apply sent_to_done in H2'. pose proof (proj1 H2') as Hs2. change (s_ws w1) with x1 in *. cbn [wp_next].
  assert (sends (s_ws w) (s_ws w2)) as Hs by (by etrans).
  eapply wp_mono; [|apply raw_broadcast_ok, (Order_Pair_tokens o pp w Hp)]. intros r w3 H3'.
  destruct r as [[]|e|]; [|by destruct H3' as (_ & _ & [])|].
  2: { destruct (sent_to_stuck _ _ _ _ _ Hs H3') as (c & Hc & Hq). exists c. split; [right; right|done].
       by apply (sends_knows _ _ _ _ Hs). }
  apply sent_to_done in H3'. exists v. split; [done|]. intros c.
  rewrite (proj2 H3' c), (proj2 H2' c), (proj2 H1' c), <-!(assoc_L (++)).
  do 3 f_equal; apply decide_ext; unfold subscriber;
    rewrite ?(sends_knows _ _ _ _ Hs), ?(sends_knows _ _ _ _ Hs1); done.
Qed.

(** ** The operator's messages *)

Definition operator_types : list string :=
  [TRADE_ERROR; TRADE_TX_PENDING; TRADE_TX_ERROR; TRADE_INVALID].

Lemma log_error_panic {A} (m : M Services A) w : (m w).1 = Panic → (log_error m w).1 = Panic.
Proof. unfold log_error. by destruct (m w) as [[] ?]. Qed.

Lemma trade_hashes_ok ts : trade_hashes (Some <$> ts) = Ok (t_Hash <$> ts).
Proof. unfold trade_hashes. by rewrite mapM_deref. Qed.

(** An operator message without trades ends the process, whatever the state,
    except under the type of a successful transaction, which is ignored; and a
    successful transaction ends the process when the database answers none of
    its trades, as it does when its query fails. *)
Theorem operator_message_panics type m err w :
  (type ∈ operator_types → Trades m = [] →
    (HandleOperatorMessages (mkOperatorMessage type (Some m) err) w).1 = Panic) ∧
  (Trades m = [] →
    HandleOperatorMessages (mkOperatorMessage TRADE_TX_SUCCESS (Some m) err) w = (Ok tt, w)) ∧
  (∀ t ts, Trades m = Some <$> (t :: ts) →
    (td_UpdateTradeStatuses SUCCESS (t_Hash <$> t :: ts) (s_trades w)).1 = Ok [] →
    (HandleOperatorMessages (mkOperatorMessage TRADE_TX_SUCCESS (Some m) err) w).1 = Panic).
Proof.
  destruct m as [mos to trades]. cbn [Trades]. split_and!.
  - intros Ht ->. unfold HandleOperatorMessages. simpl.
    unfold operator_types in Ht. rewrite !elem_of_cons in Ht.
    destruct Ht as [->|[->|[->|[->|[]%elem_of_nil]]]]; by apply log_error_panic.
  - by intros ->.
  - intros t ts -> Hr. unfold HandleOperatorMessages. simpl. apply log_error_panic.
    change (wp (handleOperatorTradeTxSuccess (mkOperatorMessage TRADE_TX_SUCCESS
      (Some (mkMatches mos to (Some <$> t :: ts))) err)) (λ r _, r = Panic) w).
    unfold handleOperatorTradeTxSuccess. apply wp_bind, wp_lift. unfold wp_next at 1.
    apply wp_bind, wp_lift. cbv beta. change (Trades _) with (Some <$> t :: ts).
    rewrite trade_hashes_ok. unfold wp_next at 1. rewrite fmap_cons in *. apply wp_bind, wp_attempt, wp_zoom. unfold wp at 1. cbn [lget on_trades].
    by rewrite Hr.
Qed.
End spec.
