(* ===== verification/System.v ===== *)
(** The parts together: clients, the order service, the engine and their queues as one
    transition system.

    A step is a request of a client or the handling of one message.  A message of the
    order queue, or an answer of the engine, may be handled at any time after it was
    published, in any order and any number of times, and the handler of the operator's
    messages is given whatever message; a step that fails or panics leaves the state it
    has come to.  In every state that can be reached, every stored order is one that
    passes [Validate], and every batch of trades on its way to the operator is made of
    such orders, that accept each other's price. *)
From S2P Require Import Prelude BigMath Types Mongo ListMongo Json Fixtures Orders OrderCancels MatchTypes OrderCodec TradeCodec OrderDao Pairs OrderStore TradeDao Rabbit Consumers Engine Toy EngineSpec EngineProps Ws WsProps Services Validator OrderService OrderServiceProps.

(** ** What is kept of an order *)

(** An order without what the server itself changes. *)
Definition core (o : Order) : Order :=
  set_o_ID "" (set_o_Status "" (set_o_FilledAmount None (set_o_PairName ""
    (set_o_CreatedAt 0 (set_o_UpdatedAt 0 o))))).

Section good.
Context `{EthCommon, AppConfig}.

(** Its fields are in order, and it carries its user's signature of its hash. *)
Definition valid (o : Order) : Prop :=
  Validate_fields o = Ok tt ∧ ∃ sig, Order_ComputeHash o = Ok (o_Hash o) ∧ o_Signature o = Some sig ∧
    Sig.Verify sig (signed_message (o_Hash o)) = Ok (o_UserAddress o).
Lemma valid_validates o : valid o ↔ Validate o = (Ok tt, o).
Proof.
  rewrite Validate_ok, <- Validate_fields_ok. split.
  - intros (Hf & sig & Hh & Hs & Hv). split; [done|]. exists (o_Hash o), sig. split_and!; [done..|]. by destruct o.
  - intros (Hf & h & sig & Hh & Hs & Hv & E). split; [done|]. exists sig.
    apply (f_equal o_Hash) in E. cbn in E. by rewrite E.
Qed.

Definition good (o : Order) : Prop := valid o ∧ price_exact o.
Lemma good_core o o' : core o = core o' → good o → good o'.
Proof. intros E Ho. change (good (core o')). rewrite <- E. exact Ho. Qed.
Lemma good_acceptable o : complete o → good o → acceptable o.
Proof. intros Hc [[Hf _] Hx]. split; [done|apply (ok_side o), Validate_fields_ok, Hf|done]. Qed.

Definition book_good (bk : book) : Prop := map_Forall (λ _, good) bk.
Lemma book_good_exact bk : book_good bk → book_prices_exact bk.
Proof. intros Hb. eapply map_Forall_impl; [exact Hb|]. by intros _ o []. Qed.
Lemma book_good_orders bk : book_good bk → Forall good (orders_of bk).
Proof.
  intros Hb. unfold orders_of. apply Forall_fmap, Forall_forall. intros [h o] Ho%elem_of_map_to_list.
  exact (Hb h o Ho).
Qed.

(** ** The steps of the book keep it *)
Lemma core_content o u : same_content o u → core u = core o.
Proof. by intros ->. Qed.
Lemma core_fill_maker rem m : core (fill_maker rem m) = core m.
Proof. done. Qed.
Lemma core_fill_taker d x o : core (fill_taker d x o) = core o.
Proof. by destruct d. Qed.
Lemma core_added o : core (added o) = core o.
Proof. unfold added. by case_match. Qed.
Lemma core_refill o a : core (refill o a) = core o.
Proof. unfold refill. by repeat case_match. Qed.

Lemma saved_good bk bk' o : saved bk bk' o → good o → book_good bk → book_good bk'.
Proof.
  intros (u & [Hu _] & ->) Ho Hb. apply map_Forall_insert_2; [|done].
  eapply good_core; [|exact Ho]. by rewrite (core_content o u).
Qed.
Lemma saved_all_good bk bk' l : saved_all bk bk' l → Forall good l → book_good bk → book_good bk'.
Proof.
  revert bk. induction l as [|o l IH]; intros bk; [by intros ->|].
  intros (bk1 & H1 & Hl) [Ho Hg]%Forall_cons Hb. eapply IH; [done..|]. by eapply saved_good.
Qed.
Lemma stored_good o l q rem d x : good o → Forall good l →
  Forall good ((allocate q rem l).*1 ++ [fill_taker d x o]).
Proof.
  intros Ho Hl. apply Forall_app. split.
  - revert q rem. induction Hl as [|m l Hm Hl IH]; intros q rem; [done|]. cbn. constructor.
    + by eapply good_core; [|exact Hm].
    + case_match; [done|apply IH].
  - constructor; [|done]. eapply good_core; [|exact Ho]. by rewrite core_fill_taker.
Qed.
Lemma candidates_good bk o l : book_good bk → candidates bk o l → Forall good l.
Proof.
  intros Hb [Hp _]. rewrite Hp. apply Forall_filter_all. by apply book_good_orders.
Qed.
Lemma partial_good o bk bk' : good o → book_good bk → new_order_partial o bk bk' → book_good bk'.
Proof.
  intros Ho Hb [(res & l & Hc & Hl)|(l & n & [[Hc Hs]| ->])]; [| |done].
  - destruct l as [|m l].
    + destruct Hl as [_ [->|Hs]]; [done|]. eapply saved_good; [exact Hs| |done].
      eapply good_core; [|exact Ho]. by rewrite core_added.
    + destruct Hl as (t & ms & _ & _ & Hs). eapply saved_all_good; [exact Hs| |done].
      apply stored_good; [done|by eapply candidates_good].
  - eapply saved_all_good; [exact Hs| |done]. apply Forall_take, stored_good; [done|by eapply candidates_good].
Qed.
Lemma mark_good t st hs bk : book_good bk → book_good (mark t st hs bk).
Proof.
  intros Hb h o Hm. unfold mark in Hm. apply lookup_fmap_Some in Hm as (o' & <- & Ho). specialize (Hb h o' Ho). case_decide; [|done].
  by eapply good_core; [|exact Hb].
Qed.
Lemma refill_all_good os amounts us : refill_all os amounts = Some us →
  Forall (λ o, complete o ∧ good o) os → Forall (λ o, complete o ∧ good o) us.
Proof.
  revert amounts us. induction os as [|o os IH]; intros amounts us; [by intros [= <-]|].
  destruct amounts as [|[a|] amounts]; [done| |done]. cbn [refill_all].
  destruct (refill_all os amounts) as [us'|] eqn:E; [|done]. intros [= <-] [[Hc Ho] Hos]%Forall_cons.
  constructor; [|by eapply IH]. split; [|by eapply good_core; [|exact Ho]; rewrite core_refill].
  destruct Hc as [? ? ? ? ? ? ?]. unfold refill. by repeat case_match; constructor.
Qed.
Lemma insert_orders_good us bk : Forall good us → book_good bk → book_good (insert_orders us bk).
Proof.
  intros Hu. revert bk. induction Hu as [|u us Hu Hus IH]; intros bk Hb; [done|]. cbn.
  apply IH, map_Forall_insert_2; done.
Qed.
End good.

(** ** Deals *)
Section deals.
Context `{EthCommonLaws} `{AppConfig} `{!Codecs, !CodecLaws _ _} `{Big.Undefined, Sprint}.

(** The makers [m] a taker [o] accepts: its tokens, the other side, and a price that is
    no worse than either's limit. *)
Definition agree (o m : Order) : Prop :=
  same_pair o m ∧ (o_Side o = BUY ∧ o_Side m = SELL ∧ price m ≤ price o ∨
                   o_Side o = SELL ∧ o_Side m = BUY ∧ price o ≤ price m).
(** What a trade says of the two orders it is made of. *)
Definition trade_names (o m : Order) (t : Trade) : Prop :=
  t_TakerOrderHash t = o_Hash o ∧ t_MakerOrderHash t = o_Hash m ∧
  t_Taker t = o_UserAddress o ∧ t_Maker t = o_UserAddress m ∧
  t_BaseToken t = o_BaseToken o ∧ t_QuoteToken t = o_QuoteToken o ∧ t_PricePoint t = o_PricePoint o.

Definition party (o : Order) : Prop := complete o ∧ good o.
Definition deal (o : Order) (p : Order * Trade) : Prop :=
  party p.1 ∧ agree o p.1 ∧ trade_names o p.1 p.2 ∧ has_amounts p.2.

Lemma agree_core o o' m m' : core o = core o' → core m = core m' → agree o m → agree o' m'.
Proof. intros Eo Em Ha. change (agree (core o') (core m')). rewrite <- Eo, <- Em. exact Ha. Qed.
Lemma crosses_agree o m : o_Side o = BUY ∨ o_Side o = SELL → crosses o m → agree o m.
Proof.
  unfold crosses, agree. intros [Hs|Hs]; rewrite Hs.
  - intros (_ & Hp & Hm & Hx). auto.
  - intros (_ & Hp & Hm & Hx). auto.
Qed.
Lemma party_sent o : party o → party (order_sent o).
Proof. intros [[? ? ? ? ? ? ?] Hg]. split; [by constructor|]. by eapply good_core; [|exact Hg]. Qed.
Lemma deal_sent o p : deal o p → deal (order_sent o) (order_sent p.1, trade_sent p.2).
Proof. by intros (Hp & Ha & Hn & Hx); split; [apply party_sent|]. Qed.
Lemma deal_same o p t : deal o p → same_terms p.2 t → trade_names o p.1 t.
Proof. by intros (_ & _ & Hn & _) ->. Qed.
Lemma deals_stored o l ts : Forall (deal o) l → Forall2 same_terms l.*2 ts →
  Forall2 (λ m t, party m ∧ agree o m ∧ trade_names o m t) l.*1 ts.
Proof.
  intros Hl. revert ts. induction Hl as [|p l Hp Hl IH]; intros ts Hts; inversion Hts; subst; constructor; [|by apply IH].
  split_and!; [apply Hp..|by eapply deal_same].
Qed.

(** The answer to an order that was matched makes deals. *)
Lemma candidates_deal bk o l : party o → o_Side o = BUY ∨ o_Side o = SELL →
  Forall party (orders_of bk) → candidates bk o l → Forall (λ m, party m ∧ agree o m) l.
Proof.
  intros Ho Hs Hb [Hp _]. rewrite Hp. apply Forall_forall. intros m [Hx Hm]%list_elem_of_filter.
  split; [by apply (proj1 (Forall_forall _ _) Hb)|by apply crosses_agree].
Qed.
Lemma match_of_deal o after p ma : core after = core o → party o → party ma.1 ∧ agree o ma.1 →
  match_of o p ma → deal after p.
Proof.
  intros E Ho [[Hc Hg] Ha] [[t Hp] Ht]. destruct p as [m tr]. cbn in Hp, Ht. subst m tr.
  pose proof (f_equal o_Hash E) as E1. pose proof (f_equal o_UserAddress E) as E2.
  pose proof (f_equal o_BaseToken E) as E3. pose proof (f_equal o_QuoteToken E) as E4.
  pose proof (f_equal o_PricePoint E) as E5. cbn in E1, E2, E3, E4, E5.
  split; [split; [by apply complete_updated|by eapply good_core; [|exact Hg]]|].
  split; [by eapply agree_core; [| |exact Ha]|].
  split; [by split_and!|]. split; [by eexists|apply (has_price _ (proj1 Ho))].
Qed.
End deals.

(** ** The messages of the queues *)
Section messages.
Context `{EthCommon, AppConfig, Codecs}.

(** A new order comes with its signature; what is cancelled or invalidated is looked up. *)
Definition order_message_ok (type : string) (data : json) : Prop :=
  if decide (type = "NEW_ORDER") then ∃ o, data = Order_MarshalJSON o ∧ complete o ∧ good o
  else type = "CANCEL_ORDER" ∨ type = "INVALIDATE_MAKER_ORDERS".
(** The engine's answer to a matched order comes with its deals. *)
Definition answer_ok (r : EngineResponse) : Prop :=
  er_Status r = ORDER_FILLED ∨ er_Status r = ORDER_PARTIALLY_FILLED →
  ∃ o ms, er_Order r = Some o ∧ er_Matches r = Some (batch o ms) ∧ party o ∧ Forall (deal o) ms.
(** The trades that the operator is given, each with its maker's order. *)
Definition batch_message (o : Order) (ms : list Order) (ts : list Trade) : json :=
  OperatorMessage_json (mkOperatorMessage "NEW_ORDER" (Some (mkMatches (Some <$> ms) (Some o) (Some <$> ts))) "").
Definition batch_ok (j : json) : Prop :=
  ∃ o ms ts, j = batch_message o ms ts ∧ party o ∧
    Forall2 (λ m t, party m ∧ agree o m ∧ trade_names o m t) ms ts.
Definition message_ok (m : string * json) : Prop :=
  (m.1 = "order" → ∃ type data, m.2 = Message type data ∧ order_message_ok type data) ∧
  (m.1 = "engineResponse" → ∃ r, m.2 = EngineResponse_json r ∧ answer_ok r) ∧
  (m.1 = "trades" → batch_ok m.2).
Definition messages_ok (l : list (string * json)) : Prop := Forall message_ok l.

Lemma message_in q j l : messages_ok l → (q, j) ∈ l → message_ok (q, j).
Proof. intros Hl. by apply (proj1 (Forall_forall _ _)). Qed.
Lemma order_message type data l : messages_ok l → ("order", Message type data) ∈ l → order_message_ok type data.
Proof. intros Hl Hin. by destruct (proj1 (message_in _ _ _ Hl Hin) eq_refl) as (type' & data' & [= <- <-] & Hm). Qed.
Lemma message_app m l : message_ok m → messages_ok l → messages_ok (l ++ [m]).
Proof. intros Hm Hl. apply Forall_app. split; [done|]. by constructor. Qed.
Lemma order_message_app type data l : order_message_ok type data → messages_ok l →
  messages_ok (l ++ [("order", Message type data)]).
Proof. intros Hm. apply message_app. split_and!; [by exists type, data|done..]. Qed.
Lemma answer_app r l : answer_ok r → messages_ok l → messages_ok (l ++ [("engineResponse", EngineResponse_json r)]).
Proof. intros Hr. apply message_app. split_and!; [done|by exists r|done]. Qed.
Lemma batch_app j l : batch_ok j → messages_ok l → messages_ok (l ++ [("trades", j)]).
Proof. intros Hj. apply message_app. by split_and!. Qed.
Lemma new_order_ok o : complete o → good o → order_message_ok "NEW_ORDER" (Order_MarshalJSON o).
Proof. by exists o. Qed.
End messages.

(** ** The engine *)
Section engine.
Context {OS TS B : Type} `{OrderDaoSpec OS, ITradeDao TS, AmqpLaws B}.
Context `{EthCommonLaws} `{AppConfig} `{!Codecs, !CodecLaws _ _} `{Big.Undefined, Sprint}.
#[local] Abbreviation World := (World OS TS B).
Implicit Types w : World.

Definition engine_ok w : Prop := winv w ∧ book_good (wbook w) ∧ messages_ok (wsent w).
(** Code that keeps the state in order, whatever comes of it. *)
Definition keeps {A} (m : M World A) : Prop := ∀ w, engine_ok w → wp m (λ _ w', engine_ok w') w.

Lemma keeps_lift {A} (r : outcome A) : keeps (lift r).
Proof. by intros w. Qed.
Lemma keeps_bind {A C} (m : M World A) (k : A → M World C) : keeps m → (∀ a, keeps (k a)) → keeps (m ≫= k).
Proof.
  intros Hm Hk w Hw. apply wp_bind. eapply wp_mono; [|by apply Hm].
  intros [a|e|] w1 Hw1; [by apply Hk|done..].
Qed.
Lemma keeps_log {A} (m : M World A) : keeps m → keeps (log_error m).
Proof. intros Hm w Hw. apply wp_log_error. eapply wp_mono; [|by apply Hm]. by intros []. Qed.
Lemma keeps_trades {A} (m : M TS A) : keeps (zoom trades_lens m).
Proof. intros w Hw. apply wp_zoom. done. Qed.
Lemma keeps_response r : answer_ok r → keeps (publish_response r).
Proof.
  intros Ha w (Hi & Hb & Hs). eapply wp_broker; [apply publish_on_ok|]. intros r' w' Ho Ht Hr.
  unfold engine_ok, winv, wbook. rewrite Ho. split_and!; [done..|].
  destruct r'; rewrite Hr; [by apply answer_app|done..].
Qed.
Lemma keeps_foreach {A} (f : A → M World unit) l : Forall (λ a, keeps (f a)) l → keeps (mforeach f l).
Proof. induction 1 as [|a l Ha Hl IH]; [by apply keeps_lift|]. by apply keeps_bind. Qed.

Lemma book_orders_ok w : engine_ok w → Forall (λ o, complete o ∧ good o) (orders_of (wbook w)).
Proof.
  intros (Hi & Hb & _). apply Forall_forall. intros o Ho.
  apply list_elem_of_fmap in Ho as ([h o'] & -> & Ho%elem_of_map_to_list). split; [|exact (Hb h _ Ho)].
  by apply (book_complete _ h _ Hi).
Qed.
Lemma republish_keeps o : complete o → good o → keeps (republish o).
Proof.
  intros Hc Hg. apply keeps_log. intros w (Hi & Hb & Hs). eapply wp_broker; [apply publish_on_ok|].
  intros r w' Ho Ht Hr. unfold engine_ok, winv, wbook. rewrite Ho. split_and!; [done..|].
  destruct r; rewrite Hr; [|done..]. apply order_message_app; [by apply new_order_ok|done].
Qed.

Lemma UpdateFilled_keeps hs amounts w : engine_ok w →
  wp (zoom orders_lens (od_UpdateOrderFilledAmounts hs amounts)) (λ r w', engine_ok w' ∧
    ∀ us, r = Ok us → Forall (λ o, complete o ∧ good o) us) w.
Proof.
  intros Hw. pose proof Hw as (Hi & Hb & Hs). apply wp_orders.
  eapply wp_mono; [|apply (UpdateOrderFilledAmounts_spec hs amounts _ Hi)].
  intros r s (Hi' & os & Hos & Hr) w' E [Ht Hbr].
  assert (Forall (λ o, complete o ∧ good o) os) as Hg.
  { rewrite Hos. by apply Forall_filter_all, book_orders_ok. }
  assert (∀ l us am, Forall (λ o, complete o ∧ good o) l → refill_all l am = Some us →
    order_book s = insert_orders us (order_book (w_orders w)) → engine_ok w') as Hok.
  { intros l us am Hl Hus Hbk. unfold engine_ok, winv, wbook, wsent. rewrite E, Hbk. split_and!; [done| |].
    - apply insert_orders_good; [|done]. eapply Forall_impl; [by eapply refill_all_good|]. by intros o [].
    - by rewrite Hbr. }
  destruct r as [us|e|].
  - destruct Hr as [Hus Hbk]. split; [by eapply Hok|]. intros us' [= <-]. by eapply refill_all_good.
  - destruct Hr as (n & us & Hus & Hbk). split; [|done]. eapply Hok; [|done..]. by apply Forall_take.
  - destruct Hr as (_ & n & us & Hus & Hbk). split; [|done]. eapply Hok; [|done..]. by apply Forall_take.
Qed.

Lemma keeps_orders {A} (m : M OS A) (Q : book → book → Prop) :
  (∀ s, od_inv s → wp m (λ _ s', od_inv s' ∧ Q (order_book s) (order_book s')) s) →
  (∀ bk bk', Q bk bk' → book_good bk → book_good bk') → keeps (zoom orders_lens m).
Proof.
  intros Hm HQ w (Hi & Hb & Hs). apply wp_orders. eapply wp_mono; [|apply (Hm _ Hi)].
  intros r s [Hi' Hq] w' E [Ht Hbr]. unfold engine_ok, winv, wbook, wsent. rewrite E, Hbr.
  split_and!; [done|by eapply HQ|done].
Qed.
Lemma UpdateStatuses_keeps st hs : keeps (zoom orders_lens (od_UpdateOrderStatusesByHashes st hs)).
Proof.
  apply (keeps_orders _ (λ bk bk', bk' = bk ∨ ∃ t, bk' = mark t st hs bk)).
  - intros s Hi. eapply wp_mono; [|apply (UpdateOrderStatusesByHashes_spec st hs s Hi)]. intros r s' [Hi' Hr].
    split; [done|]. destruct r as [os|e|]; [| |done]; [destruct Hr as [[-> _]|[Hr _]]|destruct Hr as [->|(os & [[-> _]|[Hr _]])]]; auto.
  - intros bk bk' [->|[t ->]] Hb; [done|by apply mark_good].
Qed.
Lemma UpdateStatus_keeps h st : keeps (zoom orders_lens (od_UpdateOrderStatus h st)).
Proof.
  apply (keeps_orders _ (λ bk bk', bk' = bk ∨ ∃ o, bk !! h = Some o ∧ bk' = <[h := set_o_Status st o]> bk)).
  - intros s Hi. eapply wp_mono; [|apply (UpdateOrderStatus_spec h st s Hi)]. intros r s' [Hi' Hr].
    split; [done|]. destruct r as [os|e|]; [by right| |done]. destruct Hr as [->|[_ Hr]]; auto.
  - intros bk bk' [->|(o & Ho & ->)] Hb; [done|]. apply map_Forall_insert_2; [|done].
    eapply good_core; [|exact (Hb h o Ho)]. done.
Qed.

Lemma answer_deals o w bk' res : engine_ok w → party o → new_order_result o (wbook w) bk' res → answer_ok res.
Proof.
  intros Hw Ho (l & Hc & Hl). pose proof (acc_side _ (good_acceptable o (proj1 Ho) (proj2 Ho))) as Hs.
  destruct l as [|m l]; [destruct Hl as [[t ->] _]; by intros []|].
  destruct Hl as (t & ms & -> & Hms & _). intros _. eexists _, ms. split; [done|]. split; [done|].
  pose proof (candidates_deal _ o _ Ho Hs (book_orders_ok w Hw) Hc) as Hl.
  apply (allocate_makers (λ m, party m ∧ agree o m) (amount o) (remaining o)) in Hl.
  2: { intros rem m' [[Hm Hg] Ha]. split; [split; [by apply complete_fill_maker|by eapply good_core; [|exact Hg]]|].
       by eapply agree_core; [| |exact Ha]. }
  assert (∀ d x, core (set_o_UpdatedAt t (fill_taker d x o)) = core o) as E by (by intros []).
  split.
  - destruct Ho as [Hco Hg]. split; [by apply complete_updated, complete_taker|].
    by eapply good_core; [symmetry; apply E|].
  - eapply Forall2_Forall_l; [exact Hms|]. eapply Forall_impl; [exact Hl|]. intros ma Hma p Hp.
    exact (match_of_deal o _ p ma (E _ _) Ho Hma Hp).
Qed.
Lemma newOrder_keeps o : complete o → good o → keeps (newOrder o).
Proof.
  intros Hc Hg w Hw. pose proof Hw as (Hi & Hb & Hs).
  eapply wp_mono; [|apply (newOrder_spec o w Hi (good_acceptable o Hc Hg) (book_good_exact _ Hb))].
  intros r w' (Hi' & Ht & Hr). unfold engine_ok.
  destruct r as [[]|e|].
  - destruct Hr as (res & Hr & ->). split_and!; [done| |apply answer_app; [exact (answer_deals o w _ res Hw (conj Hc Hg) Hr)|done]].
    eapply partial_good; [exact Hg|exact Hb|]. left. by exists res.
  - destruct Hr as [Hp ->]. split_and!; [done|by eapply partial_good|done].
  - destruct Hr as [Hp ->]. split_and!; [done|by eapply partial_good|done].
Qed.
Lemma cancelOrder_keeps o : keeps (cancelOrder o).
Proof.
  apply keeps_bind; [apply UpdateStatus_keeps|]. intros []. apply keeps_response. by intros [].
Qed.
(** An invalidation that gives amounts back publishes the orders it gave them to. *)
Lemma give_back_keeps {A} hs amounts (k : list Order → M World A) :
  (∀ os, Forall (λ o, complete o ∧ good o) os → keeps (k os)) →
  keeps (os ← zoom orders_lens (od_UpdateOrderFilledAmounts hs amounts); k os).
Proof.
  intros Hk w Hw. apply wp_bind. eapply wp_mono; [|by apply UpdateFilled_keeps].
  intros [os|e|] w1 [Hw1 Hos]; [|done..]. by apply (Hk os (Hos os eq_refl)).
Qed.
Lemma republish_all_keeps os : Forall (λ o, complete o ∧ good o) os → keeps (mforeach republish os).
Proof.
  intros Hos. apply keeps_foreach. eapply Forall_impl; [exact Hos|]. intros o []. by apply republish_keeps.
Qed.
Lemma invalidateMakerOrders_keeps m : keeps (invalidateMakerOrders m).
Proof.
  unfold invalidateMakerOrders. repeat (apply keeps_bind; [apply keeps_lift|]; intros ?).
  apply give_back_keeps. intros os Hos. apply keeps_bind; [apply UpdateStatuses_keeps|]. intros ios.
  apply keeps_bind; [apply keeps_trades|]. intros ts.
  apply keeps_bind; [apply keeps_log, keeps_response; by intros []|]. intros []. by apply republish_all_keeps.
Qed.
Lemma HandleOrders_keeps e type data : order_message_ok type data → keeps (HandleOrders e type data).
Proof.
  unfold order_message_ok. case_decide as Hn.
  - intros (o & -> & Hc & Hg). rewrite Hn. unfold HandleOrders. rewrite decide_True by done.
    unfold handleNewOrder, unmarshal_order. rewrite Order_json_roundtrip' by done.
    intros w Hw. apply wp_bind, wp_lift. cbn [wp_next]. revert w Hw.
    apply keeps_bind; [apply keeps_lift|]. intros code.
    apply keeps_bind; [unfold find_orderbook; case_decide; by intros w|]. intros [].
    apply newOrder_keeps; [by destruct Hc; constructor|by eapply good_core; [|exact Hg]].
  - intros [->| ->]; unfold HandleOrders; rewrite !decide_False by done; cbn [decide]; rewrite decide_True by done.
    + apply keeps_bind; [apply keeps_lift|]. intros o. apply keeps_bind; [apply keeps_lift|]. intros code.
      apply keeps_bind; [unfold find_orderbook; case_decide; by intros w|]. intros []. apply cancelOrder_keeps.
    + apply keeps_bind; [apply keeps_lift|]. intros m. apply keeps_bind; [apply keeps_lift|]. intros code.
      apply keeps_bind; [unfold find_orderbook; case_decide; by intros w|]. intros [].
      apply invalidateMakerOrders_keeps.
Qed.
End engine.

(** ** The server *)
Section server.
Context {OS TS PS ES B : Type}.
Context `{OrderDaoSpec OS, TradeDaoSpec TS, PairDaoSpec PS, EthereumProviderSpec ES, AmqpLaws B}.
Context `{EthCommonLaws} `{AppConfig} `{!Codecs, !CodecLaws _ _} `{Big.Undefined, Sprint}.
#[local] Abbreviation Services := (Services OS TS PS ES B).
Implicit Types w : Services.

Definition stored w : book := order_book (s_orders w).
Definition server_ok (ps : list Pair) w : Prop :=
  services_ok ps w ∧ book_good (stored w) ∧ messages_ok (sent (s_broker w)).

(** What a client can send: a byte for [V], and a price the database can hold exactly. *)
Definition sendable (o : Order) : Prop :=
  (∀ sig, o_Signature o = Some sig → 0 ≤ sig_V sig < 256) ∧ price_exact o.

Inductive server_step (ps : list Pair) : Services → Services → Prop :=
  | client_orders t1 t2 o r o' w w' : sendable o →
      NewOrder t1 t2 (o, w) = (r, (o', w')) → server_step ps w w'
  | client_cancels oc r w w' : CancelOrder oc w = (r, w') → server_step ps w w'
  | engine_consumes type data r w w' : ("order", Message type data) ∈ sent (s_broker w) →
      zoom on_engine (HandleOrders (NewEngine ps) type data) w = (r, w') → server_step ps w w'
  | response_consumed j res r w w' : ("engineResponse", j) ∈ sent (s_broker w) →
      EngineResponse_unjson j = Ok res → HandleEngineResponse res w = (r, w') → server_step ps w w'
  | operator_consumed msg r w w' : HandleOperatorMessages msg w = (r, w') → server_step ps w w'.

(** ** Code that keeps the server in order *)
Definition polite (ps : list Pair) {A} (m : M Services A) : Prop :=
  ∀ w, server_ok ps w → wp m (λ _ w', server_ok ps w') w.

Section polite.
Variable ps : list Pair.
#[local] Abbreviation polite := (polite ps).
Lemma polite_lift {A} (r : outcome A) : polite (lift r).
Proof. by intros w. Qed.
Lemma polite_bind {A C} (m : M Services A) (k : A → M Services C) :
  polite m → (∀ a, polite (k a)) → polite (m ≫= k).
Proof.
  intros Hm Hk w Hw. apply wp_bind. eapply wp_mono; [|by apply Hm].
  intros [a|e|] w1 Hw1; [by apply Hk|done..].
Qed.
(** ... where the rest relies on what was answered. *)
Lemma polite_bind_with {A C} (Q : A → Prop) (m : M Services A) (k : A → M Services C) :
  (∀ w, server_ok ps w → wp m (λ r w', server_ok ps w' ∧ ∀ a, r = Ok a → Q a) w) →
  (∀ a, Q a → polite (k a)) → polite (m ≫= k).
Proof.
  intros Hm Hk w Hw. apply wp_bind. eapply wp_mono; [|by apply Hm].
  intros [a|e|] w1 [Hw1 Hq]; [|done..]. by apply (Hk a (Hq a eq_refl)).
Qed.
Lemma polite_known {A C} (a : A) (k : A → M Services C) : polite (k a) → polite (lift (Ok a) ≫= k).
Proof. intros Hk w Hw. apply wp_bind, wp_lift. by apply Hk. Qed.
Lemma polite_attempt {A} (m : M Services A) : polite m → polite (attempt m).
Proof. intros Hm w Hw. apply wp_attempt. eapply wp_mono; [|by apply Hm]. by intros []. Qed.
Lemma polite_log {A} (m : M Services A) : polite m → polite (log_error m).
Proof. intros Hm w Hw. apply wp_log_error. eapply wp_mono; [|by apply Hm]. by intros []. Qed.
Lemma polite_ws {A} (m : M Ws A) : polite (zoom on_ws m).
Proof. intros w Hw. apply wp_zoom. done. Qed.
Lemma polite_trades {A} (m : M TS A) : polite (zoom on_trades m).
Proof. intros w Hw. apply wp_zoom. done. Qed.
Lemma polite_foreach {A} (f : A → M Services unit) l : (∀ a, polite (f a)) → polite (mforeach f l).
Proof. intros Hf. induction l as [|a l IH]; [apply polite_lift|]. by apply polite_bind. Qed.
Lemma reads_ok w w' : server_ok ps w → only_reads ps w w' → server_ok ps w'.
Proof.
  intros (Hw & Hb & Hs) Hr. unfold server_ok, stored.
  rewrite (or_book _ _ _ Hr Hw), (or_broker _ _ _ Hr). split_and!; [|done..]. by apply (or_ok _ _ _ Hr).
Qed.
Lemma polite_broker (m : M (Connection B) unit) :
  (∀ c, messages_ok (sent c) → wp m (λ _ c', messages_ok (sent c')) c) → polite (zoom on_broker m).
Proof.
  intros Hm w (Hw & Hb & Hs). apply wp_zoom. eapply wp_mono; [|by apply Hm]. intros r c Hc. by split_and!.
Qed.
Lemma polite_send type a p : polite (send type a p).
Proof. apply polite_ws. Qed.
Lemma polite_book_update p o : polite (book_update p o).
Proof.
  apply polite_bind; [|intros r; apply polite_lift]. apply polite_attempt. intros w ((Hi & Hp) & Hb & Hs).
  apply wp_zoom. eapply wp_mono; [|apply (GetOrderBookPricePoint_reads _ _ _ _ Hi)].
  intros r s [Hi' Hb']. split_and!; [by split| |done]. unfold stored. cbn. by rewrite Hb'.
Qed.
Lemma polite_book_updates p os : ∀ bids asks, polite (book_updates p os bids asks).
Proof.
  induction os as [|o os IH]; intros bids asks; [apply polite_lift|]. cbn [book_updates].
  apply polite_bind; [apply polite_book_update|]. intros u. case_decide; apply IH.
Qed.
Lemma polite_broadcast os : polite (broadcastOrderBookUpdate os).
Proof.
  apply polite_bind; [apply polite_lift|]. intros o. apply polite_bind; [apply polite_attempt, polite_lift|].
  intros [e|p]; [apply polite_lift|]. apply polite_bind; [apply polite_book_updates|]. intros [bids asks].
  apply polite_ws.
Qed.
Lemma polite_raw_broadcast os : polite (broadcastRawOrderBookUpdate os).
Proof.
  apply polite_bind; [apply polite_lift|]. intros o. apply polite_bind; [apply polite_attempt, polite_lift|].
  intros [e|p]; [apply polite_lift|apply polite_ws].
Qed.
Lemma polite_trade_broadcast ts : polite (broadcastTradeUpdate ts).
Proof.
  repeat (apply polite_bind; [apply polite_lift|]; intros ?).
  apply polite_bind; [apply polite_attempt, polite_lift|]. intros [e|p]; [apply polite_lift|apply polite_ws].
Qed.

(** ** The handlers *)
Lemma polite_publish_trades o l ts : party o → Forall (deal o) l → Forall2 same_terms l.*2 ts →
  polite (zoom on_broker (PublishTrades (Some (set_trades (Some <$> ts) (batch o l))))).
Proof.
  intros Ho Hl Hts. apply polite_broker. intros c Hc.
  eapply wp_mono; [|apply (PublishTrades_ok (set_trades (Some <$> ts) (batch o l)) (ltac:(by eexists)) c)].
  intros r c' Hr. destruct r; rewrite Hr; [|done..]. apply batch_app; [|done].
  exists o, l.*1, ts. split; [unfold batch_message, set_trades, batch; cbn; by rewrite list_fmap_compose|].
  split; [done|]. by apply deals_stored.
Qed.
Lemma polite_report {A} taker (m : M Services A) : polite m → polite (or_report taker m).
Proof.
  intros Hm. apply polite_bind; [by apply polite_attempt|]. intros [e|a]; [|apply polite_lift].
  apply polite_bind; [apply polite_send|]. intros []. apply polite_lift.
Qed.
Lemma polite_publish_invalid l : polite (publish_invalid l).
Proof.
  unfold publish_invalid. case_decide; [|apply polite_lift]. apply polite_log, polite_broker.
  intros c Hc. eapply wp_mono; [|apply publish_on_ok]. intros r c' Hr. cbn beta in Hr.
  destruct r; rewrite Hr; [|done..]. apply order_message_app; [by right|done].
Qed.
Lemma polite_publish_valid taker m o l os i fl : party o → Forall (deal o) l →
  polite (publish_valid taker m (mkMatched os (batch o l) i fl)).
Proof.
  intros Ho Hl. unfold publish_valid. case_decide; [|apply polite_lift]. cbn [m_valid batch Trades m_flags].
  rewrite list_fmap_compose, mapM_deref. apply polite_known.
  apply (polite_bind_with (λ x, Forall2 same_terms l.*2 x.1)).
  { intros w Hw. apply wp_zoom. eapply wp_mono; [|apply Create_answers]. intros r t Hr. split; [exact Hw|].
    intros [us res] ->. by eapply Hr. }
  intros [created r] Hts. apply polite_bind; [apply polite_report; destruct r; by intros w|]. intros [].
  2: apply polite_lift. cbn [negb].
  apply polite_bind; [by apply polite_report, polite_publish_trades|]. intros []; [|apply polite_lift].
  apply polite_bind; [apply polite_send|]. intros []. apply polite_lift.
Qed.
Lemma polite_matched res o ms : er_Order res = Some o → er_Matches res = Some (batch o ms) →
  party o → Forall (deal o) ms → polite (handleEngineOrderMatched res).
Proof.
  intros Eo Em Ho Hms. unfold handleEngineOrderMatched. rewrite Eo, Em.
  apply polite_known. cbv zeta. apply polite_known.
  apply (polite_bind_with (λ acc, ∃ os i fl l, acc = mkMatched os (batch o l) i fl ∧ Forall (deal o) l)).
  { intros w Hw. eapply wp_mono; [|apply (match_loop_ok ps o ms [o] [] [] [] w (proj1 Hw))].
    intros r w' [Hr Hacc]. split; [by eapply reads_ok|]. intros acc ->. destruct Hacc as (vs & <- & _ & ->).
    eexists _, _, _, _. split; [reflexivity|]. cbn. unfold select. rewrite Forall_fmap in Hms. apply Forall_fmap.
    by apply Forall_filter_all. }
  intros acc (os & i & fl & l & -> & Hl).
  apply polite_bind; [apply polite_publish_invalid|]. intros [].
  apply polite_bind; [by apply polite_publish_valid|]. intros []; [|apply polite_lift]. cbn [negb].
  case_decide; [|apply polite_lift]. apply polite_bind; [apply polite_broadcast|]. intros []. apply polite_raw_broadcast.
Qed.
(** The deals of an answer are those of the answer that was published. *)
Lemma answer_received r res : answer_ok r → EngineResponse_unjson (EngineResponse_json r) = Ok res → answer_ok res.
Proof.
  intros Hr Hj Hst. rewrite (response_status_back r res Hj) in Hst.
  destruct (Hr Hst) as (o & ms & Eo & Em & Ho & Hms).
  destruct (response_sent_back r res) as (_ & Eo' & Em'); [| |done|].
  - rewrite Eo. apply Ho.
  - rewrite Em. split_and!; [|apply Ho|]; cbn; apply Forall_fmap; eapply Forall_impl; try exact Hms; intros p Hp; apply Hp.
  - exists (order_sent o), ((λ p, (order_sent p.1, trade_sent p.2)) <$> ms). rewrite Eo', Em', Eo, Em.
    split; [done|]. split; [unfold Matches_sent, batch; cbn; f_equal; f_equal; by rewrite <- !list_fmap_compose|].
    split; [by apply party_sent|]. apply Forall_fmap. eapply Forall_impl; [exact Hms|]. intros p. apply deal_sent.
Qed.
Lemma polite_responses res : answer_ok res → polite (HandleEngineResponse res).
Proof.
  intros Hres. apply polite_log. unfold handleEngineOrderAdded, handleOrderCancelled,
    handleOrdersInvalidated, handleEngineError.
  repeat case_decide; repeat first
    [ apply polite_lift | apply polite_send | apply polite_broadcast | apply polite_raw_broadcast
    | apply polite_trade_broadcast | apply polite_foreach; intros ?
    | match goal with |- polite (handleEngineOrderMatched _) =>
        destruct Hres as (? & ? & ? & ? & ? & ?); [by auto|by eapply polite_matched] end
    | apply polite_bind; [|intros ?]
    | match goal with |- polite (match ?x with _ => _ end) => destruct x end
    | match goal with |- polite (if ?x then _ else _) => destruct x end ].
Qed.

Lemma polite_send_makers type p os : polite (send_makers type p os).
Proof. apply polite_foreach. intros o. apply polite_bind; [apply polite_lift|]. intros ?. apply polite_send. Qed.
Lemma polite_send_matches m n : ∀ i, polite (send_matches m i n).
Proof.
  induction n as [|n IH]; intros i; [apply polite_lift|]. cbn [send_matches].
  do 3 (apply polite_bind; [apply polite_lift|]; intros ?). apply polite_bind; [apply polite_send|]. intros []. apply IH.
Qed.
Lemma polite_mark_errors ts : polite (mark_errors ts).
Proof.
  induction ts as [|t ts IH]; [apply polite_lift|]. cbn [mark_errors].
  apply polite_bind; [apply polite_lift|]. intros t'. apply polite_bind; [apply polite_log, polite_trades|].
  intros []. apply polite_bind; [done|]. intros rest. apply polite_lift.
Qed.
Lemma polite_operator msg : polite (HandleOperatorMessages msg).
Proof.
  apply polite_log. unfold handleOperatorTradeTxError, handleOperatorTradeInvalid, handleOperatorTradeError,
    handleOperatorTradeTxPending, handleOperatorTradeTxSuccess.
  repeat case_decide; repeat first
    [ apply polite_lift | apply polite_send | apply polite_send_makers | apply polite_send_matches
    | apply polite_trade_broadcast | apply polite_mark_errors | apply polite_attempt | apply polite_trades
    | apply polite_bind; [|intros ?]
    | match goal with |- polite (match ?x with _ => _ end) => destruct x end ].
Qed.
End polite.

Lemma NewOrder_keeps ps t1 t2 o r o' w w' : server_ok ps w → sendable o →
  NewOrder t1 t2 (o, w) = (r, (o', w')) → server_ok ps w'.
Proof.
  intros (Hw & Hb & Hs) [Hv Hx] Hrun.
  destruct (wp_run _ _ _ _ _ Hrun (NewOrder_ok ps t1 t2 o w Hw)) as [(w1 & b & Hr & E & Hsent) Hacc].
  cbn [fst snd] in *. subst w'. split_and!; [exact (or_ok _ _ _ Hr Hw)| |].
  - unfold stored. cbn. by rewrite (or_book _ _ _ Hr Hw).
  - cbn. rewrite Hsent. destruct r as [[]|e|]; rewrite ?app_nil_r; [|done..]. specialize (Hacc eq_refl).
    apply order_message_app; [|done]. apply new_order_ok; [by eapply accepted_complete|].
    destruct (acc_signed _ _ _ _ _ _ Hacc) as (h & sig & Hh & Hsig & Hver & Eh).
    destruct (acc_pair _ _ _ _ _ _ Hacc) as (p & q & m & _ & _ & _ & _ & _ & _ & _ & ->).
    rewrite Eh. apply (good_core (set_o_Hash h o)); [done|]. split; [|exact Hx].
    split; [by apply Validate_fields_ok; destruct (acc_fields _ _ _ _ _ _ Hacc)|]. by exists sig.
Qed.
Lemma CancelOrder_keeps ps oc : polite ps (CancelOrder oc).
Proof.
  apply polite_bind.
  - intros w ((Hi & Hp) & Hb & Hs). apply wp_zoom. eapply wp_mono; [|apply (GetByHash_spec _ _ Hi)].
    intros r s (Hi' & Hb' & _). split_and!; [by split| |done]. unfold stored. cbn. by rewrite Hb'.
  - intros [o|]; [|by intros w]. apply polite_bind; [apply polite_lift|]. intros [].
    apply polite_broker. intros c Hc. eapply wp_mono; [|apply publish_on_ok]. intros r c' Hr. cbn beta in Hr.
    destruct r; rewrite Hr; [|done..]. apply order_message_app; [by left|done].
Qed.
Lemma engine_step_keeps ps e type data w : server_ok ps w → ("order", Message type data) ∈ sent (s_broker w) →
  wp (zoom on_engine (HandleOrders e type data)) (λ _ w', server_ok ps w') w.
Proof.
  intros ((Hi & Hp) & Hb & Hs) Hin. apply wp_zoom.
  eapply wp_mono; [|apply (HandleOrders_keeps e type data); [by eapply order_message|by split_and!]].
  intros r x (Hi' & Hb' & Hs'). by split_and!.
Qed.
Lemma step_keeps ps w w' : server_step ps w w' → server_ok ps w → server_ok ps w'.
Proof.
  intros Hstep Hw. destruct Hstep as [t1 t2 o r o' w w' Hs Hrun|oc r w w' Hrun|type data r w w' Hin Hrun
    |j res r w w' Hin Hj Hrun|msg r w w' Hrun].
  - by eapply NewOrder_keeps.
  - exact (wp_run _ _ _ _ _ Hrun (CancelOrder_keeps ps oc w Hw)).
  - exact (wp_run _ _ _ _ _ Hrun (engine_step_keeps ps _ type data w Hw Hin)).
  - refine (wp_run _ _ _ _ _ Hrun (polite_responses ps res _ w Hw)). destruct Hw as (_ & _ & Hs).
    destruct (proj1 (proj2 (message_in _ _ _ Hs Hin)) eq_refl) as (r' & E & Hr'). cbn in E. subst j.
    by eapply answer_received.
  - exact (wp_run _ _ _ _ _ Hrun (polite_operator ps msg w Hw)).
Qed.

Lemma run_keeps ps w w' : services_ok ps w → stored w = ∅ → sent (s_broker w) = [] →
  rtc (server_step ps) w w' → server_ok ps w'.
Proof.
  intros Hw Hb Hs Hsteps.
  assert (server_ok ps w) as Hw0 by (split_and!; [done|rewrite Hb; apply map_Forall_empty|rewrite Hs; constructor]).
  clear Hw Hb Hs. induction Hsteps as [w|w w1 w2 Hstep _ IH]; [done|]. by apply IH, (step_keeps ps w).
Qed.

(** C3: whatever clients ask and in whatever order, and however often, the messages are
    handled, a server that starts with an empty book stores nothing but orders that pass
    [Validate] unchanged: with the exchange's address, positive amounts and prices, and
    their user's own signature of their hash. *)
Theorem stored_orders_signed ps w w' :
  services_ok ps w → stored w = ∅ → sent (s_broker w) = [] → rtc (server_step ps) w w' →
  ∀ h o, stored w' !! h = Some o → o_Hash o = h ∧ Validate o = (Ok tt, o).
Proof.
  intros Hw Hb Hs Hsteps. destruct (run_keeps ps w w' Hw Hb Hs Hsteps) as ((Hi & _) & Hb' & _).
  intros h o Ho. split; [by apply (book_complete _ _ _ Hi Ho)|]. apply valid_validates, (Hb' h o Ho).
Qed.

(** C4: every message the operator is ever given trades by consent: its taker and each of
    its makers pass [Validate], so they carry their users' signatures; each maker is on the
    other side of the taker's pair at a price within both limits; and each trade names the
    hashes, the users, the tokens and the price of the two orders it was made of. *)
Theorem sent_trades_agreed ps w w' :
  services_ok ps w → stored w = ∅ → sent (s_broker w) = [] → rtc (server_step ps) w w' →
  ∀ j, ("trades", j) ∈ sent (s_broker w') →
  ∃ o ms ts, j = batch_message o ms ts ∧ Validate o = (Ok tt, o) ∧
    Forall2 (λ m t, Validate m = (Ok tt, m) ∧ agree o m ∧ trade_names o m t) ms ts.
Proof.
  intros Hw Hb Hs Hsteps j Hj. destruct (run_keeps ps w w' Hw Hb Hs Hsteps) as (_ & _ & Hs').
  destruct (proj2 (proj2 (message_in _ _ _ Hs' Hj)) eq_refl) as (o & ms & ts & E & [_ [Ho _]] & Hms).
  exists o, ms, ts. split; [exact E|]. split; [by apply valid_validates|].
  eapply Forall2_impl; [exact Hms|]. intros m t ([_ [Hm _]] & Ha & Hn). split; [by apply valid_validates|done].
Qed.
End server.
