(* ===== verification/ServiceWitness.v ===== *)
(** The order service at work: a server with one pair, an unreliable provider and
    the toy engine; each theorem is applied to a concrete run. *)
From S2P Require Import Prelude BigMath Types Mongo ListMongo Json Fixtures Orders MatchTypes OrderCancels OrderCodec TradeCodec OrderDao Collection Pairs OrderStore OrderDaoRefine TradeDao Rabbit Consumers Engine Toy EngineSpec EngineProps EngineWitness Ws WsProps Services Validator OrderService OrderServiceProps System.
Import Running.

(** A provider that times out on every other call; everybody is rich. *)
#[export] Instance toy_provider : IEthereumProvider nat := {|
  BalanceOf _ _ s := (if Nat.odd s then Err "timeout" else Ok (10 ^ 30), S s);
  Allowance _ _ _ s := (if Nat.odd s then Err "timeout" else Ok (10 ^ 29), S s)
|}.
#[export] Instance toy_provider_spec : EthereumProviderSpec nat.
Proof.
  refine {| balance _ _ _ := 10 ^ 30; allowance _ _ _ _ := 10 ^ 29 |};
    intros; unfold wp; simpl; by destruct (Nat.odd s).
Defined.

(** The pairs are a collection of their own. *)
#[export] Instance toy_pair_dao : IPairDao coll := pair_dao (Mongo0 := ListMongo []).
#[export] Instance toy_pair_dao_spec : PairDaoSpec coll :=
  pair_dao_spec (Mongo0 := ListMongo []) (MongoLaws0 := ListMongo_laws []).

Abbreviation toy_services := (Services coll coll coll nat (list (string * json))).
Definition toy_pairs : coll := (pd_Create toy_pair (Coll [] 4000000 0)).2.
Definition kept_pair : Pair :=
  pair_kept (set_p_UpdatedAt 4000001 (set_p_CreatedAt 4000000 (set_p_ID "id0" toy_pair))).

Lemma toy_pairs_ok : pairs toy_pairs [kept_pair].
Proof.
  constructor; [|constructor].
  split; [done|]. split; [done|].
  apply (bool_decide_unpack _). vm_compute. exact I.
Defined.

(** The server with a given book and WebSocket registries. *)
Definition server (orders : coll) (x : Ws) : toy_services :=
  mkServices orders (Coll [] 0 0) toy_pairs 0%nat (mkConnection [] ∅ ∅) x.

Lemma server_ok orders x : od_inv orders → services_ok [kept_pair] (server orders x).
Proof. intros Hi. split; [exact Hi|exact toy_pairs_ok]. Defined.

(** An order of user 9 to sell TOMO. *)
Definition sell : Order := toy_order 9 1 0 (10 ^ 20) (10 ^ 25).
Definition server0 : toy_services := server (w_orders toy_start) empty_ws.
Definition sold : outcome unit * (Order * toy_services) := NewOrder 6000000 7000000 (sell, server0).
Lemma sold_run : NewOrder 6000000 7000000 (sell, server0) = (Ok tt, (sold.2.1, sold.2.2)).
Proof. vm_compute. reflexivity. Defined.
Lemma server0_ok : services_ok [kept_pair] server0.
Proof. apply server_ok, toy_start_inv. Defined.


Lemma accepted_order_reaches_book_witness :
  ∃ j, sent (s_broker sold.2.2) = [("order", Message "NEW_ORDER" j)] ∧
    HandleOrders (NewEngine [kept_pair]) "NEW_ORDER" j toy_start =
    newOrder (delivered sold.2.1) toy_start.
Proof.
  destruct (accepted_order_reaches_book [kept_pair] 6000000 7000000 sell server0 _ _ server0_ok
    sold_run) as (j & Hs & Hx).
  - intros s Hsig. injection Hsig as <-. done.
  - exists j. split; [exact Hs|apply Hx].
Defined.

(** The server with the book of [EngineWitness] *)
Definition server1 : toy_services := server (w_orders toy_w1) empty_ws.
Lemma server1_ok : services_ok [kept_pair] server1.
Proof. apply server_ok, toy_w1_inv. Defined.
Definition cancel : OrderCancel := mkOrderCancel 5 0 None.

Definition cancelled : outcome unit * toy_services := CancelOrder cancel server1.
Lemma cancelled_run : CancelOrder cancel server1 = (Ok tt, cancelled.2).
Proof. vm_compute. reflexivity. Defined.

Lemma CancelOrder_publishes_witness :
  ∃ o, order_book (s_orders server1) !! 5 = Some o ∧ o_Status o ≠ FILLED ∧
    reads_and_sends [kept_pair] [("order", Message "CANCEL_ORDER" (Order_MarshalJSON o))]
      server1 cancelled.2.
Proof.
  destruct (CancelOrder_publishes [kept_pair] cancel server1 _ _ server1_ok cancelled_run) as [Hc _].
  destruct Hc as (o & Ho & Hf & _ & _ & Hs). exists o. split; [exact Ho|split; [exact Hf|exact Hs]].
Defined.

(** ** The balance check *)
#[local] Arguments Retry : simpl never.
Lemma toy_provider_answers (s : nat) :
  (∃ b, (Retry 3 (BalanceOf 9 11) s).1 = Ok b) ∧
  (∃ a, (Retry 3 (Allowance 9 (HexToAddress exchange_address) 11) s).1 = Ok a).
Proof.
  rewrite !Retry_eq. cbn [BalanceOf Allowance toy_provider].
  destruct (Nat.odd s) eqn:Hs; [|by split; eexists].
  rewrite !Retry_eq. cbn [BalanceOf Allowance toy_provider].
  rewrite Nat.odd_succ, <-Nat.negb_odd, Hs. by split; eexists.
Qed.
Lemma sell_reads_answer : reads_answer sell server0 kept_pair.
Proof.
  split; [vm_compute; reflexivity|]. split; [exists 0; vm_compute; reflexivity|].
  exact toy_provider_answers.
Defined.

Lemma ValidateAvailableBalance_accepts_witness : ∃ w',
  ValidateAvailableBalance sell server0 = (Ok tt, w') ∧ only_reads [kept_pair] server0 w'.
Proof.
  destruct (ValidateAvailableBalance_accepts [kept_pair] sell server0 kept_pair (10 ^ 20)
    server0_ok sell_reads_answer ltac:(reflexivity) ltac:(discriminate))
    as (r & w' & l & Hrun & Ho & _ & Hl & Hr).
  exists w'. split; [|exact Ho]. rewrite Hrun. f_equal. apply Hr.
  assert (l = 0) as -> by (apply (inj Some); rewrite <-Hl; vm_compute; reflexivity).
  vm_compute. discriminate.
Defined.

(** ** A batch with a maker that cannot pay *)
Definition trade_of (h : Hash) : Trade :=
  mkTrade "" 2 9 11 12 5 7 h "" None 0 "TOMO/WETH" 0 0 (Some (10 ^ 25)) PENDING (Some 10).
Definition poor : Order := toy_order 9 1 1 (10 ^ 31) (10 ^ 25).
Definition two_matches : list (Order * Trade) := [(sell, trade_of 21); (poor, trade_of 22)].
Definition buyer : Order := toy_order 2 0 7 20 (10 ^ 25).
Definition filled_answer : EngineResponse :=
  mkEngineResponse ORDER_FILLED (Some buyer) (Some (batch buyer two_matches)) None None.
Definition handled : outcome unit * toy_services := handleEngineOrderMatched filled_answer server0.
Lemma handled_run : handleEngineOrderMatched filled_answer server0 = (Ok tt, handled.2).
Proof. vm_compute. reflexivity. Defined.

(** One message for each of the two queues. *)
Example handled_queues : (sent (s_broker handled.2)).*1 = ["order"; "trades"].
Proof. vm_compute. reflexivity. Qed.

Lemma toy_broker_reliable : reliable_broker (B := list (string * json)).
Proof.
  split.
  - intros ch q j c. unfold publish_on, GetChannel, GetQueue, DeclareQueue, Publish, or_fatal,
      attempt, zoom, mbind, M_bind, get, modify. simpl.
    repeat (case_decide; simpl; try done).
  - intros m c [o Ho]. unfold PublishTrades, GetChannel, GetQueue, DeclareQueue, Publish, or_fatal,
      attempt, zoom, mbind, M_bind, get, modify, lift, OperatorMessage_String, Matches_String. simpl.
    repeat (case_decide; simpl; rewrite ?Ho; try done).
Qed.
Lemma toy_trades_reliable : reliable_trades (TS := coll).
Proof.
  intros ts s _. simpl. unfold TradeDao.Create.
  assert (∀ ts y s, ∃ y' ts' s', TradeDao.create_loop (W:=coll) y ts s = (Ok (y', ts'), s')) as Hl.
  { clear. induction ts as [|t ts IH]; intros y s; [by eexists _, _, _|]. simpl.
    unfold mbind, M_bind. simpl. edestruct IH as (y' & ts' & s' & ->). by eexists _, _, _. }
  destruct (Hl ts (replicate (length ts) None) s) as (y' & ts' & s' & Hr).
  unfold mbind, M_bind. rewrite Hr. unfold returning, attempt, Insert, toy_mongo. simpl. unfold commit.
  by eexists _, _.
Qed.

Lemma matched_trades_sent_witness : batch_sent [kept_pair] buyer two_matches server0 handled.2.
Proof.
  refine (matched_trades_sent [kept_pair] buyer two_matches ORDER_FILLED None None server0 handled.2
    server0_ok _ _ handled_run).
  - by constructor.
  - repeat constructor; by eexists.
Defined.

(** ** An order is added while two clients of its user are connected *)
Definition added_order : Order := toy_order 5 1 5 10 3.
Definition server2 : toy_services := server (w_orders toy_w1) demo_ws.

#[local] Instance amounts_exact_dec o : Decision (amounts_exact o).
Proof. unfold amounts_exact. apply _. Defined.
#[local] Instance price_exact_dec o : Decision (price_exact o).
Proof. unfold price_exact. apply _. Defined.

Lemma added_order_priced : priced added_order 3 server2.
Proof.
  split; [done|done|done|apply toy_w1_inv|done| |vm_compute; reflexivity].
  assert (map_Forall (λ _ x, price_exact x ∧ amounts_exact x) (wbook toy_w1)) as H by by_compute.
  exact H.
Defined.

(** Both get the order; ten are left to sell at three. *)
Lemma order_added_notifies_witness : ∃ w' v,
  handleEngineOrderAdded (mkEngineResponse ORDER_ADDED (Some added_order) None None None) server2
    = (Ok tt, w') ∧
  announced added_order v server2 ∧
  received (s_ws w') 2%nat = [mkWebsocketMessage "orders" "ORDER_ADDED" "" (POrder added_order)].
Proof.
  destruct (order_added_notifies added_order 3 ORDER_ADDED None None None server2
    demo_ws_reachable added_order_priced) as (r & w' & Hr & Hm).
  destruct r as [[]|e|]; [|done|by destruct Hm as (c & _ & [])].
  destruct Hm as (v & Ha & Hm). exists w', v. split; [exact Hr|]. split; [exact Ha|].
  rewrite Hm. vm_compute. reflexivity.
Defined.

Lemma operator_message_panics_witness :
  (HandleOperatorMessages (mkOperatorMessage TRADE_ERROR (Some (mkMatches [] None [])) "") server0).1
  = Panic.
Proof.
  destruct (operator_message_panics TRADE_ERROR (mkMatches [] None []) "" server0) as [H _].
  apply H; [by left|reflexivity].
Defined.

(** * The server at work as a whole: a client's order is accepted, its message handled by the engine *)

Definition placed_order : Order := sold.2.1.
Definition after_order : toy_services := sold.2.2.
Definition matched_run : outcome unit * toy_services :=
  zoom on_engine (HandleOrders (NewEngine [kept_pair]) "NEW_ORDER" (Order_MarshalJSON placed_order)) after_order.
Definition after_engine : toy_services := matched_run.2.

Lemma sell_sendable : sendable sell.
Proof. split; [by intros s [= <-]|vm_compute; reflexivity]. Defined.
Lemma order_published : ("order", Message "NEW_ORDER" (Order_MarshalJSON placed_order)) ∈ sent (s_broker after_order).
Proof.
  assert (sent (s_broker after_order) = [("order", Message "NEW_ORDER" (Order_MarshalJSON placed_order))]) as ->
    by (vm_compute; reflexivity).
  left.
Defined.
Lemma matched_eq : zoom on_engine (HandleOrders (NewEngine [kept_pair]) "NEW_ORDER" (Order_MarshalJSON placed_order))
  after_order = (Ok tt, after_engine).
Proof. vm_compute. reflexivity. Defined.
Lemma sold_eq : NewOrder 6000000 7000000 (sell, server0) = (Ok tt, (placed_order, after_order)).
Proof. vm_compute. reflexivity. Defined.
Lemma server_runs : rtc (server_step [kept_pair]) server0 after_engine.
Proof.
  exact (rtc_l _ _ _ _ (client_orders _ _ _ _ _ _ _ _ sell_sendable sold_eq)
    (rtc_once _ _ (engine_consumes [kept_pair] _ _ _ _ _ order_published matched_eq))).
Defined.

Lemma stored_orders_signed_witness : ∃ o,
  stored after_engine !! o_Hash placed_order = Some o ∧ Validate o = (Ok tt, o).
Proof.
  assert (is_Some (stored after_engine !! o_Hash placed_order)) as [o Ho]
    by (apply (bool_decide_unpack _); vm_compute; exact I).
  exists o. split; [exact Ho|].
  refine (proj2 (stored_orders_signed [kept_pair] server0 after_engine server0_ok _ _ server_runs _ o Ho)).
  - vm_compute. reflexivity.
  - reflexivity.
Defined.

(** Then user 2 buys what user 9 sells; the engine's answer comes back, and the trade goes
    to the operator. *)
Definition buy : Order := toy_order 2 0 0 (10 ^ 20) (10 ^ 25).
Definition bought : outcome unit * (Order * toy_services) := NewOrder 8000000 9000000 (buy, after_engine).
Definition bought_order : Order := bought.2.1.
Definition after_buy : toy_services := bought.2.2.
Definition crossed : outcome unit * toy_services :=
  zoom on_engine (HandleOrders (NewEngine [kept_pair]) "NEW_ORDER" (Order_MarshalJSON bought_order)) after_buy.
Definition after_cross : toy_services := crossed.2.
Definition answer_json : json := List.nth 3 (sent (s_broker after_cross)).*2 JNull.
Definition answer : EngineResponse := match EngineResponse_unjson answer_json with Ok r => r | _ => er_empty end.
Definition answered : outcome unit * toy_services := HandleEngineResponse answer after_cross.
Definition after_answer : toy_services := answered.2.
Definition batch_json : json := List.nth 4 (sent (s_broker after_answer)).*2 JNull.

Lemma bought_run : NewOrder 8000000 9000000 (buy, after_engine) = (Ok tt, (bought_order, after_buy)).
Proof. vm_compute. reflexivity. Defined.
Lemma crossed_run : zoom on_engine (HandleOrders (NewEngine [kept_pair]) "NEW_ORDER" (Order_MarshalJSON bought_order))
  after_buy = (Ok tt, after_cross).
Proof. vm_compute. reflexivity. Defined.
Lemma answered_run : HandleEngineResponse answer after_cross = (Ok tt, after_answer).
Proof. vm_compute. reflexivity. Defined.
Lemma buy_sendable : sendable buy.
Proof. split; [by intros s [= <-]|vm_compute; reflexivity]. Defined.
Lemma buy_published : ("order", Message "NEW_ORDER" (Order_MarshalJSON bought_order)) ∈ sent (s_broker after_buy).
Proof. apply list_elem_of_lookup. exists 2%nat. vm_compute. reflexivity. Defined.
Lemma answer_published : ("engineResponse", answer_json) ∈ sent (s_broker after_cross).
Proof. apply list_elem_of_lookup. exists 3%nat. vm_compute. reflexivity. Defined.
Lemma answer_decoded : EngineResponse_unjson answer_json = Ok answer.
Proof. vm_compute. reflexivity. Defined.
Lemma batch_published : ("trades", batch_json) ∈ sent (s_broker after_answer).
Proof. apply list_elem_of_lookup. exists 4%nat. vm_compute. reflexivity. Defined.
Lemma server_trades : rtc (server_step [kept_pair]) server0 after_answer.
Proof.
  refine (transitivity server_runs _).
  exact (rtc_l _ _ _ _ (client_orders _ _ _ _ _ _ _ _ buy_sendable bought_run)
    (rtc_l _ _ _ _ (engine_consumes [kept_pair] _ _ _ _ _ buy_published crossed_run)
    (rtc_once _ _ (response_consumed [kept_pair] _ _ _ _ _ answer_published answer_decoded answered_run)))).
Defined.

Lemma sent_trades_agreed_witness : ∃ o ms ts,
  batch_json = batch_message o ms ts ∧ Validate o = (Ok tt, o) ∧
  Forall2 (λ m t, Validate m = (Ok tt, m) ∧ agree o m ∧ trade_names o m t) ms ts.
Proof.
  refine (sent_trades_agreed [kept_pair] server0 after_answer server0_ok _ _ server_trades batch_json batch_published).
  - vm_compute. reflexivity.
  - reflexivity.
Defined.
