(* ===== verification/Operator.v ===== *)
(** Package [operator] and the calls of [contracts/exchange.go]: trades sent to
    the exchange contract, one batch at a time per queue, and the messages that
    tell the order service what became of them. *)
From S2P Require Import Prelude BigMath Types Mongo Json Orders MatchTypes OrderCodec TradeCodec OrderDao OrderStore Pairs TradeDao Rabbit Engine Ws Services MarketService.

(** What a batch is to the contract: parallel slices, an element per match. *)
Record Batch := mkBatch {
  orderValues : list (list (option Z));
  orderAddresses : list (list Address);
  amounts : list (option Z);
  vValues : list (list Z);
  rsValues : list (list Hash)
}.

Record Receipt := mkReceipt { r_Status : Z; r_PostState : list Z }.

(** The node and the generated bindings: packing a call, estimating its gas,
    sending the transaction, the pending nonce, waiting for the receipt. *)
Class IContract (ES : Type) := {
  ExchangeAddress : Address;
  Pack : Batch → outcome (list Z);
  EstimateGas : Address → Address → list Z → M ES Z;
  SendBatchTrades : Address → Z → Z → Batch → M ES Hash;
  GetPendingNonceAt : Address → M ES Z;
  WaitMined : Hash → M ES Receipt
}.

(** [QueueInspect(name).Messages] *)
Class AmqpInspect (B : Type) := QueueMessages : string → M B Z.

(** ** contracts/exchange.go *)
Section contract.

(** The values of one match. *)
Definition order_values (mo to : Order) : list (option Z) :=
  [o_Amount mo; o_PricePoint mo; Some (EncodedSide mo); o_Nonce mo;
   o_Amount to; o_PricePoint to; Some (EncodedSide to); o_Nonce to; o_MakeFee mo; o_TakeFee mo].
Definition append_match (mo to : Order) (t : Trade) (quote : Address) (sm st : Signature)
    (b : Batch) : Batch :=
  mkBatch (orderValues b ++ [order_values mo to])
    (orderAddresses b ++ [[o_UserAddress mo; o_UserAddress to; o_BaseToken mo; quote]])
    (amounts b ++ [t_Amount t])
    (vValues b ++ [[sig_V sm; sig_V st]])
    (rsValues b ++ [[sig_R sm; sig_S sm; sig_R st; sig_S st]]).

(** [for i, _ := range makerOrders]: an index out of range or a nil pointer
    panics.  [unsigned] is what a nil signature does: an error with the given
    text, or a panic. *)
Fixpoint batch_loop (quote_of : Order → Order → Address)
    (unsigned : error → outcome Signature) (takerOrder : option Order)
    (makerOrders : list (option Order)) (trades : list (option Trade)) (b : Batch) :
    outcome Batch :=
  match makerOrders with
  | [] => Ok b
  | mo :: makerOrders' =>
    mo ← deref mo;
    to ← deref takerOrder;
    t ← deref (head trades); t ← deref t;
    sm ← match o_Signature mo with Some s => Ok s | None => unsigned "Maker order is not signed" end;
    st ← match o_Signature to with Some s => Ok s | None => unsigned "Taker order is not signed" end;
    batch_loop quote_of unsigned takerOrder makerOrders' (tail trades)
      (append_match mo to t (quote_of mo to) sm st b)
  end.
Definition no_batch : Batch := mkBatch [] [] [] [] [].

(** The transaction carries the taker's quote token, the estimate the maker's. *)
Definition execute_batch (m : Matches) : outcome Batch :=
  batch_loop (λ _ to, o_QuoteToken to) (λ _, Panic) (TakerOrder m) (MakerOrders m) (Trades m) no_batch.
Definition call_batch (m : Matches) : outcome Batch :=
  batch_loop (λ mo _, o_QuoteToken mo) Err (TakerOrder m) (MakerOrders m) (Trades m) no_batch.

Context {ES : Type} `{IContract ES}.

Definition ExecuteBatchTrades (from : Address) (nonce gasLimit : Z) (m : Matches) : M ES Hash :=
  b ← lift (execute_batch m); SendBatchTrades from nonce gasLimit b.

(** An estimate that fails, as it does for a transaction that reverts, is
    answered 2000000. *)
Definition CallBatchTrades (from : Address) (m : Matches) : M ES Z :=
  b ← lift (call_batch m);
  data ← lift (Pack b);
  r ← attempt (EstimateGas from ExchangeAddress data);
  mret (match r with inl _ => 2000000 | inr gasLimit => gasLimit end).
End contract.

(** ** operator/txqueue.go *)
Record TxQueue := mkTxQueue { txq_Name : string; txq_Wallet : Address }.

(** operator/utils.go *)
Definition getErrorType (id : Z) : string :=
  match id with
  | 1 => "Signature invalid"
  | 2 => "Maker signature invalid"
  | 3 => "Taker signature invalid"
  | 4 => "Orders should have opposite side"
  | 5 => "Pricepoints do no match"
  | 6 => "Trades already completed or cancelled"
  | 7 => "Trade amount is too large"
  | 8 => "Rounding error is too large"
  | _ => "Unknown error"
  end.

Section operator.
Context {OS TS PS ES B : Type}.
Context `{IOrderDao OS, ITradeDao TS, IPairDao PS, IContract ES, Amqp B, !AmqpInspect B}.
Context `{EthCommon, AppConfig, Codecs, Big.Undefined, Sprint}.
#[local] Abbreviation Services := (Services OS TS PS ES B).

Definition queue_name (txq : TxQueue) : string := "TX_QUEUES:" +:+ txq_Name txq.

(** A queue that cannot be inspected counts as empty. *)
Definition Length (txq : TxQueue) : M Services Z :=
  zoom on_broker (GetChannel (queue_name txq)) ;;
  r ← attempt (zoom on_broker (zoom conn_lens (QueueMessages (queue_name txq))));
  mret (match r with inl _ => 0 | inr n => n end).

Definition PublishPendingTrades (txq : TxQueue) (m : option Matches) : M Services unit :=
  zoom on_broker (publish_on (queue_name txq) (queue_name txq) (json_pointer Matches_MarshalJSON m)).

Definition PurgePendingTrades (txq : TxQueue) : M Services unit :=
  zoom on_broker (GetChannel (queue_name txq) ;; Purge (queue_name txq)).

(** The handlers log a failure to publish; only [HandleTxSuccess] returns it. *)
Definition HandleTradeInvalid (m : Matches) : M Services unit :=
  log_error (zoom on_broker (PublishTradeInvalidMessage (Some m))).
Definition HandleTxError (m : Matches) : M Services unit :=
  log_error (zoom on_broker (PublishTxErrorMessage (Some m) "Transaction error")).
Definition HandleError (m : Matches) : M Services unit :=
  log_error (zoom on_broker (PublishErrorMessage (Some m) "Server error")).
Definition HandleTxSuccess (m : Matches) : M Services unit :=
  zoom on_broker (PublishTradeSuccessMessage (Some m)).

(** [r, err := c; if err != nil { h(m); return err }] *)
Definition or_handle {A} (m : M Services A) (h : M Services unit) : M Services A :=
  r ← attempt m;
  match r with inl e => h ;; fail e | inr a => mret a end.

(** The loop over the trades: one whose update fails is nil from then on. *)
Fixpoint update_pending (trades : list (option Trade)) (txh : Hash) :
    M Services (list (option Trade)) :=
  match trades with
  | [] => mret []
  | t :: trades' =>
    t ← lift (deref t);
    r ← attempt (TradeService.UpdatePendingTrade t txh);
    rest ← update_pending trades' txh;
    mret ((match r with inl _ => None | inr updated => Some updated end) :: rest)
  end.

Definition reverted (r : Receipt) : bool :=
  bool_decide (r_Status r = 0 ∧ r_PostState r = []).

(** The end of [ExecuteTrade], once the transaction is sent. *)
Definition follow (m : Matches) (txh : Hash) : M Services unit :=
  updatedTrades ← update_pending (Trades m) txh;
  let m := mkMatches (MakerOrders m) (TakerOrder m) updatedTrades in
  r ← attempt (zoom on_broker (PublishTradeSentMessage (Some m)));
  match r with
  | inl _ => fail "Could not update"
  | inr _ =>
    receipt ← zoom on_eth (WaitMined txh);
    if reverted receipt then HandleTxError m ;; fail "Reverted Transaction"
    else HandleTxSuccess m
  end.

Definition ExecuteTrade (txq : TxQueue) (m : Matches) : M Services unit :=
  gasLimit ← or_handle (zoom on_eth (CallBatchTrades (txq_Wallet txq) m)) (HandleTradeInvalid m);
  if gasLimit <? 140000 then HandleTradeInvalid m ;; fail "Invalid Trade"
  else
    nonce ← or_handle (zoom on_eth (GetPendingNonceAt (txq_Wallet txq))) (HandleError m);
    txh ← or_handle (zoom on_eth (ExecuteBatchTrades (txq_Wallet txq) nonce gasLimit m))
            (HandleError m);
    follow m txh.

(** [ConsumeQueuedTrades]: what is done of a delivery.  One that is not decoded is
    neither acknowledged nor rejected. *)
Inductive delivery := Acked | Nacked | Unanswered.
Definition consume (txq : TxQueue) (body : json) : M Services delivery :=
  r ← attempt (lift (Matches_UnmarshalJSON body));
  match r with
  | inl _ => mret Unanswered
  | inr m =>
    let '(v, m) := Matches_Validate m in
    r ← attempt (lift v ;; ExecuteTrade txq m);
    mret (match r with inl _ => Nacked | inr _ => Acked end)
  end.

(** ** operator/operator.go *)

Fixpoint shortest_loop (txqs : list TxQueue) (shortest : TxQueue) (min : Z) :
    M Services (TxQueue * Z) :=
  match txqs with
  | [] => mret (shortest, min)
  | txq :: txqs' =>
    ln ← Length txq;
    if ln <? min then shortest_loop txqs' txq ln else shortest_loop txqs' shortest min
  end.
Definition GetShortestQueue (txqs : list TxQueue) : M Services (TxQueue * Z) :=
  shortest_loop txqs (mkTxQueue "" 0) 1000.

(** The mutex is held throughout. *)
Definition QueueTrade (txqs : list TxQueue) (m : option Matches) : M Services unit :=
  '(txq, len) ← GetShortestQueue txqs;
  if 10 <? len then fail "Transaction queue is full" else PublishPendingTrades txq m.

Definition HandleTrades (txqs : list TxQueue) (msg : OperatorMessage) : M Services unit :=
  QueueTrade txqs (om_Matches msg).

Definition PurgeQueues (txqs : list TxQueue) : M Services unit := mforeach PurgePendingTrades txqs.

(** [NewOperator] leaves [Broker] nil: the operator publishes only when the channel
    is in the package's cache, and panics otherwise. *)
Definition Operator_HandleTxError (m : Matches) (id : Z) : M Services unit :=
  c ← zoom on_broker get;
  if decide ("OPERATOR_PUB" ∈ channels c) then
    log_error (zoom on_broker (PublishTxErrorMessage (Some m) (getErrorType id)))
  else crash.
Definition Operator_HandleTxSuccess (m : Matches) : M Services unit :=
  c ← zoom on_broker get;
  if decide ("OPERATOR_PUB" ∈ channels c) then
    log_error (zoom on_broker (PublishTradeSuccessMessage (Some m)))
  else crash.

(** One event of [HandleEvents]. *)
Definition handle_error_event (makerOrderHash takerOrderHash : Hash) (errID : Z) :
    M Services unit :=
  trades ← attempt (TradeService.GetByTakerOrderHash takerOrderHash);
  to ← attempt (zoom on_orders (od_GetByHash takerOrderHash));
  makerOrder ← attempt (zoom on_orders (od_GetByHash makerOrderHash));
  let or_nil {A} (r : error + option A) := match r with inl _ => None | inr o => o end in
  Operator_HandleTxError
    (mkMatches [or_nil makerOrder] (or_nil to)
       (match trades with inl _ => [] | inr ts => Some <$> ts end)) errID.
End operator.
