(* ===== verification/OperatorProps.v ===== *)
(** What the operator promises: the messages a batch of trades gives rise to, and
    how full its queues get. *)
From S2P Require Import Prelude BigMath Types Mongo Json Orders MatchTypes OrderCodec TradeCodec OrderDao OrderStore Pairs TradeDao Rabbit Engine Ws Services MarketService Operator.

(** The length of a queue, as its inspection answers it when it does not fail. *)
Class AmqpInspectLaws (B : Type) `{Amqp B, !AmqpInspect B} := {
  qlen : B → string → Z;
  OpenChannel_qlen s : wp OpenChannel (λ _ s', qlen s' = qlen s) s;
  QueueMessages_ok q s : wp (QueueMessages q) (λ r s',
    published s' = published s ∧ qlen s' = qlen s ∧
    match r with Ok n => n = qlen s q | Err _ => True | Panic => False end) s
}.

Section spec.
Context {OS TS PS ES B : Type}.
Context `{IOrderDao OS, ITradeDao TS, IPairDao PS, IContract ES, AmqpLaws B, !AmqpInspect B}.
Context `{EthCommon, AppConfig, Codecs, Big.Undefined, Sprint}.
#[local] Abbreviation Services := (Services OS TS PS ES B).
Implicit Types w : Services.

(** ** The life of a batch *)

(** What is published between two states. *)
Definition publishing {A} (m : M Services A) (P : outcome A → list (string * json) → Prop) : Prop :=
  ∀ w, wp m (λ r w', ∃ l, sent (s_broker w') = sent (s_broker w) ++ l ∧ P r l) w.

Lemma publishing_bind {A C} (m : M Services A) (k : A → M Services C) P (Q : outcome C → _ → Prop) :
  publishing m P →
  (∀ a l, P (Ok a) l → publishing (k a) (λ r l', Q r (l ++ l'))) →
  (∀ e l, P (Err e) l → Q (Err e) l) → (∀ l, P Panic l → Q Panic l) →
  publishing (m ≫= k) Q.
Proof.
  intros Hm Hk He Hp w. apply wp_bind. eapply wp_mono; [|apply Hm].
  intros r w1 (l & Hl & Hr). destruct r as [a|e|]; simpl; [|eauto..].
  eapply wp_mono; [|apply (Hk a l Hr)]. intros r w2 (l' & Hl' & HQ).
  exists (l ++ l'). rewrite Hl', Hl, <-(assoc_L (++)). done.
Qed.
Lemma publishing_mono {A} (m : M Services A) (P Q : outcome A → _ → Prop) :
  publishing m P → (∀ r l, P r l → Q r l) → publishing m Q.
Proof.
  intros Hm HPQ w. eapply wp_mono; [|apply Hm]. intros r w' (l & ? & ?). eauto.
Qed.
Lemma publishing_attempt {A} (m : M Services A) (P : outcome (error + A) → _ → Prop) :
  publishing m (λ r l, match r with
    | Ok a => P (Ok (inr a)) l | Err e => P (Ok (inl e)) l | Panic => P Panic l end) →
  publishing (attempt m) P.
Proof.
  intros Hm w. apply wp_attempt. eapply wp_mono; [|apply Hm]. intros [] w' (l & ? & ?); eauto.
Qed.

(** Code that leaves the broker alone. *)
Definition silently {A} (m : M Services A) : Prop := ∀ w, wp m (λ _ w', s_broker w' = s_broker w) w.
Lemma silently_publishing {A} (m : M Services A) :
  silently m → publishing m (λ _ l, l = []).
Proof.
  intros Hm w. eapply wp_mono; [|apply Hm]. intros r w' Hw. exists [].
  by rewrite app_nil_r, Hw.
Qed.
Lemma silently_lift {A} (r : outcome A) : silently (lift r).
Proof. by intros w. Qed.
Lemma silently_eth {A} (m : M ES A) : silently (zoom on_eth m).
Proof. intros w. by apply wp_zoom. Qed.
Lemma silently_trades {A} (m : M TS A) : silently (zoom on_trades m).
Proof. intros w. by apply wp_zoom. Qed.
Lemma silently_bind {A C} (m : M Services A) (k : A → M Services C) :
  silently m → (∀ a, silently (k a)) → silently (m ≫= k).
Proof.
  intros Hm Hk w. apply wp_bind. eapply wp_mono; [|apply Hm].
  intros [a|e|] w1 Hw; simpl; [|done..]. eapply wp_mono; [|apply Hk]. intros r w2 Hw2.
  cbn beta in *. congruence.
Qed.
Lemma silently_attempt {A} (m : M Services A) : silently m → silently (attempt m).
Proof. intros Hm w. apply wp_attempt. eapply wp_mono; [|apply Hm]. by intros []. Qed.

(** ** The messages *)
Definition tx_message (type : string) (m : Matches) (errType : string) : string * json :=
  ("TX_MESSAGES", OperatorMessage_json (mkOperatorMessage type (Some m) errType)).
Definition invalid (m : Matches) := tx_message TRADE_INVALID m "".
Definition server_error (m : Matches) := tx_message TRADE_ERROR m "Server error".
Definition sent_pending (m : Matches) := tx_message TRADE_TX_PENDING m "".
Definition tx_reverted (m : Matches) := tx_message TRADE_ERROR m "Transaction error".
Definition succeeded (m : Matches) := tx_message TRADE_TX_SUCCESS m "".

Lemma publish_operator_ok type m err :
  publishing (zoom on_broker (publish_operator type (Some m) err))
    (λ r l, l = match r with Ok _ => [tx_message type m err] | _ => [] end).
Proof.
  intros w. apply wp_zoom. eapply wp_mono; [|apply publish_on_ok]. intros r b Hb.
  exists (match r with Ok _ => [tx_message type m err] | _ => [] end). split; [|done].
  destruct r; rewrite ?app_nil_r; exact Hb.
Qed.

(** At most one message, [x]. *)
Definition at_most (x : string * json) (l : list (string * json)) : Prop := l = [] ∨ l = [x].

Lemma log_publish_ok type m err :
  publishing (log_error (zoom on_broker (publish_operator type (Some m) err)))
    (λ _ l, at_most (tx_message type m err) l).
Proof.
  intros w. apply wp_log_error. eapply wp_mono; [|apply publish_operator_ok].
  intros r w' (l & Hl & ->). destruct r; eexists; (split; [exact Hl|]); [by right|by left..].
Qed.

(** A step that publishes nothing, and the report of its failure. *)
Lemma or_handle_ok {A} (m : M Services A) h x :
  silently m → publishing h (λ _ l, at_most x l) →
  publishing (or_handle m h) (λ r l, match r with Ok _ => l = [] | _ => at_most x l end).
Proof.
  intros Hm Hh. unfold or_handle. eapply publishing_bind;
    [apply silently_publishing, silently_attempt, Hm| |by intros ? ? ->; left|by intros ? ->; left].
  intros [e|a] l ->; simpl.
  - eapply publishing_bind; [exact Hh| |by intros e' l Hl|by intros l Hl].
    intros [] l Hl w. exists []. rewrite !app_nil_r. by split.
  - intros w. exists []. by rewrite app_nil_r.
Qed.

Lemma update_pending_ok txh ts w :
  wp (update_pending ts txh) (λ r w', s_broker w' = s_broker w ∧
    match r with Ok us => length us = length ts | _ => True end) w.
Proof.
  revert w. induction ts as [|t ts IH]; intros w; [done|]. simpl.
  apply wp_bind, wp_lift. destruct t as [t|]; simpl; [|done].
  apply wp_bind, wp_attempt. unfold TradeService.UpdatePendingTrade. apply wp_bind, wp_zoom.
  unfold wp at 1. destruct (td_FindAndModify _ _ _) as [[[t' r]|e|] s']; simpl; [|..|done].
  - destruct r as [e|u]; simpl; apply wp_bind; (eapply wp_mono; [|apply IH]);
      intros [us|e'|] w' [Hw Hus]; simpl; (split; [done|]); simpl; congruence.
  - apply wp_bind; (eapply wp_mono; [|apply IH]).
    intros [us|e'|] w' [Hw Hus]; simpl; (split; [done|]); simpl; congruence.
Qed.

Definition with_trades (m : Matches) (ts : list (option Trade)) : Matches :=
  mkMatches (MakerOrders m) (TakerOrder m) ts.

(** The messages of a batch, from the outcome of its execution: the batch of the
    later ones has the trades as the database answered them. *)
Definition batch_life (m : Matches) (r : outcome unit) (l : list (string * json)) : Prop :=
  ∃ ts, length ts = length (Trades m) ∧
  match r with
  | Ok _ => l = [sent_pending (with_trades m ts); succeeded (with_trades m ts)]
  | _ => l = [] ∨ l = [invalid m] ∨ l = [server_error m] ∨ l = [sent_pending (with_trades m ts)] ∨
         l = [sent_pending (with_trades m ts); tx_reverted (with_trades m ts)]
  end.

Lemma nothing_published m r : r ≠ Ok tt → batch_life m r [].
Proof. intros Hr. exists (Trades m). split; [done|]. destruct r as [[]|e|]; [done|by left..]. Qed.

(** From the transaction on, with the trades [ts]. *)
Lemma settled_ok m ts txh :
  length ts = length (Trades m) →
  publishing (r ← attempt (zoom on_broker (PublishTradeSentMessage (Some (with_trades m ts))));
    match r with
    | inl _ => fail "Could not update"
    | inr _ =>
      receipt ← zoom on_eth (WaitMined txh);
      if reverted receipt then HandleTxError (with_trades m ts) ;; fail "Reverted Transaction"
      else HandleTxSuccess (with_trades m ts)
    end) (batch_life m).
Proof.
  intros Hts. set (m' := with_trades m ts).
  assert (∀ e l, l = [] ∨ l = [sent_pending m'] ∨ l = [sent_pending m'; tx_reverted m'] →
    batch_life m (Err e) l) as Herr by (intros e l Hl; exists ts; split; [done|]; tauto).
  eapply (publishing_bind _ _ (λ r l, match r with
    | Ok (inr _) => l = [sent_pending m'] | _ => l = [] end)).
  - apply publishing_attempt. eapply publishing_mono; [apply publish_operator_ok|]. by intros [].
  - intros [e|u] l ->; simpl; [intros w; exists []; rewrite app_nil_r; split; [done|apply Herr; auto]|].
    eapply publishing_bind; [apply silently_publishing, silently_eth| |by intros e l ->; auto|].
    2: { intros l ->. exists ts. auto 6. }
    intros rc l ->. destruct (reverted rc).
    + eapply publishing_bind; [apply log_publish_ok| | |].
      * intros [] l Hl w. exists []. rewrite app_nil_r. split; [done|]. apply Herr.
        destruct Hl as [->| ->]; auto.
      * intros e l Hl. apply Herr. destruct Hl as [->| ->]; auto.
      * intros l Hl. exists ts. split; [done|]. destruct Hl as [->| ->]; auto 6.
    + eapply publishing_mono; [apply publish_operator_ok|].
      intros [[]|e|] l ->; [by exists ts|by apply Herr; auto|]. exists ts. auto 6.
  - intros e l ->. auto.
  - intros l ->. exists ts. auto.
Qed.

Lemma follow_ok m txh : publishing (follow m txh) (batch_life m).
Proof.
  intros w. unfold follow. apply wp_bind. eapply wp_mono; [|apply update_pending_ok].
  intros r w1 [Hw Hr]. destruct r as [ts|e|]; simpl.
  - eapply wp_mono; [|apply (settled_ok m ts txh Hr)]. intros r w2 (l & Hl & Hlife).
    exists l. by rewrite Hl, Hw.
  - exists []. rewrite app_nil_r, Hw. split; [done|by apply nothing_published].
  - exists []. rewrite app_nil_r, Hw. split; [done|by apply nothing_published].
Qed.

Lemma life_of_report m r x l :
  r ≠ Ok tt → x = invalid m ∨ x = server_error m → at_most x l → batch_life m r l.
Proof.
  intros Hr Hx Hl. exists (Trades m). split; [done|].
  destruct r as [[]|e|]; [done|..]; destruct Hl as [->| ->], Hx as [->| ->]; auto.
Qed.

(** A step that is handled, and what comes after it. *)
Lemma handled_ok {A} m (c : M Services A) h x (k : A → M Services unit) :
  x = invalid m ∨ x = server_error m → silently c → publishing h (λ _ l, at_most x l) →
  (∀ a, publishing (k a) (batch_life m)) → publishing (or_handle c h ≫= k) (batch_life m).
Proof.
  intros Hx Hc Hh Hk. eapply publishing_bind; [by apply (or_handle_ok _ _ x)|..].
  - intros a l ->. apply Hk.
  - intros e l Hl. by apply (life_of_report m (Err e) x).
  - intros l Hl. by apply (life_of_report m Panic x).
Qed.

Lemma refused_ok m : publishing (HandleTradeInvalid m ;; fail "Invalid Trade") (batch_life m).
Proof.
  eapply publishing_bind; [apply log_publish_ok|..].
  - intros [] l Hl w. exists []. rewrite !app_nil_r. split; [done|].
    by apply (life_of_report m _ (invalid m)); [|left|].
  - intros e l Hl. by apply (life_of_report m (Err e) (invalid m)); [|left|].
  - intros l Hl. by apply (life_of_report m Panic (invalid m)); [|left|].
Qed.

Lemma ExecuteTrade_ok txq m : publishing (ExecuteTrade txq m) (batch_life m).
Proof.
  apply (handled_ok m _ _ (invalid m)); [by left|apply silently_eth|apply log_publish_ok|].
  intros gas. destruct (gas <? 140000); [apply refused_ok|].
  apply (handled_ok m _ _ (server_error m)); [by right|apply silently_eth|apply log_publish_ok|].
  intros nonce.
  apply (handled_ok m _ _ (server_error m)); [by right|apply silently_eth|apply log_publish_ok|].
  intros txh. apply follow_ok.
Qed.

(** C34: the execution of a batch publishes, on one queue, nothing, one refusal
    (invalid or server error), the notice that the transaction is pending, or
    that notice followed by one verdict; it succeeds exactly when the verdict
    is a success, and a batch is never reported both successful and failed. *)
Theorem ExecuteTrade_messages txq m w r w' :
  ExecuteTrade txq m w = (r, w') →
  ∃ l, sent (s_broker w') = sent (s_broker w) ++ l ∧ batch_life m r l.
Proof. intros Hrun. exact (wp_run _ _ _ _ _ Hrun (ExecuteTrade_ok txq m w)). Qed.

(** ** The queues *)
Section queues.
Context `{!AmqpInspectLaws B}.

Definition queue_length w (txq : TxQueue) : Z := qlen (conn (s_broker w)) (queue_name txq).
(** The length the operator sees: 0 when the inspection fails. *)
Definition seen w (txq : TxQueue) (n : Z) : Prop :=
  n = queue_length w txq ∨ n = 0 ∧ ∃ q (b : B) e, (QueueMessages q b).1 = Err e.

(** Neither messages nor lengths changed. *)
Definition same_queues w w' : Prop :=
  sent (s_broker w') = sent (s_broker w) ∧ qlen (conn (s_broker w')) = qlen (conn (s_broker w)).

Lemma GetChannel_queues id w : wp (zoom on_broker (GetChannel id)) (λ _ w', same_queues w w') w.
Proof.
  apply wp_zoom. eapply wp_mono; [|apply (wp_and _ _ (λ _ b, qlen (conn b) = qlen (conn (s_broker w)))
    _ (GetChannel_silent id (s_broker w)))]; [by intros r b [? ?]|].
  unfold GetChannel. apply wp_bind. unfold get, wp at 1. simpl. case_decide; [done|].
  apply wp_bind, wp_or_fatal, wp_zoom. eapply wp_mono; [|apply OpenChannel_qlen].
  by intros [u|e|] b Hb.
Qed.

Lemma Length_ok txq w : wp (Length txq) (λ r w', same_queues w w' ∧
  match r with Ok n => seen w txq n | Err _ => True | Panic => True end) w.
Proof.
  unfold Length. wp_step (GetChannel_queues (queue_name txq) w).
  intros r w1 [Hs Hq]. destruct r as [[]|e|]; cbn [wp_next]; [|done..].
  apply wp_bind, wp_attempt, wp_zoom, wp_zoom.
  eapply wp_mono; [|apply (wp_and _ _ _ _ (QueueMessages_ok (queue_name txq) _) (wp_self _ _))].
  intros r b [(Hp & Hl & Hr) [Hself _]]. unfold same_queues, sent in *. cbn [lset on_broker conn_lens s_broker conn].
  destruct r as [n|e|]; [| |done]; apply wp_ret; (split; [split; [exact (eq_trans Hp Hs)|exact (eq_trans Hl Hq)]|]).
  - left. unfold queue_length. rewrite Hr. cbn [lget on_broker conn_lens]. by rewrite Hq.
  - right. split; [done|]. by eexists _, _, e.
Qed.

(** The shortest of the queues seen so far. *)
Lemma shortest_loop_ok txqs : ∀ shortest min w,
  wp (shortest_loop txqs shortest min) (λ r w', same_queues w w' ∧
    match r with
    | Ok (txq, n) => n ≤ min ∧ ((txq, n) = (shortest, min) ∨ txq ∈ txqs ∧ seen w txq n) ∧
        ∀ t, t ∈ txqs → ∃ k, seen w t k ∧ n ≤ k
    | _ => True end) w.
Proof.
  induction txqs as [|t txqs IH]; intros shortest min w.
  { split; [done|]. split; [lia|]. split; [by left|]. by intros t ?%elem_of_nil. }
  cbn [shortest_loop]. wp_step (Length_ok t w). intros r w1 [Hs Hr].
  destruct r as [ln|e|]; cbn [wp_next]; [|done..].
  assert (∀ x k, seen w1 x k → seen w x k) as Hseen
    by (intros x k; unfold seen, queue_length; by rewrite (proj2 Hs)).
  assert (∀ sh mn, ((sh, mn) = (t, ln) ∨ (sh, mn) = (shortest, min)) → mn ≤ ln → mn ≤ min →
    wp (shortest_loop txqs sh mn) (λ r w', same_queues w w' ∧ match r with
      | Ok (txq, n) => n ≤ min ∧ ((txq, n) = (shortest, min) ∨ txq ∈ t :: txqs ∧ seen w txq n) ∧
          ∀ t', t' ∈ t :: txqs → ∃ k, seen w t' k ∧ n ≤ k
      | _ => True end) w1) as Hgo.
  { intros sh mn Hsh Hln Hmin. eapply wp_mono; [|apply IH]. intros r w2 [Hs2 Hr2].
    split; [unfold same_queues in *; intuition congruence|].
    destruct r as [[txq n]|e|]; [|done..]. destruct Hr2 as (Hn & Hq & Hall).
    split; [lia|]. split.
    - destruct Hq as [Heq|[Hin Hk]]; [|right; split; [by right|auto]].
      injection Heq as -> ->. destruct Hsh as [[= -> ->]|[= -> ->]]; [right|by left].
      split; [by left|done].
    - intros t' [->|Hin]%elem_of_cons; [exists ln; split; [done|lia]|].
      destruct (Hall t' Hin) as (k & Hk & ?). exists k. auto. }
  destruct (Z.ltb_spec ln min); [apply (Hgo t ln)|apply (Hgo shortest min)]; auto; lia.
Qed.

End queues.
End spec.
