(* ===== verification/OperatorWitness.v ===== *)
(** The operator at work: a contract that estimates any call and mines any
    transaction, and queues whose lengths are counted from what was published. *)
From S2P Require Import Prelude BigMath Types Mongo ListMongo Json Fixtures Orders MatchTypes OrderCodec TradeCodec OrderDao OrderStore OrderDaoRefine Pairs TradeDao Rabbit Engine Toy EngineSpec EngineWitness Ws Services MarketService OrderServiceProps ServiceWitness Operator OperatorProps.
Import Running.

#[export] Instance toy_contract : IContract nat := {|
  ExchangeAddress := 99;
  Pack b := Ok [];
  EstimateGas _ _ _ s := (Ok 200000, s);
  SendBatchTrades _ _ _ _ s := (Ok 77, s);
  GetPendingNonceAt _ s := (Ok 0, s);
  WaitMined _ s := (Ok (mkReceipt 1 []), s)
|}.

Definition toy_qlen (s : list (string * json)) (q : string) : Z :=
  Z.of_nat (length (base.filter (λ m, m.1 = q) s)).
#[export] Instance toy_inspect : AmqpInspect (list (string * json)) := λ q s, (Ok (toy_qlen s q), s).
#[export] Instance toy_inspect_laws : AmqpInspectLaws (list (string * json)).
Proof. refine {| qlen := toy_qlen |}; intros; by unfold wp. Defined.

Definition toy_txq : TxQueue := mkTxQueue "0x1" 1.
Definition executed_batch : outcome unit * toy_services :=
  ExecuteTrade toy_txq (batch buyer two_matches) server0.
Lemma executed_batch_run :
  ExecuteTrade toy_txq (batch buyer two_matches) server0 = (Ok tt, executed_batch.2).
Proof. vm_compute. reflexivity. Defined.

Lemma ExecuteTrade_messages_witness : ∃ l,
  sent (s_broker executed_batch.2) = sent (s_broker server0) ++ l ∧
  batch_life (batch buyer two_matches) (Ok tt) l.
Proof.
  destruct (ExecuteTrade_messages toy_txq (batch buyer two_matches) server0 _ _ executed_batch_run)
    as (l & Hl & Hlife).
  exists l. split; [exact Hl|exact Hlife].
Defined.

Definition toy_txqs : list TxQueue := [toy_txq; mkTxQueue "1x2" 2].
Definition queued : outcome unit * toy_services :=
  QueueTrade toy_txqs (Some (batch buyer two_matches)) server0.
Lemma queued_run :
  QueueTrade toy_txqs (Some (batch buyer two_matches)) server0 = (Ok tt, queued.2).
Proof. vm_compute. reflexivity. Defined.

