(* ===== verification/OrderEndpoint.v ===== *)
(** [endpoints/order.go]: the messages of the order channel and the requests for
    a user's orders. *)
From S2P Require Import Prelude BigMath Types Mongo Json Orders OrderCancels MatchTypes OrderCodec OrderDao OrderStore Pairs TradeDao Rabbit Engine Ws Services Validator OrderService Accounts Tokens AccountService.

(** What a request is answered ([utils/httputils]). *)
Inductive response :=
  | WriteError (status : Z) (message : string)
  | WriteJSON (status : Z) (body : json).

(** [strconv.Atoi], whose error is dropped: 0 for what is no numeral, the nearest
    [int] for one that is out of range. *)
Definition Atoi (s : string) : Z :=
  match Big.SetString s with
  | Some n => Z.max (- 2 ^ 63) (Z.min n (2 ^ 63 - 1))
  | None => 0
  end.

Section endpoint.
Context {OS TS PS ES B AS KS : Type}.
Context `{IOrderDao OS, ITradeDao TS, IPairDao PS, IEthereumProvider ES, Amqp B}.
Context `{IAccountDao AS, ITokenDao KS, EthCommon, AppConfig, Codecs, Big.Undefined}.
#[local] Abbreviation Site := (Site OS TS PS ES B AS KS).

(** ** Requests for orders *)

(** [limit] is the text of the query's parameter. *)
Definition get_orders (query : Address → nat → M (Services OS TS PS ES B) (list Order))
    (missing failed : string) (addr limit : string) : M Site response :=
  if decide (addr = "") then mret (WriteError 400 missing)
  else if IsHexAddress addr then
    r ← attempt (zoom on_services (query (HexToAddress addr)
          (if decide (limit = "") then 0 else Z.to_nat (Z.abs (Atoi limit)))%nat));
    mret (match r with
          | inl _ => WriteError 500 failed
          | inr orders => WriteJSON 200 (JArr (Order_MarshalJSON <$> orders))
          end)
  else mret (WriteError 400 "Invalid Address").

Definition handleGetOrders : string → string → M Site response :=
  get_orders GetByUserAddress "address Parameter Missing" "".
Definition handleGetPositions : string → string → M Site response :=
  get_orders GetCurrentByUserAddress "address Parameter missing" "".
Definition handleGetOrderHistory : string → string → M Site response :=
  get_orders GetHistoryByUserAddress "address Parameter missing" "Internal Server Error".

(** ** The order channel *)

Definition send_order_error (c : Client) (err : error) (h : Hash) : M Site unit :=
  zoom on_services (zoom on_ws (SendOrderErrorMessage c err h)).

(** [json.Unmarshal(bytes, &o)] into a pointer: [null] makes it nil. *)
Definition unmarshal_new_order (payload : json) : outcome (option Order) :=
  match payload with
  | JNull => Ok None
  | _ => Some <$> Order_UnmarshalJSON payload zero_Order
  end.

(** The order is changed in place by [NewOrder]; its hash is the one it is left
    with. *)
Definition submit_order (t1 t2 : Z) (c : Client) (o : Order) : M Site unit := λ w,
  let '(r, (o', s)) := NewOrder t1 t2 (o, site_services w) in
  let w := lset on_services s w in
  match r with
  | Err err => send_order_error c err (o_Hash o') w
  | _ => (r, w)
  end.

(** A blocked account and a failed lookup are told to the client, and the order is
    submitted all the same; [acc] is nil after a failed lookup. *)
Definition handleNewOrder (t1 t2 : Z) (payload : json) (c : Client) : M Site unit :=
  r ← attempt (lift (unmarshal_new_order payload));
  match r with
  | inl err => send_order_error c err 0
  | inr o =>
    o ← lift (deref o);
    h ← lift (Order_ComputeHash o);
    let o := set_o_Hash h o in
    zoom on_services (zoom on_ws (RegisterOrderConnection (o_UserAddress o) c)) ;;
    acc ← attempt (AccountService.FindOrCreate (o_UserAddress o));
    match acc with
    | inl err => send_order_error c err (o_Hash o) ;; crash
    | inr acc =>
      (if a_IsBlocked acc
       then zoom on_services (zoom on_ws
              (SendMessage c OrderChannel "ERROR" (POther "Account is blocked")))
       else mret tt) ;;
      submit_order t1 t2 c o
    end
  end.

(** A payload that is no cancellation is reported, and then used: its signature
    is nil. *)
Definition handleCancelOrder (payload : json) (c : Client) : M Site unit :=
  r ← attempt (lift (OrderCancel_UnmarshalJSON payload));
  oc ← match r with
       | inl err => send_order_error c err 0 ;; mret (mkOrderCancel 0 0 None)
       | inr oc => mret oc
       end;
  s ← attempt (lift (OrderCancel_GetSenderAddress oc));
  addr ← match s with
         | inl err => send_order_error c err (oc_Hash oc) ;; mret 0
         | inr addr => mret addr
         end;
  zoom on_services (zoom on_ws (RegisterOrderConnection addr c)) ;;
  r ← attempt (zoom on_services (CancelOrder oc));
  match r with
  | inl err => send_order_error c err (oc_Hash oc)
  | inr _ => mret tt
  end.

Definition ws (t1 t2 : Z) (type : string) (payload : json) (c : Client) : M Site unit :=
  if decide (type = "NEW_ORDER") then handleNewOrder t1 t2 payload c
  else if decide (type = "CANCEL_ORDER") then handleCancelOrder payload c
  else mret tt.
End endpoint.
