(* ===== verification/OhlcvService.v ===== *)
(** [services/ohlcv.go], the job of [crons/tickStreaming.go] that broadcasts ticks and
    [endpoints/ohlcv.go]: trades grouped by intervals of time.

    [now] is [time.Now()], in nanoseconds, in UTC. *)
From S2P Require Import Prelude BigMath Types DepositTypes Mongo Json Aggregation Ticks Orders MatchTypes OrderDao OrderStore Pairs TradeDao Rabbit Engine Ws Services MarketService Accounts Tokens AccountService OrderEndpoint PairService.

(** [math.Mod] on integers that are converted to [float64]: exact below 2^53, the
    remainder having the sign of the dividend; the conversion of what it gives
    otherwise, a NaN for a divisor of zero included, is left to a parameter. *)
Class FloatMod := other_mod : Z → Z → Z.
Definition float_exact (x : Z) : Prop := Z.abs x <= 2 ^ 53.
Definition math_Mod `{FloatMod} (ts interval : Z) : Z :=
  if decide (interval ≠ 0 ∧ Z.abs ts <= 2 ^ 53 ∧ Z.abs interval <= 2 ^ 53)
  then Z.rem ts interval else other_mod ts interval.

(** [time.Time.Year] in UTC, of days since 1970, and the length of a year. *)
Definition year_of_days (days : Z) : Z :=
  let z := days + 719468 in
  let doe := z `mod` 146097 in
  let yoe := (doe - doe / 1460 + doe / 36524 - doe / 146096) / 365 in
  let doy := doe - (365 * yoe + yoe / 4 - yoe / 100) in
  yoe + z / 146097 * 400 + (if 306 <=? doy then 1 else 0).
Definition days_in_year (y : Z) : Z :=
  if (y `mod` 4 =? 0) && (negb (y `mod` 100 =? 0) || (y `mod` 400 =? 0)) then 366 else 365.
Example year_of_days_1 : year_of_days 0 = 1970 ∧ year_of_days (-1) = 1969 ∧
  year_of_days 59 = 1970 ∧ year_of_days 11016 = 2000 ∧ year_of_days 17897 = 2019 ∧ year_of_days 17896 = 2018.
Proof. by vm_compute. Qed.

Module OHLCVService.
Section pure.
Context `{EthCommon, FloatMod}.

(** The interval starts, and lasts; a month counts for one day, and a year starts on
    the 30th of November before it. *)
Definition interval_seconds (now interval : Z) (unit : string) : option Z :=
  if decide (unit = "sec") then Some interval
  else if decide (unit = "hour") then Some (int64 (interval * 60 * 60))
  else if decide (unit = "day") then Some (int64 (interval * 24 * 60 * 60))
  else if decide (unit = "week") then Some (int64 (interval * 7 * 24 * 60 * 60))
  else if decide (unit = "month") then Some (int64 (interval * 1 * 24 * 60 * 60))
  else if decide (unit = "year") then
    let d := 32 + days_in_year (year_of_days (now / (86400 * 10 ^ 9))) in
    Some (int64 (interval * d * 24 * 60 * 60))
  else if decide (unit = "min") then Some (int64 (interval * 60))
  else None.
Definition getModTime (now ts interval : Z) (unit : string) : Z * Z :=
  match interval_seconds now interval unit with
  | Some s => (int64 (ts - math_Mod ts s), s)
  | None => (0, 0)
  end.

Definition getMatchQuery (start finish : Z) (pairs : list PairAddresses) : amatch :=
  mkMatch [("createdAt", ADates start finish); ("status", AIn [BStr SUCCESS])]
    (match pairs with
     | [] => None
     | _ => Some ((λ p, [("baseToken", AEqual (BStr (Address_Hex (pa_BaseToken p))));
                         ("quoteToken", AEqual (BStr (Address_Hex (pa_QuoteToken p))))]) <$> pairs)
     end).

(** ** The groups: [date] is the field, [duration] the number of units. *)
Definition part (p : date_part) (date : string) : expr := EPart p (EField [date]).
(** [part - part mod duration] *)
Definition rounded (p : date_part) (date : string) (duration : Z) : expr :=
  ESubtract (part p date) (EMod (part p date) (EConst (BInt duration))).
Definition timestamp_of (parts : list (date_part * string)) : list (string * expr) :=
  [("timestamp", ESubtract
      (EDateFromParts ((λ pk, (pk.1, EField ["_id"; pk.2])) <$> parts)) (EConst (BDate 0)))].
Definition time_parts (units : string) (date : string) (duration : Z) :
    option (list (string * (date_part * expr))) :=
  if decide (units = "sec") then
    Some [("year", (Year, part Year date)); ("day", (DayOfMonth, part DayOfMonth date));
          ("month", (Month, part Month date)); ("hour", (Hour, part Hour date));
          ("minute", (Minute, part Minute date)); ("second", (Second, rounded Second date duration))]
  else if decide (units = "min") then
    Some [("year", (Year, part Year date)); ("day", (DayOfMonth, part DayOfMonth date));
          ("month", (Month, part Month date)); ("hour", (Hour, part Hour date));
          ("minute", (Minute, rounded Minute date duration))]
  else if decide (units = "hour") then
    Some [("year", (Year, part Year date)); ("day", (DayOfMonth, part DayOfMonth date));
          ("month", (Month, part Month date)); ("hour", (Hour, rounded Hour date duration))]
  else if decide (units = "day") then
    Some [("year", (Year, part Year date)); ("month", (Month, part Month date));
          ("day", (DayOfMonth, rounded DayOfMonth date duration))]
  else if decide (units = "week") then
    Some [("year", (IsoWeekYear, part IsoWeekYear date)); ("isoWeek", (IsoWeek, rounded IsoWeek date duration))]
  else if decide (units = "month") then
    Some [("year", (Year, part Year date));
          ("month", (Month, ESubtract
             (EMultiply (ECeilDivide (part Month date) (EConst (BInt duration))) (EConst (BInt duration)))
             (EConst (BInt (duration - 1)))))]
  else if decide (units = "year") then Some [("year", (Year, rounded Year date duration))]
  else None.
(** For an unknown unit the trades are grouped by their pair, and the stage that
    follows is empty. *)
Definition group_accumulators : accumulators :=
  [("count", (ASum, PairService.one)); ("high", (AMax, EField ["priceDecimal"]));
   ("low", (AMin, EField ["priceDecimal"])); ("open", (AFirst, EField ["priceDecimal"]));
   ("close", (ALast, EField ["priceDecimal"])); ("volume", (ASum, EField ["amountDecimal"]))].
Definition group_ids (units : string) (duration : Z) : list (string * expr) :=
  match time_parts units "createdAt" duration with
  | Some ps => (λ kp, (kp.1, kp.2.2)) <$> ps
  | None => []
  end ++ PairService.by_pair_id.
Definition getGroupAddFieldBson (units : string) (duration : Z) : astage * astage :=
  (AGroup (group_ids units duration) group_accumulators,
   match time_parts units "createdAt" duration with
   | Some ps => AAddFields (timestamp_of ((λ kp, (kp.2.1, kp.1)) <$> ps))
   | None => AEmpty
   end).

Definition to_decimals : astage :=
  AAddFields [("priceDecimal", EToDecimal (EField ["pricepoint"]));
              ("amountDecimal", EToDecimal (EField ["amount"]))].
Definition ohlcv_query (start finish : Z) (pairs : list PairAddresses) (duration : Z) (unit : string) :
    list astage :=
  let '(group, addFields) := getGroupAddFieldBson unit duration in
  [AMatch (getMatchQuery start finish pairs); to_decimals; group; addFields; ASort [("timestamp", Asc)]].
End pure.

Section service.
Context {OS TS PS ES B : Type} `{ITickDao TS, EthCommon, FloatMod}.
#[local] Abbreviation Services := (Services OS TS PS ES B).

(** The interval, in dates of the database: a list of one timestamp panics. *)
Definition time_interval (now duration : Z) (unit : string) (timeInterval : list Z) : outcome (Z * Z) :=
  match timeInterval with
  | [] =>
    let ts := seconds now in
    let '(modTime, intervalInSeconds) := getModTime now ts duration unit in
    Ok (date_of_seconds (int64 (modTime - intervalInSeconds)), date_of_seconds ts)
  | [_] => Panic
  | start :: finish :: _ => Ok (date_of_seconds start, date_of_seconds finish)
  end.
Definition GetOHLCV (now : Z) (pairs : list PairAddresses) (duration : Z) (unit : string)
    (timeInterval : list Z) : M Services (list Tick) :=
  '(start, finish) ← lift (time_interval now duration unit timeInterval);
  zoom on_trades (td_Aggregate (ohlcv_query start finish pairs duration unit)).

(** [types.SubscriptionPayload] *)
Record SubscriptionPayload := mkSubscriptionPayload {
  sp_PairName : string;
  sp_QuoteToken : Address;
  sp_BaseToken : Address;
  sp_From : Z;
  sp_To : Z;
  sp_Duration : Z;
  sp_Units : string
}.
Definition channel_id (p : SubscriptionPayload) : string :=
  GetOHLCVChannelID (sp_BaseToken p) (sp_QuoteToken p) (sp_Units p) (sp_Duration p).
Definition Subscribe (now : Z) (c : option Client) (p : SubscriptionPayload) : M Services Datatypes.unit :=
  r ← attempt (GetOHLCV now [mkPairAddresses "" (sp_BaseToken p) (sp_QuoteToken p)]
        (sp_Duration p) (sp_Units p) [sp_From p; sp_To p]);
  subscribe_with OHLCVSocket (channel_id p) c
    (match r with inl e => inl e | inr ticks => inr (PTicks ticks) end).
Definition Unsubscribe (c : Client) : M Services Datatypes.unit := zoom on_ws (Ws.Unsubscribe OHLCVSocket c).
Definition UnsubscribeChannel (c : Client) (p : SubscriptionPayload) : M Services Datatypes.unit :=
  zoom on_ws (Ws.UnsubscribeChannel OHLCVSocket (channel_id p) c).

(** ** crons/tickStreaming.go *)
Definition send_tick (unit : string) (duration : Z) (tick : Tick) : M Services Datatypes.unit :=
  zoom on_ws (BroadcastMessage OHLCVSocket
    (GetTickChannelID (pi_BaseToken (tk_Pair tick)) (pi_QuoteToken (tk_Pair tick)) unit duration)
    (PTick tick)).
(** An error is printed. *)
Definition tickStream (now : Z) (unit : string) (duration : Z) : M Services Datatypes.unit :=
  r ← attempt (GetOHLCV now [] duration unit []);
  match r with
  | inl _ => mret tt
  | inr ticks => mforeach (send_tick unit duration) ticks
  end.
End service.
End OHLCVService.

(** The schedules of the jobs, in the format of [robfig/cron]: hours are not steps. *)
Definition getCronScheduleString (unit : string) (duration : Z) : outcome string :=
  let d := Big.String_Z duration in
  if decide (unit = "sec") then Ok ("*/" +:+ d +:+ " * * * * *")
  else if decide (unit = "min") then Ok ("0 */" +:+ d +:+ " * * * *")
  else if decide (unit = "hour") then Ok ("0 0 " +:+ d +:+ " * * *")
  else if decide (unit = "day") then Ok "@daily"
  else if decide (unit = "week") then Ok ("0 0 0 * * */" +:+ d)
  else if decide (unit = "month") then Ok ("0 0 0 */" +:+ d +:+ " * *")
  else if decide (unit = "year") then Ok "@yearly"
  else Panic.

(** ** endpoints/ohlcv.go *)
Section endpoint.
Context {OS TS PS ES B AS KS : Type} `{ITickDao TS, EthCommon, FloatMod}.
#[local] Abbreviation Services := (Services OS TS PS ES B).
Import OHLCVService.

(** [now.AddDate(-1, 0, 0).Unix()]: the standard library's calendar. *)
Variable year_before : Z → Z.

(** The query's parameters, the empty text for one that is missing. *)
Record ohlcv_request := mkRequest {
  rq_baseToken : string; rq_quoteToken : string; rq_pairName : string; rq_unit : string;
  rq_duration : string; rq_from : string; rq_to : string
}.
Definition or_default {A} (s : string) (d : A) (f : string → A) : A := if decide (s = "") then d else f s.
Definition handleGetOHLCV (now : Z) (q : ohlcv_request) : M Services response :=
  let units := or_default (rq_unit q) "hour" id in
  let duration := or_default (rq_duration q) 24 Atoi in
  let to := or_default (rq_to q) (seconds now) Atoi in
  let from := or_default (rq_from q) (year_before now) Atoi in
  if decide (rq_baseToken q = "") then mret (WriteError 400 "baseToken Parameter missing")
  else if decide (rq_quoteToken q = "") then mret (WriteError 400 "quoteToken Parameter missing")
  else if negb (IsHexAddress (rq_baseToken q)) then mret (WriteError 400 "Invalid base token address")
  else if negb (IsHexAddress (rq_quoteToken q)) then mret (WriteError 400 "Invalid quote token address")
  else
    r ← attempt (GetOHLCV now [mkPairAddresses (rq_pairName q) (HexToAddress (rq_baseToken q))
          (HexToAddress (rq_quoteToken q))] duration units [from; to]);
    mret (match r with
          | inl _ => WriteError 500 ""
          | inr ticks => WriteJSON 200 (JArr (Tick_MarshalJSON <$> ticks))
          end).

(** [p] is what [json.Unmarshal] leaves of the payload, whose error is logged: nil
    for a null. *)
Definition with_defaults (now : Z) (p : SubscriptionPayload) : SubscriptionPayload :=
  mkSubscriptionPayload (sp_PairName p) (sp_QuoteToken p) (sp_BaseToken p)
    (if decide (sp_From p = 0) then year_before now else sp_From p)
    (if decide (sp_To p = 0) then seconds now else sp_To p)
    (if decide (sp_Duration p = 0) then 24 else sp_Duration p)
    (or_default (sp_Units p) "hour" id).
Definition ohlcvWebSocket (now : Z) (type : string) (p : option SubscriptionPayload) (c : Client) :
    M Services unit :=
  let refuse e := zoom on_ws (SendErrorMessage OHLCVSocket c (PString e)) in
  if decide (type = "SUBSCRIBE") then
    p ← lift (deref p);
    if decide (sp_BaseToken p = 0) then refuse "Invalid base token"
    else if decide (sp_QuoteToken p = 0) then refuse "Invalid Quote Token"
    else Subscribe now (Some c) (with_defaults now p)
  else if decide (type = "UNSUBSCRIBE") then Unsubscribe c
  else refuse "Invalid payload".
End endpoint.
