(* ===== verification/Endpoints.v ===== *)
(** [endpoints/pair.go], [endpoints/trade.go], [endpoints/orderbook.go],
    [endpoints/token.go] and [endpoints/accounts.go]: the requests for pairs, trades,
    order books, tokens and accounts, and the messages of their channels.

    A request is its query's parameters, the empty text for one that is missing.  Some
    handlers go on after they have answered: they give all that is written, of which
    the first status counts.  [ev.Type] and what [json.Unmarshal] leaves of the payload
    and answers are the arguments of the handlers of messages. *)
From S2P Require Import Prelude BigMath Types Mongo Json Aggregation Ticks Orders MatchTypes OrderCodec TradeCodec OrderDao OrderStore Pairs TradeDao Rabbit Engine Ws Services MarketService Accounts Tokens AccountService PairService OrderEndpoint OhlcvService.
Import OHLCVService.

(** [json.Marshal] of what the driver decodes the [meta] of an image to. *)
Class MetaJson := Meta_json : doc → json.

Section requests.
Context {OS TS PS ES B AS KS : Type}.
Context `{IOrderDao OS, ITradeDao TS, IPairDao PS, IAccountDao AS, ITokenDao KS}.
Context `{ITickDao TS, IOrderDataDao OS, IContractInfo ES}.
Context `{EthCommon, Codecs, TimeString, MetaJson, Big.Undefined}.
#[local] Abbreviation Site := (Site OS TS PS ES B AS KS).

(** ** Tokens and their balances as JSON *)
Definition Image_json (i : Image) : json :=
  JObj [("url", JStr (img_URL i)); ("meta", Meta_json (img_Meta i))].
Definition fee_json (k : string) (f : option Z) : jmap := opt_jfields f (λ f, [(k, JStr (Big.String_Z f))]).
Definition Token_MarshalJSON (t : Token) : json :=
  JObj ([("id", JStr (k_ID t)); ("symbol", JStr (k_Symbol t));
         ("contractAddress", JStr (Address_Hex (k_ContractAddress t))); ("decimals", JNum (k_Decimals t));
         ("image", Image_json (k_Image t)); ("active", JBool (k_Active t)); ("quote", JBool (k_Quote t));
         ("createdAt", JStr (Format_RFC3339Nano (k_CreatedAt t)));
         ("updatedAt", JStr (Format_RFC3339Nano (k_UpdatedAt t)))] ++
    fee_json "makeFee" (k_MakeFee t) ++ fee_json "takeFee" (k_TakeFee t)).
(** [MarshalJSON] is a method of the pointer: a token that is passed by value is
    encoded by its tags. *)
Definition Token_by_tags (t : Token) : json :=
  let fee k f := opt_jfields f (λ f, [(k, JNum f)]) in
  JObj ([("name", JStr (k_Name t)); ("symbol", JStr (k_Symbol t)); ("address", JStr (Address_Text (k_Address t)));
         ("image", Image_json (k_Image t)); ("contractAddress", JStr (Address_Text (k_ContractAddress t)));
         ("decimals", JNum (k_Decimals t)); ("active", JBool (k_Active t)); ("listed", JBool (k_Listed t));
         ("quote", JBool (k_Quote t))] ++ fee "makeFee" (k_MakeFee t) ++ fee "takeFee" (k_TakeFee t) ++
        [("createdAt", JStr (Format_RFC3339Nano (k_CreatedAt t)));
         ("updatedAt", JStr (Format_RFC3339Nano (k_UpdatedAt t)))]).
Definition amount_json (x : option Z) : json := match x with Some z => JNum z | None => JNull end.
Definition TokenBalance_by_tags (b : TokenBalance) : json :=
  JObj [("address", JStr (Address_Text (tb_Address b))); ("symbol", JStr (tb_Symbol b));
        ("balance", amount_json (tb_Balance b)); ("allowance", amount_json (tb_Allowance b));
        ("pendingBalance", amount_json (tb_PendingBalance b));
        ("lockedBalance", amount_json (tb_LockedBalance b))].
Definition pointer_json {A} (f : A → json) (x : option A) : json :=
  match x with Some a => f a | None => JNull end.

(** ** Two tokens of a query *)
Definition two_tokens (bt qt invalid_base invalid_quote : string) (handle : Address → Address → M Site response) :
    M Site response :=
  if decide (bt = "") then mret (WriteError 400 "baseToken Parameter missing")
  else if decide (qt = "") then mret (WriteError 400 "quoteToken Parameter missing")
  else if negb (IsHexAddress bt) then mret (WriteError 400 invalid_base)
  else if negb (IsHexAddress qt) then mret (WriteError 400 invalid_quote)
  else handle (HexToAddress bt) (HexToAddress qt).
Definition answer {A} (failed : string) (f : A → json) (m : M Site A) : M Site response :=
  r ← attempt m;
  mret (match r with inl _ => WriteError 500 failed | inr a => WriteJSON 200 (f a) end).
Definition slice_json {A} (f : A → json) (l : list A) : json := JArr (f <$> l).

(** ** endpoints/pair.go *)
Definition zero_Pair : Pair := mkPair "" "" 0 0 "" 0 0 false false 0 None None 0 0.
(** The errors of the service are told apart by identity, those of a driver never
    being one of them. *)
Definition create_error (e : error) : response :=
  if decide (e = PairService.ErrPairExists) then WriteError 400 "Pair exists"
  else if decide (e = PairService.ErrBaseTokenNotFound) then WriteError 400 "Base token not found"
  else if decide (e = PairService.ErrQuoteTokenNotFound) then WriteError 400 "Quote token not found"
  else if decide (e = PairService.ErrQuoteTokenInvalid) then
    WriteError 400 "Quote token invalid (token is not registered as quote"
  else WriteError 500 "".
Definition HandleCreatePair (body : json) : M Site response :=
  p ← attempt (lift (Pair_UnmarshalJSON body zero_Pair));
  match p with
  | inl _ => mret (WriteError 400 "Invalid payload")
  | inr p =>
    v ← attempt (lift (Pair_Validate p));
    match v with
    | inl e => mret (WriteError 400 e)
    | inr _ =>
      r ← attempt (PairService.Create p);
      mret (match r with inl e => create_error e | inr p => WriteJSON 201 (Pair_MarshalJSON p) end)
    end
  end.
Definition HandleGetPairs : M Site response := answer "" (slice_json Pair_MarshalJSON) PairService.GetAll.
Definition HandleGetPair (baseToken quoteToken : string) : M Site response :=
  two_tokens baseToken quoteToken "Invalid Base Token Address" "Invalid Quote Token Address" (λ bt qt,
    answer "" (λ p, match p with Some p => Pair_MarshalJSON p | None => JArr [] end)
      (PairService.GetByTokenAddress bt qt)).
Definition HandleGetPairData (now : Z) (baseToken quoteToken : string) : M Site response :=
  if decide (baseToken = "" ∧ quoteToken = "") then
    r ← attempt (PairService.GetAllTokenPairData now);
    mret (match r with
          | inl e => WriteError 500 e
          | inr l => WriteJSON 200 (slice_json PairData_MarshalJSON l)
          end)
  else if decide (quoteToken = "") then mret (WriteError 400 "quoteToken Parameter missing")
  else
    two_tokens baseToken quoteToken "Invalid Base Token Address" "Invalid Quote Token Address" (λ bt qt,
      answer "" (slice_json Tick_MarshalJSON) (PairService.GetTokenPairData now bt qt)).

(** ** endpoints/trade.go *)
Definition limit_or (l : string) (d : nat) : nat := if decide (l = "") then d else Z.to_nat (Z.abs (Atoi l)).
Definition HandleGetTradeHistory (bt qt limit : string) : M Site response :=
  two_tokens bt qt "Invalid base token address" "Invalid quote token address" (λ bt qt,
    answer "" (slice_json Trade_MarshalJSON)
      (zoom on_services (TradeService.GetSortedTrades bt qt (limit_or limit 20)))).
Definition HandleGetTrades (addr limit : string) : M Site response :=
  if decide (addr = "") then mret (WriteError 400 "address Parameter missing")
  else if negb (IsHexAddress addr) then mret (WriteError 400 "Invalid Address")
  else answer "" (slice_json Trade_MarshalJSON)
         (zoom on_services (TradeService.GetSortedTradesByUserAddress (HexToAddress addr) (limit_or limit 100))).

(** ** endpoints/orderbook.go *)
Definition entry_json (e : list (string * string)) : json := JObj ((λ kv, (kv.1, JStr kv.2)) <$> e).
Definition book_json (p : payload) : json :=
  match p with
  | POrderBook name bids asks =>
    JObj [("pairName", JStr name); ("asks", slice_json entry_json asks); ("bids", slice_json entry_json bids)]
  | PRawOrderBook name orders => JObj [("pairName", JStr name); ("orders", slice_json Order_MarshalJSON orders)]
  | _ => JNull
  end.
Definition handleGetOrderBook (bt qt : string) : M Site response :=
  two_tokens bt qt "Invalid Base Token Address" "Invalid Quote Token Address" (λ bt qt,
    answer "Internal Server Error" book_json (zoom on_services (OrderBookService.GetOrderBook bt qt))).
Definition handleGetRawOrderBook (bt qt : string) : M Site response :=
  two_tokens bt qt "Invalid Base Token Address" "Invalid Quote Token Address" (λ bt qt,
    answer "Internal Server Error" book_json (zoom on_services (OrderBookService.GetRawOrderBook bt qt))).

(** ** endpoints/token.go *)
Definition zero_Token : Token := mkToken "" "" "" 0 (mkImage "" []) 0 0 false false false None None 0 0.
(** A body that cannot be decoded is reported, and what is left of the token is
    created. *)
Definition HandleCreateTokens (body : json) : M Site (list response) :=
  r ← attempt (lift (Token_UnmarshalJSON body zero_Token));
  let '(told, t) := match r with
    | inl _ => ([WriteError 400 "Invalid payload"], zero_Token)
    | inr t => ([], t)
    end in
  '(t, r) ← zoom on_tokens (TokenService.Create t);
  mret (told ++ [match r with
    | inl e => if decide (e = TokenService.ErrTokenExists) then WriteError 400 "" else WriteError 500 ""
    | inr _ => WriteJSON 201 (Token_by_tags t)
    end]).
Definition HandleGetTokens : M Site response :=
  answer "" (slice_json Token_MarshalJSON) (zoom on_tokens TokenService.GetAll).
(** After an error the nil slice is written as well. *)
Definition HandleGetQuoteTokens : M Site (list response) :=
  r ← attempt (zoom on_tokens TokenService.GetQuoteTokens);
  mret (match r with
        | inl _ => [WriteError 500 ""; WriteJSON 200 JNull]
        | inr l => [WriteJSON 200 (slice_json Token_MarshalJSON l)]
        end).
Definition HandleGetBaseTokens : M Site response :=
  answer "" (slice_json Token_MarshalJSON) (zoom on_tokens TokenService.GetBaseTokens).
Definition HandleGetToken (a : string) : M Site (list response) :=
  r ← answer "" (pointer_json Token_MarshalJSON) (zoom on_tokens (TokenService.GetByAddress (HexToAddress a)));
  mret ((if IsHexAddress a then [] else [WriteError 400 "Invalid Address"]) ++ [r]).

(** ** endpoints/accounts.go *)
Definition handleCreateAccount (addr : string) : M Site response :=
  if negb (IsHexAddress addr) then mret (WriteError 400 "Invalid Address")
  else
    let a := HexToAddress addr in
    r ← attempt (AccountService.GetByAddress a);
    match r with
    | inl _ => mret (WriteError 500 "")
    | inr (Some _) => mret (WriteJSON 200 (JStr "Account already exists"))
    | inr None =>
      r ← attempt (AccountService.Create (mkAccount "" a ∅ false 0 0));
      mret (match r with inl _ => WriteError 500 "" | inr acc => WriteJSON 201 (Account_MarshalJSON acc) end)
    end.
Definition handleGetAccount (addr : string) : M Site response :=
  if negb (IsHexAddress addr) then mret (WriteError 400 "Invalid Address")
  else answer "" (pointer_json Account_MarshalJSON) (AccountService.GetByAddress (HexToAddress addr)).
(** The token's address is not looked at: the owner's is tested twice. *)
Definition handleGetAccountTokenBalance (a t : string) : M Site (list response) :=
  let told := if IsHexAddress a then []
              else [WriteError 400 "Invalid Address"; WriteError 400 "Invalid Token Address"] in
  r ← attempt (AccountService.GetTokenBalance (HexToAddress a) (HexToAddress t));
  mret (told ++ match r with
    | inl _ => [WriteError 500 ""; WriteJSON 200 JNull]
    | inr b => [WriteJSON 200 (pointer_json TokenBalance_by_tags b)]
    end).
End requests.
