(* ===== verification/Channels.v ===== *)
(** [ws/connection.go] and [ws/channels.go]: the channels of the WebSockets and the
    reading of a connection; the handlers of the market's channels
    ([endpoints/trade.go], [endpoints/orderbook.go], [endpoints/token.go]).

    A message's handler is started as a goroutine, which may run at any later time and
    in any order with others: it is put among those that were started, and running it is
    a step of its own. *)
From S2P Require Import Prelude BigMath Types DepositTypes Mongo Json Aggregation Ticks Orders OrderCancels MatchTypes OrderCodec TradeCodec OrderDao OrderStore Pairs TradeDao Rabbit Engine Ws Services MarketService Accounts Tokens AccountService PairService Validator OrderService OrderEndpoint OhlcvService.
Import OHLCVService.

(** ** The payload of a subscription *)
Section payload.
Context `{EthCommon, HexCommon}.

(** What [encoding/json] does with one field: set it, note that its type is wrong and go
    on, or stop at the error of an address. *)
Inductive decoded := Set_to (p : SubscriptionPayload) | Wrong | Stop.
Definition zero_payload : SubscriptionPayload := mkSubscriptionPayload "" 0 0 0 0 0 "".
(** Names are compared without regard to case; a null leaves a field as it is, but an
    address, whose decoder takes no null. *)
Definition decode_field (k : string) (v : json) (p : SubscriptionPayload) : decoded :=
  let '(mkSubscriptionPayload n q b f t d u) := p in
  let str g := match v with JStr s => Set_to (g s) | JNull => Set_to p | _ => Wrong end in
  let addr g := match v with
    | JStr s => match Address_UnmarshalText s with Ok a => Set_to (g a) | _ => Stop end
    | _ => Stop
    end in
  let num g := match v with
    | JNum z => if bool_decide (- 2 ^ 63 <= z < 2 ^ 63) then Set_to (g z) else Wrong
    | JNull => Set_to p
    | _ => Wrong
    end in
  if decide (k = "pairname") then str (λ s, mkSubscriptionPayload s q b f t d u)
  else if decide (k = "quotetoken") then addr (λ a, mkSubscriptionPayload n a b f t d u)
  else if decide (k = "basetoken") then addr (λ a, mkSubscriptionPayload n q a f t d u)
  else if decide (k = "from") then num (λ z, mkSubscriptionPayload n q b z t d u)
  else if decide (k = "to") then num (λ z, mkSubscriptionPayload n q b f z d u)
  else if decide (k = "duration") then num (λ z, mkSubscriptionPayload n q b f t z u)
  else if decide (k = "units") then str (λ s, mkSubscriptionPayload n q b f t d s)
  else Set_to p.
Fixpoint decode_fields (m : jmap) (p : SubscriptionPayload) : bool * SubscriptionPayload :=
  match m with
  | [] => (false, p)
  | (k, v) :: m =>
    match decode_field (ToLower k) v p with
    | Set_to p => decode_fields m p
    | Wrong => (true, (decode_fields m p).2)
    | Stop => (true, p)
    end
  end.
(** Whether [json.Unmarshal] fails, and the pointer it leaves, nil for a null. *)
Definition unmarshal_subscription (j : json) : bool * option SubscriptionPayload :=
  match j with
  | JNull => (false, None)
  | JObj m => let '(e, p) := decode_fields m zero_payload in (e, Some p)
  | _ => (true, Some zero_payload)
  end.
End payload.

(** [types.WebsocketEvent] as it was received. *)
Record Event := mkEvent { ev_Type : string; ev_Payload : json }.

(** ** The market's channels *)
Section market.
Context {OS TS PS ES B AS KS : Type}.
Context `{IOrderDao OS, ITradeDao TS, IPairDao PS, ITokenDao KS, EthCommon, HexCommon}.
#[local] Abbreviation Site := (Site OS TS PS ES B AS KS).

Definition complain (k : SocketKind) (c : Client) (m : string) : M Site unit :=
  zoom on_services (zoom on_ws (SendErrorMessage k c (PMessage [("Message", m)]))).
(** The two tokens of a subscription, the pointer to which is not looked at. *)
Definition subscribe_tokens (k : SocketKind) (c : Client) (no_base no_quote : string)
    (p : option SubscriptionPayload) (subscribe : Address → Address → M Site unit) : M Site unit :=
  p ← lift (deref p);
  if decide (sp_BaseToken p = 0) then complain k c no_base
  else if decide (sp_QuoteToken p = 0) then complain k c no_quote
  else subscribe (sp_BaseToken p) (sp_QuoteToken p).

Definition tradeWebsocket (ev : Event) (c : Client) : M Site unit :=
  if decide (ev_Type ev ≠ "SUBSCRIBE" ∧ ev_Type ev ≠ "UNSUBSCRIBE") then complain TradeSocket c "Invalid payload"
  else
    let '(failed, p) := unmarshal_subscription (ev_Payload ev) in
    if failed then mret tt
    else if decide (ev_Type ev = "SUBSCRIBE") then
      subscribe_tokens TradeSocket c "Invalid base token" "Invalid quote token" p (λ bt qt,
        zoom on_services (TradeService.Subscribe (Some c) bt qt))
    else
      match p with
      | None => zoom on_services (TradeService.Unsubscribe c)
      | Some p => zoom on_services (TradeService.UnsubscribeChannel c (sp_BaseToken p) (sp_QuoteToken p))
      end.

(** Any other type is checked for its tokens and then ignored. *)
Definition book_message (k : SocketKind) (no_base no_quote : string) (unsubscribe : Client → M Site unit)
    (subscribe : Client → Address → Address → M Site unit)
    (type : string) (p : option SubscriptionPayload) (c : Client) : M Site unit :=
  if decide (type = "UNSUBSCRIBE") then unsubscribe c
  else subscribe_tokens k c no_base no_quote p (λ bt qt,
    if decide (type = "SUBSCRIBE") then subscribe c bt qt else mret tt).
Definition rawOrderBookWebSocket (ev : Event) (c : Client) : M Site unit :=
  book_message RawOrderBookSocket "Invalid Base Token" "Invalid Quote Token"
    (λ c, zoom on_services (OrderBookService.UnsubscribeRawOrderBook c))
    (λ c bt qt, zoom on_services (OrderBookService.SubscribeRawOrderBook (Some c) bt qt))
    (ev_Type ev) (unmarshal_subscription (ev_Payload ev)).2 c.
(** A payload that cannot be decoded is reported, and then used. *)
Definition orderBookWebSocket (ev : Event) (c : Client) : M Site unit :=
  let '(failed, p) := unmarshal_subscription (ev_Payload ev) in
  (if failed then complain OrderBookSocket c "Internal server error" else mret tt) ;;
  book_message OrderBookSocket "Invalid base token" "Invalid quote token"
    (λ c, zoom on_services (OrderBookService.UnsubscribeOrderBook c))
    (λ c bt qt, zoom on_services (OrderBookService.SubscribeOrderBook (Some c) bt qt))
    (ev_Type ev) p c.

Definition TokenChannel : string := "tokens".
Definition tokenWebSocket (ev : Event) (c : Client) : M Site unit :=
  if decide (ev_Type ev = "GET_TOKENS") then
    r ← attempt (zoom on_tokens TokenService.GetAll);
    zoom on_services (zoom on_ws (match r with
      | inl e => SendMessage c TokenChannel "ERROR" (PString e)
      | inr l => SendMessage c TokenChannel "UPDATE" (PTokens l)
      end))
  else mret tt.
End market.

(** ** The channels and the reading of a connection *)
Section channels.
Context `{EthCommon} {S : Type} (on_ws : lens S Ws).

Definition Handle := Event → Client → M S unit.
Definition RegisterChannel (channel : string) (fn : option Handle) (ch : gmap string Handle) :
    outcome unit * gmap string Handle :=
  if decide (channel = "") then (Err "Channel can not be an empty string", ch)
  else
    match fn with
    | None => (Err "Handler should not be nil", ch)
    | Some fn =>
      match ch !! channel with
      | Some _ => (Err "Channel already registered", ch)
      | None => (Ok tt, <[channel := fn]> ch)
      end
    end.
(** The errors are not looked at. *)
Definition register_all (l : list (string * Handle)) : gmap string Handle :=
  foldl (λ ch kf, (RegisterChannel kf.1 (Some kf.2) ch).2) ∅ l.

(** What [ReadMessage] answers: an error, a message that is no text, a text that is no
    message (with the channel that was decoded before the error), or a message. *)
Inductive frame :=
  | ReadError
  | NotText
  | NoMessage (channel : string) (e : error)
  | Message (channel : string) (ev : Event).

(** The goroutines that were started and have not run yet: handlers of messages, and the
    unsubscribe handlers of connections that were closed.  [rd_written] is what was
    written to the sockets. *)
Record Reading := mkReading {
  rd_site : S;
  rd_started : list (string * Event * Client);
  rd_closing : list (Client * Handler);
  rd_written : list (Client * WebsocketMessage)
}.
Definition on_site : lens Reading S :=
  Lens rd_site (λ s r, mkReading s (rd_started r) (rd_closing r) (rd_written r)).
Definition start (channel : string) (ev : Event) (c : Client) : M Reading unit :=
  modify (λ r, mkReading (rd_site r) (rd_started r ++ [(channel, ev, c)]) (rd_closing r) (rd_written r)).
(** [closeConnection], the goroutines of which are yet to run. *)
Definition close (c : Client) : M Reading unit :=
  modify (λ r, mkReading (rd_site r) (rd_started r)
    (rd_closing r ++ ((λ h, (c, h)) <$> handlers_of c (lget on_ws (rd_site r)))) (rd_written r)).

(** One turn of [readHandler]'s loop: whether it goes on. *)
Definition read_frame (ch : gmap string Handle) (c : Client) (f : frame) : M Reading bool :=
  match f with
  | ReadError | NotText => mret false
  | NoMessage channel e => zoom on_site (zoom on_ws (SendMessage c channel "ERROR" (PString e))) ;; mret false
  | Message channel ev =>
    match ch !! channel with
    | None =>
      zoom on_site (zoom on_ws (SendMessage c channel "ERROR" (PString "INVALID_CHANNEL"))) ;; mret false
    | Some _ => start channel ev c ;; mret true
    end
  end.
(** The loop on the frames of a connection, to the one that ends it, which closes the
    connection: what is left of them is never read. *)
Fixpoint readHandler (ch : gmap string Handle) (c : Client) (fs : list frame) : M Reading (list frame) :=
  match fs with
  | [] => mret []
  | f :: fs =>
    go_on ← read_frame ch c f;
    if (go_on : bool) then readHandler ch c fs else close c ;; mret fs
  end.

(** A turn of [writeHandler]: the ticker fires or a message is received, and the socket
    answers an error or not.  [send] is never closed.  When [writeHandler] has returned,
    nobody receives from it any more. *)
Inductive turn := Ping (err : option error) | Received (m : WebsocketMessage) (err : option error).
Fixpoint writeHandler (c : Client) (ts : list turn) : M Reading (list turn) :=
  match ts with
  | [] => mret []
  | Ping None :: ts => writeHandler c ts
  | Received m None :: ts =>
    modify (λ r, mkReading (rd_site r) (rd_started r) (rd_closing r) (rd_written r ++ [(c, m)])) ;;
    writeHandler c ts
  | Ping (Some _) :: ts | Received _ (Some _) :: ts =>
    zoom on_site (zoom on_ws (stop_writing c)) ;; close c ;; mret ts
  end.
(** One of the unsubscribe handlers runs. *)
Definition run_closing (k : nat) : M Reading unit := λ r,
  match rd_closing r !! k with
  | None => (Ok tt, r)
  | Some (c, h) =>
    zoom on_site (zoom on_ws (run_handler c h))
      (mkReading (rd_site r) (rd_started r) (delete k (rd_closing r)) (rd_written r))
  end.
(** One of the handlers that were started runs. *)
Definition run_started (ch : gmap string Handle) (k : nat) : M Reading unit := λ r,
  match rd_started r !! k with
  | None => (Ok tt, r)
  | Some (channel, ev, c) =>
    let r := mkReading (rd_site r) (delete k (rd_started r)) (rd_closing r) (rd_written r) in
    match ch !! channel with Some fn => zoom on_site (fn ev c) r | None => (Panic, r) end
  end.
End channels.
