(* ===== verification/EndpointProps.v ===== *)
(** What the request for a pair leads to, and what becomes of the messages of a
    connection. *)
From S2P Require Import Prelude BigMath Types DepositTypes Mongo Json Aggregation Ticks Orders OrderCancels MatchTypes OrderCodec TradeCodec OrderDao OrderStore Pairs TradeDao Rabbit Engine Ws Services Validator OrderService OrderServiceProps MarketService Accounts Tokens AccountService PairService PairServiceProps OrderEndpoint OhlcvService Endpoints Channels.

(** ** A pair that was made by a request *)
Section pairs.
Context {OS TS PS ES B AS KS : Type}.
Context `{OrderDaoSpec OS, ITradeDao TS, PairDaoSpec PS, EthereumProviderSpec ES, AmqpLaws B}.
Context `{EthCommonLaws, AppConfig, !Codecs, !CodecLaws _ _, !Big.Undefined}.
Context `{TokenDaoSpec KS, !IContractInfo ES}.
#[local] Abbreviation Site := (Site OS TS PS ES B AS KS).
Implicit Types w : Site.

Lemma Pair_UnmarshalJSON_fees body p : Pair_UnmarshalJSON body zero_Pair = Ok p →
  p_MakeFee p = None ∧ p_TakeFee p = None.
Proof.
  unfold Pair_UnmarshalJSON. destruct (unmarshal_map body) as [m|e|]; [|done..]. simpl.
  repeat match goal with |- context [mbind _ ?x] => destruct x; [|done..]; simpl end.
  by intros [= <-].
Qed.

(** C22: [POST /pair] is answered 201 only for a pair of two registered tokens that no
    stored pair has, and the pair it stores has no fees, for the decoder does not read
    them.  The server it leaves accepts no order
    of that pair: computing the pair's minimum uses the nil fees. *)
Theorem created_pair_refuses_orders body ps ks w : site_in ps ks w → od_inv (s_orders (site_services w)) →
  NoDup (tokens_of <$> ps) →
  wp (HandleCreatePair body) (λ r w', ∀ j, r = Ok (WriteJSON 201 j) →
    ∃ q ps' p, Pair_UnmarshalJSON body zero_Pair = Ok q ∧ tokens_of q ∉ tokens_of <$> ps ∧
      site_in ps' ks w' ∧ p ∈ ps' ∧ tokens_of p = tokens_of q ∧
      p_MakeFee p = None ∧ p_TakeFee p = None ∧
      ∀ t1 t2 o, (o_BaseToken o, o_QuoteToken o) = tokens_of p →
        wp (NewOrder t1 t2) (λ r _, r ≠ Ok tt) (o, site_services w')) w.
Proof.
  intros Hw Hi Hn. unfold HandleCreatePair. apply wp_bind, wp_attempt, wp_lift.
  destruct (Pair_UnmarshalJSON body zero_Pair) as [q|e|] eqn:Hq; [|by intros|by intros].
  destruct (Pair_UnmarshalJSON_fees _ _ Hq) as [Hmf Htf]. cbn [wp_next].
  apply wp_bind, wp_attempt, wp_lift. destruct (Pair_Validate q) as [[]|e|]; [|by intros|by intros].
  cbn [wp_next]. apply wp_bind, wp_attempt. eapply wp_mono; [|by apply (Create_ok q ps ks)].
  intros r w' (He & ps' & Hw' & Hn' & Hr).
  destruct r as [p|e|]; [| |by intros].
  2:{ apply wp_ret. intros j [= Hj]. exfalso. revert Hj. unfold create_error. by repeat case_decide. }
  apply wp_ret. intros j _. destruct Hr as [Hnew Hps']. exists q, ps', (pair_kept p).
  pose proof Hnew as (Hni & bt & st & _ & _ & _ & _ & _ & id & t1 & t2 & Hp).
  assert (p_MakeFee (pair_kept p) = None ∧ p_TakeFee (pair_kept p) = None) as [Hmf' Htf'].
  { rewrite Hp. by split. }
  assert (pair_kept p ∈ ps') as Hin by (rewrite Hps'; by left).
  split_and!; [done..|by apply (new_pair_tokens q ps ks)|done|done|].
  intros t1' t2' o Ho. eapply wp_mono; [|apply (NewOrder_ok ps')].
  2:{ split; [|apply Hw']. injection He as -> _ _ _ _ _. done. }
  intros r ow [_ Hacc] Hok. destruct (acc_pair _ _ _ _ _ _ (Hacc Hok)) as (p' & qa & m & Hp' & [Eb Eq] & _ & _ & _ & Hm & _).
  assert (p' = pair_kept p) as ->.
  { apply list_elem_of_lookup in Hp' as [i Hpi]. apply list_elem_of_lookup in Hin as [k Hpk].
    assert (i = k) as ->; [|congruence]. eapply (NoDup_lookup (tokens_of <$> ps') i k (tokens_of (pair_kept p))); [auto| |].
    - rewrite list_lookup_fmap, Hpi. simpl. unfold tokens_of at 1. rewrite Eb, Eq. by rewrite Ho.
    - by rewrite list_lookup_fmap, Hpk. }
  unfold MinQuoteAmount in Hm. by rewrite Hmf' in Hm.
Qed.
End pairs.

(** ** The messages of a connection *)
Section reading.
Context {S : Type} (on_ws : lens S Ws) (ch : gmap string (@Handle S)) (c : Client).
Implicit Types R : @Reading S.

(** A frame that ends a connection, and what the client is told first. *)
Definition ends (f : frame) : Prop :=
  match f with Message k _ => ch !! k = None | _ => True end.
Definition told_of (f : frame) : option WebsocketMessage :=
  match f with
  | ReadError | NotText => None
  | NoMessage k e => Some (mkWebsocketMessage k "ERROR" "" (PString e))
  | Message k _ => Some (mkWebsocketMessage k "ERROR" "" (PString "INVALID_CHANNEL"))
  end.
Definition tell (m : option WebsocketMessage) (s : S) : S :=
  match m with Some m => lset on_ws (send_on c m (lget on_ws s)).2 s | None => s end.
(** Somebody receives it, if there is something to be told. *)
Definition told (m : option WebsocketMessage) (s : S) : Prop :=
  match m with Some _ => quits (lget on_ws s) !! c ≠ Some O | None => True end.
Definition as_frame (m : string * Event) : frame := Message m.1 m.2.

Definition closes (R R' : @Reading S) : Prop :=
  rd_closing R' = rd_closing R ++ ((λ h, (c, h)) <$> handlers_of c (lget on_ws (rd_site R'))).

(** The loop starts the handler of every message of a registered channel, once and in
    their order, up to the first frame that is none; the client is told why, if it sent a
    text, its unsubscribe handlers are started, and the rest is never read.  If its
    [writeHandler] has returned and it is to be told, the loop waits for ever, and nothing
    is closed. *)
Definition read_result (fs : list frame) R (r : outcome (list frame)) R' (ms : list (string * Event)) : Prop :=
  rd_started R' = rd_started R ++ ((λ m, (m.1, m.2, c)) <$> ms) ∧ Forall (λ m, is_Some (ch !! m.1)) ms ∧
  match r with
  | Ok rest =>
    (fs = as_frame <$> ms ∧ rest = [] ∧ rd_site R' = rd_site R ∧ rd_closing R' = rd_closing R) ∨
    ∃ f, fs = (as_frame <$> ms) ++ f :: rest ∧ ends f ∧ told (told_of f) (rd_site R) ∧
      rd_site R' = tell (told_of f) (rd_site R) ∧ closes R R'
  | Err _ => False
  | Panic => ∃ f rest, fs = (as_frame <$> ms) ++ f :: rest ∧ ends f ∧ ¬ told (told_of f) (rd_site R) ∧
      rd_site R' = tell (told_of f) (rd_site R) ∧ rd_closing R' = rd_closing R
  end.
Lemma read_ends_quiet f fs R : told_of f = None → ends f →
  wp (close on_ws c ;; mret fs) (λ r R', ∃ ms, read_result (f :: fs) R r R' ms) R.
Proof.
  intros Ht He. apply wp_bind. cbn. exists []. unfold read_result.
  split_and!; [cbn; by rewrite app_nil_r|constructor|right].
  exists f. split_and!; [done|done|by rewrite Ht..|]. done.
Qed.
(** The answer to a text that ends the connection. *)
Lemma read_ends_told f m fs R : told_of f = Some m → ends f →
  wp (zoom on_site (zoom on_ws (send_on c m)) ;; mret false)
    (wp_next (λ go_on : bool, if go_on then readHandler on_ws ch c fs else close on_ws c ;; mret fs)
      (λ r R', ∃ ms, read_result (f :: fs) R r R' ms)) R.
Proof.
  intros Ht He. assert (tell (told_of f) (rd_site R) = lset on_ws (send_on c m (lget on_ws (rd_site R))).2 (rd_site R)) as Hs
    by (by rewrite Ht).
  assert (told (told_of f) (rd_site R) ↔ quits (lget on_ws (rd_site R)) !! c ≠ Some O) as Hd by (by rewrite Ht).
  apply wp_bind. unfold wp at 1. unfold zoom, send_on in *. cbn [lget lset on_site] in *.
  destruct (quits (lget on_ws (rd_site R)) !! c) as [[|n]|]; cbn [fst snd wp_next] in *.
  - exists []. unfold read_result. cbn. rewrite app_nil_r. split_and!; [done|constructor|].
    exists f, fs. by rewrite Hd, Hs; split_and!; [| |intros []|..].
  - apply wp_ret. cbn [wp_next]. apply wp_bind. cbn. exists []. unfold read_result. cbn. rewrite app_nil_r.
    split_and!; [done|constructor|right]. exists f. by rewrite Hd, Hs; split_and!.
  - apply wp_ret. cbn [wp_next]. apply wp_bind. cbn. exists []. unfold read_result. cbn. rewrite app_nil_r.
    split_and!; [done|constructor|right]. exists f. by rewrite Hd, Hs; split_and!.
Qed.
Theorem readHandler_starts fs R : wp (readHandler on_ws ch c fs) (λ r R', ∃ ms, read_result fs R r R' ms) R.
Proof.
  revert R. induction fs as [|f fs IH]; intros R.
  { apply wp_ret. exists []. unfold read_result. split_and!; [by rewrite app_nil_r|constructor|by left]. }
  cbn [readHandler]. apply wp_bind. destruct f as [| |k e|k ev]; cbn [read_frame].
  1,2: by apply wp_ret, read_ends_quiet.
  { by apply read_ends_told. }
  destruct (ch !! k) as [fn|] eqn:Hk; [|by apply read_ends_told].
  apply wp_bind, wp_ret. eapply wp_mono; [|apply IH].
  intros r R' (ms & Hs & Hms & Hr). exists ((k, ev) :: ms). unfold read_result. split_and!.
  - rewrite Hs. simpl. by rewrite <-app_assoc.
  - constructor; [by exists fn|done].
  - destruct r as [rest|e|]; [|done|].
    + destruct Hr as [(-> & -> & Hr)|(f & -> & He & Hr)].
      * left. by destruct Hr; split_and!.
      * right. by exists f.
    + destruct Hr as (f & rest & -> & He & Hr). by exists f, rest.
Qed.

(** What the socket took is written, once and in its order, up to the first error, which
    starts the unsubscribe handlers of the client; from then on nobody receives what is
    sent to it. *)
Definition taken (ts : list turn) : list WebsocketMessage :=
  omap (λ t, match t with Received m None => Some m | _ => None end) ts.
Definition refused (t : turn) : Prop :=
  match t with Ping e | Received _ e => is_Some e end.
Definition write_result (ts : list turn) R (r : outcome (list turn)) R' (us : list turn) : Prop :=
  rd_started R' = rd_started R ∧ Forall (λ t, ¬ refused t) us ∧
  rd_written R' = rd_written R ++ ((λ m, (c, m)) <$> taken us) ∧
  match r with
  | Ok rest => (ts = us ∧ rest = [] ∧ rd_site R' = rd_site R ∧ rd_closing R' = rd_closing R) ∨
    ∃ t, ts = us ++ t :: rest ∧ refused t ∧ closes R R' ∧
      rd_site R' = lset on_ws (stop_writing c (lget on_ws (rd_site R))).2 (rd_site R)
  | _ => False
  end.
Lemma write_ends t ts R : refused t →
  wp (zoom on_site (zoom on_ws (stop_writing c)) ;; close on_ws c ;; mret ts)
    (λ r R', ∃ us, write_result (t :: ts) R r R' us) R.
Proof.
  intros Ht. apply wp_bind. cbn. exists []. unfold write_result.
  split_and!; [done|constructor|by rewrite app_nil_r|right]. by exists t.
Qed.
(** One more turn that was taken. *)
Lemma write_cons t ts R R0 r R' us : ¬ refused t → rd_site R0 = rd_site R → rd_started R0 = rd_started R →
  rd_closing R0 = rd_closing R → rd_written R0 = rd_written R ++ ((λ m, (c, m)) <$> taken [t]) →
  write_result ts R0 r R' us → write_result (t :: ts) R r R' (t :: us).
Proof.
  intros Ht Hs Hst Hc Hw (Hst' & Hus & Hw' & Hr). unfold write_result.
  split_and!; [congruence|by constructor| |].
  - rewrite Hw', Hw, <-app_assoc, <-fmap_app. f_equal. unfold taken. by rewrite <-omap_app.
  - destruct r as [rest|e|]; [|done..]. destruct Hr as [(-> & -> & Hr & Hcl)|(t' & -> & He & Hr & Hs')].
    + left. split_and!; congruence.
    + right. exists t'. rewrite Hs' in *. unfold closes in *. rewrite Hs, Hc in *. by split_and!.
Qed.
Theorem writeHandler_writes ts R :
  wp (writeHandler on_ws c ts) (λ r R', ∃ us, write_result ts R r R' us) R.
Proof.
  revert R. induction ts as [|t ts IH]; intros R.
  { apply wp_ret. exists []. unfold write_result.
    split_and!; [done|constructor|by rewrite app_nil_r|by left]. }
  assert (∀ R0, ¬ refused t → rd_site R0 = rd_site R → rd_started R0 = rd_started R →
    rd_closing R0 = rd_closing R → rd_written R0 = rd_written R ++ ((λ m, (c, m)) <$> taken [t]) →
    wp (writeHandler on_ws c ts) (λ r R', ∃ us, write_result (t :: ts) R r R' us) R0) as Hon.
  { intros R0 ?????. eapply wp_mono; [|apply IH]. intros r R' [us Hr]. exists (t :: us). by eapply write_cons. }
  cbn [writeHandler]. destruct t as [[e|]|m [e|]]; [by apply write_ends; exists e| |by apply write_ends; exists e|].
  - apply Hon; [by intros [? [=]]|done..|by rewrite app_nil_r].
  - apply wp_bind. apply Hon; [by intros [? [=]]|done..].
Qed.
End reading.
