(* ===== verification/Wallets.v ===== *)
(** [types.Wallet] ([types/wallet.go]) and the signatures it makes
    ([types/signature.go]), the wallet collection ([daos/wallet.go]), the services of
    wallets and of transaction options ([services/wallet.go], [services/tx.go]), and
    what the exchange tells about itself ([endpoints/info.go]).

    A private key is its scalar; a wallet that was made from an address alone has
    none, a nil pointer. *)
From S2P Require Import Prelude BigMath Bytes Types Mongo Json Orders OrderCancels MatchTypes OrderDao Tokens OrderEndpoint.

(** go-ethereum's [crypto] and [bind]; [Sign] gives 65 bytes, the two halves of the
    signature and the recovery identifier.  [GenerateKey] is the key that was drawn. *)
Class Crypto := {
  HexToECDSA : string → outcome Z;
  PubkeyToAddress : Z → Address;
  Sign : Hash → Z → outcome (list Z);
  BytesToHash : list Z → Hash;
  TransactOpts : Type;
  NewKeyedTransactor : Z → TransactOpts
}.

(** ** types/signature.go *)
Section signatures.
Context `{EthCommon, Crypto}.

(** The length is checked against 64 bytes, of which the 65th is then read. *)
Definition NewSignature (b : list Z) : outcome Signature :=
  if decide (length b ≠ 64%nat) then Err "Signature length should be 64 bytes"
  else
    v ← index b 64;
    Ok (mkSignature ((v + 27) `mod` 256) (BytesToHash (take 32 b)) (BytesToHash (take 33 (drop 32 b)))).

(** [types.Sign]; [SignHash] signs the hash with its prefix. *)
Definition Sign_hash (hash : Hash) (privKey : option Z) : outcome Signature :=
  d ← deref privKey;
  sigBytes ← Sign hash d;
  v ← index sigBytes 64;
  Ok (mkSignature ((v + 27) `mod` 256) (BytesToHash (take 32 sigBytes))
        (BytesToHash (take 32 (drop 32 sigBytes)))).
Definition SignHash (hash : Hash) (privKey : option Z) : outcome Signature :=
  Sign_hash (signed_message hash) privKey.
End signatures.

(** ** types/wallet.go *)
Record Wallet := mkWallet {
  wl_ID : string;
  wl_Address : Address;
  wl_PrivateKey : option Z;
  wl_Admin : bool;
  wl_Operator : bool
}.
#[export] Instance Wallet_eq_dec : EqDecision Wallet.
Proof. solve_decision. Defined.
Definition set_wl_ID (id : string) (w : Wallet) : Wallet :=
  mkWallet id (wl_Address w) (wl_PrivateKey w) (wl_Admin w) (wl_Operator w).

Section wallet.
Context `{EthCommon, Codecs, Crypto}.

Definition NewWallet (GenerateKey : Z) : Wallet :=
  mkWallet "" (PubkeyToAddress GenerateKey) (Some GenerateKey) false false.
(** An error is logged, and the nil key used. *)
Definition NewWalletFromPrivateKey (key : string) : outcome Wallet :=
  match HexToECDSA key with
  | Ok d => Ok (mkWallet "" (PubkeyToAddress d) (Some d) false false)
  | _ => Panic
  end.
Definition GetAddress (w : Wallet) : string := Address_Hex (wl_Address w).
Definition GetPrivateKey (w : Wallet) : outcome string :=
  d ← deref (wl_PrivateKey w); Ok (hex_encode (Int_Bytes d)).
Definition Wallet_Validate (w : Wallet) : outcome unit := Ok tt.

(** The record's [Operator] is not set. *)
Definition Wallet_GetBSON (w : Wallet) : outcome doc :=
  d ← deref (wl_PrivateKey w);
  Ok [("_id", BId (wl_ID w)); ("address", BStr (Address_Hex (wl_Address w)));
      ("privateKey", BStr (hex_encode (Int_Bytes d))); ("admin", BBool (wl_Admin w));
      ("operator", BBool false)].
Definition Wallet_SetBSON (d : doc) : outcome Wallet :=
  id ← bson_id "_id" d;
  address ← bson_string "address" d;
  privateKey ← bson_string "privateKey" d;
  admin ← bson_bool "admin" d;
  operator ← bson_bool "operator" d;
  key ← HexToECDSA privateKey;
  Ok (mkWallet id (HexToAddress address) (Some key) admin operator).

Definition Wallet_SignHash (w : Wallet) (h : Hash) : outcome Signature :=
  SignHash h (wl_PrivateKey w).
Definition SignTrade (w : Wallet) : M Trade unit := Trade_Sign (Wallet_SignHash w).
Definition SignOrder (w : Wallet) : M Order unit := Order_Sign (Wallet_SignHash w).
End wallet.

(** ** daos/wallet.go *)
Module WalletDao.
Section dao.
Context `{EthCommon, Codecs, Crypto}.
Context {W : Type} `{Runtime W, !Mongo W}.

(** The argument keeps the identifier that it was given. *)
Definition Create (w : Wallet) : M W (Wallet * (error + unit)) :=
  match Wallet_Validate w with
  | Err e => mret (w, inl e)
  | Panic => crash
  | Ok _ =>
    id ← NewObjectId;
    let w := set_wl_ID id w in
    returning w (d ← lift (Wallet_GetBSON w); Insert [Some d])
  end.
Definition wallets (q : query) (limit : nat) : M W (list Wallet) :=
  ds ← Find q [] 0 limit; lift (decode_all Wallet_SetBSON ds).
Definition wallet (q : query) : M W Wallet := d ← FindOne q; lift (Wallet_SetBSON d).
Definition GetAll : M W (list Wallet) := wallets (Fields []) 0.
Definition GetByID (id : string) : M W Wallet := wallet (Fields [("_id", Equal (BId id))]).
Definition by_address (a : Address) : query :=
  Fields [("address", Equal (BStr (Address_Hex a)))].
Definition GetByAddress (a : Address) : M W (option Wallet) :=
  resp ← wallets (by_address a) 1; mret (head resp).
Definition admins : query := Fields [("admin", Equal (BBool true))].
Definition operators : query := Fields [("operator", Equal (BBool true))].
Definition GetDefaultAdminWallet : M W Wallet := wallet admins.
(** Nil when there is none. *)
Definition GetOperatorWallets : M W (option (list Wallet)) :=
  res ← wallets operators 0; mret (match res with [] => None | _ => Some res end).
End dao.
End WalletDao.

(** [interfaces.WalletDao] *)
Class IWalletDao (VS : Type) := {
  vd_Create : Wallet → M VS (Wallet * (error + unit));
  vd_GetAll : M VS (list Wallet);
  vd_GetByID : string → M VS Wallet;
  vd_GetByAddress : Address → M VS (option Wallet);
  vd_GetDefaultAdminWallet : M VS Wallet;
  vd_GetOperatorWallets : M VS (option (list Wallet))
}.

(** ** services/wallet.go and services/tx.go *)
Module WalletService.
Section service.
Context {VS : Type} `{IWalletDao VS}.
Definition CreateAdminWallet (a : Address) : M VS Wallet :=
  '(w, r) ← vd_Create (mkWallet "" a None true false);
  match r with inl e => fail e | inr _ => mret w end.
Definition GetDefaultAdminWallet : M VS Wallet := vd_GetDefaultAdminWallet.
Definition GetOperatorAddresses : M VS (list Address) :=
  wallets ← vd_GetOperatorWallets;
  mret (match wallets with None => [] | Some ws => wl_Address <$> ws end).
Definition GetOperatorWallets : M VS (option (list Wallet)) := vd_GetOperatorWallets.
Definition GetAll : M VS (list Wallet) := vd_GetAll.
Definition GetByAddress (a : Address) : M VS (option Wallet) := vd_GetByAddress a.
End service.
End WalletService.

Module TxService.
Section service.
Context {VS : Type} `{IWalletDao VS, Crypto}.
(** [s.Wallet] is the state beside the collection. *)
Definition transactor (w : Wallet) : outcome TransactOpts :=
  d ← deref (wl_PrivateKey w); Ok (NewKeyedTransactor d).
Definition GetTxDefaultSendOptions : M VS TransactOpts :=
  wallet ← vd_GetDefaultAdminWallet; lift (transactor wallet).
Definition GetTxSendOptions : M (option Wallet) TransactOpts :=
  w ← get; w ← lift (deref w); lift (transactor w).
Definition SetTxSender (w : option Wallet) : M (option Wallet) unit := put w.
Definition GetCustomTxSendOptions (w : option Wallet) : outcome TransactOpts :=
  w ← deref w; transactor w.
End service.
End TxService.

(** ** endpoints/info.go *)
Section info.
Context {VS KS : Type} `{IWalletDao VS, ITokenDao KS, EthCommon, Codecs, AppConfig, Big.Undefined}.
#[local] Abbreviation Info := (VS * KS)%type.
Definition info_wallets : lens Info VS := Lens fst (λ v s, (v, s.2)).
Definition info_tokens : lens Info KS := Lens snd (λ k s, (s.1, k)).

Definition exchange_json : json := JStr (Address_Hex (HexToAddress exchange_address)).
Definition internal_error : response := WriteJSON 500 (JStr "Internal server error").
Definition fee_entry (q : Token) : json :=
  JObj [("quote", JStr (k_Symbol q)); ("makeFee", JStr (Big.Stringp (k_MakeFee q)));
        ("takeFee", JStr (Big.Stringp (k_TakeFee q)))].
(** An error of the token service is logged, and there are no fees. *)
Definition fees : M Info json :=
  r ← attempt (zoom info_tokens TokenService.GetQuoteTokens);
  mret (JArr (match r with inl _ => [] | inr quotes => fee_entry <$> quotes end)).
Definition operators_json (l : list Address) : json :=
  JArr ((λ a, JStr (Address_Text a)) <$> l).
Definition handleGetInfo : M Info response :=
  operators ← attempt (zoom info_wallets WalletService.GetOperatorAddresses);
  match operators with
  | inl _ => mret internal_error
  | inr operators =>
    fees ← fees;
    mret (WriteJSON 200 (JObj [("exchangeAddress", exchange_json); ("fees", fees);
      ("operators", operators_json operators)]))
  end.
Definition handleGetExchangeInfo : response := WriteJSON 200 (JObj [("exchangeAddress", exchange_json)]).
Definition handleGetOperatorsInfo : M Info response :=
  addresses ← attempt (zoom info_wallets WalletService.GetOperatorAddresses);
  mret (match addresses with
        | inl _ => internal_error
        | inr addresses => WriteJSON 200 (JObj [("operators", operators_json addresses)])
        end).
Definition handleGetFeeInfo : M Info response := fees ← fees; mret (WriteJSON 200 fees).
End info.
