(* ===== verification/WalletProps.v ===== *)
(** What a wallet signs is accepted as its owner's; which wallets are read back from
    the collection, and which are never found. *)
From Stdlib Require Import Ascii.
From S2P Require Import Prelude BigMath Bytes Types Mongo Json Orders MatchTypes OrderDao Collection Wallets.

(** The order of the group of the curve. *)
Definition secp256k1_N : Z :=
  0xFFFFFFFFFFFFFFFFFFFFFFFFFFFFFFFEBAAEDCE6AF48A03BBFD25E8CD0364141.
Definition is_byte (b : Z) : Prop := 0 <= b < 256.

(** A key is read from 32 bytes in hexadecimal, and from no other number of bytes;
    the signer of a signature is recovered from it; a hash keeps its 32 bytes. *)
Class CryptoLaws `{EthCommon, Crypto} := {
  HexToECDSA_32 b : length b = 32%nat → Forall is_byte b → 0 < number b < secp256k1_N →
    HexToECDSA (hex_encode b) = Ok (number b);
  HexToECDSA_length b : length b ≠ 32%nat → Forall is_byte b →
    ∃ e, HexToECDSA (hex_encode b) = Err e;
  Sign_ok h d : 0 < d < secp256k1_N → ∃ rs v, Sign h d = Ok (rs ++ [v]) ∧ length rs = 64%nat ∧
    Forall is_byte rs ∧ is_byte v ∧ Ecrecover h (rs ++ [v]) = Ok (PubkeyToAddress d);
  Hash_Bytes_BytesToHash b : length b = 32%nat → Forall is_byte b → Hash_Bytes (BytesToHash b) = b
}.

Lemma big_bytes_bytes fuel x acc : Forall is_byte acc → Forall is_byte (big_bytes fuel x acc).
Proof.
  revert x acc. induction fuel as [|fuel IH]; intros x acc Ha; simpl; [done|].
  destruct (x <=? 0); [done|]. apply IH. constructor; [apply Z.mod_pos_bound; lia|done].
Qed.
Lemma Int_Bytes_bytes x : Forall is_byte (Int_Bytes x).
Proof. by apply big_bytes_bytes. Qed.
(** A number below 2^256 has 32 bytes exactly when it is not below 2^248. *)
Lemma Int_Bytes_length x : 0 < x < 2 ^ 256 → length (Int_Bytes x) = 32%nat ↔ 2 ^ 248 <= x.
Proof.
  intros Hx. destruct (Int_Bytes_ok x) as (_ & Hl & Hlen); [lia|]. set (l := length (Int_Bytes x)) in *.
  change (2 ^ 248) with (256 ^ 31). split.
  - intros E. rewrite E in Hl. exact (proj1 Hl).
  - intros Hge. assert (Z.of_nat l - 1 < 32) as Hu.
    { apply Z.nle_gt. intros Hge'.
      assert (256 ^ 32 <= 256 ^ (Z.of_nat l - 1)) by (apply Z.pow_le_mono_r; lia).
      change (256 ^ 32) with (2 ^ 256) in *. lia. }
    assert (31 < Z.of_nat l) as Hl'; [|lia].
    apply Z.nle_gt. intros Hle. assert (256 ^ Z.of_nat l <= 256 ^ 31) by (apply Z.pow_le_mono_r; lia). lia.
Qed.
Lemma secp256k1_N_below : secp256k1_N < 2 ^ 256.
Proof. by apply Z.ltb_lt. Qed.

Section props.
Context `{EthCommonLaws} `{!Crypto, !CryptoLaws} `{!Codecs, !CodecLaws _ _}.

(** ** Reading back *)
Definition without_operator (w : Wallet) : Wallet :=
  mkWallet (wl_ID w) (wl_Address w) (wl_PrivateKey w) (wl_Admin w) false.

(** A wallet is stored without its right to operate and with the bytes of its key
    that are left when the leading zeros are dropped: one whose key is of 32 bytes is
    read back but for that right, and one of a smaller key, one in 256, is refused when
    it is read. *)
Theorem Wallet_bson w d : wl_PrivateKey w = Some d → 0 < d < secp256k1_N →
  ∃ r, (r = Ok (without_operator w) ∧ 2 ^ 248 <= d ∨ (∃ e, r = Err e) ∧ d < 2 ^ 248) ∧
    (x ← Wallet_GetBSON w; Wallet_SetBSON x) = r.
Proof.
  intros Hw Hd. pose proof secp256k1_N_below as HN. unfold Wallet_GetBSON, Wallet_SetBSON. rewrite Hw. simpl.
  destruct (decide (length (Int_Bytes d) = 32%nat)) as [Hl|Hl].
  - eexists; split; [left; split; [done|]; apply Int_Bytes_length; [lia|done]|].
    destruct (Int_Bytes_ok d) as [Hn _]; [lia|].
    rewrite HexToECDSA_32, Hn; [|done|apply Int_Bytes_bytes|by rewrite Hn]. simpl.
    unfold without_operator. by rewrite HexToAddress_Hex, Hw.
  - destruct (HexToECDSA_length _ Hl (Int_Bytes_bytes d)) as [e He]. rewrite He.
    eexists; split; [right; split; [by eexists|]|done]. apply Z.nle_gt. intros Hge.
    apply Hl, Int_Bytes_length; [lia|done].
Qed.

(** ** Signatures *)
Lemma SignHash_verifies h d : 0 < d < secp256k1_N →
  ∃ sig, SignHash h (Some d) = Ok sig ∧ Sig.Verify sig (signed_message h) = Ok (PubkeyToAddress d).
Proof.
  intros Hd. destruct (Sign_ok (signed_message h) d Hd) as (rs & v & Hs & Hl & Hb & Hv & Hr).
  unfold SignHash, Sign_hash. cbn [deref mbind outcome_bind]. rewrite Hs. cbn [mbind outcome_bind].
  unfold index. rewrite lookup_app_r, Hl by lia. cbn. eexists. split; [done|].
  unfold Sig.Verify, Sig.MarshalSignature. cbn.
  rewrite take_app_le, drop_app_le, take_app_le by (rewrite ?length_drop; lia).
  rewrite (take_ge (drop 32 rs)) by (rewrite length_drop; lia).
  rewrite !Hash_Bytes_BytesToHash, app_assoc, take_drop;
    [|rewrite length_drop; lia|by apply Forall_drop|rewrite length_take; lia|by apply Forall_take].
  replace (((v + 27) `mod` 256 - 27) `mod` 256) with v; [done|].
  rewrite Zminus_mod_idemp_l, Z.add_simpl_r. symmetry. by apply Z.mod_small.
Qed.

Context `{AppConfig}.

(** C23: an order with every field in order that is signed by the wallet of its user is
    accepted by [Validate], as it is. *)
Theorem signed_order_accepted w d o : wl_PrivateKey w = Some d → 0 < d < secp256k1_N →
  o_UserAddress o = PubkeyToAddress d → order_fields_ok (set_o_Signature (Some (mkSignature 0 0 0)) o) →
  ∃ o', SignOrder w o = (Ok tt, o') ∧ Validate o' = (Ok tt, o') ∧
    ∃ h sig, Order_ComputeHash o = Ok h ∧ o' = set_o_Signature (Some sig) (set_o_Hash h o).
Proof.
  intros Hw Hd Hu Hf. destruct (Order_ComputeHash_hashable o) as [h Hh].
  { destruct (order_fields_hashable _ Hf) as (?&?&?&?&?). by destruct o. }
  destruct (SignHash_verifies h d Hd) as (sig & Hs & Hv).
  exists (set_o_Signature (Some sig) (set_o_Hash h o)).
  unfold SignOrder, Order_Sign, Wallet_SignHash. rewrite Hw.
  split_and!; [|apply Validate_ok|by exists h, sig].
  - unfold mbind, M_bind, get, lift, modify. cbn -[SignHash]. rewrite Hh. cbn -[SignHash]. by rewrite Hs.
  - split; [destruct Hf, o; constructor; cbn in *; try done; by eexists|].
    exists h, sig. split_and!; [by rewrite <-Hh; destruct o| |cbn; by rewrite Hu; destruct o|by destruct o].
    by destruct o.
Qed.
End props.

(** ** The collection *)
Section collection.
Context `{EthCommon, Codecs, !Crypto}.
Context {W : Type} `{Runtime W, !Mongo W, !MongoLaws W}.

#[export] Instance wallet_dao : IWalletDao W := {|
  vd_Create := WalletDao.Create;
  vd_GetAll := WalletDao.GetAll;
  vd_GetByID := WalletDao.GetByID;
  vd_GetByAddress := WalletDao.GetByAddress;
  vd_GetDefaultAdminWallet := WalletDao.GetDefaultAdminWallet;
  vd_GetOperatorWallets := WalletDao.GetOperatorWallets
|}.

(** [CreateAdminWallet] makes a wallet without a key, the key of which is then
    encoded. *)
Theorem CreateAdminWallet_panics a s :
  wp (WalletService.CreateAdminWallet a) (λ r s', r = Panic ∧ docs s' = docs s) s.
Proof.
  unfold WalletService.CreateAdminWallet. cbn. unfold WalletDao.Create. cbn.
  apply wp_bind. wp_step NewObjectId_ok. intros r s' (Hd & id & -> & _). by apply wp_returning.
Qed.

(** The wallets that were stored by the program. *)
Definition wallet_stored (s s' : W) : Prop := ∃ w, s' = (WalletDao.Create w s).2.
Definition no_operator (s : W) : Prop :=
  Forall (λ d, field "operator" d = Some (BBool false)) (docs s).

Lemma inserted_no_operator w x s : Wallet_GetBSON w = Ok x → no_operator s →
  wp (Insert [Some x]) (λ _, no_operator) s.
Proof.
  intros Hx Hs. eapply wp_mono; [|apply Insert_ok]. cbn beta. unfold no_operator.
  assert (∀ ds', insert_docs [Some x] (docs s) ds' →
    Forall (λ d, field "operator" d = Some (BBool false)) ds') as Hins.
  { intros ds' (new & Hnew & Hp). apply list.Forall2_cons_inv_l in Hnew as (d & k & Hd & Hk & ->).
    apply Forall2_nil_inv_l in Hk as ->. rewrite Hp. constructor; [|done].
    rewrite Hd by (by left). revert Hx. unfold Wallet_GetBSON.
    destruct (wl_PrivateKey w); [|done]. by intros [= <-]. }
  intros [[]|e|] s' Hr; [apply Hins, Hr| |done]. destruct Hr as [->|(_ & Hr & _)]; [done|by apply Hins].
Qed.
Lemma stored_no_operator s s' : rtc wallet_stored s s' → no_operator s → no_operator s'.
Proof.
  induction 1 as [|s s1 s2 [w ->] _ IH]; [done|]. intros Hs. apply IH.
  change (wp (WalletDao.Create w) (λ _, no_operator) s).
  unfold WalletDao.Create. cbn. wp_step NewObjectId_ok. intros r s' (Hd & id & -> & _).
  apply wp_returning. assert (no_operator s') as Hs' by (unfold no_operator; by rewrite Hd).
  apply wp_bind, wp_lift. destruct (Wallet_GetBSON _) as [x|e|] eqn:Hx; [|done..].
  eapply wp_mono; [|by apply (inserted_no_operator _ x s' Hx)]. by intros [].
Qed.
Lemma GetOperatorWallets_none s : no_operator s →
  wp WalletDao.GetOperatorWallets (λ r s', docs s' = docs s ∧
    match r with Ok l => l = None | Err _ => True | Panic => False end) s.
Proof.
  intros Hs. unfold WalletDao.GetOperatorWallets, WalletDao.wallets. apply wp_bind.
  wp_step Find_ok. intros [ds|e|] s' [Hd Hr]; [|done..]. destruct Hr as (l & Hl & _ & ->).
  rewrite filter_none in Hl by (eapply Forall_impl; [exact Hs|]; intros d Hf; simpl; by rewrite Hf).
  apply Permutation_nil_r in Hl as ->. by destruct (slice 0 0 []) eqn:E.
Qed.

(** However many wallets the program has stored, the exchange has no operator: the
    lists of operators and of their addresses are empty or fail. *)
Theorem no_operator_wallet s0 s : docs s0 = [] → rtc wallet_stored s0 s →
  wp WalletService.GetOperatorAddresses (λ r s', docs s' = docs s ∧
    match r with Ok l => l = [] | Err _ => True | Panic => False end) s.
Proof.
  intros Hnil Hs. assert (no_operator s) as Hn.
  { apply (stored_no_operator s0); [done|]. unfold no_operator. by rewrite Hnil. }
  unfold WalletService.GetOperatorAddresses. apply wp_bind. cbn.
  eapply wp_mono; [|by apply GetOperatorWallets_none].
  intros [l|e|] s' [Hd Hr]; [|done..]. apply wp_ret. by subst l.
Qed.
End collection.
