(* ===== verification/WalletWitness.v ===== *)
(** Wallets at work: an instance of the library in which the key that signed is read
    from the signature, and a collection of wallets. *)
From Stdlib Require Import Ascii.
From S2P Require Import Prelude BigMath Bytes Types Mongo ListMongo Json Fixtures Orders MatchTypes OrderDao Collection Wallets WalletProps.

(** ** Bytes and their texts, read back *)
Fixpoint be_bytes (n : nat) (x : Z) : list Z :=
  match n with O => [] | S n => be_bytes n (x / 256) ++ [x `mod` 256] end.
Lemma be_bytes_number b : Forall is_byte b → be_bytes (length b) (number b) = b.
Proof.
  induction b as [|x b IH] using rev_ind; [done|]. intros [Hb Hx]%Forall_app.
  apply Forall_inv in Hx. red in Hx. rewrite length_app, Nat.add_comm, number_snoc. simpl.
  rewrite Z.div_add_l, Z.div_small, Z.add_0_r, IH by (done || lia).
  by rewrite Z.add_comm, Z_mod_plus_full, Z.mod_small.
Qed.
Lemma number_be_bytes n x : 0 <= x < 256 ^ Z.of_nat n → number (be_bytes n x) = x.
Proof.
  revert x. induction n as [|n IH]; intros x Hx; [simpl in *; change (number []) with 0; lia|].
  rewrite Nat2Z.inj_succ, Z.pow_succ_r in Hx by lia. simpl. rewrite number_snoc, IH.
  - pose proof (Z.div_mod x 256 ltac:(lia)). lia.
  - split; [apply Z.div_pos; lia|apply Z.div_lt_upper_bound; lia].
Qed.
Lemma be_bytes_bytes n x : Forall is_byte (be_bytes n x).
Proof.
  revert x. induction n as [|n IH]; intros x; [constructor|]. simpl. apply Forall_app. split; [apply IH|].
  constructor; [apply Z.mod_pos_bound; lia|constructor].
Qed.
Lemma be_bytes_length n x : length (be_bytes n x) = n.
Proof. revert x. induction n as [|n IH]; intros x; [done|]. simpl. rewrite length_app, IH. simpl. lia. Qed.

Definition digit_value (c : ascii) : Z :=
  let n := Z.of_nat (nat_of_ascii c) in if n <? 58 then n - 48 else n - 87.
Lemma digit_value_nibble n : 0 <= n < 16 → digit_value (nibble n) = n.
Proof.
  intros Hn. assert (n ∈ seqZ 0 16) as Hin by (by apply elem_of_seqZ). clear Hn. revert n Hin.
  apply (list.Forall_forall (λ n, digit_value (nibble n) = n)). apply (bool_decide_unpack _). by vm_compute.
Qed.
Fixpoint hex_decode (s : string) : list Z :=
  match s with
  | String a (String b s) => (digit_value a * 16 + digit_value b) :: hex_decode s
  | _ => []
  end.
Lemma hex_decode_encode b : Forall is_byte b → hex_decode (hex_encode b) = b.
Proof.
  induction 1 as [|x b Hx _ IH]; [done|]. red in Hx. simpl. rewrite IH, !digit_value_nibble.
  - f_equal. pose proof (Z.div_mod x 16 ltac:(lia)). lia.
  - apply Z.mod_pos_bound. lia.
  - split; [apply Z.div_pos; lia|apply Z.div_lt_upper_bound; lia].
Qed.

(** ** The library *)
Definition wallet_eth : EthCommon := {|
  Address_Hex := @Address_Hex toy_eth;
  HexToAddress := @HexToAddress toy_eth;
  Hash_Hex := @Hash_Hex toy_eth;
  HexToHash := @HexToHash toy_eth;
  IsHexAddress := @IsHexAddress toy_eth;
  Address_Bytes := be_bytes 20;
  Hash_Bytes := be_bytes 32;
  BigToHash := @BigToHash toy_eth;
  Keccak256 := @Keccak256 toy_eth;
  Ecrecover _ l := Ok (number (take 32 l))
|}.
#[local] Existing Instance wallet_eth.
#[local] Instance wallet_eth_laws : EthCommonLaws wallet_eth.
Proof. destruct toy_eth_laws. by split. Defined.
#[local] Instance wallet_crypto : Crypto := {|
  HexToECDSA s :=
    let b := hex_decode s in
    if decide (length b = 32%nat ∧ 0 < number b < secp256k1_N) then Ok (number b)
    else Err "invalid length, need 256 bits";
  PubkeyToAddress d := d;
  Sign h d := Ok ((be_bytes 32 d ++ replicate 32 0) ++ [1]);
  BytesToHash := number;
  TransactOpts := Z;
  NewKeyedTransactor d := d
|}.
#[local] Instance wallet_crypto_laws : CryptoLaws.
Proof.
  split; cbn -[secp256k1_N hex_encode take].
  - intros b Hl Hb Hn. rewrite hex_decode_encode by done. by rewrite decide_True.
  - intros b Hl Hb. rewrite hex_decode_encode by done. rewrite decide_False by (by intros []). by eexists.
  - intros h d Hd. pose proof secp256k1_N_below. exists (be_bytes 32 d ++ replicate 32 0), 1.
    split_and!; [done|by rewrite length_app, be_bytes_length| |by split|].
    + apply Forall_app. split; [apply be_bytes_bytes|]. apply Forall_replicate. by split.
    + rewrite <-app_assoc, take_app_length' by (symmetry; apply be_bytes_length). f_equal. apply number_be_bytes.
      change (256 ^ Z.of_nat 32) with (2 ^ 256). lia.
  - intros b Hl Hb. change (be_bytes 32 (number b) = b). rewrite <-Hl. by apply be_bytes_number.
Defined.
#[local] Existing Instance toy_codecs.
#[local] Instance wallet_codec_laws : CodecLaws wallet_eth toy_codecs.
Proof. destruct toy_codec_laws. by split. Defined.
#[local] Existing Instance toy_config.

(** ** Concrete wallets *)
Definition admin : Wallet := mkWallet "id0" 7 (Some (2 ^ 250)) true true.
Definition short_key : Wallet := mkWallet "id1" 8 (Some (2 ^ 247)) false false.
Lemma Wallet_bson_witness :
  (x ← Wallet_GetBSON admin; Wallet_SetBSON x) = Ok (without_operator admin) ∧
  ∃ e, (x ← Wallet_GetBSON short_key; Wallet_SetBSON x) = Err e.
Proof.
  split.
  - destruct (Wallet_bson admin (2 ^ 250) eq_refl) as (r & [[-> _]|[_ Hd]] & Hr); [done|exact Hr|].
    by apply Z.nle_gt in Hd.
  - destruct (Wallet_bson short_key (2 ^ 247) eq_refl) as (r & [[_ Hd]|[[e ->] _]] & Hr); [done| |by exists e].
    by apply Z.nlt_ge in Hd.
Defined.

(** The order of the user whose key is 9. *)
Definition unsigned : Order := set_o_Signature None (toy_order 9 1 0 (10 ^ 20) (10 ^ 25)).
Definition signer : Wallet := mkWallet "" 9 (Some 9) false false.
Lemma signed_order_accepted_witness : ∃ o', SignOrder signer unsigned = (Ok tt, o') ∧
  Validate o' = (Ok tt, o') ∧ is_Some (o_Signature o').
Proof.
  destruct (signed_order_accepted signer 9 unsigned eq_refl) as (o' & Hs & Hv & h & sig & _ & ->).
  - done.
  - reflexivity.
  - constructor; cbn; try (by eexists); try (by left); try (by right); try done; by eexists; split.
  - eexists. split_and!; [exact Hs|exact Hv|by eexists].
Defined.

(** ** A collection to which an operator's wallet was added *)
#[local] Existing Instance toy_decimals.
#[local] Instance wallet_mongo : Mongo coll := ListMongo [].
#[local] Instance wallet_mongo_laws : MongoLaws coll := ListMongo_laws [].
Definition one_wallet : coll := (WalletDao.Create admin (Coll [] 0 0)).2.
Lemma no_operator_wallet_witness :
  length (docs one_wallet) = 1%nat ∧ (WalletService.GetOperatorAddresses one_wallet).1 = Ok [].
Proof.
  split; [vm_compute; reflexivity|].
  assert (docs (Coll [] 0 0) = []) as Hnil by reflexivity.
  assert (rtc wallet_stored (Coll [] 0 0) one_wallet) as Hs by (apply rtc_once; by exists admin).
  pose proof (no_operator_wallet _ _ Hnil Hs) as Hr. unfold wp in Hr. revert Hr. by vm_compute.
Defined.
