(* ===== verification/OperatorStart.v ===== *)
(** The start of the operator, a queue of transactions for each operator's wallet
    ([operator/operator.go], [operator/txqueue.go]), and the calls that only pass on
    the administrator's key. *)
From S2P Require Import Prelude BigMath Bytes Types Mongo Json Orders MatchTypes OrderCodec TradeCodec OrderDao OrderStore Pairs TradeDao Rabbit Engine Ws Services MarketService Operator OperatorProps Wallets WalletProps.

(** The prefetch count of a channel. *)
Class AmqpQos (B : Type) := Qos : M B unit.

(** The exchange's contract beyond the batches of trades. *)
Class IExchange (ES : Type) `{Crypto} := {
  RewardAccount : M ES Address;
  Operators : Address → M ES bool;
  SendSetFeeAccount : TransactOpts → Address → M ES Hash;
  SendSetOperator : TransactOpts → Address → bool → M ES Hash;
  SendSingleTrade : TransactOpts → Batch → M ES Hash;
  PackSingle : Batch → outcome (list Z)
}.

(** ** contracts/exchange.go: a trade on its own, the fee account and the operators

    A match's values, as a batch of one. *)
Definition single_trade (m : Matches) : outcome Batch :=
  mo ← index (MakerOrders m) 0;
  t ← index (Trades m) 0;
  mo ← deref mo; to ← deref (TakerOrder m);
  sm ← deref (o_Signature mo); st ← deref (o_Signature to);
  t ← deref t;
  Ok (append_match mo to t (o_QuoteToken to) sm st no_batch).
(** The single trade of a match with one maker is what its batch holds. *)
Lemma single_trade_batch mo to t :
  let m := mkMatches [mo] to [t] in single_trade m = execute_batch m.
Proof.
  destruct mo as [mo|], to as [to|], t as [t|]; try done; unfold single_trade, execute_batch; cbn;
    destruct (o_Signature mo), (o_Signature to); done.
Qed.
Section exchange.
Context {ES : Type} `{IContract ES, Crypto, !IExchange ES}.
Definition Trade (m : Matches) (txOpts : TransactOpts) : M ES Hash :=
  b ← lift (single_trade m); SendSingleTrade txOpts b.
(** An estimate that fails is an error, other than for a batch. *)
Definition CallTrade (from to : Address) (m : Matches) : M ES Z :=
  b ← lift (single_trade m); data ← lift (PackSingle b); EstimateGas from to data.
Definition Exchange_SetFeeAccount (a : Address) (txOpts : TransactOpts) : M ES Hash := SendSetFeeAccount txOpts a.
Definition Exchange_SetOperator (a : Address) (isOperator : bool) (txOpts : TransactOpts) : M ES Hash :=
  SendSetOperator txOpts a isOperator.
Definition Exchange_FeeAccount : M ES Address := RewardAccount.
Definition Exchange_Operator (a : Address) : M ES bool := Operators a.
End exchange.

Section start.
Context {VS OS TS PS ES B : Type}.
Context `{IWalletDao VS, IOrderDao OS, ITradeDao TS, IPairDao PS, IContract ES, Amqp B, !AmqpInspect B, !AmqpQos B}.
Context `{EthCommon, Crypto, !IExchange ES}.
#[local] Abbreviation Services := (Services OS TS PS ES B).
#[local] Abbreviation Desk := (VS * Services)%type.
Definition start_wallets : lens Desk VS := Lens fst (λ v s, (v, s.2)).
Definition start_services : lens Desk Services := Lens snd (λ x s, (s.1, x)).

(** ** rabbitmq/rabbitmq.go *)
Definition DeclareThrottledQueue (name : string) : M (Connection B) unit :=
  log_error (zoom conn_lens Qos) ;; DeclareQueue name.

(** ** operator/txqueue.go *)

(** The queue, and the name of the one that is consumed from, which is empty when the
    queue cannot be inspected. *)
Definition NewTxQueue (n : string) (w : Wallet) : M Services (TxQueue * string) :=
  let txq := mkTxQueue n (wl_Address w) in
  PurgePendingTrades txq ;;
  zoom on_broker (GetChannel (queue_name txq)) ;;
  q ← attempt (zoom on_broker (zoom conn_lens (QueueInspect (queue_name txq))));
  mret (txq, match q with inl _ => "" | inr _ => queue_name txq end).
Definition GetTxSendOptions (w : Wallet) : outcome TransactOpts := TxService.transactor w.
(** The sender and the receiver of a call. *)
Definition GetTxCallOptions (txq : TxQueue) : Address * Address := (txq_Wallet txq, ExchangeAddress).

(** ** operator/operator.go *)
Definition txqueue_name (i : nat) (w : Wallet) : string :=
  Big.String_Z (Z.of_nat i) +:+ Address_Hex (wl_Address w).
Definition or_panic {S A} (m : M S A) : M S A := or_fatal m.
Fixpoint start_queues (i : nat) (wallets : list Wallet) : M Services (list (TxQueue * string)) :=
  match wallets with
  | [] => mret []
  | w :: wallets =>
    let name := txqueue_name i w in
    zoom on_broker (GetChannel ("TX_QUEUES:" +:+ name)) ;;
    or_panic (zoom on_broker (DeclareThrottledQueue ("TX_QUEUES:" +:+ name))) ;;
    txq ← or_panic (NewTxQueue name w);
    txqs ← start_queues (S i) wallets;
    mret (txq :: txqs)
  end.
Definition NewOperator : M Desk (list (TxQueue * string)) :=
  wallets ← or_panic (zoom start_wallets WalletService.GetOperatorWallets);
  zoom start_services (start_queues 0 (default [] wallets)).

Definition Operator_GetTxSendOptions : M Desk TransactOpts :=
  wallet ← zoom start_wallets WalletService.GetDefaultAdminWallet;
  lift (TxService.transactor wallet).
Definition SetFeeAccount (account : Address) : M Desk Hash :=
  txOpts ← Operator_GetTxSendOptions;
  zoom start_services (zoom on_eth (Exchange_SetFeeAccount account txOpts)).
Definition SetOperator (account : Address) (isOperator : bool) : M Desk Hash :=
  txOpts ← Operator_GetTxSendOptions;
  zoom start_services (zoom on_eth (Exchange_SetOperator account isOperator txOpts)).
Definition FeeAccount : M Services Address := zoom on_eth Exchange_FeeAccount.
Definition Operator_Operator (addr : Address) : M Services bool := zoom on_eth (Exchange_Operator addr).
End start.

(** ** What a start gives *)
Section props.
Context {OS TS PS ES B : Type}.
Context `{IOrderDao OS, ITradeDao TS, IPairDao PS, IContract ES, AmqpLaws B, !AmqpInspect B, !AmqpQos B}.
Context `{EthCommon, Crypto, Codecs}.
Context {W : Type} `{Runtime W, !Mongo W, !MongoLaws W}.
#[local] Abbreviation Services := (Services OS TS PS ES B).

(** After any step. *)
Lemma wp_then {S A C} (m : M S A) (f : A → M S C) Q s :
  (∀ a s', wp (f a) Q s') → (∀ e s', Q (Err e) s') → (∀ s', Q Panic s') → wp (m ≫= f) Q s.
Proof.
  intros Hf He Hp. apply wp_bind. unfold wp at 1. destruct (m s) as [[a|e|] s']; [apply Hf|apply He|apply Hp].
Qed.

(** The queues are those of the wallets, in their order. *)
Lemma start_queues_ok i wallets (x : Services) :
  wp (start_queues i wallets) (λ r _, match r with
    | Ok txqs => txqs.*1 = imap (λ k w, mkTxQueue (txqueue_name (i + k) w) (wl_Address w)) wallets
    | _ => True
    end) x.
Proof.
  revert i x. induction wallets as [|w wallets IH]; intros i x; [by apply wp_ret|].
  cbn [start_queues]. do 2 (apply wp_then; [|done..]; intros _ ?). apply wp_bind, wp_or_fatal.
  do 2 (apply wp_then; [|done..]; intros _ ?). apply wp_then; [|done..]. intros q x1. apply wp_ret.
  apply wp_bind. eapply wp_mono; [|apply (IH (Datatypes.S i))].
  intros [txqs|e|] x2 Hr; [|done..]. apply wp_ret. cbn. rewrite Hr, Nat.add_0_r. f_equal.
  apply imap_ext. intros k w' _. cbn. by rewrite Nat.add_succ_r.
Qed.

(** An operator that starts on the wallets that the program has stored has no
    queue, and refuses every batch of trades as one for which the queue is full. *)
Theorem no_queue_without_operators v0 v (x : Services) r v' x' m :
  docs v0 = [] → rtc wallet_stored v0 v → NewOperator (v, x) = (r, (v', x')) →
  match r with
  | Ok txqs => txqs = [] ∧ x' = x ∧ QueueTrade (txqs.*1) m x' = (Err "Transaction queue is full", x')
  | Err _ => False
  | Panic => True
  end.
Proof.
  intros Hnil Hv Hrun.
  assert (wp NewOperator (λ r vx, match r with Ok txqs => txqs = [] ∧ vx.2 = x | Err _ => False | Panic => True end)
    (v, x)) as Hwp.
  { unfold NewOperator. apply wp_bind, wp_or_fatal, wp_zoom. eapply wp_mono; [|apply GetOperatorWallets_none].
    - intros [l|e|] v1 [_ Hl]; [|done..]. subst l. by cbn.
    - apply (stored_no_operator v0); [done|]. unfold no_operator. by rewrite Hnil. }
  pose proof (wp_run _ _ _ _ _ Hrun Hwp) as Hr. destruct r as [txqs|e|]; [|done..].
  destruct Hr as [-> Hx]. cbn in Hx. subst x'. by split_and!.
Qed.

(** The operator has a queue for each wallet it finds, in their order, that sends
    from the wallet's address. *)
Theorem NewOperator_queues `{IWalletDao VS} (v : VS) (x : Services) txqs v' x' :
  NewOperator (v, x) = (Ok txqs, (v', x')) →
  ∃ wallets, WalletService.GetOperatorWallets v = (Ok wallets, v') ∧
    txqs.*1 = imap (λ k w, mkTxQueue (txqueue_name k w) (wl_Address w)) (default [] wallets).
Proof.
  intros Hrun. unfold NewOperator, or_panic, or_fatal, attempt, zoom, mbind, M_bind in Hrun. cbn in Hrun.
  destruct (WalletService.GetOperatorWallets v) as [[ws|e|] v1]; cbn in Hrun; try done.
  destruct (start_queues 0 (default [] ws) x) as [r x1] eqn:Hs. injection Hrun as -> -> ->.
  exists ws. split; [done|]. exact (wp_run _ _ _ _ _ Hs (start_queues_ok 0 (default [] ws) x)).
Qed.
End props.
