(* ===== verification/Provider.v ===== *)
(** [ethereum/provider.go]: the calls of an Ethereum node that the services make, and
    [contracts/token.go], the wrapper of a token's contract.

    The node's client and the generated bindings are a class: binding a contract to an
    address, the calls of the bound contract, transactions of a sender.  [WaitMined]
    waits for ever; it runs on fuel, one unit a second. *)
From S2P Require Import Prelude BigMath Bytes Types Mongo Json Orders MatchTypes OrderDao OrderStore Pairs TradeDao Rabbit Engine Ws Services MarketService Operator Tokens Accounts AccountService PairService Wallets.

Class IEthClient (ES : Type) := {
  TransactionReceipt : Hash → M ES (option Receipt);
  BalanceAt : Address → M ES Z;
  PendingNonceAt : Address → M ES Z;
  BindERC20 : Address → M ES unit;
  BindToken : Address → M ES unit;
  CallSymbol : Address → M ES string;
  CallDecimals : Address → M ES Z;
  CallBalanceOf : Address → Address → M ES Z;
  CallAllowance : Address → Address → Address → M ES Z;
  CallTotalSupply : Address → M ES Z
}.
(** Transactions to a token's contract; a failed one sends nothing. *)
Class ITokenTransactions (ES : Type) `{Crypto} := {
  SendTransfer : Address → TransactOpts → Address → Z → M ES Hash;
  SendTransferFrom : Address → TransactOpts → Address → Address → Z → M ES Hash;
  SendApprove : Address → TransactOpts → Address → Z → M ES Hash
}.

Module EthereumProvider.
Section provider.
Context {ES : Type} `{IEthClient ES, EthCommon, AppConfig}.

(** The error of the receipt is dropped; [None] says that the code is still waiting. *)
Fixpoint WaitMined (fuel : nat) (hash : Hash) : M ES (option Receipt) :=
  match fuel with
  | O => mret None
  | S fuel =>
    receipt ← attempt (TransactionReceipt hash);
    match receipt with
    | inr (Some receipt) => mret (Some receipt)
    | _ => WaitMined fuel hash
    end
  end.
Definition GetBalanceAt (a : Address) : M ES Z := BalanceAt a.
Definition GetPendingNonceAt (a : Address) : M ES Z := PendingNonceAt a.

(** Binding is tried again in case the connection is asleep, the call is not. *)
Definition bound {A} (token : Address) (call : M ES A) : M ES A :=
  Retry 3 (BindERC20 token) ;; call.
Definition Decimals (token : Address) : M ES Z := bound token (CallDecimals token).
Definition Symbol (token : Address) : M ES string := bound token (CallSymbol token).

Definition BalanceOf (owner token : Address) : M ES Z := BindToken token ;; CallBalanceOf token owner.
Definition Allowance (owner spender token : Address) : M ES Z :=
  BindToken token ;; CallAllowance token owner spender.
Definition ExchangeAllowance (owner token : Address) : M ES Z :=
  BindToken token ;; CallAllowance token owner (HexToAddress exchange_address).
End provider.
End EthereumProvider.

#[export] Instance ethereum_provider {ES} `{IEthClient ES} : IEthereumProvider ES := {|
  BalanceOf := EthereumProvider.BalanceOf; Allowance := EthereumProvider.Allowance
|}.
#[export] Instance contract_info {ES} `{IEthClient ES} : IContractInfo ES := {|
  Symbol := EthereumProvider.Symbol; TokenDecimals := EthereumProvider.Decimals
|}.

(** ** contracts/token.go *)
Module TokenContract.
Section token.
Context {ES : Type} `{IEthClient ES, Crypto, !ITokenTransactions ES}.
(** The transaction service is the wallet that sends, the state beside the chain. *)
#[local] Abbreviation Wallet_and := (option Wallet * ES)%type.
Definition sender : lens Wallet_and (option Wallet) := Lens fst (λ w s, (w, s.2)).
Definition chain : lens Wallet_and ES := Lens snd (λ x s, (s.1, x)).
Variable Interface : Address.

(** An error of the options is dropped, and nil options are used; they fail only when
    there is no wallet or no key, which panics. *)
Definition GetTxSendOptions : M Wallet_and TransactOpts := zoom sender TxService.GetTxSendOptions.
Definition SetTxSender (w : option Wallet) : M Wallet_and unit := zoom sender (TxService.SetTxSender w).
Definition failing {A} (message : error → error) (m : M Wallet_and A) : M Wallet_and A :=
  r ← attempt m; match r with inl e => fail (message e) | inr a => mret a end.

Definition BalanceOf (owner : Address) : M Wallet_and Z := zoom chain (CallBalanceOf Interface owner).
Definition TotalSupply : M Wallet_and Z :=
  failing (λ _, "Could not retrieve total supply of user") (zoom chain (CallTotalSupply Interface)).
Definition transfer_failed (e : error) : error := "Error making Transfer() transaction: " +:+ e.
Definition Transfer (receiver : Address) (amount : Z) : M Wallet_and Hash :=
  opts ← GetTxSendOptions;
  failing transfer_failed (zoom chain (SendTransfer Interface opts receiver amount)).
Definition TransferFromCustomWallet (w : option Wallet) (receiver : Address) (amount : Z) : M Wallet_and Hash :=
  opts ← lift (TxService.GetCustomTxSendOptions w);
  failing transfer_failed (zoom chain (SendTransfer Interface opts receiver amount)).
Definition TransferFrom (from receiver : Address) (amount : Z) : M Wallet_and Hash :=
  opts ← GetTxSendOptions;
  failing (λ e, "Error making TransferFrom() transaction: " +:+ e)
    (zoom chain (SendTransferFrom Interface opts from receiver amount)).
Definition Allowance (owner spender : Address) : M Wallet_and Z :=
  failing (λ _, "Error retrieving allowance") (zoom chain (CallAllowance Interface owner spender)).
Definition Approve (spender : Address) (amount : Z) : M Wallet_and Hash :=
  opts ← GetTxSendOptions;
  failing (λ _, "Error making Approve() transaction") (zoom chain (SendApprove Interface opts spender amount)).
Definition ApproveFrom (w : option Wallet) (spender : Address) (amount : Z) : M Wallet_and Hash :=
  opts ← lift (TxService.GetCustomTxSendOptions w);
  failing (λ _, "Error making ApproveFrom() transaction") (zoom chain (SendApprove Interface opts spender amount)).
End token.
End TokenContract.

(** ** What the services rely on *)

(** A call reads the chain, may fail, and answers what the contract holds. *)
Class EthClientLaws (ES : Type) `{IEthClient ES} := {
  chain_balance : ES → Address → Address → Z;
  chain_allowance : ES → Address → Address → Address → Z;
  BindToken_ok t s : wp (BindToken t) (λ r s',
    chain_balance s' = chain_balance s ∧ chain_allowance s' = chain_allowance s ∧ r ≠ Panic) s;
  CallBalanceOf_ok t a s : wp (CallBalanceOf t a) (λ r s',
    chain_balance s' = chain_balance s ∧ chain_allowance s' = chain_allowance s ∧
    match r with Ok v => v = chain_balance s a t | Err _ => True | Panic => False end) s;
  CallAllowance_ok t a o s : wp (CallAllowance t a o) (λ r s',
    chain_balance s' = chain_balance s ∧ chain_allowance s' = chain_allowance s ∧
    match r with Ok v => v = chain_allowance s a o t | Err _ => True | Panic => False end) s
}.

(** The provider keeps the contract that the validator's theorems assume. *)
#[export] Instance ethereum_provider_spec {ES} `{EthClientLaws ES} : EthereumProviderSpec ES.
Proof.
  refine {| balance := chain_balance; allowance := chain_allowance |}.
  - intros a t s. cbn. unfold EthereumProvider.BalanceOf. wp_step BindToken_ok.
    intros [[]|e|] s1 (Hb & Ha & Hp); [|done..]. eapply wp_mono; [|apply CallBalanceOf_ok].
    cbn beta. rewrite Hb, Ha. done.
  - intros a o t s. cbn. unfold EthereumProvider.Allowance. wp_step BindToken_ok.
    intros [[]|e|] s1 (Hb & Ha & Hp); [|done..]. eapply wp_mono; [|apply CallAllowance_ok].
    cbn beta. rewrite Hb, Ha. done.
Defined.

(** [WaitMined] answers a receipt as soon as the node has one, and never an error. *)
Inductive mined {ES} `{IEthClient ES} (hash : Hash) : nat → ES → Receipt → ES → Prop :=
  | mined_now s r s' : TransactionReceipt hash s = (Ok (Some r), s') → mined hash 0 s r s'
  | mined_later k s x s' r s'' : TransactionReceipt hash s = (x, s') →
      x = Ok None ∨ (∃ e, x = Err e) → mined hash k s' r s'' → mined hash (S k) s r s''.
Theorem WaitMined_answers {ES} `{IEthClient ES} hash k s r s' fuel :
  mined hash k s r s' → (k < fuel)%nat → EthereumProvider.WaitMined fuel hash s = (Ok (Some r), s').
Proof.
  intros Hm. revert fuel. induction Hm as [s r s' Hr|k s x s' r s'' Hx Hn Hm IH]; intros [|fuel] Hf; try lia.
  - cbn. unfold attempt, mbind, M_bind. by rewrite Hr.
  - cbn. unfold attempt, mbind, M_bind. rewrite Hx.
    destruct Hn as [->|[e ->]]; apply IH; lia.
Qed.
