(* ===== verification/Feeds.v ===== *)
(** The feeds of Swarm that the engine looks up ([Engine.GetFeed] of [engine/engine.go]):
    the orders a user has published under a token ([OrderFeed] of [types/order.go],
    [OrderService.GetByTopic], [GET /orders/feeds/{address}]) and an association published
    under a chain ([services/deposit.go]).

    The client of Swarm and RLP are classes.  A feed is what anybody has published, so
    that nothing is assumed of it. *)
From S2P Require Import Prelude BigMath Bytes Types DepositTypes Mongo Json MatchTypes Wallets OrderEndpoint.

(** [BzzClient.QueryFeed] and reading what it answers, which may be no bytes at all. *)
Class ISwarm (FS : Type) := {
  QueryFeed : list Z → Address → M FS unit;
  ReadAll : M FS (option (list Z))
}.
Class RlpDecode (A : Type) := rlp_DecodeBytes : list Z → outcome A.

(** ** types/order.go *)
Record OrderFeed := mkOrderFeed {
  of_Amount : option Z;
  of_BaseToken : list Z;
  of_ExchangeAddress : list Z;
  of_FilledAmount : option Z;
  of_Hash : list Z;
  of_ID : list Z;
  of_MakeFee : option Z;
  of_Nonce : option Z;
  of_PairName : string;
  of_PricePoint : option Z;
  of_QuoteToken : list Z;
  of_Side : string;
  of_Signature : option (list Z);
  of_Status : string;
  of_TakeFee : option Z;
  of_Timestamp : Z;
  of_UserAddress : list Z
}.
Record SignatureRecord := mkSignatureRecord { sr_V : Z; sr_R : string; sr_S : string }.
(** The identifier is the bytes themselves, whatever their number. *)
Record OrderRecord := mkOrderRecord {
  or_ID : list Z;
  or_UserAddress : string;
  or_ExchangeAddress : string;
  or_BaseToken : string;
  or_QuoteToken : string;
  or_Status : string;
  or_Side : string;
  or_Hash : string;
  or_PricePoint : string;
  or_Amount : string;
  or_FilledAmount : string;
  or_Nonce : string;
  or_MakeFee : string;
  or_TakeFee : string;
  or_Signature : option SignatureRecord;
  or_PairName : string;
  or_CreatedAt : Z;
  or_UpdatedAt : Z
}.
Definition set_or_Signature (s : SignatureRecord) (r : OrderRecord) : OrderRecord :=
  mkOrderRecord (or_ID r) (or_UserAddress r) (or_ExchangeAddress r) (or_BaseToken r) (or_QuoteToken r)
    (or_Status r) (or_Side r) (or_Hash r) (or_PricePoint r) (or_Amount r) (or_FilledAmount r) (or_Nonce r)
    (or_MakeFee r) (or_TakeFee r) (Some s) (or_PairName r) (or_CreatedAt r) (or_UpdatedAt r).

Section records.
Context `{EthCommon, HexCommon, Crypto}.

Definition GetRecord (s : Signature) : SignatureRecord :=
  mkSignatureRecord (sig_V s) (Hash_Hex (sig_R s)) (Hash_Hex (sig_S s)).

(** The amounts are printed before they are tested for nil, so that a nil one is left
    ["<nil>"]; only the price is left empty. *)
Definition feed_record (o : OrderFeed) : OrderRecord :=
  let timestamp := Unix (int64 (of_Timestamp o)) in
  mkOrderRecord (of_ID o) (Address_Hex (BytesToAddress (of_UserAddress o)))
    (Address_Hex (BytesToAddress (of_ExchangeAddress o))) (Address_Hex (BytesToAddress (of_BaseToken o)))
    (Address_Hex (BytesToAddress (of_QuoteToken o))) (of_Status o) (of_Side o)
    (Hash_Hex (BytesToHash (of_Hash o)))
    (match of_PricePoint o with Some p => Big.String_Z p | None => "" end)
    (Big.Stringp (of_Amount o)) (Big.Stringp (of_FilledAmount o)) (Big.Stringp (of_Nonce o))
    (Big.Stringp (of_MakeFee o)) (Big.Stringp (of_TakeFee o)) None (of_PairName o) timestamp timestamp.
(** The record is answered with the error. *)
Definition OrderFeed_GetBSON (o : OrderFeed) : outcome (OrderRecord * option error) :=
  let r := feed_record o in
  match of_Signature o with
  | None => Ok (r, None)
  | Some b =>
    match NewSignature b with
    | Ok s => Ok (set_or_Signature (GetRecord s) r, None)
    | Err e => Ok (r, Some e)
    | Panic => Panic
    end
  end.
End records.

(** ** engine/engine.go *)
Definition TopicLength : nat := 32.
(** The topic ends with the bytes, of which those beyond its length are dropped. *)
Definition feed_topic (bytesTopic : list Z) : list Z :=
  let bytes := take TopicLength bytesTopic in
  replicate (TopicLength - length bytes) 0 ++ bytes.

Section feeds.
Context {FS : Type} `{ISwarm FS, EthCommon, HexCommon, Crypto}.
Context `{!RlpDecode (list OrderFeed), !RlpDecode AddressAssociationFeed}.

Definition retrieving (err : string) : error := "Error retrieving feed updates: " +:+ err.
Definition decoding (err : string) : error := "Error decoding feed updates: " +:+ err.
Definition failing {A} (message : error → error) (m : M FS A) : M FS A :=
  r ← attempt m; match r with inl e => fail (message e) | inr a => mret a end.

Definition GetFeed {A} `{RlpDecode A} (userAddress : Address) (bytesTopic : list Z) : M FS A :=
  failing retrieving (QueryFeed (feed_topic bytesTopic) userAddress) ;;
  databytes ← failing retrieving ReadAll;
  match databytes with
  | None => fail (retrieving "%!s(<nil>)")
  | Some databytes => failing decoding (lift (rlp_DecodeBytes databytes))
  end.

(** ** services/order.go *)

(** The error of a record is dropped; without feeds the answer is nil. *)
Fixpoint feed_messages (feeds : list OrderFeed) : outcome (list OrderRecord) :=
  match feeds with
  | [] => Ok []
  | feed :: feeds =>
    message ← OrderFeed_GetBSON feed;
    messages ← feed_messages feeds;
    Ok (message.1 :: messages)
  end.
Definition GetByTopic (userAddress tokenAddress : Address) : M FS (list OrderRecord) :=
  feeds ← failing decoding (GetFeed userAddress (Address_Bytes tokenAddress));
  lift (feed_messages feeds).

(** ** services/deposit.go *)
Definition GetAssociationByUserAddress (chain : string) (userAddress : Address) : M FS AddressAssociation :=
  feed ← GetFeed userAddress (codes chain); mret (AddressAssociationFeed_GetJSON feed).

(** ** endpoints/order.go: the records are answered in the encoding of their tags *)
Definition handleGetOrderFeeds (addr address : string) : M FS (response + list OrderRecord) :=
  if decide (addr = "") then mret (inl (WriteError 400 "address Parameter missing"))
  else if negb (IsHexAddress addr) then mret (inl (WriteError 400 "Invalid User Address"))
  else if bool_decide (address = "") || negb (IsHexAddress address)
  then mret (inl (WriteError 400 "Invalid Token Address"))
  else
    messages ← attempt (GetByTopic (HexToAddress addr) (HexToAddress address));
    mret (match messages with inl err => inl (WriteError 400 err) | inr messages => inr messages end).
End feeds.

(** ** What comes of a feed *)

(** Topics are told apart by their bytes, when they fit and are as long as each other, as
    the addresses of tokens are. *)
Lemma feed_topic_length bytes : length (feed_topic bytes) = TopicLength.
Proof. unfold feed_topic. rewrite length_app, length_replicate, length_take. lia. Qed.
Lemma feed_topic_inj b1 b2 : length b1 = length b2 → (length b1 ≤ TopicLength)%nat →
  feed_topic b1 = feed_topic b2 → b1 = b2.
Proof.
  intros Hl Hn. unfold feed_topic. rewrite !take_ge by lia. rewrite Hl. apply app_inv_head.
Qed.

Section answers.
Context `{EthCommon, HexCommon, Crypto}.

(** The length is checked against 64 bytes, and the 65th is used. *)
Lemma NewSignature_never b s : NewSignature b ≠ Ok s.
Proof.
  unfold NewSignature. case_decide; [done|]. unfold index.
  rewrite lookup_ge_None_2 by lia. done.
Qed.
Lemma NewSignature_panics b : NewSignature b = Panic ↔ length b = 64%nat.
Proof.
  unfold NewSignature. case_decide as Hd; [done|]. unfold index.
  rewrite lookup_ge_None_2 by lia. split; [lia|done].
Qed.
Lemma OrderFeed_GetBSON_answers o :
  match OrderFeed_GetBSON o with
  | Ok (r, _) => r = feed_record o ∧ length <$> of_Signature o ≠ Some 64%nat
  | Err _ => False
  | Panic => length <$> of_Signature o = Some 64%nat
  end.
Proof.
  unfold OrderFeed_GetBSON. destruct (of_Signature o) as [b|]; [|done].
  destruct (NewSignature b) eqn:E; [by apply NewSignature_never in E| |apply NewSignature_panics in E; cbn; congruence].
  split; [done|]. intros [= Hb]. apply NewSignature_panics in Hb. congruence.
Qed.

(** The orders of a feed are answered without their signatures, and one signature of the
    right length is enough for a panic. *)
Theorem feed_messages_answers feeds :
  match feed_messages feeds with
  | Ok rs => rs = feed_record <$> feeds ∧ Forall (λ r, or_Signature r = None) rs ∧
      Forall (λ o, length <$> of_Signature o ≠ Some 64%nat) feeds
  | Err _ => False
  | Panic => Exists (λ o, length <$> of_Signature o = Some 64%nat) feeds
  end.
Proof.
  induction feeds as [|o feeds IH]; [by repeat constructor|]. cbn [feed_messages].
  pose proof (OrderFeed_GetBSON_answers o) as Ho. destruct (OrderFeed_GetBSON o) as [[r e]| |]; [|done|by left].
  destruct Ho as [-> Ho]. cbn. destruct (feed_messages feeds); [|done|by right].
  destruct IH as (-> & Hs & Hf). split_and!; [done|by constructor|by constructor].
Qed.
End answers.

(** What the endpoint answers, it answers for two addresses, and unsigned. *)
Theorem order_feeds_unsigned {FS} `{ISwarm FS, EthCommon, HexCommon, Crypto, !RlpDecode (list OrderFeed)} addr address s :
  wp (handleGetOrderFeeds addr address) (λ r _, match r with
    | Ok (inr rs) => IsHexAddress addr = true ∧ IsHexAddress address = true ∧ Forall (λ r, or_Signature r = None) rs
    | Ok (inl e) => ∃ message, e = WriteError 400 message
    | Err _ => False
    | Panic => True
    end) s.
Proof.
  unfold handleGetOrderFeeds. case_decide; [by eexists|].
  destruct (IsHexAddress addr) eqn:Ha; [|by eexists]. cbn [negb].
  case_bool_decide; [by eexists|]. destruct (IsHexAddress address) eqn:Hb; [|by eexists]. cbn [negb orb].
  apply wp_bind, wp_attempt, wp_bind. unfold wp, wp_next.
  destruct (failing _ _ s) as [[feeds|e|] s'] eqn:E; cbn; [|by eexists|done].
  pose proof (feed_messages_answers feeds) as Hf. destruct (feed_messages feeds); [|done|done]. cbn. naive_solver.
Qed.
