(* ===== verification/OhlcvProps.v ===== *)
(** The ticks of [services/ohlcv.go]: what a tick says of the trades of its
    interval. *)
From S2P Require Import Prelude BigMath Types DepositTypes Mongo Json Aggregation Ticks Orders MatchTypes OrderCodec TradeCodec OrderDao OrderStore Pairs TradeDao Rabbit Engine Ws Services MarketService Accounts Tokens AccountService OrderEndpoint PairService OhlcvService.

(** ** Accumulators *)
Section accumulators.
Context `{ServerDecimal}.

Lemma decimal_small x : Z.abs x < 10 ^ 34 → decimal x = x.
Proof. intros Hx. unfold decimal, decimal_exact. by rewrite (proj2 (Z.ltb_lt _ _)). Qed.
Lemma sum_decimals xs a : 0 <= a → Forall (λ x, 0 <= x) xs → a + sumZ xs < 10 ^ 34 →
  foldl add_number (BDec a) (BDec <$> xs) = BDec (a + sumZ xs).
Proof.
  revert a. induction xs as [|x xs IH]; intros a Ha Hxs Hs; simpl in *; [by rewrite Z.add_0_r|].
  apply Forall_cons in Hxs as [Hx Hxs]. pose proof (sumZ_nonneg xs Hxs).
  rewrite decimal_small by lia. rewrite IH; [f_equal; lia|lia|done|lia].
Qed.
Lemma accumulate_sum xs : xs ≠ [] → Forall (λ x, 0 <= x) xs → sumZ xs < 10 ^ 34 →
  accumulate ASum (BDec <$> xs) = BDec (sumZ xs).
Proof.
  destruct xs as [|x xs]; [done|]. intros _ Hxs Hs. simpl in *. apply Forall_cons in Hxs as [Hx Hxs].
  pose proof (sumZ_nonneg xs Hxs). rewrite decimal_small by lia. rewrite sum_decimals; [done|lia|done|lia].
Qed.

Lemma value_ltb_decimals a b : value_ltb (BDec a) (BDec b) = (a <? b).
Proof. unfold value_ltb. cbn. by rewrite andb_false_r, orb_false_r. Qed.
Lemma pick_max xs a :
  foldl (pick (λ v acc, value_ltb acc v)) (BDec a) (BDec <$> xs) = BDec (foldl Z.max a xs).
Proof.
  revert a. induction xs as [|x xs IH]; intros a; [done|]. simpl. unfold pick at 2.
  rewrite !decide_False by done. rewrite value_ltb_decimals.
  destruct (Z.ltb_spec a x); rewrite IH; do 2 f_equal; lia.
Qed.
Lemma pick_min xs a : foldl (pick value_ltb) (BDec a) (BDec <$> xs) = BDec (foldl Z.min a xs).
Proof.
  revert a. induction xs as [|x xs IH]; intros a; [done|]. simpl. unfold pick at 2.
  rewrite !decide_False by done. rewrite value_ltb_decimals.
  destruct (Z.ltb_spec x a); rewrite IH; do 2 f_equal; lia.
Qed.
Definition highest (xs : list Z) : Z := match xs with [] => 0 | x :: xs => foldl Z.max x xs end.
Definition lowest (xs : list Z) : Z := match xs with [] => 0 | x :: xs => foldl Z.min x xs end.
Lemma accumulate_max xs : xs ≠ [] → accumulate AMax (BDec <$> xs) = BDec (highest xs).
Proof. destruct xs as [|x xs]; [done|]. intros _. apply pick_max. Qed.
Lemma accumulate_min xs : xs ≠ [] → accumulate AMin (BDec <$> xs) = BDec (lowest xs).
Proof. destruct xs as [|x xs]; [done|]. intros _. apply pick_min. Qed.
Lemma accumulate_first xs : accumulate AFirst (BDec <$> xs) = default BNull (BDec <$> head xs).
Proof. by destruct xs. Qed.
Lemma accumulate_last xs : accumulate ALast (BDec <$> xs) = default BNull (BDec <$> last xs).
Proof. unfold accumulate. by rewrite fmap_last. Qed.

Lemma foldl_max_le xs a x : x ∈ a :: xs → x <= foldl Z.max a xs.
Proof.
  revert a x. induction xs as [|y xs IH]; intros a x Hx; simpl.
  - apply list_elem_of_singleton in Hx. lia.
  - assert (∀ b, b <= foldl Z.max b xs) as Hb by (intros b; apply IH; by left).
    apply elem_of_cons in Hx as [->|[->|Hx]%elem_of_cons].
    + etrans; [|apply Hb]. lia.
    + etrans; [|apply Hb]. lia.
    + apply IH. by right.
Qed.
Lemma highest_le xs x : x ∈ xs → x <= highest xs.
Proof. destruct xs; [by intros ?%elem_of_nil|apply foldl_max_le]. Qed.
Lemma foldl_min_ge xs a x : x ∈ a :: xs → foldl Z.min a xs <= x.
Proof.
  revert a x. induction xs as [|y xs IH]; intros a x Hx; simpl.
  - apply list_elem_of_singleton in Hx. lia.
  - assert (∀ b, foldl Z.min b xs <= b) as Hb by (intros b; apply IH; by left).
    apply elem_of_cons in Hx as [->|[->|Hx]%elem_of_cons].
    + etrans; [apply Hb|]. lia.
    + etrans; [apply Hb|]. lia.
    + apply IH. by right.
Qed.
Lemma lowest_ge xs x : x ∈ xs → lowest xs <= x.
Proof. destruct xs; [by intros ?%elem_of_nil|apply foldl_min_ge]. Qed.
End accumulators.
Lemma highest_elem xs : xs ≠ [] → highest xs ∈ xs.
Proof.
  destruct xs as [|x xs]; [done|]. intros _. simpl. revert x.
  induction xs as [|y xs IH]; intros x; simpl; [by left|].
  destruct (Z.max_spec x y) as [[_ ->]|[_ ->]]; [right; apply IH|].
  specialize (IH x). set_solver.
Qed.
Lemma lowest_elem xs : xs ≠ [] → lowest xs ∈ xs.
Proof.
  destruct xs as [|x xs]; [done|]. intros _. simpl. revert x.
  induction xs as [|y xs IH]; intros x; simpl; [by left|].
  destruct (Z.min_spec x y) as [[_ ->]|[_ ->]]; [|right; apply IH].
  specialize (IH x). set_solver.
Qed.

(** ** Lists split by a key *)
Lemma filter_complement {A} (P : A → Prop) `{∀ a, Decision (P a)} (l : list A) :
  l ≡ₚ base.filter P l ++ base.filter (λ a, ¬ P a) l.
Proof.
  induction l as [|a l IH]; [done|]. rewrite !filter_cons.
  destruct (decide (P a)), (decide (¬ P a)); try done; simpl.
  - by rewrite <-IH.
  - by rewrite <-Permutation_middle, <-IH.
Qed.
Lemma split_by_key {A K} `{EqDecision K} (key : A → K) (keys : list K) (l : list A) :
  NoDup keys → (∀ a, a ∈ l → key a ∈ keys) →
  mjoin ((λ k, base.filter (λ a, key a = k) l) <$> keys) ≡ₚ l.
Proof.
  revert l. induction keys as [|k keys IH]; intros l Hn Hk; simpl.
  - destruct l as [|a l]; [done|]. by specialize (Hk a ltac:(left)) as ?%elem_of_nil.
  - apply NoDup_cons in Hn as [Hkn Hn].
    rewrite (filter_complement (λ a, key a = k) l) at 2. f_equiv.
    rewrite <-(IH (base.filter (λ a, key a ≠ k) l)); [|done|].
    + match goal with |- ?a ≡ₚ ?b => assert (a = b) as ->; [|done] end.
      f_equal. apply list_fmap_ext. intros i k' Hk'.
      rewrite list_filter_filter. apply list_filter_iff. intros a. split; [|by intros []].
      intros Hak. assert (k' ≠ k) by (intros ->; apply Hkn; by eapply list_elem_of_lookup_2).
      split; congruence.
    + intros a [Hak Ha]%list_elem_of_filter. apply Hk, elem_of_cons in Ha as [?|?]; done.
Qed.

Lemma mapM_related {A B} (f : A → option B) (R : B → A → Prop) l k :
  mapM f l = Some k → (∀ x y, x ∈ l → f x = Some y → R y x) → Forall2 R k l.
Proof.
  intros Hf%mapM_Some_1 HR. apply Forall2_flip. induction Hf as [|x y l k Hxy _ IH]; constructor.
  - apply HR; [by left|done].
  - apply IH. intros x' y' Hx. apply HR. by right.
Qed.

(** ** Expressions of the creation date *)
Section dates.
Context `{Calendar, ServerDecimal}.

Fixpoint date_expr (e : expr) : bool :=
  match e with
  | EConst (BInt _) => true
  | EPart _ (EField path) => bool_decide (path = ["createdAt"])
  | ESubtract a b | EMultiply a b | EMod a b | ECeilDivide a b => date_expr a && date_expr b
  | _ => false
  end.
Fixpoint date_value (e : expr) (c : Z) : option Z :=
  match e with
  | EConst (BInt n) => Some n
  | EPart p _ => Some (part_of p c)
  | ESubtract a b => x ← date_value a c; y ← date_value b c; Some (x - y)
  | EMultiply a b => x ← date_value a c; y ← date_value b c; Some (x * y)
  | EMod a b => x ← date_value a c; y ← date_value b c; if y =? 0 then None else Some (Z.rem x y)
  | ECeilDivide a b =>
    x ← date_value a c; y ← date_value b c; if y =? 0 then None else Some (- ((- x) / y))
  | _ => None
  end.
Lemma eval_date e c d : date_expr e = true → field "createdAt" d = Some (BDate c) →
  eval e d = BInt <$> date_value e c.
Proof.
  intros He Hc. induction e; simpl in *; try done.
  1: by destruct v.
  5: { destruct e; try done. apply bool_decide_eq_true in He as ->. simpl. by rewrite Hc. }
  all: apply andb_prop in He as [H1 H2]; rewrite IHe1, IHe2 by done;
    destruct (date_value e1 c) as [x|]; [|done]; destruct (date_value e2 c) as [y|]; [|done]; try done.
  all: simpl; unfold modulo, ceil_divide, arith; by destruct (y =? 0).
Qed.

(** The values of the parts of an interval for a date. *)
Abbreviation time_part := (string * (date_part * expr))%type.
Definition slot (ps : list time_part) (c : Z) : option (list Z) := mapM (λ kp, date_value kp.2.2 c) ps.
Definition parts_ok (ps : list time_part) : Prop :=
  Forall (λ kp, date_expr kp.2.2 = true) ps ∧ NoDup ps.*1 ∧
  Forall (λ k, k ∉ ["pairName"; "baseToken"; "quoteToken"]) ps.*1.
Lemma time_parts_ok units duration ps :
  OHLCVService.time_parts units "createdAt" duration = Some ps → parts_ok ps.
Proof.
  unfold OHLCVService.time_parts. intros Hps.
  repeat case_decide; try done; injection Hps as <-; (split; [by repeat constructor|]);
    (split; [apply (bool_decide_unpack _); vm_compute; exact I|]);
    repeat constructor; apply (bool_decide_unpack _); vm_compute; exact I.
Qed.

Lemma mapM_app {A B} (f : A → option B) l k :
  mapM f (l ++ k) = (x ← mapM f l; y ← mapM f k; Some (x ++ y)).
Proof.
  induction l as [|a l IH]; simpl; [by destruct (mapM f k)|].
  destruct (f a) as [b|]; simpl; [|done]. rewrite IH. destruct (mapM f l); simpl; [|done].
  by destruct (mapM f k).
Qed.

(** The fields of the interval in the identifier of a group. *)
Definition slot_doc (ps : list time_part) (vals : list Z) : doc := zip_with (λ kp v, (kp.1, BInt v)) ps vals.
Lemma eval_slot ps c d : Forall (λ kp, date_expr kp.2.2 = true) ps → field "createdAt" d = Some (BDate c) →
  eval_doc ((λ kp, (kp.1, kp.2.2)) <$> ps) d = slot_doc ps <$> slot ps c.
Proof.
  intros Hps Hc. unfold eval_doc, slot. induction Hps as [|kp ps Hk _ IH]; [done|]. rewrite fmap_cons. simpl.
  rewrite (eval_date _ c) by done. destruct (date_value kp.2.2 c) as [v|]; simpl; [|done].
  rewrite IH. by destruct (mapM _ ps).
Qed.
Lemma slot_doc_field ps vals rest : NoDup ps.*1 → length vals = length ps →
  Forall2 (λ kp v, field kp.1 (slot_doc ps vals ++ rest) = Some (BInt v)) ps vals.
Proof.
  intros Hn. revert vals. induction ps as [|kp ps IH]; intros [|v vals] Hl; try done.
  apply NoDup_cons in Hn as [Hk Hn]. injection Hl as Hl. specialize (IH Hn vals Hl).
  constructor; [simpl; by rewrite decide_True|].
  assert (Forall (λ kp', kp.1 ≠ kp'.1) ps) as Hne.
  { rewrite Forall_forall. intros kp' Hk' E. apply Hk. rewrite E. by apply list_elem_of_fmap_2. }
  change (slot_doc (kp :: ps) (v :: vals) ++ rest) with ((kp.1, BInt v) :: slot_doc ps vals ++ rest).
  revert Hne IH. generalize (slot_doc ps vals ++ rest) as d. intros d Hne Hf. clear Hl Hk Hn.
  induction Hf as [|a b l k Hab _ IHf]; [constructor|]. apply Forall_cons in Hne as [Ha Hne].
  constructor; [|by apply IHf]. simpl. by rewrite decide_False.
Qed.
Lemma eval_ints (l : list (date_part * Z)) :
  eval_from_parts ((λ pv, (pv.1, BInt pv.2)) <$> l) = BDate <$> from_parts l.
Proof.
  unfold eval_from_parts. replace (existsb _ _) with false.
  2:{ symmetry. apply not_true_iff_false. intros (x & Hx%list_elem_of_In & Hn)%existsb_exists.
      apply list_elem_of_fmap in Hx as (pv & -> & _). by apply bool_decide_eq_true in Hn. }
  match goal with |- mbind _ ?g = _ => enough (g = Some l) as -> end; [done|].
  induction l as [|[p v] l IH]; [done|]. rewrite fmap_cons. simpl. by rewrite IH.
Qed.
Lemma eval_since_epoch e t d : eval e d = BDate <$> t →
  eval (ESubtract e (EConst (BDate 0))) d = BInt <$> t.
Proof. intros He. cbn. rewrite He. destruct t; [|done]. cbn. by rewrite Z.sub_0_r. Qed.
Lemma eval_date_parts (ps : list time_part) vals d :
  Forall2 (λ kp v, field_path ["_id"; kp.1] d = Some (BInt v)) ps vals →
  eval (EDateFromParts ((λ kp, (kp.2.1, EField ["_id"; kp.1])) <$> ps)) d =
  BDate <$> from_parts (zip ((λ kp, kp.2.1) <$> ps) vals).
Proof.
  intros Hf. rewrite <-eval_ints. cbn [eval].
  match goal with |- mbind _ ?g = eval_from_parts ?l => enough (g = Some l) as -> end; [done|].
  induction Hf as [|[k [p e]] v ps vals Hk _ IH]; [done|]. cbn in Hk, IH |- *. rewrite Hk. cbn. by rewrite IH.
Qed.
End dates.

(** ** From the trades of the collection to the ticks *)

(** What the aggregation reads of a trade; the date in milliseconds. *)
Record row := mkRow {
  w_price : Z; w_amount : Z; w_created : Z; w_status : string; w_pair : PairID
}.

Section ticks.
Context `{EthCommonLaws, Calendar, ServerDecimal} `{!Big.Undefined}.
Abbreviation time_part := (string * (date_part * expr))%type.

Definition keeps_row (d : doc) (r : row) : Prop :=
  field "createdAt" d = Some (BDate (w_created r)) ∧
  field "pairName" d = Some (BStr (pi_PairName (w_pair r))) ∧
  field "baseToken" d = Some (BStr (Address_Hex (pi_BaseToken (w_pair r)))) ∧
  field "quoteToken" d = Some (BStr (Address_Hex (pi_QuoteToken (w_pair r)))).
Definition trade_row (d : doc) (r : row) : Prop :=
  keeps_row d r ∧ field "status" d = Some (BStr (w_status r)) ∧
  field "pricepoint" d = Some (BStr (Big.String_Z (w_price r))) ∧
  field "amount" d = Some (BStr (Big.String_Z (w_amount r))).
(** Amounts that the decimals of the server hold exactly, and so do their sums. *)
Definition exact_rows (rows : list row) : Prop :=
  Forall (λ r, 0 <= w_price r < 10 ^ 34 ∧ 0 <= w_amount r) rows ∧
  sumZ (w_amount <$> rows) < 10 ^ 34 ∧ Z.of_nat (length rows) < 10 ^ 34.

(** The trades a query is about. *)
Definition asked (pairs : list PairAddresses) (p : PairID) : Prop :=
  pairs = [] ∨ Exists (λ q, pa_BaseToken q = pi_BaseToken p ∧ pa_QuoteToken q = pi_QuoteToken p) pairs.
Definition selected (start finish : Z) (pairs : list PairAddresses) (r : row) : Prop :=
  start <= w_created r < finish ∧ w_status r = SUCCESS ∧ asked pairs (w_pair r).
#[export] Instance selected_dec start finish pairs r : Decision (selected start finish pairs r).
Proof. unfold selected, asked. apply _. Defined.

Lemma alternative_ok p d r : trade_row d r →
  aconds_hold [("baseToken", AEqual (BStr (Address_Hex (pa_BaseToken p))));
               ("quoteToken", AEqual (BStr (Address_Hex (pa_QuoteToken p))))] d = true ↔
  pa_BaseToken p = pi_BaseToken (w_pair r) ∧ pa_QuoteToken p = pi_QuoteToken (w_pair r).
Proof.
  intros ((_ & _ & Hb & Hq) & _). unfold aconds_hold. simpl. rewrite Hb, Hq, !andb_true_iff, !bool_decide_eq_true.
  split; [|intros [-> ->]; auto]. intros (Eb & Eq & _). split; apply (inj Address_Hex); congruence.
Qed.
Lemma match_ok start finish pairs d r : trade_row d r →
  selected start finish pairs r ↔ amatches (OHLCVService.getMatchQuery start finish pairs) d = true.
Proof.
  intros Hr. pose proof Hr as ((Hc & _) & Hs & _). unfold amatches, aconds_hold, OHLCVService.getMatchQuery, selected, asked.
  simpl. rewrite Hc, Hs, !andb_true_iff, bool_decide_eq_true, Z.leb_le, Z.ltb_lt.
  assert (BStr (w_status r) ∈ [BStr SUCCESS] ↔ w_status r = SUCCESS) as ->.
  { rewrite list_elem_of_singleton. split; [by intros [= ->]|by intros ->]. }
  destruct pairs as [|p pairs]; [naive_solver|]. rewrite existsb_exists, Exists_exists.
  split.
  - intros (? & ? & [?|(q & Hq & Hqr)]); [done|]. split; [tauto|].
    eexists. split; [apply list_elem_of_In, list_elem_of_fmap_2; exact Hq|]. by apply (alternative_ok q d r).
  - intros (? & x & Hx & Hm). split; [tauto|]. split; [tauto|]. right.
    apply list_elem_of_In, list_elem_of_fmap in Hx as (q & -> & Hq). exists q. split; [done|].
    by apply (alternative_ok q d r).
Qed.

(** The rows of the trades that a collection stores; the documents that
    [TradeDao.Create] leaves without a trade are of no interval. *)
Definition row_of (t : Trade) : row :=
  mkRow (default 0 (t_PricePoint t)) (default 0 (t_Amount t)) (t_CreatedAt t / ms) (t_Status t)
    (mkPairID (t_PairName t) (t_BaseToken t) (t_QuoteToken t)).
Definition trades_stored (ds : list doc) : Prop := Forall (λ d, blank d ∨ ∃ t, stores_trade t d) ds.
Definition stored_rows (ds : list doc) : list row := row_of <$> omap decode_trade ds.
Lemma stored_row t d : stores_trade t d → trade_row d (row_of t).
Proof.
  intros ([a Ha] & [p Hp] & _ & _ & _ & _ & Hd). unfold Trade_GetBSON in Hd. rewrite !Forall_cons in Hd.
  destruct_and?. rewrite Ha, Hp in *. unfold trade_row, keeps_row, row_of. rewrite Ha, Hp.
  split_and!; assumption.
Qed.
Lemma match_stored start finish pairs ds : trades_stored ds →
  Forall2 trade_row (base.filter (λ d, amatches (OHLCVService.getMatchQuery start finish pairs) d = true) ds)
    (base.filter (selected start finish pairs) (stored_rows ds)).
Proof.
  induction 1 as [|d ds Hd _ IH]; [constructor|]. rewrite filter_cons. unfold stored_rows in *. simpl.
  destruct Hd as [Hb|[t Ht]].
  - rewrite blank_decode, decide_False by done || (unfold amatches, aconds_hold; simpl; by rewrite Hb).
    exact IH.
  - pose proof (match_ok start finish pairs d (row_of t) (stored_row t d Ht)) as Hm.
    rewrite (stores_trade_decode t d Ht), fmap_cons, filter_cons.
    destruct (decide (selected start finish pairs (row_of t))), (decide (amatches _ d = true)); try tauto.
    constructor; [by apply stored_row|done].
Qed.

(** A trade with its decimals. *)
Definition priced (d : doc) (r : row) : Prop :=
  keeps_row d r ∧ field "priceDecimal" d = Some (BDec (w_price r)) ∧
  field "amountDecimal" d = Some (BDec (w_amount r)).
Lemma to_decimal_row x : 0 <= x < 10 ^ 34 → eval_to_decimal (BStr (Big.String_Z x)) = Some (BDec x).
Proof.
  intros Hx. unfold eval_to_decimal, to_decimal. rewrite SetString_String_Z.
  unfold decimal_exact. by rewrite (proj2 (Z.ltb_lt _ _)) by lia.
Qed.
#[local] Arguments eval_to_decimal : simpl never.
#[local] Arguments accumulate : simpl never.
Lemma decimals_ok d d' r : trade_row d r → 0 <= w_price r < 10 ^ 34 → 0 <= w_amount r < 10 ^ 34 →
  add_fields [("priceDecimal", EToDecimal (EField ["pricepoint"]));
              ("amountDecimal", EToDecimal (EField ["amount"]))] d = Some d' → priced d' r.
Proof.
  intros ((Hc & Hn & Hb & Hq) & _ & Hp & Ha) Hpx Hax. unfold add_fields, eval_doc. simpl.
  rewrite Hp, Ha. simpl. rewrite !to_decimal_row by done. simpl. intros [= <-].
  split; [split_and!|split]; by rewrite field_set_fields.
Qed.

(** What the rows are grouped by. *)
Definition row_key (ps : list time_part) (r : row) : option doc :=
  (λ vals, slot_doc ps vals ++
    [("pairName", BStr (pi_PairName (w_pair r)));
     ("baseToken", BStr (Address_Hex (pi_BaseToken (w_pair r))));
     ("quoteToken", BStr (Address_Hex (pi_QuoteToken (w_pair r))))]) <$> slot ps (w_created r).
Lemma eval_row_key ps d r : parts_ok ps → priced d r →
  eval_doc (((λ kp, (kp.1, kp.2.2)) <$> ps) ++ PairService.by_pair_id) d = row_key ps r.
Proof.
  intros (Hps & _ & _) ((Hc & Hn & Hb & Hq) & _). unfold eval_doc. rewrite mapM_app.
  pose proof (eval_slot ps _ d Hps Hc) as Hs. unfold eval_doc in Hs. rewrite Hs.
  unfold row_key. destruct (slot ps (w_created r)) as [vals|]; [|done]. simpl.
  by rewrite Hn, Hb, Hq.
Qed.

Lemma slot_doc_other ps vals k rest : k ∉ ps.*1 → length vals = length ps →
  field k (slot_doc ps vals ++ rest) = field k rest.
Proof.
  revert vals. induction ps as [|kp ps IH]; intros [|v vals] Hk Hl; try done.
  apply not_elem_of_cons in Hk as [Hne Hk]. simpl. rewrite decide_False by congruence.
  apply IH; [done|]. by injection Hl.
Qed.
Lemma slot_length ps c vals : slot ps c = Some vals → length vals = length ps.
Proof. intros Hs. by rewrite (length_mapM _ _ _ Hs). Qed.
(** The key says which pair and which interval. *)
Lemma row_key_pair ps r key : parts_ok ps → row_key ps r = Some key →
  field "pairName" key = Some (BStr (pi_PairName (w_pair r))) ∧
  field "baseToken" key = Some (BStr (Address_Hex (pi_BaseToken (w_pair r)))) ∧
  field "quoteToken" key = Some (BStr (Address_Hex (pi_QuoteToken (w_pair r)))).
Proof.
  intros (_ & _ & Hne) Hk. unfold row_key in Hk. destruct (slot ps (w_created r)) as [vals|] eqn:Hs; [|done].
  injection Hk as <-. apply slot_length in Hs. rewrite Forall_forall in Hne.
  rewrite !slot_doc_other; [done|intros E; eapply (Hne _ E); set_solver|done|intros E; eapply (Hne _ E); set_solver|done
    |intros E; eapply (Hne _ E); set_solver|done].
Qed.
Lemma row_key_inj ps r r' key : parts_ok ps → row_key ps r = Some key → row_key ps r' = Some key →
  slot ps (w_created r) = slot ps (w_created r') ∧ w_pair r = w_pair r'.
Proof.
  intros Hps Hr Hr'. destruct (row_key_pair ps r key Hps Hr) as (Hn & Hb & Hq).
  destruct (row_key_pair ps r' key Hps Hr') as (Hn' & Hb' & Hq'). split.
  - unfold row_key in Hr, Hr'. destruct (slot ps (w_created r)) as [v|] eqn:Hs; [|done].
    destruct (slot ps (w_created r')) as [v'|] eqn:Hs'; [|done]. injection Hr as Hr. injection Hr' as Hr'.
    apply slot_length in Hs, Hs'. f_equal. rewrite <-Hr' in Hr. apply app_inj_1 in Hr as [Hr _].
    2:{ unfold slot_doc. rewrite !length_zip_with. lia. }
    clear -Hr Hs Hs'. revert v v' Hs Hs' Hr. induction ps as [|kp ps IH]; intros [|x v] [|x' v']; try done.
    intros [= Hl] [= Hl'] [= <- Hr]. f_equal. by apply IH.
  - destruct (w_pair r) as [n b q], (w_pair r') as [n' b' q']. simpl in *. f_equal.
    + congruence.
    + apply (inj Address_Hex). congruence.
    + apply (inj Address_Hex). congruence.
Qed.

Lemma mapM_priced e (f : row → Z) ms g :
  (∀ d r, priced d r → eval e d = Some (BDec (f r))) → Forall2 priced ms g →
  mapM (eval e) ms = Some (BDec <$> (f <$> g)).
Proof.
  intros He. induction 1 as [|d r ms g Hr _ IH]; [done|]. simpl. rewrite (He d r Hr). simpl.
  by rewrite IH.
Qed.
Definition prices (g : list row) : list Z := w_price <$> g.
Definition amounts (g : list row) : list Z := w_amount <$> g.
(** The document of a group. *)
Definition summary (key : doc) (g : list row) (p0 p1 : Z) : doc :=
  [("_id", BDoc key); ("count", BDec (Z.of_nat (length g))); ("high", BDec (highest (prices g)));
   ("low", BDec (lowest (prices g))); ("open", BDec p0); ("close", BDec p1);
   ("volume", BDec (sumZ (amounts g)))].
Lemma sum_ones (g : list row) : sumZ ((λ _, 1) <$> g) = Z.of_nat (length g).
Proof.
  unfold sumZ. induction g as [|r g IH]; [done|]. rewrite fmap_cons. cbn [foldr length]. rewrite IH. lia.
Qed.
Lemma eval_field k d v : field k d = Some v → eval (EField [k]) d = Some v.
Proof. intros Hk. simpl. by rewrite Hk. Qed.
#[local] Arguments eval : simpl never.
Lemma group_doc_ok ids key ms g gd r0 r1 : Forall2 priced (members ids key ms) g → exact_rows g →
  head g = Some r0 → last g = Some r1 →
  group_doc ids OHLCVService.group_accumulators ms key = Some gd →
  gd = summary key g (w_price r0) (w_price r1).
Proof.
  intros Hm (Hx & Hs & Hl) Hr0 Hr1. unfold group_doc, OHLCVService.group_accumulators. simpl.
  assert (g ≠ []) as Hg by by destruct g.
  rewrite (mapM_priced PairService.one (λ _, 1) _ g), (mapM_priced (EField ["priceDecimal"]) w_price _ g),
    (mapM_priced (EField ["amountDecimal"]) w_amount _ g);
    [|by intros d r (_ & _ & Hp); apply eval_field|done|by intros d r (_ & Hp & _); apply eval_field|done|done|done].
  cbn [mbind option_bind].
  rewrite (accumulate_sum ((λ _, 1) <$> g)), (accumulate_sum (w_amount <$> g)), accumulate_max, accumulate_min,
    accumulate_first, accumulate_last, sum_ones.
  - rewrite fmap_last, Hr1. assert (head (w_price <$> g) = Some (w_price r0)) as ->.
    { destruct g as [|r g]; [done|]. by injection Hr0 as ->. }
    intros [= <-]. done.
  - by destruct g.
  - by destruct g.
  - by destruct g.
  - apply Forall_fmap. eapply Forall_impl; [exact Hx|]. by intros r [_ ?].
  - done.
  - by destruct g.
  - apply Forall_fmap, Forall_true. intros r. simpl. lia.
  - by rewrite sum_ones.
Qed.

(** What a tick says of the trades of its group. *)
Definition slot_time (ps : list time_part) (vals : list Z) : option Z :=
  from_parts (zip ((λ kp, kp.2.1) <$> ps) vals).
Definition tick_of (ps : list time_part) (g : list row) (t : Tick) : Prop :=
  ∃ r0 r1 vals ts, head g = Some r0 ∧ last g = Some r1 ∧ slot_time ps vals = Some ts ∧
    Forall (λ r, slot ps (w_created r) = Some vals ∧ w_pair r = w_pair r0) g ∧
    t = mkTick (w_pair r0) (Some (w_price r1)) (Some (Z.of_nat (length g))) (Some (highest (prices g)))
          (Some (lowest (prices g))) (Some (w_price r0)) (Some (sumZ (amounts g))) ts.

Lemma eval_timestamp ps vals key g p0 p1 rest : parts_ok ps → length vals = length ps →
  key = slot_doc ps vals ++ rest →
  add_fields (OHLCVService.timestamp_of ((λ kp, (kp.2.1, kp.1)) <$> ps)) (summary key g p0 p1) =
  (λ ts, set_fields [("timestamp", BInt ts)] (summary key g p0 p1)) <$> slot_time ps vals.
Proof.
  intros (_ & Hn & _) Hl ->. unfold add_fields, OHLCVService.timestamp_of, eval_doc.
  rewrite <-list_fmap_compose. change (_ ∘ _) with (λ kp : time_part, (kp.2.1, EField ["_id"; kp.1])).
  simpl mapM. rewrite (eval_since_epoch _ (slot_time ps vals)); [by destruct (slot_time ps vals)|].
  apply eval_date_parts.
  eapply Forall2_impl; [by apply (slot_doc_field ps vals rest)|]. intros kp v Hk. simpl. exact Hk.
Qed.

(** ** The stages *)
Lemma exact_rows_filter (P : row → Prop) `{∀ r, Decision (P r)} rows :
  exact_rows rows → exact_rows (base.filter P rows).
Proof.
  intros (Hx & Hs & Hl). split; [by apply Forall_filter_all|].
  assert (sumZ (w_amount <$> base.filter P rows) <= sumZ (w_amount <$> rows)).
  { clear Hs Hl. induction Hx as [|r rows [_ Hr] _ IH]; [done|]. rewrite filter_cons, fmap_cons.
    unfold sumZ in *. cbn [foldr]. destruct (decide (P r)); [rewrite fmap_cons; cbn [foldr]|]; lia. }
  pose proof (length_filter P rows). lia.
Qed.
Lemma exact_row rows r : exact_rows rows → r ∈ rows →
  0 <= w_price r < 10 ^ 34 ∧ 0 <= w_amount r < 10 ^ 34.
Proof.
  intros (Hx & Hs & _) [i Hi]%list_elem_of_lookup. pose proof (Forall_lookup_1 _ _ _ _ Hx Hi) as [Hp Ha].
  split; [done|]. split; [done|]. apply list_elem_of_split_length in Hi as (l & k & -> & _).
  apply Forall_app in Hx as [Hl [_ Hk]%Forall_cons].
  assert (∀ l, Forall (λ r, 0 <= w_price r < 10 ^ 34 ∧ 0 <= w_amount r) l → 0 <= sumZ (w_amount <$> l)) as Hn.
  { intros l' Hl'. apply sumZ_nonneg, Forall_fmap. eapply Forall_impl; [exact Hl'|]. by intros ? []. }
  pose proof (Hn l Hl). pose proof (Hn k Hk). rewrite fmap_app, sumZ_app, fmap_cons in Hs.
  unfold sumZ in *. cbn [foldr] in Hs. lia.
Qed.

(** The document of a group of rows. *)
Definition summary_of (ps : list time_part) (gd : doc) (g : list row) : Prop :=
  ∃ key r0 r1, head g = Some r0 ∧ last g = Some r1 ∧ Forall (λ r, row_key ps r = Some key) g ∧
    exact_rows g ∧ gd = summary key g (w_price r0) (w_price r1).
Lemma stage_decimals ds rows ms : exact_rows rows → Forall2 trade_row ds rows →
  astage_result OHLCVService.to_decimals ds ms → Forall2 priced ms rows.
Proof.
  intros Hx Hr. simpl.
  assert (Forall (λ r, 0 <= w_price r < 10 ^ 34 ∧ 0 <= w_amount r < 10 ^ 34) rows) as Hb.
  { rewrite Forall_forall. intros r. by apply exact_row. }
  clear Hx. revert ms. induction Hr as [|d r ds rows Hd _ IH]; intros ms; simpl; [by intros [= <-]|].
  apply Forall_cons in Hb as [[Hp Ha] Hb].
  destruct (add_fields _ d) as [d'|] eqn:Hd'; [|done]. simpl. destruct (mapM _ ds); [|done].
  intros [= <-]. constructor; [by eapply decimals_ok|by apply IH].
Qed.

Definition group_rows (ps : list time_part) (rows : list row) (key : doc) : list row :=
  base.filter (λ r, row_key ps r = Some key) rows.
(** The interval and the pair of a group. *)
Definition group_id (ps : list time_part) (g : list row) : option (PairID * option (list Z)) :=
  (λ r, (w_pair r, slot ps (w_created r))) <$> head g.
(** The rows are split in groups that keep their order, no two of the same interval
    and pair. *)
Definition grouped (ps : list time_part) (rows : list row) (groups : list (list row)) : Prop :=
  mjoin groups ≡ₚ rows ∧ Forall (λ g, g `sublist_of` rows) groups ∧ NoDup (group_id ps <$> groups).
Lemma grouped_keys ps rows keys : NoDup keys → (∀ key, key ∈ keys → ∃ r, r ∈ rows ∧ row_key ps r = Some key) →
  (∀ r, r ∈ rows → ∃ key, key ∈ keys ∧ row_key ps r = Some key) →
  grouped ps rows (group_rows ps rows <$> keys).
Proof.
  intros Hn Hsome Hall. split_and!.
  - rewrite <-(split_by_key (row_key ps) (Some <$> keys) rows) at 2.
    + by rewrite <-list_fmap_compose.
    + by apply (NoDup_fmap Some).
    + intros r (key & Hkey & ->)%Hall. by apply list_elem_of_fmap_2.
  - rewrite Forall_fmap, Forall_forall. intros key _. apply sublist_filter.
  - rewrite <-list_fmap_compose. apply NoDup_fmap_2_strong; [|done]. intros k k' Hk Hk' E. simpl in E.
    assert (∀ k, k ∈ keys → ∃ r, group_id ps (group_rows ps rows k) = Some (w_pair r, slot ps (w_created r)) ∧
      row_key ps r = Some k) as Hid.
    { intros k1 (r & Hr & Hrk)%Hsome. unfold group_id.
      assert (r ∈ group_rows ps rows k1) as Hg by by apply list_elem_of_filter.
      destruct (group_rows ps rows k1) as [|r' g] eqn:Eg; [by apply elem_of_nil in Hg|].
      exists r'. split; [done|]. assert (r' ∈ group_rows ps rows k1) as Hr' by (rewrite Eg; by left).
      by apply list_elem_of_filter in Hr' as [? _]. }
    destruct (Hid k Hk) as (r & Er & Hr), (Hid k' Hk') as (r' & Er' & Hr').
    rewrite Er, Er' in E. injection E as Hp Hs. unfold row_key in Hr, Hr'. rewrite Hp, Hs in Hr. congruence.
Qed.
Lemma stage_group ps accs ms rows gds : parts_ok ps → exact_rows rows → Forall2 priced ms rows →
  accs = OHLCVService.group_accumulators →
  astage_result (AGroup (((λ kp, (kp.1, kp.2.2)) <$> ps) ++ PairService.by_pair_id) accs) ms gds →
  ∃ groups, Forall2 (summary_of ps) gds groups ∧ grouped ps rows groups.
Proof.
  intros Hps Hx Hr -> (keys & Hn & Hall & Hsome & Hg). exists (group_rows ps rows <$> keys).
  set (ids := _ ++ _) in *.
  assert (∀ d r, priced d r → eval_doc ids d = row_key ps r) as Hk by (intros d r; by apply eval_row_key).
  split.
  - apply Forall2_fmap_r. eapply mapM_related; [exact Hg|]. intros key gd Hkey Hgd.
    assert (Forall2 priced (members ids key ms) (group_rows ps rows key)) as Hm.
    { apply Forall2_filter; [|done]. intros d r Hdr. by rewrite (Hk d r Hdr). }
    destruct (Hsome key Hkey) as (d & Hd & Hdk).
    assert (group_rows ps rows key ≠ []) as Hne.
    { intros E. rewrite E in Hm. apply Forall2_nil_inv_r in Hm.
      apply (not_elem_of_nil d). rewrite <-Hm. by apply list_elem_of_filter. }
    assert (exact_rows (group_rows ps rows key)) as Hxg by by apply exact_rows_filter.
    destruct (head (group_rows ps rows key)) as [r0|] eqn:Hr0; [|by destruct (group_rows ps rows key)].
    destruct (last (group_rows ps rows key)) as [r1|] eqn:Hr1; [|by apply last_None in Hr1].
    exists key, r0, r1. split_and!; [done|done| |done|by eapply group_doc_ok].
    rewrite Forall_forall. by intros r [? _]%list_elem_of_filter.
  - apply grouped_keys; [done| |].
    + intros key (d & [i Hi]%list_elem_of_lookup & Hdk)%Hsome.
      destruct (Forall2_lookup_l _ _ _ _ _ Hr Hi) as (r & Hri & Hdr).
      exists r. split; [by eapply list_elem_of_lookup_2|]. by rewrite <-(Hk d r Hdr).
    + intros r (i & Hi)%list_elem_of_lookup. destruct (Forall2_lookup_r _ _ _ _ _ Hr Hi) as (d & Hd & Hdr).
      destruct (Hall d) as (key & Hkey & ?); [by eapply list_elem_of_lookup_2|].
      exists key. split; [done|]. by rewrite <-(Hk d r Hdr).
Qed.

#[local] Arguments slot_time : simpl never.
Lemma decimal_exact_string x : 0 <= x < 10 ^ 34 → decimal_string x = Big.String_Z x.
Proof. intros Hx. unfold decimal_string, decimal_exact. by rewrite (proj2 (Z.ltb_lt _ _)) by lia. Qed.
Lemma price_of_group g p : exact_rows g → p ∈ prices g → 0 <= p < 10 ^ 34.
Proof. intros Hx (r & -> & Hr)%list_elem_of_fmap. by apply (exact_row g r). Qed.

(** ** Ticks *)
Lemma read_decimal k d x : field k d = Some (BDec x) → 0 <= x < 10 ^ 34 → bson_decimal k d = Ok (Big.String_Z x).
Proof. intros Hk Hx. unfold bson_decimal. by rewrite Hk, decimal_exact_string. Qed.
Lemma read_pair d key p : field "_id" d = Some (BDoc key) →
  field "pairName" key = Some (BStr (pi_PairName p)) →
  field "baseToken" key = Some (BStr (Address_Hex (pi_BaseToken p))) →
  field "quoteToken" key = Some (BStr (Address_Hex (pi_QuoteToken p))) → bson_PairID d = Ok p.
Proof.
  intros Hd Hn Hb Hq. unfold bson_PairID, bson_string. rewrite Hd, Hn, Hb, Hq. simpl.
  rewrite !HexToAddress_Hex. by destruct p.
Qed.
Lemma summary_tick ps gd gd' g : parts_ok ps → summary_of ps gd g →
  add_fields (OHLCVService.timestamp_of ((λ kp, (kp.2.1, kp.1)) <$> ps)) gd = Some gd' →
  ∃ t, Tick_SetBSON gd' = Ok t ∧ tick_of ps g t ∧ field "timestamp" gd' = Some (BInt (tk_Timestamp t)).
Proof.
  intros Hps (key & r0 & r1 & Hr0 & Hr1 & Hkey & Hx & ->).
  assert (r0 ∈ g ∧ r1 ∈ g) as [H0g H1g].
  { split; [by apply head_Some_elem_of|by apply last_Some_elem_of]. }
  assert (row_key ps r0 = Some key) as Hk0 by by eapply (proj1 (Forall_forall _ _) Hkey).
  pose proof (row_key_pair ps r0 key Hps Hk0) as (Hn & Hb & Hq). pose proof Hk0 as Hk.
  unfold row_key in Hk. destruct (slot ps (w_created r0)) as [vals|] eqn:Hs; [|done]. injection Hk as Hk.
  erewrite eval_timestamp; [|done|by eapply slot_length|by rewrite <-Hk].
  destruct (slot_time ps vals) as [ts|] eqn:Hts; [|done]. intros [= <-].
  assert (prices g ≠ []) as Hne by by destruct g.
  assert (∀ p, p ∈ prices g → 0 <= p < 10 ^ 34) as Hpr by (intros p; by apply price_of_group).
  assert (∀ r, r ∈ g → 0 <= w_price r < 10 ^ 34 ∧ 0 <= w_amount r < 10 ^ 34) as Hrow by (intros r; by apply exact_row).
  exists (mkTick (w_pair r0) (Some (w_price r1)) (Some (Z.of_nat (length g))) (Some (highest (prices g)))
    (Some (lowest (prices g))) (Some (w_price r0)) (Some (sumZ (amounts g))) ts).
  split; [|split; [|by rewrite field_set_fields]].
  - unfold Tick_SetBSON, bson_int. rewrite (read_pair _ key (w_pair r0)) by (rewrite ?field_set_fields; done).
    destruct Hx as (_ & Hv & Hc). assert (0 <= sumZ (amounts g)).
    { apply sumZ_nonneg, Forall_fmap. rewrite Forall_forall. intros r Hr. simpl. by apply (Hrow r). }
    rewrite (read_decimal "count" _ (Z.of_nat (length g))), (read_decimal "open" _ (w_price r0)),
      (read_decimal "high" _ (highest (prices g))), (read_decimal "low" _ (lowest (prices g))),
      (read_decimal "close" _ (w_price r1)), (read_decimal "volume" _ (sumZ (amounts g)))
      by (rewrite ?field_set_fields;
        first [done|unfold amounts in *; lia|by apply Hrow|apply Hpr, highest_elem, Hne|apply Hpr, lowest_elem, Hne]).
    simpl. by rewrite !ToBigInt_String_Z.
  - exists r0, r1, vals, ts. split_and!; [done|done|done| |done]. rewrite Forall_forall in Hkey |- *. intros r Hr.
    destruct (row_key_inj ps r r0 key) as [-> ->]; auto.
Qed.

(** A list of ticks that sums up some trades. *)
Definition ticks_of (ps : list time_part) (rows : list row) (ticks : list Tick) : Prop :=
  ∃ groups, grouped ps rows groups ∧ Forall2 (tick_of ps) groups ticks ∧
    StronglySorted (λ t t', tk_Timestamp t <= tk_Timestamp t') ticks.
Lemma grouped_perm ps rows groups groups' : groups ≡ₚ groups' → grouped ps rows groups → grouped ps rows groups'.
Proof. intros Hp (Hj & Hs & Hn). split_and!; by rewrite <-Hp. Qed.
Lemma stage_timestamps ps gds gts groups : parts_ok ps → Forall2 (summary_of ps) gds groups →
  astage_result (AAddFields (OHLCVService.timestamp_of ((λ kp, (kp.2.1, kp.1)) <$> ps))) gds gts →
  Forall2 (λ d g, ∃ t, Tick_SetBSON d = Ok t ∧ tick_of ps g t ∧
             field "timestamp" d = Some (BInt (tk_Timestamp t))) gts groups.
Proof.
  intros Hps Hg. simpl. revert gts. induction Hg as [|d g gds groups Hd _ IH]; intros gts; simpl; [by intros [= <-]|].
  destruct (add_fields _ d) as [d'|] eqn:Hd'; [|done]. simpl. destruct (mapM _ gds); [|done].
  intros [= <-]. constructor; [by eapply summary_tick|by apply IH].
Qed.
Lemma decode_ticks ps ds groups :
  Forall2 (λ d g, ∃ t, Tick_SetBSON d = Ok t ∧ tick_of ps g t ∧
             field "timestamp" d = Some (BInt (tk_Timestamp t))) ds groups →
  ∃ ticks, decode_all Tick_SetBSON ds = Ok ticks ∧ Forall2 (tick_of ps) groups ticks ∧
    Forall2 (λ t d, field "timestamp" d = Some (BInt (tk_Timestamp t))) ticks ds.
Proof.
  induction 1 as [|d g ds groups (t & Hd & Ht & Hf) _ (ticks & Hds & Hts & Hfs)]; [by exists []|].
  exists (t :: ticks). simpl. rewrite Hd. simpl. rewrite Hds. split; [done|]. by split; constructor.
Qed.

Lemma ohlcv_pipeline start finish pairs duration unit ds rs :
  trades_stored ds → exact_rows (stored_rows ds) →
  aggregation_result (OHLCVService.ohlcv_query start finish pairs duration unit) ds rs →
  ∃ ps ticks, OHLCVService.time_parts unit "createdAt" duration = Some ps ∧
    decode_all Tick_SetBSON rs = Ok ticks ∧
    ticks_of ps (base.filter (selected start finish pairs) (stored_rows ds)) ticks.
Proof.
  set (rows := stored_rows ds). intros Hr Hx. unfold OHLCVService.ohlcv_query, OHLCVService.getGroupAddFieldBson, OHLCVService.group_ids.
  destruct (OHLCVService.time_parts unit "createdAt" duration) as [ps|] eqn:Hps; cbn [aggregation_result].
  2:{ intros (? & _ & ? & _ & ? & _ & ? & [] & _). }
  apply time_parts_ok in Hps as Hok.
  intros (ms & Hm & ms' & Hd & gds & Hg & gts & Ht & rs' & [Hp Hsort] & ->).
  assert (Forall2 trade_row ms (base.filter (selected start finish pairs) rows)) as Hsel.
  { rewrite Hm. by apply match_stored. }
  pose proof (exact_rows_filter (selected start finish pairs) rows Hx) as Hxs.
  pose proof (stage_decimals _ _ _ Hxs Hsel Hd) as Hpr.
  destruct (stage_group _ _ _ _ _ Hok Hxs Hpr eq_refl Hg) as (groups & Hsum & Hgr).
  pose proof (stage_timestamps _ _ _ _ Hok Hsum Ht) as Hts.
  apply Forall2_flip in Hts. symmetry in Hp.
  destruct (Permutation_Forall2_r _ _ _ _ Hp Hts) as (groups' & Hpg & Hts'). apply Forall2_flip in Hts'.
  destruct (decode_ticks _ _ _ Hts') as (ticks & Hdec & Htick & Hfield).
  exists ps, ticks. split_and!; [done|done|]. exists groups'. split_and!; [by eapply grouped_perm|done|].
  eapply StronglySorted_Forall2; [|exact Hfield|exact Hsort].
  intros t d t' d' Hd1 Hd2. simpl. rewrite Hd1, Hd2. simpl. intros [?|[[=] _]]; lia.
Qed.
End ticks.

(** ** The service *)

(** What the trades' dao promises of its aggregations. *)
Class TickDaoSpec (TS : Type) `{ITickDao TS, EthCommon, Big.Undefined, Calendar, ServerDecimal} := {
  trade_docs : TS → list doc;
  td_Aggregate_spec q s : wp (td_Aggregate q) (λ r s', trade_docs s' = trade_docs s ∧
    match r with
    | Err _ => True
    | _ => ∃ ds, aggregation_result q (trade_docs s) ds ∧ r = decode_all Tick_SetBSON ds
    end) s
}.

Section driver.
Context {W : Type} `{AggregatorLaws W} `{EthCommon, !Big.Undefined}.
#[export] Instance TradeDao_ticks : ITickDao W := TradeDao_Aggregate.
#[export] Program Instance TradeDao_ticks_spec : TickDaoSpec W := { trade_docs := docs }.
Next Obligation.
  intros q s. apply wp_bind. eapply wp_mono; [|apply RunAggregate_ok]. intros r s' [Hd Hr].
  destruct r as [ds|e|]; [|done|done]. apply wp_lift. rewrite Hd. split; [done|].
  by destruct (decode_all Tick_SetBSON ds) eqn:E; [exists ds|..|exists ds].
Qed.
End driver.
