(* ===== verification/TickProps.v ===== *)
(** What [OHLCVService.GetOHLCV] of [services/ohlcv.go] answers, against what the
    trades' dao promises. *)
From S2P Require Import Prelude BigMath Types DepositTypes Mongo Json Aggregation Ticks Orders MatchTypes OrderDao OrderStore Pairs TradeDao Rabbit Engine Ws Services MarketService Accounts Tokens AccountService OrderEndpoint PairService OhlcvService OhlcvProps.

(** ** The calendar of the server *)
Definition clock_unit (p : date_part) : Z :=
  match p with Hour => 3600000 | Minute => 60000 | Second => 1000 | _ => 0 end.
Definition clock_values (p : date_part) : Z := match p with Hour => 24 | _ => 60 end.

(** A date is a day and a time of that day; a part of the time that is not given is
    zero. *)
Class CalendarLaws (C : Calendar) := {
  from_parts_perm l l' : NoDup l.*1 → l ≡ₚ l' → from_parts l = from_parts l';
  from_parts_date t :
    from_parts [(Year, part_of Year t); (Month, part_of Month t); (DayOfMonth, part_of DayOfMonth t)] =
    Some (t - t `mod` 86400000);
  from_parts_time p n l : p ∈ [Hour; Minute; Second] → Year ∈ l.*1 → p ∉ l.*1 → 0 <= n < clock_values p →
    from_parts ((p, n) :: l) = (λ d, d + n * clock_unit p) <$> from_parts l;
  part_Hour t : part_of Hour t = t `mod` 86400000 / 3600000;
  part_Minute t : part_of Minute t = t `mod` 3600000 / 60000;
  part_Second t : part_of Second t = t `mod` 60000 / 1000
}.

(** The length of a unit whose intervals are cut from the time of a day. *)
Definition unit_length (unit : string) : option Z :=
  if decide (unit = "sec") then Some 1000
  else if decide (unit = "min") then Some 60000
  else if decide (unit = "hour") then Some 3600000 else None.

Section calendar.
Context `{CalendarLaws}.

(** The date of some parts of a date [t] and a time, the parts in the order of
    [getGroupAddFieldBson]. *)
Lemma from_parts_clock t clock : NoDup clock.*1 →
  Forall (λ pn, pn.1 ∈ [Hour; Minute; Second] ∧ 0 <= pn.2 < clock_values pn.1) clock →
  from_parts ([(Year, part_of Year t); (DayOfMonth, part_of DayOfMonth t); (Month, part_of Month t)] ++ clock) =
  Some (t - t `mod` 86400000 + sumZ ((λ pn, pn.2 * clock_unit pn.1) <$> clock)).
Proof.
  intros Hn Hc. set (day := [(Year, part_of Year t); (Month, part_of Month t); (DayOfMonth, part_of DayOfMonth t)]).
  assert (∀ p, p ∈ [Hour; Minute; Second] → p ∉ day.*1) as Hday.
  { intros p Hp. subst day. set_solver. }
  rewrite (from_parts_perm _ (clock ++ day)).
  - clear Hday. induction Hc as [|[p n] clock [Hp Hpn] _ IH]; [by rewrite Z.add_0_r; apply from_parts_date|].
    apply NoDup_cons in Hn as [Hpc Hn]. cbn [fst snd] in *.
    change (from_parts ((p, n) :: clock ++ day) = Some (t - t `mod` 86400000 +
      (n * clock_unit p + sumZ ((λ pn, pn.2 * clock_unit pn.1) <$> clock)))).
    rewrite from_parts_time, IH by (try done; rewrite fmap_app; subst day; set_solver). simpl. f_equal. lia.
  - rewrite fmap_app. apply NoDup_app. split_and!; [apply (bool_decide_unpack _); by vm_compute| |done].
    intros p Hp1 Hp2. apply (Hday p); [|subst day; set_solver].
    apply list_elem_of_fmap in Hp2 as (pn & -> & Hpn). by apply (proj1 (Forall_forall _ _) Hc) in Hpn as [? _].
  - rewrite Permutation_app_comm. f_equiv. subst day. apply perm_skip, perm_swap.
Qed.

Lemma mod_div_bounds a m n : 0 < m → 0 < n → 0 <= a `mod` (n * m) / m < n.
Proof.
  intros Hm Hn. pose proof (Z.mod_pos_bound a (n * m)). split; [apply Z.div_pos; nia|].
  apply Z.div_lt_upper_bound; nia.
Qed.
Lemma rem_bounds x d : 0 <= x → 0 < d → 0 <= x - Z.rem x d <= x ∧ 0 <= Z.rem x d < d.
Proof. intros Hx Hd. rewrite Z.rem_mod_nonneg by lia. pose proof (Z.mod_pos_bound x d). pose proof (Z.mod_le x d). lia. Qed.
(** A time of a day is its hour, minute, second and the milliseconds that remain. *)
Lemma day_time c : 0 <= c - (c - c `mod` 86400000 +
  (part_of Hour c * 3600000 + part_of Minute c * 60000 + part_of Second c * 1000)) < 1000.
Proof.
  rewrite part_Hour, part_Minute, part_Second.
  assert (∀ m n, 0 < m → 0 < n → c `mod` (n * m) = c `mod` (n * m) / m * m + c `mod` m) as Hm.
  { intros m n Hm Hn. rewrite (Z.mul_comm n m), Z.rem_mul_r by lia.
    rewrite Z.add_comm, (Z.mul_comm m), Z.div_add_l, (Z.div_small (c `mod` m)) by
      (try apply Z.mod_pos_bound; lia). lia. }
  pose proof (Hm 3600000 24 ltac:(lia) ltac:(lia)) as H1. pose proof (Hm 60000 60 ltac:(lia) ltac:(lia)) as H2.
  pose proof (Hm 1000 60 ltac:(lia) ltac:(lia)) as H3. clear Hm. pose proof (Z.mod_pos_bound c 1000 ltac:(lia)).
  change (24 * 3600000) with 86400000 in H1. change (60 * 60000) with 3600000 in H2.
  change (60 * 1000) with 60000 in H3. lia.
Qed.
(** The interval of a slot contains what the slot was computed from. *)
Lemma slot_time_bounds unit duration ps c vals u ts :
  OHLCVService.time_parts unit "createdAt" duration = Some ps → unit_length unit = Some u → 0 < duration →
  slot ps c = Some vals → slot_time ps vals = Some ts → ts <= c < ts + duration * u.
Proof.
  intros Hps Hu Hd. assert (duration =? 0 = false) as Hd0 by lia.
  pose proof (part_Hour c) as Hh. pose proof (part_Minute c) as Hm. pose proof (part_Second c) as Hs.
  assert (0 <= part_of Hour c < 24 ∧ 0 <= part_of Minute c < 60 ∧ 0 <= part_of Second c < 60) as (Hh' & Hm' & Hs').
  { rewrite Hh, Hm, Hs. clear. split_and!; first [apply (mod_div_bounds c 3600000 24)|apply (mod_div_bounds c 60000 60)
      |apply (mod_div_bounds c 1000 60)]; lia. }
  unfold OHLCVService.time_parts in Hps. unfold unit_length in Hu.
  repeat case_decide; try done; injection Hps as <-; injection Hu as <-;
    cbn; rewrite Hd0; cbn; intros [= <-]; unfold slot_time; cbn [zip_with fmap list_fmap fst snd]; clear Hh Hm Hs;
    pose proof (rem_bounds (part_of Hour c) duration); pose proof (rem_bounds (part_of Minute c) duration);
    pose proof (rem_bounds (part_of Second c) duration).
  all: match goal with |- context [from_parts (_ :: _ :: _ :: ?l)] => pose proof (from_parts_clock c l) as E end;
    cbn [app] in E; rewrite E by
      (first [apply (bool_decide_unpack _); by vm_compute
             |repeat constructor; cbn [fst snd clock_values]; first [lia|set_solver]]); clear E;
    unfold sumZ; cbn [fmap list_fmap foldr fst snd clock_unit]; intros [= <-]; pose proof (day_time c); lia.
Qed.
End calendar.

(** ** What a tick says *)

(** A tick of trades: all its numbers are there, the prices between the lowest and the
    highest, and its pair was asked for. *)
Definition tick_ok (pairs : list PairAddresses) (t : Tick) : Prop :=
  ∃ o h l c n v, t = mkTick (tk_Pair t) (Some c) (Some n) (Some h) (Some l) (Some o) (Some v) (tk_Timestamp t) ∧
    0 <= l ∧ l <= o <= h ∧ l <= c <= h ∧ 1 <= n ∧ 0 <= v ∧ asked pairs (tk_Pair t).

Lemma grouped_selected `{Calendar} ps rows groups g r i : grouped ps rows groups → groups !! i = Some g →
  r ∈ g → r ∈ rows.
Proof. intros (_ & Hs & _) Hg. pose proof (Forall_lookup_1 _ _ _ _ Hs Hg) as Hsub. by apply sublist_subseteq in Hsub; apply Hsub. Qed.
Section tick.
Context `{Calendar}.

Lemma tick_of_ok ps rows g t pairs start finish : exact_rows rows →
  (∀ r, r ∈ g → r ∈ base.filter (selected start finish pairs) rows) → tick_of ps g t → tick_ok pairs t.
Proof.
  intros (Hx & _) Hg (r0 & r1 & vals & ts & Hr0 & Hr1 & _ & _ & ->). rewrite Forall_forall in Hx.
  assert (∀ r, r ∈ g → selected start finish pairs r ∧ r ∈ rows) as Hsel.
  { intros r Hr%Hg. by apply list_elem_of_filter in Hr. }
  apply head_Some_elem_of in Hr0. apply last_Some_elem_of in Hr1.
  assert (prices g ≠ []) as Hne by (destruct g; [by apply elem_of_nil in Hr0|done]).
  assert (∀ r, r ∈ g → lowest (prices g) <= w_price r <= highest (prices g)) as Hb.
  { intros r Hr. split; [apply lowest_ge|apply highest_le]; by apply list_elem_of_fmap_2. }
  do 6 eexists. split; [reflexivity|]. split_and!; [|by apply Hb|by apply Hb|by apply Hb|by apply Hb| | |].
  - destruct (proj1 (list_elem_of_fmap _ _ _) (lowest_elem _ Hne)) as (r & -> & Hr).
    by apply Hx, Hsel.
  - by destruct g; [|simpl; lia].
  - apply sumZ_nonneg, Forall_fmap, Forall_forall. intros r Hr. by apply Hx, Hsel.
  - apply (Hsel r0 Hr0).
Qed.
End tick.

Section service.
Context {OS TS PS ES B : Type} `{EthCommonLaws, CalendarLaws, ServerDecimal, !Big.Undefined, FloatMod}.
Context `{ITickDao TS, !TickDaoSpec TS}.
#[local] Abbreviation Services := (Services OS TS PS ES B).
#[local] Abbreviation GetOHLCV := (@OHLCVService.GetOHLCV OS TS PS ES B _ _ _).

Definition rows (s : Services) : list row := stored_rows (trade_docs (s_trades s)).
Lemma GetOHLCV_ok now pairs duration unit interval (s : Services) :
  trades_stored (trade_docs (s_trades s)) → exact_rows (rows s) → length interval ≠ 1%nat →
  wp (GetOHLCV now pairs duration unit interval) (λ r s',
    (∃ ts, s' = lset on_trades ts s ∧ trade_docs ts = trade_docs (s_trades s)) ∧
    match r with
    | Ok ticks => ∃ start finish ps,
        OHLCVService.time_interval now duration unit interval = Ok (start, finish) ∧
        OHLCVService.time_parts unit "createdAt" duration = Some ps ∧
        ticks_of ps (base.filter (selected start finish pairs) (rows s)) ticks
    | Err _ => True
    | Panic => False
    end) s.
Proof.
  intros Hr Hx Hi. unfold OHLCVService.GetOHLCV.
  assert (∃ start finish, OHLCVService.time_interval now duration unit interval = Ok (start, finish)) as (start & finish & Ht).
  { unfold OHLCVService.time_interval. destruct interval as [|? [|? ?]]; [|done|by eauto].
    destruct (OHLCVService.getModTime _ _ _ _). by eauto. }
  apply wp_bind, wp_lift. rewrite Ht. simpl. apply wp_zoom. eapply wp_mono; [|apply td_Aggregate_spec].
  intros r ts [Hts Hrs]. split; [by exists ts|].
  destruct r as [ticks|e|]; [|done|]; destruct Hrs as (ds & Hds & E);
    destruct (ohlcv_pipeline _ _ _ _ _ _ _ Hr Hx Hds) as (ps & ticks' & Hps & Hdec & Hticks); [|congruence].
  exists start, finish, ps. split_and!; [done|done|]. by assert (ticks = ticks') as -> by congruence.
Qed.

(** The units that the code knows. *)
Definition known_units : list string := ["sec"; "min"; "hour"; "day"; "week"; "month"; "year"].
Lemma time_parts_known unit date duration ps :
  OHLCVService.time_parts unit date duration = Some ps → unit ∈ known_units.
Proof.
  unfold OHLCVService.time_parts. intros Hps.
  repeat (case_decide; [subst; apply (bool_decide_unpack _); vm_compute; exact I|]). done.
Qed.
Example minute_unknown : "minute" ∉ known_units.
Proof. apply (bool_decide_unpack _). vm_compute. exact I. Qed.

(** C18: [GetOHLCV] answers one tick for each pair and interval that has successful
    trades of the time asked, in the order of their timestamps: every such trade is
    in the group of exactly one tick, whose open and close are the prices of the
    group's first and last trade as the collection has them, high and low its extreme
    prices, count and volume its number of trades and the sum of their amounts.  Only
    the units "sec", "min", "hour", "day", "week", "month" and "year" are ever answered,
    so "minute", which the API's documents name, is not; and nothing but the read is
    done. *)
Theorem GetOHLCV_ticks now pairs duration unit interval (s : Services) :
  trades_stored (trade_docs (s_trades s)) → exact_rows (rows s) → length interval ≠ 1%nat →
  wp (GetOHLCV now pairs duration unit interval) (λ r s',
    (∃ ts, s' = lset on_trades ts s ∧ trade_docs ts = trade_docs (s_trades s)) ∧
    match r with
    | Ok ticks => ∃ start finish ps groups,
        OHLCVService.time_interval now duration unit interval = Ok (start, finish) ∧
        OHLCVService.time_parts unit "createdAt" duration = Some ps ∧
        grouped ps (base.filter (selected start finish pairs) (rows s)) groups ∧
        Forall2 (tick_of ps) groups ticks ∧
        StronglySorted (λ t t', tk_Timestamp t <= tk_Timestamp t') ticks ∧
        unit ∈ known_units
    | Err _ => True
    | Panic => False
    end) s.
Proof.
  intros Hr Hx Hi. eapply wp_mono; [|by apply GetOHLCV_ok]. intros [ticks|e|] s' [Hs Hres]; split; try done.
  destruct Hres as (start & finish & ps & ? & Hps & groups & ? & ? & ?). exists start, finish, ps, groups.
  split_and!; [done..|by eapply time_parts_known].
Qed.

(** C20: Every tick that [GetOHLCV] answers has all its numbers, at least one trade, an
    open and a close between its low and its high, none of them negative, and is of a
    pair that was asked for. *)
Theorem ticks_wellformed now pairs duration unit interval (s : Services) :
  trades_stored (trade_docs (s_trades s)) → exact_rows (rows s) → length interval ≠ 1%nat →
  wp (GetOHLCV now pairs duration unit interval) (λ r s',
    match r with Ok ticks => Forall (tick_ok pairs) ticks | Err _ => True | Panic => False end) s.
Proof.
  intros Hr Hx Hi. eapply wp_mono; [|by apply GetOHLCV_ok]. intros [ticks|e|] s' [_ Hres]; try done.
  destruct Hres as (start & finish & ps & _ & _ & groups & Hg & Ht & _).
  apply Forall_lookup. intros i t Hi'. destruct (Forall2_lookup_r _ _ _ _ _ Ht Hi') as (g & Hgi & Htg).
  eapply tick_of_ok; [done| |done]. intros r Hrg. by eapply grouped_selected.
Qed.

(** C19: For intervals of seconds, minutes or hours the timestamp of a tick is the start
    of its interval: every trade the tick counts was made in the [duration] units from
    its timestamp on, and the ticks together count every trade of the time asked. *)
Theorem ticks_cover_their_trades now pairs duration unit u interval (s : Services) :
  trades_stored (trade_docs (s_trades s)) → exact_rows (rows s) → length interval ≠ 1%nat →
  unit_length unit = Some u → 0 < duration →
  wp (GetOHLCV now pairs duration unit interval) (λ r s',
    match r with
    | Ok ticks => ∃ start finish groups,
        OHLCVService.time_interval now duration unit interval = Ok (start, finish) ∧
        mjoin groups ≡ₚ base.filter (selected start finish pairs) (rows s) ∧
        Forall2 (λ g t, tk_Count t = Some (Z.of_nat (length g)) ∧
          Forall (λ r, tk_Timestamp t <= w_created r < tk_Timestamp t + duration * u) g) groups ticks
    | Err _ => True
    | Panic => False
    end) s.
Proof.
  intros Hr Hx Hi Hu Hd. eapply wp_mono; [|by apply GetOHLCV_ok]. intros [ticks|e|] s' [_ Hres]; try done.
  destruct Hres as (start & finish & ps & ? & Hps & groups & [Hg _] & Ht & _).
  exists start, finish, groups. split_and!; [done|done|]. eapply Forall2_impl; [exact Ht|].
  intros g t (r0 & r1 & vals & ts & _ & _ & Hts & Hv & ->). split; [done|].
  eapply Forall_impl; [exact Hv|]. intros r [Hs _]. by eapply slot_time_bounds.
Qed.
End service.
