(* ===== verification/TickWitness.v ===== *)
(** The ticks at work: a server that runs the aggregations of [OhlcvService] on a list
    of documents, a calendar, and three trades of two minutes. *)
From S2P Require Import Prelude BigMath Types DepositTypes Mongo ListMongo Json Aggregation Ticks Fixtures Orders OrderCancels MatchTypes OrderCodec TradeCodec OrderDao Collection Pairs OrderStore OrderDaoRefine TradeDao Rabbit Engine Toy EngineSpec EngineProps EngineWitness Ws WsProps Services Validator OrderService OrderServiceProps ServiceWitness Accounts Tokens AccountService PairService MarketService OrderEndpoint OhlcvService OhlcvProps TickProps.

Import Running.

(** ** The aggregations on a list *)
Section list.
Context `{Calendar, ServerDecimal}.

Definition run_astage (st : astage) (ds : list doc) : option (list doc) :=
  match st with
  | AMatch m => Some (base.filter (λ d, amatches m d = true) ds)
  | AAddFields es => mapM (add_fields es) ds
  | AGroup ids accs => keys ← mapM (eval_doc ids) ds; mapM (group_doc ids accs ds) (remove_dups keys)
  | ASort ks => Some (merge_sort (keys_le ks) ds)
  | AEmpty => None
  end.
Fixpoint run_aggregation (p : list astage) (ds : list doc) : option (list doc) :=
  match p with [] => Some ds | st :: p => ms ← run_astage st ds; run_aggregation p ms end.
#[export] Instance list_aggregator : Aggregator coll := λ p s,
  match run_aggregation p (c_docs s) with
  | Some rs => (Ok rs, s)
  | None => (Err "A pipeline stage specification object must contain exactly one field.", s)
  end.

Lemma run_astage_ok st ds rs : run_astage st ds = Some rs → astage_result st ds rs.
Proof.
  destruct st as [m|es|ids accs|ks|]; simpl; try congruence.
  - destruct (mapM (eval_doc ids) ds) as [keys|] eqn:Hk; [|done]. simpl. intros Hr.
    exists (remove_dups keys). apply mapM_Some_1 in Hk. split_and!; [apply NoDup_remove_dups| | |done].
    + intros d [i Hi]%list_elem_of_lookup. destruct (Forall2_lookup_l _ _ _ _ _ Hk Hi) as (key & ? & ?).
      exists key. split; [done|]. rewrite elem_of_remove_dups. by eapply list_elem_of_lookup_2.
    + intros key Hkey. rewrite elem_of_remove_dups in Hkey. apply list_elem_of_lookup in Hkey as [i Hi].
      destruct (Forall2_lookup_r _ _ _ _ _ Hk Hi) as (d & ? & ?).
      exists d. split; [by eapply list_elem_of_lookup_2|done].
  - intros [= <-]. split; [apply merge_sort_Permutation|]. apply (StronglySorted_merge_sort _).
Qed.
Lemma run_aggregation_ok p ds rs : run_aggregation p ds = Some rs → aggregation_result p ds rs.
Proof.
  revert ds. induction p as [|st p IH]; intros ds; simpl; [congruence|].
  destruct (run_astage st ds) as [ms|] eqn:Hst; [|done]. intros Hr. exists ms.
  split; [by apply run_astage_ok|by apply IH].
Qed.
#[export] Instance list_aggregator_laws keys : AggregatorLaws coll (H0 := ListMongo keys).
Proof.
  intros p s. unfold wp, RunAggregate, list_aggregator.
  destruct (run_aggregation p (c_docs s)) as [rs|] eqn:Hr; simpl; split; try done.
  by apply run_aggregation_ok.
Qed.
End list.

(** ** A calendar whose year counts the days since 1970 *)
Definition part_weight (p : date_part) : Z :=
  match p with Year => 86400000 | Hour => 3600000 | Minute => 60000 | Second => 1000 | _ => 0 end.
#[export] Instance toy_calendar : Calendar := {|
  part_of p t := match p with
    | Year => t / 86400000
    | Hour => t `mod` 86400000 / 3600000
    | Minute => t `mod` 3600000 / 60000
    | Second => t `mod` 60000 / 1000
    | _ => 0
    end;
  from_parts l := Some (sumZ ((λ pn, pn.2 * part_weight pn.1) <$> l))
|}.
#[export] Instance toy_calendar_laws : CalendarLaws toy_calendar.
Proof.
  split; try done.
  - intros l l' _ Hp. simpl. by rewrite Hp.
  - intros t. cbn. f_equal. pose proof (Z.div_mod t 86400000). lia.
  - intros p n l Hp _ _ _. cbn. unfold sumZ. f_equal.
    assert (part_weight p = clock_unit p) as -> by (set_unfold; naive_solver). lia.
Qed.
#[export] Instance toy_server_decimal : ServerDecimal := {|
  inexact_to_decimal _ := None; round_decimal := id; inexact_decimal_string := Big.String_Z
|}.
#[export] Instance toy_float : FloatMod := λ _ _, 0.

#[export] Instance toy_tick_spec : TickDaoSpec coll := TradeDao_ticks_spec (H4 := list_aggregator_laws []).

(** ** Three trades of TOMO/WETH and one that failed, the last a minute later *)
Definition trade_at (h : Hash) (created price amount : Z) (status : string) : Trade :=
  mkTrade "" 2 9 11 12 5 7 h "" None 0 "TOMO/WETH" (created * 1000000000) (created * 1000000000)
    (Some price) status (Some amount).
Definition four_trades : list Trade :=
  [trade_at 21 601 40 5 SUCCESS; trade_at 22 630 60 7 SUCCESS; trade_at 23 640 90 1 "ERROR";
   trade_at 24 661 50 9 SUCCESS].
Definition trade_site : toy_services :=
  mkServices (Coll [] 0 0) (Coll ([("_id", BId "blank")] :: (Trade_GetBSON <$> four_trades)) 0 0) toy_pairs 0%nat
    (mkConnection [] ∅ ∅) empty_ws.
Lemma trade_site_stored : trades_stored (trade_docs (s_trades trade_site)).
Proof.
  constructor; [left; intros k Hk; simpl; by rewrite decide_False by done|].
  apply Forall_fmap, Forall_forall. intros t Ht. right. exists t.
  apply (proj1 (Forall_forall (λ t, stores_trade t (Trade_GetBSON t)) four_trades)); [|done].
  repeat constructor; try (by eexists); by vm_compute.
Defined.
Lemma trade_site_exact : exact_rows (rows trade_site).
Proof. split_and!; [|by vm_compute..]. repeat constructor; by vm_compute. Defined.

Definition asked_pairs : list PairAddresses := [mkPairAddresses "TOMO/WETH" 11 12].
Definition ohlcv_read := OHLCVService.GetOHLCV 0 asked_pairs 1 "min" [600; 700] trade_site.
Definition minute_ticks : list Tick := match ohlcv_read.1 with Ok l => l | _ => [] end.
Lemma ohlcv_run : OHLCVService.GetOHLCV 0 asked_pairs 1 "min" [600; 700] trade_site = (Ok minute_ticks, ohlcv_read.2).
Proof. vm_compute. reflexivity. Defined.

(** The failed trade is in no tick. *)
Lemma GetOHLCV_ticks_witness :
  tk_Volume <$> minute_ticks = [Some 12; Some 9] ∧
  StronglySorted (λ t t', tk_Timestamp t <= tk_Timestamp t') minute_ticks.
Proof.
  destruct (wp_run _ _ _ _ _ ohlcv_run (GetOHLCV_ticks 0 asked_pairs 1 "min" [600; 700] trade_site
    trade_site_stored trade_site_exact ltac:(done))) as (_ & start & finish & ps & groups & _ & _ & _ & _ & Hs & _).
  split; [vm_compute; reflexivity|exact Hs].
Defined.
Lemma ticks_wellformed_witness : length minute_ticks = 2%nat ∧ Forall (tick_ok asked_pairs) minute_ticks.
Proof.
  pose proof (wp_run _ _ _ _ _ ohlcv_run (ticks_wellformed 0 asked_pairs 1 "min" [600; 700] trade_site
    trade_site_stored trade_site_exact ltac:(done))) as Ht.
  split; [vm_compute; reflexivity|exact Ht].
Defined.
(** The trades at 601 and 630 seconds are in the first minute, the one at 661 in the second. *)
Lemma ticks_cover_their_trades_witness : ∃ groups,
  mjoin groups ≡ₚ base.filter (selected 600000 700000 asked_pairs) (rows trade_site) ∧
  Forall2 (λ g t, Forall (λ r, tk_Timestamp t <= w_created r < tk_Timestamp t + 60000) g) groups minute_ticks.
Proof.
  destruct (wp_run _ _ _ _ _ ohlcv_run (ticks_cover_their_trades 0 asked_pairs 1 "min" 60000 [600; 700] trade_site
    trade_site_stored trade_site_exact ltac:(done) eq_refl ltac:(lia))) as (start & finish & groups & Ht & Hg & Hb).
  injection Ht as <- <-. exists groups. split; [exact Hg|].
  eapply Forall2_impl; [exact Hb|]. intros g t [_ H]. exact H.
Defined.
