(* ===== verification/OrderEndpointProps.v ===== *)
(** What the order channel does with a message: which orders it publishes, what a
    blocked account changes, and which messages end the process. *)
From S2P Require Import Prelude BigMath Types Mongo Json Orders OrderCancels MatchTypes OrderCodec OrderDao OrderStore Pairs TradeDao Rabbit Engine EngineSpec EngineProps Ws WsProps Services Validator OrderService OrderServiceProps Accounts Tokens AccountService OrderEndpoint.

Section props.
Context {OS TS PS ES B AS KS : Type}.
Context `{OrderDaoSpec OS, TradeDaoSpec TS, PairDaoSpec PS, EthereumProviderSpec ES, AmqpLaws B}.
Context `{AccountDaoSpec AS, TokenDaoSpec KS}.
Context `{EthCommonLaws} `{AppConfig} `{!Codecs, !CodecLaws _ _} `{Big.Undefined}.
#[local] Abbreviation Site := (Site OS TS PS ES B AS KS).
Implicit Types w : Site.

Definition site_sent w : list (string * json) := sent (s_broker (site_services w)).
(** The collections are as their daos keep them. *)
Definition site_ok (ps : list Pair) w : Prop :=
  services_ok ps (site_services w) ∧ (∃ l, accounts (site_accounts w) l) ∧
  ∃ ts, tokens (site_tokens w) ts.
(** Only the registries, the messages to clients and the accounts changed. *)
Definition told w w' : Prop :=
  ∃ x, site_services w' = lset on_ws x (site_services w).

Lemma told_trans w1 w2 w3 : told w1 w2 → told w2 w3 → told w1 w3.
Proof. intros [x Hx] [y Hy]. exists y. by rewrite Hy, Hx. Qed.
Lemma told_sent w w' : told w w' → site_sent w' = site_sent w.
Proof. intros [x Hx]. unfold site_sent. by rewrite Hx. Qed.
Lemma told_ok ps w w' : told w w' → services_ok ps (site_services w) → services_ok ps (site_services w').
Proof. by intros [x ->]. Qed.
Lemma accepted_told ps t1 t2 w w' o o' :
  told w w' → accepted ps t1 t2 (site_services w') o o' → accepted ps t1 t2 (site_services w) o o'.
Proof. intros [x ->] [? ? ? Hf]. by split. Qed.

Lemma ws_told {A} (m : M Ws A) w :
  wp (zoom on_services (zoom on_ws m)) (λ r w', told w w' ∧
    site_accounts w' = site_accounts w ∧ site_tokens w' = site_tokens w ∧
    r = (m (s_ws (site_services w))).1) w.
Proof.
  unfold wp, zoom. simpl. destruct (m _) as [r x]. simpl. split_and!; [|done..]. by exists x.
Qed.

Lemma RegisterOrderConnection_total a c (x : Ws) : (RegisterOrderConnection a c x).1 = Ok tt.
Proof.
  unfold RegisterOrderConnection, RegisterConnectionUnsubscribeHandler, mbind, M_bind, get, modify.
  by repeat (simpl; case_match).
Qed.

Definition decoded_order (payload : json) (o : Order) : Prop := ∃ o0 h,
  unmarshal_new_order payload = Ok (Some o0) ∧ Order_ComputeHash o0 = Ok h ∧ o = set_o_Hash h o0.

(** What handling a message published. *)
Definition published_by (ps : list Pair) (t1 t2 : Z) (payload : json) w w' : Prop :=
  site_sent w' = site_sent w ∨ ∃ o o', decoded_order payload o ∧
    accepted ps t1 t2 (site_services w) o o' ∧ site_sent w' = site_sent w ++ [new_order_message o'].

Lemma submit_order_ok ps t1 t2 c o w w1 payload :
  services_ok ps (site_services w) → told w w1 → decoded_order payload o →
  wp (submit_order t1 t2 c o) (λ r w', published_by ps t1 t2 payload w w') w1.
Proof.
  intros Hw Ht Hd. unfold wp, submit_order.
  destruct (NewOrder t1 t2 (o, site_services w1)) as [r [o' s]] eqn:Hrun.
  destruct (wp_run _ _ _ _ _ Hrun (NewOrder_ok ps t1 t2 o _ (told_ok ps w w1 Ht Hw)))
    as [Hs Ha]. cbn [fst snd] in *. destruct Hs as (w2 & b & _ & -> & Hb).
  unfold wp, published_by. rewrite <-(told_sent w w1 Ht).
  destruct r as [[]|e|].
  - right. exists o, o'. split; [done|]. split; [|exact Hb].
    by apply (accepted_told ps t1 t2 w w1), Ha.
  - left. cbn beta iota. unfold send_order_error. lazymatch goal with |- site_sent (_ ?x).2 = _ =>
      destruct (ws_told (SendOrderErrorMessage c e (o_Hash o')) x) as (Ht' & _) end.
    rewrite (told_sent _ _ Ht').
    unfold site_sent. simpl. by rewrite Hb, app_nil_r.
  - left. unfold site_sent. simpl. by rewrite Hb, app_nil_r.
Qed.

(** Looking up, or opening, the account of the order's user. *)
Lemma FindOrCreate_told addr l ts w :
  accounts (site_accounts w) l → tokens (site_tokens w) ts →
  wp (AccountService.FindOrCreate addr) (λ r w', told w w' ∧ r ≠ Panic ∧
    ∀ a, r = Ok a → addr ∈ a_Address <$> l → a ∈ l ∧ a_Address a = addr) w.
Proof.
  intros Hl Hts. eapply wp_mono; [|by apply (FindOrCreate_ok addr l ts)].
  intros r w' (Hk & _ & Hp & l' & _ & Hr). split_and!; [|done|].
  - exists (s_ws (site_services w)). rewrite Hk. simpl. by destruct (site_services w).
  - intros a -> Ha. rewrite decide_True in Hr by done. tauto.
Qed.

Lemma handleNewOrder_ok ps t1 t2 payload c w :
  site_ok ps w →
  wp (handleNewOrder t1 t2 payload c) (λ r w', published_by ps t1 t2 payload w w') w.
Proof.
  intros (Hw & [l Hl] & [ts Hts]). unfold handleNewOrder.
  apply wp_bind, wp_attempt, wp_lift. destruct (unmarshal_new_order payload) as [o|e|] eqn:Hu;
    [| |by left].
  2:{ unfold wp_next. eapply wp_mono; [|apply ws_told]. intros r w' (Ht & _). left. by apply told_sent. }
  unfold wp_next. apply wp_bind, wp_lift. destruct o as [o|]; [|by left].
  apply wp_bind, wp_lift. destruct (Order_ComputeHash o) as [h|e|] eqn:Hh; [|by left..].
  unfold wp_next. set (o1 := set_o_Hash h o).
  assert (decoded_order payload o1) as Hd by by exists o, h.
  apply wp_bind. eapply wp_mono; [|apply ws_told]. intros r1 w1 (Ht1 & Hac & Htk & ->).
  rewrite RegisterOrderConnection_total. unfold wp_next. apply wp_bind, wp_attempt.
  eapply wp_mono; [|apply (FindOrCreate_told _ l ts); by rewrite ?Hac, ?Htk].
  intros r2 w2 (Ht2 & Hp2 & _).
  pose proof (told_trans _ _ _ Ht1 Ht2) as Ht. destruct r2 as [acc|e|]; [| |done].
  - unfold wp_next. apply wp_bind. destruct (a_IsBlocked acc).
    + eapply wp_mono; [|apply ws_told]. intros r3 w3 (Ht3 & _).
      assert (told w w3) as Ht' by (by eapply told_trans).
      destruct r3 as [[]|e|]; [by apply (submit_order_ok ps t1 t2 c o1 w w3)|left; by apply told_sent..].
    + apply wp_ret. by apply (submit_order_ok ps t1 t2 c o1 w w2).
  - unfold wp_next. apply wp_bind. eapply wp_mono; [|apply ws_told]. intros r3 w3 (Ht3 & _).
    assert (told w w3) as Ht' by (by eapply told_trans).
    destruct r3 as [[]|e'|]; left; by apply told_sent.
Qed.

(** C12: a NEW_ORDER message of a client publishes at most one order: the one it
    carries, decoded and with its own hash computed again, and only when the
    order service accepts it; every other outcome publishes nothing. *)
Theorem order_message_publishes ps t1 t2 payload c w r w' :
  site_ok ps w → handleNewOrder t1 t2 payload c w = (r, w') →
  site_sent w' = site_sent w ∨ ∃ o o', decoded_order payload o ∧
    accepted ps t1 t2 (site_services w) o o' ∧ site_sent w' = site_sent w ++ [new_order_message o'].
Proof. intros Hw Hrun. exact (wp_run _ _ _ _ _ Hrun (handleNewOrder_ok ps t1 t2 payload c w Hw)). Qed.

Definition blocked_message : WebsocketMessage :=
  mkWebsocketMessage OrderChannel "ERROR" "" (POther "Account is blocked").

(** A client is told something, or the sender waits for ever. *)
Lemma tell_ok c m w : wp (zoom on_services (zoom on_ws (send_on c m))) (λ r w', told w w' ∧
  match r with
  | Ok _ => ∃ before, inbox (s_ws (site_services w')) !! c = Some (before ++ [m])
  | Err _ => False
  | Panic => True
  end) w.
Proof.
  unfold wp, zoom. cbn [lget on_services on_ws].
  destruct (send_on_ok c m (s_ws (site_services w))) as [[_ [_ Hm]] _].
  destruct (send_on c m (s_ws (site_services w))) as [[[]|e|] x]; cbn [fst snd] in *; [|done|].
  - split; [by eexists|]. exists (received (s_ws (site_services w)) c). cbn.
    pose proof (proj2 Hm c) as Hr. rewrite decide_True in Hr by done. unfold received at 1 in Hr.
    destruct (inbox x !! c); simpl in Hr; [by rewrite <-Hr|]. by destruct (received _ _).
  - split; [by eexists|done].
Qed.

(** An account that is blocked is not stopped from trading: unless looking it up
    fails, or nobody receives what the client is told, its NEW_ORDER message is
    submitted to the order service like any other, after the client has been told
    "Account is blocked". *)
Theorem blocked_account_trades t1 t2 payload o c l ts a w r w' :
  accounts (site_accounts w) l → tokens (site_tokens w) ts →
  a ∈ l → a_Address a = o_UserAddress o → a_IsBlocked a = true → decoded_order payload o →
  handleNewOrder t1 t2 payload c w = (r, w') →
  (r = Panic ∧ site_sent w' = site_sent w) ∨
  ∃ w1, told w w1 ∧ (∃ before, inbox (s_ws (site_services w1)) !! c =
      Some (before ++ [blocked_message])) ∧
    submit_order t1 t2 c o w1 = (r, w').
Proof.
  intros Hl Hts Ha Hao Hb (o0 & h & Hu & Hh & ->) Hrun. by_wp Hrun. unfold handleNewOrder.
  apply wp_bind, wp_attempt, wp_lift. rewrite Hu. unfold wp_next. apply wp_bind, wp_lift. cbn [deref].
  unfold wp_next. apply wp_bind, wp_lift. rewrite Hh. unfold wp_next.
  apply wp_bind. eapply wp_mono; [|apply ws_told]. intros r1 w1 (Ht1 & Hac & Htk & ->).
  rewrite RegisterOrderConnection_total. unfold wp_next. apply wp_bind, wp_attempt.
  eapply wp_mono; [|apply (FindOrCreate_told _ l ts); by rewrite ?Hac, ?Htk].
  intros r2 w2 (Ht2 & Hp2 & Hfound). pose proof (told_trans _ _ _ Ht1 Ht2) as Ht.
  destruct r2 as [acc|e|]; [| |done].
  - unfold wp_next. apply wp_bind. assert (acc = a) as ->.
    { destruct (Hfound acc eq_refl) as [Hin Heq].
      - apply list_elem_of_fmap. by exists a.
      - apply (same_account l); [by eapply accounts_unique|done..|]. by rewrite Heq, Hao. }
    rewrite Hb. eapply wp_mono; [|apply (tell_ok c blocked_message)]. intros r3 w3 [Ht3 Hm].
    assert (told w w3) as Ht' by (by eapply told_trans). destruct r3 as [[]|e|]; [|done|].
    + right. exists w3. by split_and!; [|done|apply surjective_pairing].
    + left. split; [done|]. by apply told_sent.
  - unfold wp_next. apply wp_bind. eapply wp_mono; [|apply (tell_ok c)]. intros r3 w3 [Ht3 Hm].
    assert (site_sent w3 = site_sent w) as Hs by (apply told_sent; by eapply told_trans).
    by destruct r3 as [[]|e'|]; [left|done|left].
Qed.

(** Two messages any client can send never come to an end: they end the process, which
    recovers no panic.  A NEW_ORDER without a payload does, as its decoded order is nil,
    and a CANCEL_ORDER whose payload cannot be decoded, whose signature is used all the
    same, unless nobody receives the error it is to be told before. *)
Theorem malformed_message_panics t1 t2 c w :
  ws t1 t2 "NEW_ORDER" JNull c w = (Panic, w) ∧
  ∀ payload e, OrderCancel_UnmarshalJSON payload = Err e →
    (ws t1 t2 "CANCEL_ORDER" payload c w).1 = Panic.
Proof.
  split; [done|]. intros payload e He. unfold ws. rewrite decide_False, decide_True by done.
  change (wp (handleCancelOrder payload c) (λ r _, r = Panic) w). unfold handleCancelOrder.
  apply wp_bind, wp_attempt, wp_lift. rewrite He. apply wp_bind, wp_bind.
  eapply wp_mono; [|apply (tell_ok c)]. intros r w1 [_ Hr].
  by destruct r as [[]|e'|].
Qed.
End props.
