(* ===== verification/SiteWitness.v ===== *)
(** The order channel and the accounts at work: the server of [ServiceWitness]
    with collections of accounts and tokens. *)
From S2P Require Import Prelude BigMath Types Mongo ListMongo Json Aggregation Ticks Fixtures Orders MatchTypes OrderCancels OrderCodec TradeCodec OrderDao Collection Pairs Accounts AccountDaoProps Tokens TokenDaoProps OrderStore OrderDaoRefine TradeDao Rabbit Engine Toy EngineSpec EngineProps EngineWitness Ws WsProps Services AccountService PairService PairServiceProps Validator OrderService OrderServiceProps ServiceWitness OrderEndpoint OhlcvService Endpoints Channels EndpointProps OrderEndpointProps.
Import Running.

Abbreviation account_mongo := (ListMongo AccountDao.unique_index).
Abbreviation token_mongo := (ListMongo TokenDao.unique_index).
#[export] Instance toy_account_dao : IAccountDao coll := account_dao (Mongo0 := account_mongo).
#[export] Instance toy_account_dao_spec : AccountDaoSpec coll :=
  account_dao_spec (Mongo0 := account_mongo)
    (MongoLaws0 := ListMongo_laws AccountDao.unique_index) eq_refl.
#[export] Instance toy_token_dao : ITokenDao coll := token_dao (Mongo0 := token_mongo).
#[export] Instance toy_token_dao_spec : TokenDaoSpec coll :=
  token_dao_spec (Mongo0 := token_mongo)
    (MongoLaws0 := ListMongo_laws TokenDao.unique_index) eq_refl.
Abbreviation toy_site := (Site coll coll coll nat (list (string * json)) coll coll).

(** ** The collections *)
Definition toy_token (symbol : string) (a : Address) (quote : bool) : Token :=
  mkToken "" symbol symbol 0 (mkImage "" []) a 18 true false quote None None (0) (0).
Definition two_tokens : outcome unit * coll :=
  (_ ← kd_Create (toy_token "TOMO" 11 false); _ ← kd_Create (toy_token "WETH" 12 true); mret tt)
    (Coll [] 3000000 0).
Definition toy_tokens : list Token :=
  [TokenDao.stamped "id1" 3000000 3000000 (toy_token "WETH" 12 true);
   TokenDao.stamped "id0" 3000000 3000000 (toy_token "TOMO" 11 false)].
Definition account_of (u : Address) (blocked : bool) : Account :=
  mkAccount "" u ∅ blocked (0) (0).
(** User 8 is blocked; user 9 has no account. *)
Definition one_account : outcome (Account * (error + unit)) * coll :=
  ad_Create (account_of 8 true) (Coll [] 2000000 0).
Definition blocked : Account := set_a_ID "id0" (account_of 8 true).
Definition site0 : toy_site := mkSite server0 one_account.2 two_tokens.2.

Lemma two_tokens_ok : tokens two_tokens.2 toy_tokens.
Proof.
  split; [|apply (bool_decide_unpack _); vm_compute; exact I].
  repeat constructor; vm_compute; reflexivity.
Defined.
Lemma one_account_ok : accounts one_account.2 [blocked].
Proof.
  split; [|apply (bool_decide_unpack _); vm_compute; exact I].
  constructor; [|constructor]. split; [vm_compute; reflexivity|]. split; [vm_compute; reflexivity|].
  exists []. split; [vm_compute; reflexivity|]. constructor.
Defined.
Lemma site0_ok : site_ok [kept_pair] site0.
Proof.
  split; [exact server0_ok|]. split; [exists [blocked]; exact one_account_ok|].
  exists toy_tokens. exact two_tokens_ok.
Defined.

(** ** The account of a user who was not seen before *)
Definition found : outcome Account * toy_site := AccountService.FindOrCreate 9 site0.
Definition found_account : Account := match found.1 with Ok a => a | _ => blocked end.
Lemma found_run : AccountService.FindOrCreate 9 site0 = (Ok found_account, found.2).
Proof. vm_compute. reflexivity. Defined.

Lemma FindOrCreate_account_witness :
  fresh_account 9 toy_tokens found_account ∧
  ∃ l, accounts (site_accounts found.2) l ∧ l ≡ₚ [written found_account; blocked].
Proof.
  destruct (FindOrCreate_account 9 [blocked] toy_tokens site0 _ _ one_account_ok two_tokens_ok
    found_run) as (_ & _ & _ & l & Hl & Hr).
  rewrite decide_False in Hr by (apply (bool_decide_unpack _); vm_compute; exact I).
  destruct Hr as [Hf Hp]. split; [exact Hf|]. exists l. split; [exact Hl|exact Hp].
Defined.

(** ** Updating a balance *)
Definition new_balance : TokenBalance :=
  mkTokenBalance 11 "TOMO" (Some 50) (Some 40) (Some 30) (Some 20).
Definition balance_updated : outcome unit * coll :=
  AccountDao.UpdateTokenBalance (Mongo0 := account_mongo) 8 11 new_balance one_account.2.
Lemma balance_updated_run :
  AccountDao.UpdateTokenBalance (Mongo0 := account_mongo) 8 11 new_balance one_account.2 =
  (Ok tt, balance_updated.2).
Proof. vm_compute. reflexivity. Defined.
Definition balance_read : outcome (option (gmap Z TokenBalance)) * coll :=
  AccountDao.GetTokenBalances (Mongo0 := account_mongo) 8 balance_updated.2.
Definition read_balances : option (gmap Z TokenBalance) :=
  match balance_read.1 with Ok m => m | _ => None end.
Lemma balance_read_run :
  AccountDao.GetTokenBalances (Mongo0 := account_mongo) (a_Address blocked) balance_updated.2 =
  (Ok read_balances, balance_read.2).
Proof. vm_compute. reflexivity. Defined.

(** The pending balance is not the 30 that was written. *)
Lemma UpdateTokenBalance_keeps_pending_witness : ∃ m v, read_balances = Some m ∧
  m !! 11 = Some v ∧ tb_Balance v = Some 50 ∧ tb_PendingBalance v = None.
Proof.
  destruct (UpdateTokenBalance_keeps_pending (MongoLaws0 := ListMongo_laws AccountDao.unique_index)
    eq_refl 11 new_balance one_account.2 [blocked] blocked balance_updated.2 read_balances
    balance_read.2 one_account_ok) as (m & Hm & _ & Hu).
  - left.
  - by eexists.
  - by eexists.
  - by eexists.
  - exact balance_updated_run.
  - exact balance_read_run.
  - exists m. eexists. split; [exact Hm|]. split; [exact Hu|]. by split.
Defined.

(** ** Messages of the order channel *)
Definition message (o : Order) : json := Order_MarshalJSON o.
Definition raw (o : Order) : Order :=
  match unmarshal_new_order (message o) with Ok (Some o) => o | _ => o end.
Definition hash_of (o : Order) : Hash := match Order_ComputeHash o with Ok h => h | _ => 0 end.
Definition decoded (o : Order) : Order := set_o_Hash (hash_of (raw o)) (raw o).
Lemma sell_decoded : decoded_order (message sell) (decoded sell).
Proof.
  exists (raw sell), (hash_of (raw sell)).
  split; [vm_compute; reflexivity|]. split; [vm_compute; reflexivity|reflexivity].
Defined.
Definition sell_handled : outcome unit * toy_site :=
  handleNewOrder 6000000 7000000 (message sell) 1%nat site0.
Lemma sell_handled_run :
  handleNewOrder 6000000 7000000 (message sell) 1%nat site0 = (Ok tt, sell_handled.2).
Proof. vm_compute. reflexivity. Defined.

Lemma order_message_publishes_witness : ∃ o o', decoded_order (message sell) o ∧
  accepted [kept_pair] 6000000 7000000 server0 o o' ∧
  site_sent sell_handled.2 = [new_order_message o'].
Proof.
  destruct (order_message_publishes [kept_pair] 6000000 7000000 (message sell) 1%nat site0 _ _
    site0_ok sell_handled_run) as [Hs|(o & o' & Hd & Ha & Hs)].
  - exfalso. vm_compute in Hs. discriminate Hs.
  - exists o, o'. split; [exact Hd|]. split; [exact Ha|exact Hs].
Defined.

(** An order of the blocked user. *)
Definition blocked_sell : Order := toy_order 8 1 0 (10 ^ 20) (10 ^ 25).
Lemma blocked_decoded : decoded_order (message blocked_sell) (decoded blocked_sell).
Proof.
  exists (raw blocked_sell), (hash_of (raw blocked_sell)).
  split; [vm_compute; reflexivity|]. split; [vm_compute; reflexivity|reflexivity].
Defined.
Definition blocked_handled : outcome unit * toy_site :=
  handleNewOrder 6000000 7000000 (message blocked_sell) 1%nat site0.
Lemma blocked_handled_run :
  handleNewOrder 6000000 7000000 (message blocked_sell) 1%nat site0 = (Ok tt, blocked_handled.2).
Proof. vm_compute. reflexivity. Defined.

Lemma blocked_account_trades_witness :
  ∃ w1 : toy_site, told site0 w1 ∧
    submit_order 6000000 7000000 1%nat (decoded blocked_sell) w1 = (Ok tt, blocked_handled.2).
Proof.
  destruct (blocked_account_trades 6000000 7000000 (message blocked_sell) (decoded blocked_sell)
    1%nat [blocked] toy_tokens blocked site0 _ _ one_account_ok two_tokens_ok ltac:(left)
    eq_refl eq_refl blocked_decoded blocked_handled_run)
    as [[Hp _]|(w1 & Ht & _ & Hr)]; [discriminate Hp|].
  exists w1. split; [exact Ht|exact Hr].
Defined.
Example blocked_order_sent : (site_sent blocked_handled.2).*1 = ["order"].
Proof. vm_compute. reflexivity. Qed.

Lemma malformed_message_panics_witness :
  (ws 6000000 7000000 "CANCEL_ORDER" (JStr "cancel") 1%nat site0).1 = Panic.
Proof.
  exact (proj2 (malformed_message_panics 6000000 7000000 1%nat site0) (JStr "cancel") _ eq_refl).
Defined.

(** * Pairs at work: a server with two registered tokens and no pair *)

(** No contract answers. *)
#[export] Instance toy_contract_info : IContractInfo nat := {|
  Symbol _ := fail "no contract code at given address";
  TokenDecimals _ := fail "no contract code at given address"
|}.

Definition charged_token (symbol : string) (a : Address) (quote : bool) : Token :=
  mkToken "" symbol symbol 0 (mkImage "" []) a 18 true false quote (Some 1) (Some 2) 0 0.
Definition charged : outcome unit * coll :=
  (_ ← kd_Create (charged_token "TOMO" 11 false); _ ← kd_Create (charged_token "WETH" 12 true); mret tt)
    (Coll [] 3000000 0).
Definition charged_tokens : list Token :=
  [TokenDao.stamped "id1" 3000000 3000000 (charged_token "WETH" 12 true);
   TokenDao.stamped "id0" 3000000 3000000 (charged_token "TOMO" 11 false)].
Definition no_pairs : toy_site :=
  mkSite (mkServices (w_orders toy_start) (Coll [] 0 0) (Coll [] 4000000 0) 0%nat (mkConnection [] ∅ ∅) empty_ws)
    (Coll [] 0 0) charged.2.
Lemma no_pairs_ok : site_in [] charged_tokens no_pairs.
Proof.
  split; [constructor|]. split; [|apply (bool_decide_unpack _); vm_compute; exact I].
  repeat constructor; vm_compute; reflexivity.
Defined.

Definition asked_pair : Pair :=
  mkPair "" "" 11 0 "" 12 0 true true 3 (Some 1) (Some 2) 0 0.
Definition created_run := PairService.Create asked_pair no_pairs.
Definition new_one : Pair := match created_run.1 with Ok p => p | _ => asked_pair end.
Lemma created_run_ok : PairService.Create asked_pair no_pairs = (Ok new_one, created_run.2).
Proof. vm_compute. reflexivity. Defined.
Lemma Create_new_pair_witness :
  p_BaseTokenSymbol new_one = "TOMO" ∧ new_pair asked_pair [] charged_tokens new_one.
Proof.
  destruct (wp_run _ _ _ _ _ created_run_ok (Create_new_pair asked_pair [] charged_tokens no_pairs no_pairs_ok))
    as (_ & ps' & _ & _ & Hn & _).
  split; [vm_compute; reflexivity|exact Hn].
Defined.

Definition pairs_run := PairService.CreatePairs 11 no_pairs.
Definition made : list Pair := match pairs_run.1 with Ok l => l | _ => [] end.
Lemma pairs_run_ok : PairService.CreatePairs 11 no_pairs = (Ok made, pairs_run.2).
Proof. vm_compute. reflexivity. Defined.
(** The pair is called TOMO/WETH, and is of no token. *)
Lemma CreatePairs_zero_tokens_witness :
  (λ p, (p_BaseTokenSymbol p, p_QuoteTokenSymbol p)) <$> made = [("TOMO", "WETH")] ∧
  Forall (λ p, tokens_of p = (0, 0)) made.
Proof.
  assert (11 ∈ k_ContractAddress <$> charged_tokens) as Hin by (apply (bool_decide_unpack _); vm_compute; exact I).
  destruct (wp_run _ _ _ _ _ pairs_run_ok (CreatePairs_zero_tokens 11 [] charged_tokens no_pairs no_pairs_ok
    Hin ltac:(done) (not_elem_of_nil _))) as (_ & ps' & l & _ & [Hz _] & Hl & _).
  split; [vm_compute; reflexivity|]. rewrite Hl. exact Hz.
Defined.

(** ** The request for the pair *)
Definition pair_request : json :=
  JObj [("baseTokenAddress", JStr (Address_Hex 11)); ("quoteTokenAddress", JStr (Address_Hex 12));
        ("baseTokenSymbol", JStr "TOMO"); ("quoteTokenSymbol", JStr "WETH")].
Definition request_run := HandleCreatePair pair_request no_pairs.
Definition pair_body : json := match request_run.1 with Ok (WriteJSON _ j) => j | _ => JNull end.
Lemma request_run_ok : HandleCreatePair pair_request no_pairs = (Ok (WriteJSON 201 pair_body), request_run.2).
Proof. vm_compute. reflexivity. Defined.
Lemma created_pair_refuses_orders_witness :
  ∃ p, tokens_of p = (11, 12) ∧ p_MakeFee p = None ∧
    ∀ t1 t2 o, (o_BaseToken o, o_QuoteToken o) = (11, 12) →
      (NewOrder t1 t2 (o, site_services request_run.2)).1 ≠ Ok tt.
Proof.
  destruct (wp_run _ _ _ _ _ request_run_ok (created_pair_refuses_orders pair_request [] charged_tokens no_pairs
    no_pairs_ok toy_start_inv ltac:(constructor)) pair_body eq_refl)
    as (q & ps' & p & Hq & _ & _ & _ & Ht & Hm & _ & Hr).
  assert (tokens_of q = (11, 12)) as Hq' by (vm_compute in Hq; by injection Hq as <-).
  rewrite Ht, Hq' in Hr.
  exists p. split_and!; [by rewrite Ht|done|]. intros t1 t2 o Ho. specialize (Hr t1 t2 o Ho). unfold wp in Hr.
  by destruct (NewOrder t1 t2 (o, site_services request_run.2)).
Defined.

(** ** Ticks and statistics in their other forms *)
#[export] Instance toy_other_decimal : OtherDecimal128 := λ _, Err "is not a valid Decimal128".
#[export] Instance toy_exact_decimal : ServerDecimal := {|
  inexact_to_decimal _ := None; round_decimal := id; inexact_decimal_string := Big.String_Z
|}.
Lemma Tick_roundtrips_witness :
  let t := mkTick (mkPairID "TOMO/WETH" 11 12) (Some 60) (Some 2) (Some 60) (Some 40) (Some 40) (Some 12) 600000 in
  (d ← Tick_GetBSON t; Tick_SetBSON d) = Ok t ∧ Tick_UnmarshalJSON (Tick_MarshalJSON t) t = Ok t.
Proof.
  intros t. apply (Tick_roundtrips t t). split_and!; eexists; (split; [reflexivity|vm_compute; reflexivity]).
Defined.
