(* ===== verification/Deposits.v ===== *)
(** [daos/association.go] and [daos/config.go]: the associations of deposit
    addresses with users, and the counters of the swap. *)
From Stdlib Require Import Ascii.
From S2P Require Import Prelude BigMath Types DepositTypes Mongo Json OrderDao Collection Services.

(** [bson] has no unsigned integers: one that fits an [int64] is encoded, a larger
    one is an error; decoding reads the [int64] back as unsigned. *)
Definition bson_of_uint (n : Z) : outcome bval :=
  if n <? 2 ^ 63 then Ok (BInt n)
  else Err "BSON has no uint64 type, and value is too large to fit correctly in an int64".
Definition bson_uint (k : string) (d : doc) : outcome Z :=
  n ← bson_int k d; Ok (n `mod` 2 ^ 64).

(** [types.AddressAssociationRecord] is decoded by its tags. *)
Definition association_of (d : doc) : outcome AddressAssociationRecord :=
  id ← bson_id "_id" d;
  addressIndex ← bson_uint "addressIndex" d;
  chain ← bson_string "chain" d;
  address ← bson_string "address" d;
  status ← bson_string "status" d;
  associatedAddress ← bson_string "associatedAddress" d;
  txEnvelopes ← bson_strings "txEnvelopes" d;
  pairName ← bson_string "pairName" d;
  baseTokenAddress ← bson_string "baseTokenAddress" d;
  quoteTokenAddress ← bson_string "quoteTokenAddress" d;
  createdAt ← bson_time "createdAt" d;
  updatedAt ← bson_time "updatedAt" d;
  Ok (mkAddressAssociationRecord id addressIndex chain address status associatedAddress
        txEnvelopes pairName baseTokenAddress quoteTokenAddress createdAt updatedAt).

(** [err == mgo.ErrNotFound] is no error. *)
Definition or_none {S A} (m : M S A) : M S (option A) :=
  r ← attempt m;
  match r with
  | inr a => mret (Some a)
  | inl e => if decide (e = not_found) then mret None else fail e
  end.

(** ** daos/association.go *)
Module AssociationDao.
Section dao.
Context `{EthCommon, HexCommon}.
Context {W : Type} `{Mongo W}.

Definition unique_index : list (list string) :=
  [["chain"; "address"]; ["chain"; "associatedAddress"]].

Definition getAddressKey (a : Address) : string := "0x" +:+ Bytes2Hex (Address_Bytes a).

Definition by_address (chain : string) (a : Address) : query :=
  Fields [("chain", Equal (BStr chain)); ("address", Equal (BStr (getAddressKey a)))].
Definition by_associated (chain key : string) : query :=
  Fields [("chain", Equal (BStr chain)); ("associatedAddress", Equal (BStr key))].

Definition SaveDepositTransaction (chain : string) (sourceAccount : Address)
    (txEnvelope : string) : M W unit :=
  UpdateOne (by_address chain sourceAccount) (UAddToSet "txEnvelopes" (BStr txEnvelope)).

Definition GetAssociationByChainAddress (chain : string) (userAddress : Address) :
    M W (option AddressAssociationRecord) :=
  or_none (d ← FindOne (by_address chain userAddress); lift (association_of d)).
Definition GetAssociationByChainAssociatedAddress (chain : string) (associatedAddress : Address) :
    M W (option AddressAssociationRecord) :=
  or_none (d ← FindOne (by_associated chain (getAddressKey associatedAddress));
           lift (association_of d)).

(** Neither the identifier, the envelopes nor the times are written. *)
Definition association_fields (r : AddressAssociationRecord) (addressIndex : bval) : doc :=
  [("associatedAddress", BStr (ToLower (ar_AssociatedAddress r)));
   ("chain", BStr (ar_Chain r));
   ("addressIndex", addressIndex);
   ("address", BStr (ToLower (ar_Address r)));
   ("pairName", BStr (ar_PairName r));
   ("status", BStr (ar_Status r));
   ("quoteTokenAddress", BStr (ar_QuoteTokenAddress r));
   ("baseTokenAddress", BStr (ar_BaseTokenAddress r))].
Definition SaveAssociation (r : AddressAssociationRecord) : M W unit :=
  addressIndex ← lift (bson_of_uint (ar_AddressIndex r));
  UpsertOne (by_associated (ar_Chain r) (ToLower (ar_AssociatedAddress r)))
    (USet (association_fields r addressIndex) []).

Definition SaveAssociationStatus (chain : string) (sourceAccount : Address) (status : string) :
    M W unit :=
  UpdateOne (by_address chain sourceAccount) (USet [("status", BStr status)] []).
Definition Drop : M W unit := DropColl.
End dao.
End AssociationDao.

(** [interfaces.AssociationDao] *)
Class IAssociationDao (AS : Type) := {
  as_GetByChainAddress : string → Address → M AS (option AddressAssociationRecord);
  as_GetByChainAssociatedAddress : string → Address → M AS (option AddressAssociationRecord);
  as_SaveAssociation : AddressAssociationRecord → M AS unit;
  as_SaveDepositTransaction : string → Address → string → M AS unit;
  as_SaveAssociationStatus : string → Address → string → M AS unit
}.

(** ** daos/config.go *)

(** [strconv.ParseUint(s, 10, 64)]: digits only, without a sign. *)
Definition is_digit (c : ascii) : bool :=
  let n := nat_of_ascii c in bool_decide (48 ≤ n ∧ n ≤ 57)%nat.
Definition ParseUint (s : string) : outcome Z :=
  if bool_decide (s = "") || negb (forallb is_digit (String.list_ascii_of_string s))
  then Err "strconv.ParseUint: invalid syntax"
  else match Big.SetString s with
       | Some n => if n <? 2 ^ 64 then Ok n else Err "strconv.ParseUint: value out of range"
       | None => Err "strconv.ParseUint: invalid syntax"
       end.

Module ConfigDao.
Section dao.
Context {W : Type} `{Mongo W}.

Definition unique_index : list (list string) := [["key"]].
Definition schemaVersionKey : string := "swap_schema_version".
Definition ethereumAddressIndexKey : string := "ethereum_address_index".
Definition ethereumLastBlockKey : string := "ethereum_last_block".
Definition bitcoinAddressIndexKey : string := "bitcoin_address_index".
Definition bitcoinLastBlockKey : string := "bitcoin_last_block".
Definition defaultBlockIndex : Z := 0.

Definition getAddressIndexKey (chain : string) : outcome string :=
  if decide (chain = ChainEthereum) then Ok ethereumAddressIndexKey
  else if decide (chain = ChainBitcoin) then Ok bitcoinAddressIndexKey
  else Err "Invalid chain".
Definition last_block_key (chain : string) : outcome string :=
  if decide (chain = ChainEthereum) then Ok ethereumLastBlockKey
  else if decide (chain = ChainBitcoin) then Ok bitcoinLastBlockKey
  else Err "Invalid chain".

Definition by_key (key : string) : query := Fields [("key", Equal (BStr key))].
(** [response.Value], an [interface{}]. *)
Definition getValueFromKey (key : string) : M W (option bval) :=
  r ← attempt (FindOne (by_key key));
  match r with
  | inl _ => fail ("Value not found for key: " +:+ key)
  | inr d => mret (field "value" d)
  end.
Definition uint_of (v : option bval) : outcome Z :=
  match v with
  | Some (BInt z) => Ok (z `mod` 2 ^ 64)
  | Some (BStr s) => ParseUint s
  | _ => Err "Can not process type"
  end.
Definition getUint64ValueFromKey (key : string) : M W Z :=
  value ← getValueFromKey key; lift (uint_of value).

Definition GetSchemaVersion : M W Z :=
  r ← attempt (getUint64ValueFromKey schemaVersionKey);
  mret (match r with inl _ => 0 | inr v => v end).
Definition GetAddressIndex (chain : string) : M W Z :=
  key ← lift (getAddressIndexKey chain); getUint64ValueFromKey key.
Definition IncrementAddressIndex (chain : string) : M W unit :=
  key ← lift (getAddressIndexKey chain); UpdateOne (by_key key) (UInc "value" 1).
Definition GetBlockToProcess (chain : string) : M W Z :=
  key ← lift (last_block_key chain); getUint64ValueFromKey key.
Definition SaveLastProcessedBlock (chain : string) (block : Z) : M W unit :=
  key ← lift (last_block_key chain);
  value ← lift (bson_of_uint block);
  UpsertOne (by_key key) (USet [("value", value)] []).
Definition ResetBlockCounters : M W unit :=
  SaveLastProcessedBlock ChainEthereum defaultBlockIndex ;;
  SaveLastProcessedBlock ChainBitcoin defaultBlockIndex.
Definition Drop : M W unit := DropColl.
End dao.
End ConfigDao.

(** [interfaces.ConfigDao] *)
Class IConfigDao (CS : Type) := {
  cf_GetSchemaVersion : M CS Z;
  cf_GetAddressIndex : string → M CS Z;
  cf_IncrementAddressIndex : string → M CS unit;
  cf_GetBlockToProcess : string → M CS Z;
  cf_SaveLastProcessedBlock : string → Z → M CS unit
}.

(** ** The contracts *)

(** go-ethereum's two ways of printing an address in hexadecimal: [Hex] is
    [Bytes2Hex] of the bytes with some letters in upper case. *)
Class AddressKeyLaws `(EthCommon, HexCommon) := {
  ToLower_Hex a : ToLower (Address_Hex a) = AssociationDao.getAddressKey a;
  HexToAddress_key a : HexToAddress (AssociationDao.getAddressKey a) = a
}.

Section contract.
Context `{EthCommon, HexCommon}.
Implicit Types x r : AddressAssociationRecord.

Definition set_ar_Status (st : string) x : AddressAssociationRecord :=
  mkAddressAssociationRecord (ar_ID x) (ar_AddressIndex x) (ar_Chain x) (ar_Address x) st
    (ar_AssociatedAddress x) (ar_TxEnvelopes x) (ar_PairName x) (ar_BaseTokenAddress x)
    (ar_QuoteTokenAddress x) (ar_CreatedAt x) (ar_UpdatedAt x).
Definition set_ar_TxEnvelopes (l : list string) x : AddressAssociationRecord :=
  mkAddressAssociationRecord (ar_ID x) (ar_AddressIndex x) (ar_Chain x) (ar_Address x) (ar_Status x)
    (ar_AssociatedAddress x) l (ar_PairName x) (ar_BaseTokenAddress x)
    (ar_QuoteTokenAddress x) (ar_CreatedAt x) (ar_UpdatedAt x).
Definition add_envelope (e : string) x : AddressAssociationRecord :=
  if decide (e ∈ ar_TxEnvelopes x) then x else set_ar_TxEnvelopes (ar_TxEnvelopes x ++ [e]) x.
(** [SaveAssociation] of [r] over what was stored. *)
Definition overwritten r x : AddressAssociationRecord :=
  mkAddressAssociationRecord (ar_ID x) (ar_AddressIndex r) (ar_Chain r) (ToLower (ar_Address r))
    (ar_Status r) (ToLower (ar_AssociatedAddress r)) (ar_TxEnvelopes x) (ar_PairName r)
    (ar_BaseTokenAddress r) (ar_QuoteTokenAddress r) (ar_CreatedAt x) (ar_UpdatedAt x).
Definition blank_association (id : string) : AddressAssociationRecord :=
  mkAddressAssociationRecord id 0 "" "" "" "" [] "" "" "" 0 0.

Definition paid_to (chain : string) (a : Address) x : Prop :=
  ar_Chain x = chain ∧ ar_Address x = AssociationDao.getAddressKey a.
Definition of_user (chain key : string) x : Prop :=
  ar_Chain x = chain ∧ ar_AssociatedAddress x = key.
#[export] Instance paid_to_dec chain a x : Decision (paid_to chain a x).
Proof. unfold paid_to. apply _. Defined.
#[export] Instance of_user_dec chain key x : Decision (of_user chain key x).
Proof. unfold of_user. apply _. Defined.

(** A query for the one record that satisfies [P]. *)
Definition found_association {AS} (inv : AS → Prop) (P : AddressAssociationRecord → Prop)
    (l : list AddressAssociationRecord) (r : outcome (option AddressAssociationRecord)) (s : AS) : Prop :=
  inv s ∧ match r with
          | Ok (Some x) => x ∈ l ∧ P x
          | Ok None => Forall (λ x, ¬ P x) l
          | Err _ => True | Panic => False
          end.
(** An update of one record that satisfies [P]. *)
Definition one_updated (P : AddressAssociationRecord → Prop)
    (f : AddressAssociationRecord → AddressAssociationRecord)
    (l l' : list AddressAssociationRecord) : Prop :=
  ∃ x rest, l ≡ₚ x :: rest ∧ P x ∧ l' ≡ₚ f x :: rest.
Definition update_or_fail {AS} (inv : AS → list AddressAssociationRecord → Prop)
    (eff : list AddressAssociationRecord → list AddressAssociationRecord → Prop)
    (l : list AddressAssociationRecord) (r : outcome unit) (s : AS) : Prop :=
  ∃ l', inv s l' ∧
    match r with Ok _ => eff l l' | Err _ => l' = l ∨ eff l l' | Panic => False end.

Class AssociationDaoSpec (AS : Type) `{IAssociationDao AS} := {
  associations : AS → list AddressAssociationRecord → Prop;
  associations_addresses s l :
    associations s l → NoDup ((λ x, (ar_Chain x, ar_Address x)) <$> l);
  associations_users s l :
    associations s l → NoDup ((λ x, (ar_Chain x, ar_AssociatedAddress x)) <$> l);
  GetByChainAddress_spec chain a l s : associations s l →
    wp (as_GetByChainAddress chain a) (found_association (λ s, associations s l) (paid_to chain a) l) s;
  GetByChainAssociatedAddress_spec chain a l s : associations s l →
    wp (as_GetByChainAssociatedAddress chain a)
      (found_association (λ s, associations s l) (of_user chain (AssociationDao.getAddressKey a)) l) s;
  SaveAssociation_spec r l s : associations s l → 0 <= ar_AddressIndex r →
    let user := of_user (ar_Chain r) (ToLower (ar_AssociatedAddress r)) in
    wp (as_SaveAssociation r) (update_or_fail associations (λ l l',
      one_updated user (overwritten r) l l' ∨
      Forall (λ x, ¬ user x) l ∧ ∃ id, l' ≡ₚ overwritten r (blank_association id) :: l) l) s;
  SaveDepositTransaction_spec chain a e l s : associations s l →
    wp (as_SaveDepositTransaction chain a e)
      (update_or_fail associations (one_updated (paid_to chain a) (add_envelope e)) l) s;
  SaveAssociationStatus_spec chain a st l s : associations s l →
    wp (as_SaveAssociationStatus chain a st)
      (update_or_fail associations (one_updated (paid_to chain a) (set_ar_Status st)) l) s
}.
End contract.

(** The counters: the integers of the collection, by key. *)
Definition counter_read {CS} (inv : CS → Prop) (key : outcome string) (m : gmap string Z)
    (r : outcome Z) (s : CS) : Prop :=
  inv s ∧ match r with
          | Ok v => ∃ k z, key = Ok k ∧ m !! k = Some z ∧ v = z `mod` 2 ^ 64
          | Err _ => True | Panic => False
          end.
Definition counter_written {CS} (inv : CS → gmap string Z → Prop)
    (eff : gmap string Z → Prop) (m : gmap string Z) (r : outcome unit) (s : CS) : Prop :=
  ∃ m', inv s m' ∧
    match r with Ok _ => eff m' | Err _ => m' = m ∨ eff m' | Panic => False end.
Class ConfigDaoSpec (CS : Type) `{IConfigDao CS} := {
  counters : CS → gmap string Z → Prop;
  cf_GetAddressIndex_spec chain m s : counters s m →
    wp (cf_GetAddressIndex chain)
      (counter_read (λ s, counters s m) (ConfigDao.getAddressIndexKey chain) m) s;
  cf_GetBlockToProcess_spec chain m s : counters s m →
    wp (cf_GetBlockToProcess chain)
      (counter_read (λ s, counters s m) (ConfigDao.last_block_key chain) m) s;
  cf_IncrementAddressIndex_spec chain m s : counters s m →
    wp (cf_IncrementAddressIndex chain) (counter_written counters (λ m', ∃ k z,
      ConfigDao.getAddressIndexKey chain = Ok k ∧ m !! k = Some z ∧ m' = <[k := z + 1]> m) m) s;
  cf_SaveLastProcessedBlock_spec chain block m s : counters s m → 0 <= block →
    wp (cf_SaveLastProcessedBlock chain block) (counter_written counters (λ m', ∃ k,
      ConfigDao.last_block_key chain = Ok k ∧ m' = <[k := block]> m) m) s
}.
