(* ===== verification/DepositDaoProps.v ===== *)
(** [daos/association.go] and [daos/config.go] implement the contracts of
    [Deposits], over collections with their unique indexes. *)
From S2P Require Import Prelude BigMath Types DepositTypes Mongo Json OrderDao Collection Services Deposits.

(** ** Associations *)
Section associations.
Context `{AddressKeyLaws}.
Context {W : Type} `{Runtime W, !Mongo W, !MongoLaws W}.
Implicit Types x r : AddressAssociationRecord.

#[export] Instance association_dao : IAssociationDao W := {|
  as_GetByChainAddress := AssociationDao.GetAssociationByChainAddress;
  as_GetByChainAssociatedAddress := AssociationDao.GetAssociationByChainAssociatedAddress;
  as_SaveAssociation := AssociationDao.SaveAssociation;
  as_SaveDepositTransaction := AssociationDao.SaveDepositTransaction;
  as_SaveAssociationStatus := AssociationDao.SaveAssociationStatus
|}.

(** Decoding never fails. *)
Definition value {A} (d : A) (r : outcome A) : A := match r with Ok a => a | _ => d end.
Definition record_of (d : doc) : AddressAssociationRecord :=
  mkAddressAssociationRecord (value "" (bson_id "_id" d)) (value 0 (bson_uint "addressIndex" d))
    (value "" (bson_string "chain" d)) (value "" (bson_string "address" d))
    (value "" (bson_string "status" d)) (value "" (bson_string "associatedAddress" d))
    (value [] (bson_strings "txEnvelopes" d)) (value "" (bson_string "pairName" d))
    (value "" (bson_string "baseTokenAddress" d)) (value "" (bson_string "quoteTokenAddress" d))
    (value 0 (bson_time "createdAt" d)) (value 0 (bson_time "updatedAt" d)).

Lemma bson_string_value k d : bson_string k d = Ok (value "" (bson_string k d)).
Proof. unfold bson_string. by destruct (field k d) as [[]|]. Qed.
Lemma bson_id_value k d : bson_id k d = Ok (value "" (bson_id k d)).
Proof. unfold bson_id. by destruct (field k d) as [[]|]. Qed.
Lemma bson_uint_value k d : bson_uint k d = Ok (value 0 (bson_uint k d)).
Proof. unfold bson_uint, bson_int. by destruct (field k d) as [[]|]. Qed.
Lemma bson_time_value k d : bson_time k d = Ok (value 0 (bson_time k d)).
Proof. unfold bson_time. by destruct (field k d) as [[]|]. Qed.
Lemma bson_strings_value k d : bson_strings k d = Ok (value [] (bson_strings k d)).
Proof. unfold bson_strings. by destruct (field k d) as [[]|]. Qed.

Lemma bind_value {A B} (d : A) (r : outcome A) (f : A → outcome B) :
  r = Ok (value d r) → (r ≫= f) = f (value d r).
Proof. by intros Hr; rewrite Hr at 1. Qed.
Lemma association_of_record d : association_of d = Ok (record_of d).
Proof.
  unfold association_of.
  repeat (erewrite bind_value; [cbv beta|first [apply bson_string_value|apply bson_id_value|
    apply bson_uint_value|apply bson_time_value|apply bson_strings_value]]).
  done.
Qed.

(** A document that stores an association. *)
Definition envelopes_ok (d : doc) : Prop :=
  field "txEnvelopes" d = None ∨ ∃ l, field "txEnvelopes" d = Some (BArr (BStr <$> l)).
Definition is_string (k : string) (d : doc) : Prop := ∃ s, field k d = Some (BStr s).
Definition association_doc (d : doc) : Prop :=
  is_string "chain" d ∧ is_string "address" d ∧ is_string "associatedAddress" d ∧ envelopes_ok d.
Definition stores_association x d : Prop := x = record_of d ∧ association_doc d.

Definition associations_in (s : W) (l : list AddressAssociationRecord) : Prop :=
  Forall2 stores_association l (docs s) ∧ unique_ok unique_keys (docs s).
Lemma associations_docs s s' l :
  associations_in s l → docs s' = docs s → associations_in s' l.
Proof. unfold associations_in. by intros ? ->. Qed.

Lemma string_value k d v : field k d = Some (BStr v) → value "" (bson_string k d) = v.
Proof. unfold bson_string. by intros ->. Qed.
Lemma string_field k d : is_string k d → field k d = Some (BStr (value "" (bson_string k d))).
Proof. intros [v Hv]. by rewrite (string_value k d v). Qed.

Lemma two_strings_match k1 k2 v1 v2 d :
  is_string k1 d → is_string k2 d →
  matches (Fields [(k1, Equal (BStr v1)); (k2, Equal (BStr v2))]) d = true ↔
  value "" (bson_string k1 d) = v1 ∧ value "" (bson_string k2 d) = v2.
Proof.
  intros Hk1%string_field Hk2%string_field. simpl. rewrite Hk1, Hk2, andb_true_r.
  rewrite andb_true_iff, !bool_decide_eq_true. naive_solver.
Qed.

Lemma by_address_match chain a x d : stores_association x d →
  matches (AssociationDao.by_address chain a) d = true ↔ paid_to chain a x.
Proof. intros (-> & ? & ? & _). by apply two_strings_match. Qed.
Lemma by_associated_match chain key x d : stores_association x d →
  matches (AssociationDao.by_associated chain key) d = true ↔ of_user chain key x.
Proof. intros (-> & ? & _ & ? & _). by apply two_strings_match. Qed.

Section update.
Variables (P : AddressAssociationRecord → Prop) (q : query).
Hypothesis match_ok : ∀ x d, stores_association x d → matches q d = true ↔ P x.

Lemma stored_in l s d : Forall2 stores_association l (docs s) → d ∈ docs s →
  record_of d ∈ l ∧ stores_association (record_of d) d.
Proof.
  intros Hl [i Hi]%list_elem_of_lookup.
  destruct (Forall2_lookup_r _ _ _ _ _ Hl Hi) as (x & Hx & Hs). pose proof Hs as [-> _].
  split; [by eapply list_elem_of_lookup_2|done].
Qed.
Lemma none_match l s : Forall2 stores_association l (docs s) →
  Forall (λ d, matches q d = false) (docs s) → Forall (λ x, ¬ P x) l.
Proof.
  intros Hl Hn. apply Forall_forall. intros x [i Hi]%list_elem_of_lookup HP.
  destruct (Forall2_lookup_l _ _ _ _ _ Hl Hi) as (d & Hd & Hs).
  pose proof (Forall_lookup_1 _ _ _ _ Hn Hd) as Hm. cbv beta in Hm.
  by rewrite (proj2 (match_ok x d Hs) HP) in Hm.
Qed.

Lemma find_ok l s : associations_in s l →
  wp (or_none (d ← FindOne q; lift (association_of d)))
    (found_association (λ s, associations_in s l) P l) s.
Proof.
  intros Hs. pose proof (FindOne_ok q s) as Hf. pose proof (FindOne_none q s) as Hn.
  unfold or_none, wp, found_association, mbind, M_bind, attempt in *.
  destruct (FindOne q s) as [[d|e|] s1]; simpl in *; destruct Hf as [Hd Hf]; [| |done].
  - rewrite association_of_record. simpl. split; [by eapply associations_docs|].
    destruct Hf as [Hin Hm], Hs as [Hl _]. destruct (stored_in l s d Hl Hin) as [Hx Hst].
    split; [done|]. by apply (match_ok _ d).
  - case_decide; simpl; [|split; [by eapply associations_docs|done]].
    subst e. split; [by eapply associations_docs|]. destruct Hs as [Hl _].
    by eapply none_match, Hn.
Qed.

(** An update of one document is one of its association. *)
Lemma update_ok u f l s :
  (∀ x d, stores_association x d → updatable u d = true → stores_association (f x) (apply_update u d)) →
  associations_in s l →
  wp (UpdateOne q u) (update_or_fail associations_in (one_updated P f) l) s.
Proof.
  intros Hf [Hl Hu].
  assert (∀ ds', update_one q u (docs s) ds' →
    ∃ l', Forall2 stores_association l' ds' ∧ one_updated P f l l') as Heff.
  { intros ds' (d & rest & Hp & Hm & Hup & Hd').
    destruct (Permutation_Forall2_r stores_association l (docs s) _ Hp Hl) as (l1 & Hl1 & Hf1).
    destruct l1 as [|x l1]; [by inversion Hf1|]. apply Forall2_cons in Hf1 as [Hx Hrest].
    pose proof (proj2 (list.Forall2_cons _ _ _ _ _) (conj (Hf x d Hx Hup) Hrest)) as Hnew. symmetry in Hd'.
    destruct (Permutation_Forall2_r stores_association _ _ _ Hd' Hnew) as (l2 & Hl2 & Hf2).
    exists l2. split; [done|]. exists x, l1. split; [done|]. split; [by apply (match_ok x d)|done]. }
  eapply wp_mono; [|apply (wp_and _ _ _ _ (UpdateOne_ok q u s) (writes_unique _ _ s (UpdateOne_ok q u) Hu))].
  intros [[]|e|] s' [Hr Hus]; [| |done].
  - destruct Hr as [(l' & Hl' & He)%Heff _]. exists l'. by split.
  - destruct Hr as [Hd|([] & (l' & Hl' & He)%Heff & _)].
    + exists l. split; [|by left]. split; [by rewrite Hd|done].
    + exists l'. split; [done|by right].
Qed.
End update.

(** What the updates write. *)
Lemma string_set k kvs d : field k kvs = None →
  bson_string k (set_fields kvs d) = bson_string k d.
Proof. intros Hk. unfold bson_string. by rewrite field_set_fields, Hk. Qed.

Ltac fields_set :=
  unfold is_string, envelopes_ok, record_of, bson_string, bson_id, bson_uint, bson_int, bson_time,
    bson_strings in *; rewrite ?field_set_fields in *; simpl in *.

Lemma status_set st x d : stores_association x d →
  stores_association (set_ar_Status st x) (set_fields [("status", BStr st)] d).
Proof.
  intros [-> Hd]. split; [|unfold association_doc in *; by fields_set].
  unfold set_ar_Status. by fields_set.
Qed.

Lemma strings_of (l : list string) : omap (λ v, match v with BStr s => Some s | _ => None end) (BStr <$> l) = l.
Proof. induction l as [|v l IH]; [done|]. csimpl. by rewrite IH. Qed.
Lemma string_elem (e : string) (l : list string) : BStr e ∈ BStr <$> l ↔ e ∈ l.
Proof. rewrite list_elem_of_fmap. split; [by intros (? & [= ->] & ?)|eauto]. Qed.

Lemma envelope_added e d : envelopes_ok d →
  ∃ l, field "txEnvelopes" (set_fields [("txEnvelopes", add_to_set (BStr e) (field "txEnvelopes" d))] d)
       = Some (BArr (BStr <$> l)) ∧
       ar_TxEnvelopes (add_envelope e (record_of d)) = l.
Proof.
  intros Hd. rewrite field_set_fields. cbn [field]. rewrite decide_True by done. unfold add_envelope, record_of.
  cbn [ar_TxEnvelopes].
  destruct Hd as [Hn|[l Hl]].
  - exists [e]. unfold bson_strings. by rewrite Hn.
  - unfold bson_strings. rewrite Hl, !strings_of. cbn [value add_to_set].
    destruct (decide (e ∈ l)) as [He|He].
    + exists l. rewrite decide_True by (by apply string_elem). done.
    + exists (l ++ [e]). rewrite decide_False by (by rewrite string_elem). by rewrite fmap_app.
Qed.

Lemma envelope_set e x d : stores_association x d →
  stores_association (add_envelope e x)
    (set_fields [("txEnvelopes", add_to_set (BStr e) (field "txEnvelopes" d))] d).
Proof.
  intros [-> (Hc & Ha & Hu & He)]. destruct (envelope_added e d He) as (l & Hl & Hx). split.
  - assert (add_envelope e (record_of d) = set_ar_TxEnvelopes l (record_of d)) as ->.
    { rewrite <-Hx. unfold add_envelope. case_decide; [|done]. by destruct (record_of d). }
    unfold set_ar_TxEnvelopes, record_of, bson_strings. rewrite Hl, strings_of. cbn [value].
    by fields_set.
  - unfold association_doc. split_and!; [by fields_set..|]. right. by exists l.
Qed.

(** [SaveAssociation]: over an association of the user, or as a new document. *)
Lemma overwritten_set r x d : stores_association x d → 0 <= ar_AddressIndex r < 2 ^ 63 →
  stores_association (overwritten r x)
    (set_fields (AssociationDao.association_fields r (BInt (ar_AddressIndex r))) d).
Proof.
  intros [-> Hd] Hi. split; [|unfold association_doc, AssociationDao.association_fields in *].
  - unfold overwritten, AssociationDao.association_fields. fields_set.
    rewrite Z.mod_small by lia. done.
  - destruct Hd as (_ & _ & _ & He). split_and!; [by fields_set; eexists..|]. by fields_set.
Qed.

Lemma overwritten_inserted r d :
  0 <= ar_AddressIndex r < 2 ^ 63 →
  inserted (Some (upsert_doc
    (AssociationDao.by_associated (ar_Chain r) (ToLower (ar_AssociatedAddress r)))
    (USet (AssociationDao.association_fields r (BInt (ar_AddressIndex r))) []))) d →
  ∃ id, stores_association (overwritten r (blank_association id)) d.
Proof.
  intros Hi Hd. exists (value "" (bson_id "_id" d)).
  assert (∀ k, k ≠ "_id" → field k d = field k (set_fields
    (AssociationDao.association_fields r (BInt (ar_AddressIndex r))) (set_fields []
      [("chain", BStr (ar_Chain r)); ("associatedAddress", BStr (ToLower (ar_AssociatedAddress r)))])))
    as Hf by (intros k Hk; by apply Hd; left).
  split.
  - unfold overwritten, record_of, bson_string, bson_uint, bson_int, bson_time, bson_strings.
    rewrite !Hf by done. unfold AssociationDao.association_fields. rewrite !field_set_fields. simpl.
    rewrite Z.mod_small by lia. done.
  - unfold association_doc, is_string, envelopes_ok. rewrite !Hf by done.
    unfold AssociationDao.association_fields. rewrite !field_set_fields. simpl.
    split_and!; [by eexists..|by left].
Qed.

Definition saved_over r (l l' : list AddressAssociationRecord) : Prop :=
  let user := of_user (ar_Chain r) (ToLower (ar_AssociatedAddress r)) in
  one_updated user (overwritten r) l l' ∨
  Forall (λ x, ¬ user x) l ∧ ∃ id, l' ≡ₚ overwritten r (blank_association id) :: l.

Lemma upsert_saves r l s ds' new :
  0 <= ar_AddressIndex r < 2 ^ 63 → Forall2 stores_association l (docs s) →
  upsert_one (AssociationDao.by_associated (ar_Chain r) (ToLower (ar_AssociatedAddress r)))
    (USet (AssociationDao.association_fields r (BInt (ar_AddressIndex r))) []) (docs s) ds' new →
  ∃ l', Forall2 stores_association l' ds' ∧ saved_over r l l'.
Proof.
  intros Hi Hl [(d & rest & Hp & Hm & -> & Hd')|(Hn & Hins & Hd')]; symmetry in Hd'.
  - destruct (Permutation_Forall2_r stores_association l (docs s) _ Hp Hl) as (l1 & Hl1 & Hf1).
    destruct l1 as [|x l1]; [by inversion Hf1|]. apply Forall2_cons in Hf1 as [Hx Hrest].
    pose proof (proj2 (list.Forall2_cons _ _ _ _ _) (conj (overwritten_set r x d Hx Hi) Hrest)) as Hnew.
    destruct (Permutation_Forall2_r stores_association _ _ _ Hd' Hnew) as (l2 & Hl2 & Hf2).
    exists l2. split; [done|]. left. exists x, l1. split; [done|].
    split; [by eapply by_associated_match|done].
  - destruct (overwritten_inserted r new Hi Hins) as [id Hnew].
    destruct (Permutation_Forall2_r stores_association _ _ _ Hd'
      (proj2 (list.Forall2_cons _ _ _ _ _) (conj Hnew Hl))) as (l2 & Hl2 & Hf2).
    exists l2. split; [done|]. right. split; [|by exists id].
    eapply none_match; [|done|done]. intros. by apply by_associated_match.
Qed.

Lemma save_ok r l s : associations_in s l → 0 <= ar_AddressIndex r →
  wp (AssociationDao.SaveAssociation r) (update_or_fail associations_in (saved_over r) l) s.
Proof.
  intros [Hl Hu] Hi. unfold AssociationDao.SaveAssociation, bson_of_uint. apply wp_bind, wp_lift.
  destruct (Z.ltb_spec (ar_AddressIndex r) (2 ^ 63)) as [Hi2|];
    [|exists l; by split; [split|left]].
  unfold wp_next.
  eapply wp_mono; [|apply (wp_and _ _ _ _ (UpsertOne_ok _ _ s) (writes_unique _ _ s (UpsertOne_ok _ _) Hu))].
  intros [[]|e|] s' [Hr Hus]; [| |done].
  - destruct Hr as [[new Hr] _].
    destruct (upsert_saves r l s _ new (conj Hi Hi2) Hl Hr) as (l' & Hl' & He). exists l'. by split.
  - destruct Hr as [Hd|([] & [new Hr] & _)].
    + exists l. split; [|by left]. split; [by rewrite Hd|done].
    + destruct (upsert_saves r l s _ new (conj Hi Hi2) Hl Hr) as (l' & Hl' & He).
      exists l'. split; [done|by right].
Qed.

(** The unique indexes of [NewAssociationDao]. *)
Hypothesis indexed : unique_keys = AssociationDao.unique_index.

Lemma unique_strings k f s l : associations_in s l → ["chain"; k] ∈ unique_keys →
  (∀ x d, stores_association x d → field k d = Some (BStr (f x))) →
  NoDup ((λ x, (ar_Chain x, f x)) <$> l).
Proof.
  intros [Hl Hu] Hk Hf. specialize (Hu _ Hk). revert Hu.
  assert (key_of ["chain"; k] <$> docs s =
    (λ p : string * string, [Some (BStr p.1); Some (BStr p.2)]) <$> ((λ x, (ar_Chain x, f x)) <$> l)) as ->.
  { clear Hk. induction Hl as [|x d l ds Hs _ IH]; [done|]. rewrite !fmap_cons, IH.
    unfold key_of. simpl. rewrite (Hf x d Hs). destruct Hs as (-> & Hc & _).
    by rewrite (string_field _ _ Hc). }
  by intros ?%NoDup_fmap_1.
Qed.

Definition association_dao_spec : AssociationDaoSpec W.
Proof.
  refine {| associations := associations_in |}.
  - intros s l Hs. eapply unique_strings; [done|rewrite indexed; by left|].
    intros x d (-> & _ & Ha & _). by apply string_field.
  - intros s l Hs. eapply unique_strings; [done|rewrite indexed; by right; left|].
    intros x d (-> & _ & _ & Ha & _). by apply string_field.
  - intros. apply find_ok; [|done]. intros. by apply by_address_match.
  - intros. apply find_ok; [|done]. intros. by apply by_associated_match.
  - intros. by apply save_ok.
  - intros. apply update_ok; [|intros x d ? _; by apply envelope_set|done].
    intros. by apply by_address_match.
  - intros. apply update_ok; [|intros x d ? _; by apply status_set|done].
    intros. by apply by_address_match.
Defined.
End associations.

(** ** Counters *)
Section counters.
Context {W : Type} `{Runtime W, !Mongo W, !MongoLaws W}.

#[export] Instance config_dao : IConfigDao W := {|
  cf_GetSchemaVersion := ConfigDao.GetSchemaVersion;
  cf_GetAddressIndex := ConfigDao.GetAddressIndex;
  cf_IncrementAddressIndex := ConfigDao.IncrementAddressIndex;
  cf_GetBlockToProcess := ConfigDao.GetBlockToProcess;
  cf_SaveLastProcessedBlock := ConfigDao.SaveLastProcessedBlock
|}.

Definition counter_doc (kv : string * Z) (d : doc) : Prop :=
  field "key" d = Some (BStr kv.1) ∧ field "value" d = Some (BInt kv.2).
(** The unique index of [NewConfigDao]. *)
Hypothesis indexed : unique_keys = ConfigDao.unique_index.

Definition counters_in (s : W) (m : gmap string Z) : Prop :=
  unique_ok unique_keys (docs s) ∧ ∃ l, Forall2 counter_doc l (docs s) ∧ m = list_to_map l.

Lemma keys_nodup l ds : Forall2 counter_doc l ds → unique_ok unique_keys ds → NoDup l.*1.
Proof.
  intros Hl Hu. assert (["key"] ∈ (unique_keys (W:=W))) as Hk by (rewrite indexed; by left).
  specialize (Hu _ Hk). revert Hu.
  assert (key_of ["key"] <$> ds = (λ k, [Some (BStr k)]) <$> l.*1) as ->.
  { clear Hk. induction Hl as [|kv d l ds [Hs _] _ IH]; [done|]. rewrite !fmap_cons, IH.
    unfold key_of. simpl. by rewrite Hs. }
  by intros ?%NoDup_fmap_1.
Qed.
Lemma by_key_ok key kv d : counter_doc kv d →
  matches (ConfigDao.by_key key) d = true ↔ kv.1 = key.
Proof.
  intros [Hk _]. simpl. rewrite Hk, andb_true_r, bool_decide_eq_true. naive_solver.
Qed.

Lemma get_counter_ok key m s : counters_in s m →
  wp (ConfigDao.getUint64ValueFromKey key)
    (counter_read (λ s, counters_in s m) (Ok key) m) s.
Proof.
  intros (Hu & l & Hl & ->). unfold ConfigDao.getUint64ValueFromKey, ConfigDao.getValueFromKey.
  apply wp_bind, wp_bind, wp_attempt. eapply wp_mono; [|apply FindOne_ok]. cbn beta.
  intros [d|e|] s' [Hd Hr]; [| |done]; unfold wp_next.
  - apply wp_ret. cbn [wp_next]. apply wp_lift. destruct Hr as [Hin Hm].
    apply list_elem_of_lookup in Hin as [i Hi].
    destruct (Forall2_lookup_r _ _ _ _ _ Hl Hi) as ([k z] & Hx & Hc).
    apply (by_key_ok key _ d Hc) in Hm as <-. destruct Hc as [_ Hc]. rewrite Hc. simpl.
    split; [split; [by rewrite Hd|exists l; by rewrite Hd]|]. exists k, z. split_and!; [done| |done].
    apply elem_of_list_to_map_1; [by eapply keys_nodup|by eapply list_elem_of_lookup_2].
  - apply wp_fail. cbn [wp_next]. split; [|done]. split; [by rewrite Hd|exists l; by rewrite Hd].
Qed.

Lemma counter_read_key {P} key k m r (s : W) :
  key = Ok k → counter_read P (Ok k) m r s → counter_read P key m r s.
Proof. by intros ->. Qed.
Lemma read_counter_ok (key : outcome string) m s : key ≠ Panic → counters_in s m →
  wp (k ← lift key; ConfigDao.getUint64ValueFromKey k) (counter_read (λ s, counters_in s m) key m) s.
Proof.
  intros Hp Hs. apply wp_bind, wp_lift. destruct key as [k|e|]; [|by split|done].
  by apply get_counter_ok.
Qed.

(** Updating or making the document of a key. *)
Abbreviation map_of l := (list_to_map l : gmap string Z).
Lemma keys_perm (l l' : list (string * Z)) : l' ≡ₚ l → l.*1 ≡ₚ l'.*1.
Proof. intros ->. done. Qed.

Lemma counter_changed key (g : doc → doc) (f : Z → Z) l ds d rest ds' :
  Forall2 counter_doc l ds → NoDup l.*1 →
  (∀ z d, counter_doc (key, z) d → counter_doc (key, f z) (g d)) →
  ds ≡ₚ d :: rest → matches (ConfigDao.by_key key) d = true → ds' ≡ₚ g d :: rest →
  ∃ l' z, Forall2 counter_doc l' ds' ∧ map_of l !! key = Some z ∧
    map_of l' = <[key := f z]> (map_of l).
Proof.
  intros Hl Hn Hg Hp Hm Hd'.
  destruct (Permutation_Forall2_r counter_doc l ds _ Hp Hl) as (l1 & Hl1 & Hf1).
  destruct l1 as [|[k z] l1]; [by inversion Hf1|]. apply Forall2_cons in Hf1 as [Hx Hrest].
  apply (by_key_ok key _ d Hx) in Hm. simpl in Hm. subst k. symmetry in Hd'.
  pose proof (proj2 (list.Forall2_cons _ _ _ _ _) (conj (Hg z d Hx) Hrest)) as Hnew.
  destruct (Permutation_Forall2_r counter_doc _ _ _ Hd' Hnew) as (l2 & Hl2 & Hf2).
  assert (NoDup (((key, f z) :: l1).*1)) as Hn2.
  { change (NoDup (((key, z) :: l1).*1)). by rewrite (keys_perm _ _ Hl1). }
  exists l2, z. split; [done|]. rewrite (list_to_map_proper l _ Hn Hl1).
  symmetry in Hl2. rewrite <-(list_to_map_proper _ _ Hn2 (symmetry Hl2)).
  simpl. by rewrite lookup_insert_eq, insert_insert_eq.
Qed.

(** A write that is described by its effect on the documents. *)
Lemma counter_write_ok {A} (w : M W A) eff (post : gmap string Z → Prop) m s :
  counters_in s m → writes w eff →
  (∀ l ds' a, Forall2 counter_doc l (docs s) → m = map_of l → eff (docs s) ds' a →
    ∃ l', Forall2 counter_doc l' ds' ∧ post (map_of l')) →
  wp (_ ← w; mret tt) (counter_written counters_in post m) s.
Proof.
  intros (Hu & l & Hl & Hm) Hw Heff. apply wp_bind.
  eapply wp_mono; [|apply (wp_and _ _ _ _ (Hw s) (writes_unique _ _ s Hw Hu))].
  intros [a|e|] s' [Hr Hus]; [| |done].
  - apply wp_ret. destruct Hr as [Hr _]. destruct (Heff l _ a Hl Hm Hr) as (l' & Hl' & He).
    exists (map_of l'). split; [|done]. split; [done|by exists l'].
  - destruct Hr as [Hd|(a & Hr & _)].
    + exists m. split; [|by left]. split; [done|]. exists l. by rewrite Hd.
    + destruct (Heff l _ a Hl Hm Hr) as (l' & Hl' & He).
      exists (map_of l'). split; [split; [done|by exists l']|by right].
Qed.
Lemma wp_unit (w : M W unit) Q s : wp (_ ← w; mret tt) Q s → wp w Q s.
Proof. unfold wp, mbind, M_bind. by destruct (w s) as [[[]|e|] s']. Qed.

Lemma increment_ok key m s : counters_in s m →
  wp (UpdateOne (ConfigDao.by_key key) (UInc "value" 1)) (counter_written counters_in (λ m',
    ∃ z, m !! key = Some z ∧ m' = <[key := z + 1]> m) m) s.
Proof.
  intros Hs. apply wp_unit. eapply counter_write_ok; [done|apply UpdateOne_ok|].
  intros l ds' _ Hl -> (d & rest & Hp & Hm & _ & Hd').
  destruct (counter_changed key (apply_update (UInc "value" 1)) (λ z, z + 1) l (docs s) d rest ds')
    as (l' & z & Hl' & Hz & Hmap); [done|eapply keys_nodup; [done|apply Hs]| |done..|].
  - intros z d0 [Hk Hv]. unfold counter_doc. cbn [apply_update fst snd]. rewrite !field_set_fields, Hv. by split.
  - exists l'. split; [done|]. by exists z.
Qed.

Lemma save_block_ok key block m s : counters_in s m →
  wp (UpsertOne (ConfigDao.by_key key) (USet [("value", BInt block)] []))
    (counter_written counters_in (λ m', m' = <[key := block]> m) m) s.
Proof.
  intros Hs. apply wp_unit. eapply counter_write_ok; [done|apply UpsertOne_ok|].
  intros l ds' _ Hl -> [new [(d & rest & Hp & Hm & -> & Hd')|(Hn & Hins & Hd')]].
  - destruct (counter_changed key (apply_update (USet [("value", BInt block)] [])) (λ _, block) l
      (docs s) d rest ds') as (l' & z & Hl' & _ & Hmap);
      [done|eapply keys_nodup; [done|apply Hs]| |done..|by exists l'].
    intros z d0 [Hk Hv]. unfold counter_doc. cbn [apply_update fst snd]. by rewrite !field_set_fields.
  - assert (counter_doc (key, block) new) as Hnew.
    { split; rewrite Hins by (by left); unfold from_option, id, upsert_doc, ConfigDao.by_key;
        by rewrite !field_set_fields. }
    symmetry in Hd'.
    destruct (Permutation_Forall2_r counter_doc _ _ _ Hd'
      (proj2 (list.Forall2_cons _ _ _ _ _) (conj Hnew Hl))) as (l' & Hl' & Hf).
    exists l'. split; [done|]. assert (NoDup (((key, block) :: l).*1)) as Hnd.
    { apply NoDup_cons. split; [|eapply keys_nodup; [done|apply Hs]].
      intros ([k z] & Hk & Hin)%list_elem_of_fmap. simpl in Hk. subst k.
      apply list_elem_of_lookup in Hin as [i Hi].
      destruct (Forall2_lookup_l _ _ _ _ _ Hl Hi) as (d & Hd & Hc).
      pose proof (Forall_lookup_1 _ _ _ _ Hn Hd) as Hm. cbv beta in Hm.
      by rewrite (proj2 (by_key_ok key _ d Hc) eq_refl) in Hm. }
    by rewrite <-(list_to_map_proper _ _ Hnd Hl').
Qed.

Definition config_dao_spec : ConfigDaoSpec W.
Proof.
  refine {| counters := counters_in |}.
  - intros chain m s Hs. apply read_counter_ok; [|done].
    unfold ConfigDao.getAddressIndexKey. by repeat case_decide.
  - intros chain m s Hs. apply read_counter_ok; [|done].
    unfold ConfigDao.last_block_key. by repeat case_decide.
  - intros chain m s Hs. simpl. unfold ConfigDao.IncrementAddressIndex. apply wp_bind, wp_lift.
    destruct (ConfigDao.getAddressIndexKey chain) as [k|e|] eqn:Hk; [|exists m; by split; [|left]|].
    + unfold wp_next. eapply wp_mono; [|by apply increment_ok].
      intros r s' (m' & ? & Hr). exists m'. split; [done|]. destruct r as [[]|e|]; naive_solver.
    + revert Hk. unfold ConfigDao.getAddressIndexKey. by repeat case_decide.
  - intros chain block m s Hs Hb. simpl. unfold ConfigDao.SaveLastProcessedBlock.
    apply wp_bind, wp_lift.
    destruct (ConfigDao.last_block_key chain) as [k|e|] eqn:Hk; [|exists m; by split; [|left]|].
    + unfold wp_next. apply wp_bind, wp_lift. unfold bson_of_uint.
      destruct (block <? 2 ^ 63); [|exists m; by split; [|left]]. unfold wp_next.
      eapply wp_mono; [|by apply save_block_ok].
      intros r s' (m' & ? & Hr). exists m'. split; [done|]. destruct r as [[]|e|]; naive_solver.
    + revert Hk. unfold ConfigDao.last_block_key. by repeat case_decide.
Defined.
End counters.
