(* ===== verification/AddressGenerator.v ===== *)
(** [swap/ethereum/address_generator.go]: the address of the [index]-th payment.

    BIP-32 and the curve are libraries: the children of a public key and the
    coordinates of a compressed key are parameters.  [Key_String] being absent
    stands for a generator without a master key. *)
From S2P Require Import Prelude BigMath Types DepositTypes Bytes.

Class Bip32 := {
  Key : Type;
  NewChildKey : Key → Z → outcome Key;
  DecompressPubkey : Key → Z * Z
}.

(** [errors.Wrap] *)
Definition Wrap {A} (message : string) (r : outcome A) : outcome A :=
  match r with Err e => Err (message +:+ ": " +:+ e) | r => r end.

(** [copy(dst, b)] into [n] zero bytes: from the first one on. *)
Definition copy_into (n : nat) (b : list Z) : list Z := take n (b ++ replicate n 0).

Section generator.
Context `{EthCommon, HexCommon, Bip32}.

(** The two coordinates side by side, as they are hashed. *)
Definition uncompressed (x y : Z) : list Z :=
  copy_into 32 (Int_Bytes x) ++ copy_into 32 (Int_Bytes y).

(** The index is cut to 32 bits. *)
Definition Generate (masterPublicKey : option Key) (index : Z) : outcome Address :=
  match masterPublicKey with
  | None => Err "No master public key set"
  | Some key =>
    accountKey ← Wrap "Error creating new child key" (NewChildKey key (index `mod` 2 ^ 32));
    let '(x, y) := DecompressPubkey accountKey in
    Ok (BytesToAddress (drop 12 (Hash_Bytes (Keccak256 (uncompressed x y)))))
  end.
End generator.

(** ** What is hashed *)

(** The 32 bytes that are hashed for a coordinate of the key are its big-endian
    bytes only when its first byte is not zero: a shorter coordinate is copied to
    the front instead of the end, and spells a multiple of it.  The address
    generated for such a key is not the one its owner can spend from. *)
Theorem coordinate_misplaced x : 0 < x < 2 ^ 256 →
  number (copy_into 32 (Int_Bytes x)) = x ↔ 2 ^ 248 <= x.
Proof.
  intros Hx. destruct (Int_Bytes_ok x) as (Hn & Hl & Hlen); [lia|].
  set (l := Int_Bytes x) in *.
  assert (length l ≤ 32)%nat as Hle.
  { destruct (decide (length l ≤ 32)%nat) as [?|Hgt]; [done|].
    assert (256 ^ 32 <= 256 ^ (Z.of_nat (length l) - 1)) by (apply Z.pow_le_mono_r; lia). lia. }
  assert (copy_into 32 l = l ++ replicate (32 - length l) 0) as ->.
  { unfold copy_into. rewrite take_app, take_ge by done. f_equal. rewrite take_replicate. f_equal. lia. }
  rewrite number_app, number_zeros, length_replicate, Hn, Z.add_0_r.
  destruct (decide (length l = 32)%nat) as [E|E].
  - rewrite E. simpl. rewrite E in Hl. simpl in Hl. split; [|lia]. intros _. exact (proj1 Hl).
  - assert (256 ^ Z.of_nat (length l) <= 256 ^ 31) by (apply Z.pow_le_mono_r; lia).
    assert (256 <= 256 ^ Z.of_nat (32 - length l)) as Hs.
    { change 256 with (256 ^ 1) at 1. apply Z.pow_le_mono_r; lia. }
    split; [intros Heq; exfalso; nia|]. change (256 ^ 31) with (2 ^ 248) in *. lia.
Qed.

Lemma coordinate_misplaced_witness :
  0 < 2 ^ 247 < 2 ^ 256 ∧
  (number (copy_into 32 (Int_Bytes (2 ^ 247))) = 2 ^ 247 ↔ 2 ^ 248 <= 2 ^ 247).
Proof. split; [lia|]. apply coordinate_misplaced. lia. Defined.
