(* ===== verification/DepositService.v ===== *)
(** [services/deposit.go] and [rabbitmq/deposit.go]: what the deposit swap keeps
    and asks, over the server's state.

    The world outside is a class: the token contracts, through which deposits are
    paid out, and the price server of [utils/binance].  [transfers] is what the
    contracts have been told to transfer. *)
From Stdlib Require Import Ascii.
From S2P Require Import Prelude BigMath Types DepositTypes Mongo Json Orders MatchTypes OrderDao OrderStore Pairs TradeDao Rabbit Engine Ws Services Deposits AddressGenerator.

(** [contracts.Token] over its generated binding, and the events that have come in
    when the first of them has. *)
Class IToken (XS : Type) := {
  NewToken : Address → M XS unit;
  ListenToTransferEvents : Address → M XS unit;
  Transfer : Address → Address → Z → M XS unit;
  TransferEvents : Address → M XS (list (Address * Z));
  transfers : XS → list (Address * Address * Z)
}.
(** A transfer that succeeds was made, once, and nothing else makes one. *)
Definition no_transfer {XS A} `{IToken XS} (m : M XS A) : Prop :=
  ∀ s, wp m (λ _ s', transfers s' = transfers s) s.
Class ITokenLaws (XS : Type) `{IToken XS} := {
  NewToken_ok t : no_transfer (NewToken t);
  ListenToTransferEvents_ok t : no_transfer (ListenToTransferEvents t);
  TransferEvents_ok t : no_transfer (TransferEvents t);
  Transfer_ok t a n s : wp (Transfer t a n) (λ r s', match r with
    | Ok _ => transfers s' = transfers s ++ [(t, a, n)]
    | _ => transfers s' = transfers s
    end) s
}.
(** The price server's answer: [http.Get], [ioutil.ReadAll] and [json.Unmarshal]. *)
Class ITicker (XS : Type) := Ticker : M XS jmap.
Class ITickerLaws (XS : Type) `{IToken XS, ITicker XS} := Ticker_ok : no_transfer Ticker.

(** The fields of [swap.Engine] and of its parts that are set at the start. *)
Class SwapConfig `{Bip32} := {
  masterPublicKey : option Key;
  SignerPublicKey : Address;
  MinimumValueWei : Z;
  MinimumValueSat : Z
}.

(** The server with the swap's collections and the status of the accounts that
    are being configured. *)
Record Desk (OS TS PS ES B CS AS XS : Type) := mkDesk {
  k_services : Services OS TS PS ES B;
  k_config : CS;
  k_associations : AS;
  k_outside : XS;
  accountStatus : gmap string string
}.
Arguments mkDesk {OS TS PS ES B CS AS XS}.
Arguments k_services {OS TS PS ES B CS AS XS}.
Arguments k_config {OS TS PS ES B CS AS XS}.
Arguments k_associations {OS TS PS ES B CS AS XS}.
Arguments k_outside {OS TS PS ES B CS AS XS}.
Arguments accountStatus {OS TS PS ES B CS AS XS}.

Section lenses.
Context {OS TS PS ES B CS AS XS : Type}.
#[local] Abbreviation Desk := (Desk OS TS PS ES B CS AS XS).
Definition desk_services : lens Desk (Services OS TS PS ES B) :=
  Lens k_services (λ x w, mkDesk x (k_config w) (k_associations w) (k_outside w) (accountStatus w)).
Definition desk_config : lens Desk CS :=
  Lens k_config (λ x w, mkDesk (k_services w) x (k_associations w) (k_outside w) (accountStatus w)).
Definition desk_associations : lens Desk AS :=
  Lens k_associations (λ x w, mkDesk (k_services w) (k_config w) x (k_outside w) (accountStatus w)).
Definition desk_outside : lens Desk XS :=
  Lens k_outside (λ x w, mkDesk (k_services w) (k_config w) (k_associations w) x (accountStatus w)).
Definition set_accountStatus (f : gmap string string → gmap string string) (w : Desk) : Desk :=
  mkDesk (k_services w) (k_config w) (k_associations w) (k_outside w) (f (accountStatus w)).
End lenses.

(** ** rabbitmq/deposit.go *)
Definition PublishDepositTransaction {B} `{Amqp B} (t : DepositTransaction) :
    M (Connection B) unit :=
  publish_on "depositPublish" "deposit" (DepositTransaction_json t).
(** What the consumer feeds the queue's channel with: a message that cannot be
    decoded is skipped. *)
Definition QueuePoolDepositTransactions (msgs : list json) : list DepositTransaction :=
  omap (λ d, match DepositTransaction_unjson d with Ok t => Some t | _ => None end) msgs.

(** ** utils/binance: the symbols are not looked at *)
Definition GetLastPrice {XS} `{ITicker XS} (baseTokenSymbol quoteTokenSymbol : string) :
    M XS string :=
  ret ← Ticker; lift (field_string "lastPrice" ret).

(** [strings.ToUpper], on ASCII *)
Definition to_upper (c : ascii) : ascii :=
  let n := nat_of_ascii c in
  if decide (97 ≤ n ∧ n ≤ 122)%nat then ascii_of_nat (n - 32) else c.
Fixpoint ToUpper (s : string) : string :=
  match s with "" => "" | String c s' => String (to_upper c) (ToUpper s') end.

Section service.
Context {OS TS PS ES B CS AS XS : Type}.
Context `{IOrderDao OS, IPairDao PS, Amqp B, IConfigDao CS, IAssociationDao AS}.
Context `{IToken XS, ITicker XS, EthCommon, HexCommon, SwapConfig, Big.Undefined}.
#[local] Abbreviation Desk := (Desk OS TS PS ES B CS AS XS).

(** ** services/deposit.go *)
Definition next_index (chain : string) : M Desk unit :=
  zoom desk_config (cf_IncrementAddressIndex chain).
Definition address_at_index (chain : string) : M Desk (Address * Z) :=
  index ← zoom desk_config (cf_GetAddressIndex chain);
  address ← lift (Generate masterPublicKey index);
  mret (address, index).
Definition GenerateAddress (chain : string) : M Desk (Address * Z) :=
  next_index chain ;; address_at_index chain.

Definition GetSchemaVersion : M Desk Z := zoom desk_config cf_GetSchemaVersion.
Definition GetBlockToProcess (chain : string) : M Desk Z :=
  zoom desk_config (cf_GetBlockToProcess chain).
Definition SaveLastProcessedBlock (chain : string) (block : Z) : M Desk unit :=
  zoom desk_config (cf_SaveLastProcessedBlock chain block).
Definition SaveDepositTransaction (chain : string) (sourceAccount : Address) (txEnvelope : string) :
    M Desk unit :=
  zoom desk_associations (as_SaveDepositTransaction chain sourceAccount txEnvelope).
Definition QueueAdd (t : DepositTransaction) : M Desk unit :=
  zoom desk_services (zoom on_broker (PublishDepositTransaction t)).
Definition GetAssociationByChainAddress (chain : string) (a : Address) :
    M Desk (option AddressAssociationRecord) :=
  zoom desk_associations (as_GetByChainAddress chain a).
Definition GetAssociationByChainAssociatedAddress (chain : string) (a : Address) :
    M Desk (option AddressAssociationRecord) :=
  zoom desk_associations (as_GetByChainAssociatedAddress chain a).

(** The identifier that is made is not saved. *)
Definition new_association (chain : string) (address : Address) (index : Z)
    (associatedAddress : Address) (p : PairAddresses) : AddressAssociationRecord :=
  mkAddressAssociationRecord "" index chain (Address_Hex address) PENDING
    (Address_Hex associatedAddress) [] (pa_Name p) (Address_Hex (pa_BaseToken p))
    (Address_Hex (pa_QuoteToken p)) 0 0.
Definition SaveAssociationByChainAddress (chain : string) (address : Address) (index : Z)
    (associatedAddress : Address) (pairAddresses : option PairAddresses) : M Desk unit :=
  p ← lift (deref pairAddresses);
  zoom desk_associations
    (as_SaveAssociation (new_association chain address index associatedAddress p)).

Definition SaveAssociationStatusByChainAddress (r : option AddressAssociationRecord)
    (status : string) : M Desk unit :=
  match r with
  | None => fail "AddressAssociationRecord is nil"
  | Some r =>
    let userAddress := HexToAddress (ar_AssociatedAddress r) in
    let address := HexToAddress (ar_Address r) in
    (if decide (status = SUCCESS)
     then zoom desk_services (zoom on_ws (SendDepositMessage "SUCCESS" userAddress (PAssociation r)))
     else if decide (status ≠ PENDING)
     then zoom desk_services (zoom on_ws (SendDepositMessage PENDING userAddress (PString status)))
     else mret tt) ;;
    zoom desk_associations (as_SaveAssociationStatus (ar_Chain r) address status)
  end.

(** A price that is no integer, or no answer at all, gives the amount unchanged. *)
Definition getTokenAmountFromOracle (baseTokenSymbol quoteTokenSymbol : string) (quoteAmount : Z) :
    M Desk Z :=
  r ← attempt (zoom desk_outside (GetLastPrice baseTokenSymbol quoteTokenSymbol));
  mret (match r with
        | inl _ => quoteAmount
        | inr lastPrice =>
          match Big.SetString lastPrice with
          | None => quoteAmount
          | Some exchangeRate => Mul quoteAmount exchangeRate
          end
        end).

Definition GetBaseTokenAmount (pairName : string) (quoteAmount : Z) : M Desk Z :=
  match PairDao.Split pairName with
  | (base, [quote]) =>
    let baseTokenSymbol := ToUpper base in
    let quoteTokenSymbol := ToUpper quote in
    if decide (baseTokenSymbol = quoteTokenSymbol) then mret quoteAmount
    else
      p ← zoom desk_services (zoom on_pairs (pd_GetByTokenSymbols baseTokenSymbol quoteTokenSymbol));
      match p with
      | None => getTokenAmountFromOracle baseTokenSymbol quoteTokenSymbol quoteAmount
      | Some p =>
        bids ← zoom desk_services (zoom on_orders
          (od_GetSideOrderBook (Some p) BUY Desc (Some 1%nat)));
        match bids with
        | [] => getTokenAmountFromOracle baseTokenSymbol quoteTokenSymbol quoteAmount
        | bid :: _ =>
          let pricepoint := ToBigInt (OrderDao.map_get "pricepoint" bid) in
          if IsZero pricepoint then fail "Pricepoint is zero"
          else
            multiplier ← lift (PricepointMultiplier p);
            lift (Div (Mul quoteAmount multiplier) pricepoint)
        end
      end
  | _ => fail ("Pair name is wrong format: " +:+ pairName)
  end.
End service.
