(* ===== verification/DepositEndpoint.v ===== *)
(** [endpoints/deposit.go]: the requests and messages of the deposit swap, and the
    events of its engine: payments that were seen, and transactions that were
    built for them. *)
From Stdlib Require Import Ascii.
From S2P Require Import Prelude BigMath Types DepositTypes Mongo Json Orders MatchTypes OrderDao OrderStore Pairs TradeDao Rabbit Engine Ws Services OrderEndpoint Deposits Bytes AddressGenerator DepositService.

(** [rlp.EncodeToBytes] and [rlp.DecodeBytes] of an [AssociationTransaction]. *)
Class Rlp := {
  EncodeToBytes : AssociationTransaction → outcome (list Z);
  DecodeBytes : list Z → outcome AssociationTransaction
}.

(** [big.Rat.SetString] of a decimal, as a numerator and a positive denominator;
    the fractions and the exponents it also reads are left to a parameter. *)
Class OtherRat := other_rat : string → option (Z * Z).
Fixpoint split_point (s : string) : option (string * string) :=
  match s with
  | "" => None
  | String c s' =>
    if decide (c = "."%char) then Some ("", s')
    else '(l, r) ← split_point s'; Some (String c l, r)
  end.
Definition Rat_SetString `{OtherRat} (s : string) : option (Z * Z) :=
  match Big.SetString s with
  | Some n => Some (n, 1)
  | None =>
    match split_point s with
    | Some (l, r) =>
      match Big.SetString (l +:+ r) with
      | Some n => Some (n, 10 ^ Z.of_nat (String.length r))
      | None => other_rat s
      end
    | None => other_rat s
    end
  end.
(** [FloatString(0)] of [n / d]: rounded to the nearest, halves away from zero. *)
Definition FloatString0 (n d : Z) : string :=
  let q := (2 * Z.abs n + Z.abs d) / (2 * Z.abs d) in
  Big.String_Z (if (n <? 0) && (0 <? d) || (0 <? n) && (d <? 0) then - q else q).

(** [ethereum.Transaction] and [bitcoin.Transaction] *)
Record EthTransaction := mkEthTransaction { et_Hash : string; et_ValueWei : Z; et_To : string }.
Record BtcTransaction := mkBtcTransaction {
  bt_Hash : string; bt_TxOutIndex : Z; bt_ValueSat : Z; bt_To : string }.

Section endpoint.
Context {OS TS PS ES B CS AS XS : Type}.
Context `{IOrderDao OS, IPairDao PS, Amqp B, IConfigDao CS, IAssociationDao AS}.
Context `{IToken XS, ITicker XS, EthCommon, HexCommon, Codecs, SwapConfig, Rlp, OtherRat, Big.Undefined}.
#[local] Abbreviation Desk := (Desk OS TS PS ES B CS AS XS).

Definition wrapping {S A} (message : string) (m : M S A) : M S A := λ s,
  let '(r, s) := m s in (Wrap message r, s).
Definition saying {S A} (message : string) (m : M S A) : M S A := λ s,
  let '(r, s) := m s in (match r with Err _ => Err message | r => r end, s).

(** ** Payments that were seen *)

Definition processTransaction (x : AddressAssociationRecord) : M Desk unit :=
  SaveAssociationStatusByChainAddress (Some x) PENDING.

(** Only a payment to an association that has succeeded is skipped. *)
Definition processNewTransaction (queueTx : DepositTransaction) (x : AddressAssociationRecord) :
    M Desk unit :=
  if decide (ar_Status x = SUCCESS) then mret tt
  else
    processTransaction x ;;
    wrapping "Error adding transaction to the processing queue" (QueueAdd queueTx).

(** An error of the lookup is dropped like a payment to nobody. *)
Definition OnNewEthereumTransaction (t : EthTransaction) : M Desk unit :=
  if et_ValueWei t <? MinimumValueWei then mret tt
  else
    r ← attempt (GetAssociationByChainAddress ChainEthereum (HexToAddress (et_To t)));
    match r with
    | inr (Some x) =>
      processNewTransaction
        (mkDepositTransaction ChainEthereum (et_Hash t) AssetCodeETH (ar_PairName x)
           (Big.String_Z (et_ValueWei t)) (ar_AssociatedAddress x)) x
    | _ => mret tt
    end.

(** swap/bitcoin/transaction.go: a price of zero divides by zero. *)
Definition ValueToWei (t : BtcTransaction) : M Desk string :=
  r ← attempt (zoom desk_outside (GetLastPrice "ETH" "BTC"));
  match r with
  | inl _ => mret ""
  | inr lastPrice =>
    match Rat_SetString lastPrice with
    | None => mret ""
    | Some (n, d) =>
      if n =? 0 then crash else mret (FloatString0 (bt_ValueSat t * d * 10 ^ 10) n)
    end
  end.
Definition OnNewBitcoinTransaction (t : BtcTransaction) : M Desk unit :=
  if bt_ValueSat t <? MinimumValueSat then mret tt
  else
    r ← attempt (GetAssociationByChainAddress ChainBitcoin (HexToAddress (bt_To t)));
    match r with
    | inr (Some x) =>
      amount ← ValueToWei t;
      processNewTransaction
        (mkDepositTransaction ChainBitcoin (bt_Hash t) AssetCodeBTC (ar_PairName x)
           amount (ar_AssociatedAddress x)) x
    | _ => mret tt
    end.

(** ** Paying out *)

Definition processTokenTransaction (x : AddressAssociationRecord) (quoteAmount : Z) : M Desk unit :=
  let contractAddress := HexToAddress (ar_BaseTokenAddress x) in
  let receiver := HexToAddress (ar_AssociatedAddress x) in
  wrapping "Could not connect to token address" (zoom desk_outside (NewToken contractAddress)) ;;
  tokenAmount ← wrapping "Could not convert to token amount to transfer"
                  (GetBaseTokenAmount (ar_PairName x) quoteAmount);
  saying "Could not open transfer events channel"
    (zoom desk_outside (ListenToTransferEvents contractAddress)) ;;
  wrapping "Could not transfer tokens"
    (zoom desk_outside (Transfer contractAddress receiver tokenAmount)) ;;
  logs ← zoom desk_outside (TransferEvents contractAddress);
  match logs with
  | [(to, value)] =>
    if decide (to ≠ receiver) then fail "Event 'To' field is not correct"
    else if decide (value ≠ tokenAmount) then fail "Event 'Amount' field is not correct"
    else mret tt
  | _ => fail "Events log has not the correct length"
  end.

(** The status is saved after the fact, and an error of saving it is dropped. *)
Definition mark (x : AddressAssociationRecord) (status : string) : M Desk unit :=
  log_error (SaveAssociationStatusByChainAddress (Some x) status).
Definition or_failed {A} (x : AddressAssociationRecord) (m : M Desk A) : M Desk A :=
  r ← attempt m;
  match r with inl e => mark x FAILED ;; fail e | inr a => mret a end.

(** An association that is not found is nil. *)
Definition OnSubmitTransaction (chain destination : string) (t : AssociationTransaction) :
    M Desk unit :=
  r ← GetAssociationByChainAssociatedAddress chain (HexToAddress destination);
  x ← lift (deref r);
  bytes ← or_failed x (lift (EncodeToBytes t));
  or_failed x (SaveDepositTransaction chain (HexToAddress (ar_Address x)) (hex_encode bytes)) ;;
  if decide (at_TransactionType t = CreateOffer) then
    amount ← lift (deref (head (at_Params t)));
    match Big.SetString amount with
    | None => mark x FAILED ;; fail ("Could not convert to token amount: " +:+ amount)
    | Some quoteAmount =>
      or_failed x (processTokenTransaction x quoteAmount) ;;
      mark x SUCCESS
    end
  else mret tt.

(** [GetJSON] never fails, so that the user's feed is never asked. *)
Definition signed_by_server (aa : AddressAssociation) : AddressAssociation :=
  mkAddressAssociation (aa_Chain aa) (aa_AddressIndex aa) (aa_Address aa) (aa_AssociatedAddress aa)
    SignerPublicKey (aa_CreatedAt aa).
Definition getAssociationByUserAddress (chain : string) (publicKey : Address) :
    M Desk (option AddressAssociation) :=
  record ← GetAssociationByChainAssociatedAddress chain publicKey;
  mret (signed_by_server ∘ AddressAssociationRecord_GetJSON <$> record).
Definition LoadAccountHandler (chain destination : string) : M Desk (option AddressAssociation) :=
  getAssociationByUserAddress chain (HexToAddress destination).

(** They look the association up and log it. *)
Definition OnTomochainAccountCreated (chain destination : string) : M Desk unit :=
  log_error (getAssociationByUserAddress chain (HexToAddress destination)).
Definition OnExchanged (chain destination : string) : M Desk unit :=
  log_error (getAssociationByUserAddress chain (HexToAddress destination)).

(** The transaction is saved under the user's own address. *)
Definition OnExchangedTimelocked (chain destination : string) (t : AssociationTransaction) :
    M Desk unit :=
  let publicKey := HexToAddress destination in
  r ← attempt (getAssociationByUserAddress chain publicKey);
  match r with
  | inr (Some _) =>
    r ← attempt (lift (EncodeToBytes t));
    match r with
    | inl _ => mret tt
    | inr bytes => log_error (SaveDepositTransaction chain publicKey (hex_encode bytes))
    end
  | _ => mret tt
  end.

(** ** Requests *)

Definition handleGetSchema : M Desk response :=
  version ← GetSchemaVersion; mret (WriteJSON 200 (JObj [("version", JNum version)])).

Definition AssociationTransactionResponse_json (t : AssociationTransactionResponse) : json :=
  JObj [("source", JStr (atr_Source t)); ("signature", JStr (atr_Signature t));
        ("hash", JStr (atr_Hash t)); ("transactionType", JStr (atr_TransactionType t));
        ("params", JArr (JStr <$> atr_Params t))].
(** An envelope that cannot be decoded is skipped. *)
Definition history (x : option AddressAssociationRecord) : list AssociationTransactionResponse :=
  match x with
  | None => []
  | Some x =>
    omap (λ e, match DecodeBytes (Hex2Bytes e) with
               | Ok t => Some (AssociationTransaction_GetJSON t)
               | _ => None
               end) (ar_TxEnvelopes x)
  end.
Definition handleGetHistory (chain addr : string) : M Desk response :=
  if decide (addr = "") then mret (WriteError 400 "address Parameter missing")
  else if IsHexAddress addr then
    r ← attempt (GetAssociationByChainAssociatedAddress chain (HexToAddress addr));
    mret (match r with
          | inl _ => WriteError 500 "Can not get association history"
          | inr x => WriteJSON 200 (JArr (AssociationTransactionResponse_json <$> history x))
          end)
  else mret (WriteError 400 "Invalid User Address").

Definition ProtocolVersion : Z := 2.
Definition GenerateAddressResponse_json (r : GenerateAddressResponse) : json :=
  JObj [("protocolVersion", JNum (gr_ProtocolVersion r)); ("chain", JStr (gr_Chain r));
        ("address", JStr (gr_Address r)); ("signer", JStr (gr_Signer r))].
Definition generated (chain address : string) : GenerateAddressResponse :=
  mkGenerateAddressResponse ProtocolVersion chain address (Address_Hex SignerPublicKey).

Definition new_address (chain : string) (associatedAddress : Address)
    (pairAddresses : option PairAddresses) (generating saving : error → error) : M Desk string :=
  r ← attempt (GenerateAddress chain);
  match r with
  | inl e => fail (generating e)
  | inr (address, index) =>
    r ← attempt (SaveAssociationByChainAddress chain address index associatedAddress pairAddresses);
    match r with inl e => fail (saving e) | inr _ => mret (Address_Hex address) end
  end.
(** The address a user is to pay to: the one of the association that is waiting for a
    payment, or a new one; an error of the lookup counts as no association. *)
Definition waiting (r : error + option AddressAssociationRecord) : option string :=
  match r with
  | inr (Some x) => if decide (ar_Status x = PENDING) then Some (ar_Address x) else None
  | _ => None
  end.
Definition deposit_address (chain : string) (associatedAddress : Address)
    (pairAddresses : option PairAddresses) (generating saving : error → error) : M Desk string :=
  r ← attempt (GetAssociationByChainAssociatedAddress chain associatedAddress);
  match waiting r with
  | Some address => mret address
  | None => new_address chain associatedAddress pairAddresses generating saving
  end.

(** [body] is what the request's body is decoded from, if it is JSON. *)
Definition handleGenerateAddress (chain addr : string) (body : option json) : M Desk response :=
  match body ≫= λ j, match PairAddresses_unjson j with Ok p => Some p | _ => None end with
  | None => mret (WriteError 400 "Invalid pair addresses")
  | Some pairAddresses =>
    if decide (addr = "") then mret (WriteError 400 "address Parameter missing")
    else if IsHexAddress addr then
      r ← attempt (deposit_address chain (HexToAddress addr) (Some pairAddresses)
            (λ _, "Can not generate Address") (λ _, "Can not save association"));
      mret (match r with
            | inl e => WriteError 500 e
            | inr address => WriteJSON 200 (GenerateAddressResponse_json (generated chain address))
            end)
    else mret (WriteError 400 "Invalid User Address")
  end.

Definition AddressAssociation_json (aa : AddressAssociation) : json :=
  JObj [("chain", JStr (aa_Chain aa)); ("addressIndex", JNum (aa_AddressIndex aa));
        ("address", JStr (Address_Text (aa_Address aa)));
        ("associatedAddress", JStr (Address_Text (aa_AssociatedAddress aa)));
        ("tomochainPublicKey", JStr (Address_Text (aa_TomochainPublicKey aa)));
        ("createdAt", JStr (Format_RFC3339Nano (aa_CreatedAt aa)))].
Definition handleRecoveryTransaction (chain addr : string) : M Desk response :=
  if decide (addr = "") then mret (WriteError 400 "address Parameter missing")
  else if IsHexAddress addr then
    r ← attempt (getAssociationByUserAddress chain (HexToAddress addr));
    mret (match r with
          | inl _ => WriteError 500 "Can not get address association"
          | inr None => WriteJSON 200 JNull
          | inr (Some aa) => WriteJSON 200 (AddressAssociation_json aa)
          end)
  else mret (WriteError 400 "Invalid User Address").

(** ** The deposit channel *)

(** [types.AddressAssociationWebsocketPayload]: without pair addresses the pointer is
    nil. *)
Definition unmarshal_new_deposit (payload : json) :
    outcome (string * Address * option PairAddresses) :=
  m ← unmarshal_map payload;
  chain ← json_string "chain" m;
  associatedAddress ← json_address "associatedAddress" m;
  pairAddresses ← match jget "pairAddresses" m with
                  | None => Ok None
                  | Some j => Some <$> PairAddresses_unjson j
                  end;
  Ok (chain, associatedAddress, pairAddresses).

Definition to_client (c : Client) (type : string) (p : payload) : M Desk unit :=
  zoom desk_services (zoom on_ws (SendMessage c DepositChannel type p)).

Definition handleNewDeposit (payload : json) (c : Client) : M Desk unit :=
  r ← attempt (lift (unmarshal_new_deposit payload));
  match r with
  | inl err => to_client c "ERROR" (PString err)
  | inr (chain, associatedAddress, pairAddresses) =>
    r ← attempt (deposit_address chain associatedAddress pairAddresses id id);
    match r with
    | inl err => to_client c "ERROR" (PString err)
    | inr address =>
      zoom desk_services (zoom on_ws (RegisterDepositConnection associatedAddress c)) ;;
      to_client c "UPDATE" (PGenerated (generated chain address))
    end
  end.

Definition deposit_ws (type : string) (payload : json) (c : Client) : M Desk unit :=
  if decide (type = "NEW_DEPOSIT") then handleNewDeposit payload c else mret tt.
End endpoint.

(** A wrapped error does what the bare one does. *)
Lemma wp_wrapping {S A} message (m : M S A) Q s :
  wp m (λ r s', Q (Wrap message r) s') s → wp (wrapping message m) Q s.
Proof. unfold wp, wrapping. by destruct (m s). Qed.
