(* ===== verification/Configurator.v ===== *)
(** [swap/tomochain]: the account configurator, which takes the payments off the
    queue and pays them out through the handlers of [endpoints/deposit.go].

    The two waiting loops run on fuel, one unit an attempt; the answer [false]
    says that the code is still waiting.  Each payment is configured by a
    goroutine of its own: one run is modelled, not the interleaving of several. *)
From S2P Require Import Prelude BigMath Types DepositTypes Mongo Json Orders MatchTypes OrderDao OrderStore Pairs TradeDao Rabbit Engine Ws Services OrderEndpoint Deposits AddressGenerator DepositService DepositEndpoint.

(** The fields of [AccountConfigurator]; [Sign] is the signer's key, whose
    signatures are random: any of them will do, since none is looked at. *)
Class ConfiguratorConfig := {
  Enabled : bool;
  LockUnixTimestamp : Z;
  TokenPriceETH : string;
  StartingBalance : string;
  Sign : list Z → outcome (list Z)
}.

Definition StatusCreatingAccount : string := "creating_account".
Definition StatusWaitingForSigner : string := "waiting_for_signer".
Definition StatusConfiguringAccount : string := "configuring_account".
Definition StatusRemovingSigner : string := "removing_signer".

Section configurator.
Context {OS TS PS ES B CS AS XS : Type}.
Context `{IOrderDao OS, IPairDao PS, Amqp B, IConfigDao CS, IAssociationDao AS}.
Context `{IToken XS, ITicker XS, EthCommon, HexCommon, Codecs, SwapConfig, Rlp, OtherRat, Big.Undefined}.
Context `{ConfiguratorConfig}.
#[local] Abbreviation Desk := (Desk OS TS PS ES B CS AS XS).

(** ** swap/tomochain/transactions.go *)

Definition unsigned (source type : string) (params : list string) : AssociationTransaction :=
  mkAssociationTransaction source [] [] type params.
Definition buildTransaction (source type : string) (params : list string) :
    outcome AssociationTransaction :=
  let hash := AssociationTransaction_ComputeHash (unsigned source type params) in
  signature ← Sign hash;
  Ok (mkAssociationTransaction source signature hash type params).

Definition submitTransaction (chain destination : string) (t : AssociationTransaction) : M Desk unit :=
  wrapping "Error submitting transaction" (OnSubmitTransaction chain destination t).
Definition build_and_submit (building chain destination source type : string)
    (params : list string) : M Desk unit :=
  t ← wrapping building (lift (buildTransaction source type params));
  wrapping "Error submitting a transaction" (submitTransaction chain destination t).

Definition createAccountTransaction (chain destination : string) : M Desk unit :=
  build_and_submit "Error building transaction" chain destination
    (Address_Hex SignerPublicKey) CreateAccount [destination; StartingBalance].
(** Only ether is paid out. *)
Definition configureAccountTransaction (t : DepositTransaction) : M Desk unit :=
  if decide (dt_AssetCode t = AssetCodeETH) then
    build_and_submit "Error building a transaction" (dt_Chain t) (dt_AssociatedAddress t)
      (dt_AssociatedAddress t) CreateOffer [dt_Amount t; TokenPriceETH; dt_PairName t]
  else fail ("Invalid intermediateAssetCode: $" +:+ dt_AssetCode t).
Definition removeTemporarySigner (chain destination : string) : M Desk unit :=
  build_and_submit "Error building a transaction" chain destination destination RemoveSigner [].
Definition buildUnlockAccountTransaction (source : string) : outcome AssociationTransaction :=
  buildTransaction source RemoveSigner [Big.String_Z LockUnixTimestamp].

(** ** swap/tomochain/account_configurator.go *)

Definition setAccountStatus (account status : string) : M Desk unit :=
  modify (set_accountStatus <[account := status]>).
Definition removeAccountStatus (account : string) : M Desk unit :=
  modify (set_accountStatus (delete account)).

Definition LoadAccount (chain publicKey : string) : M Desk (option AddressAssociation) :=
  LoadAccountHandler chain publicKey.
(** Every account exists. *)
Definition getAccount (chain account : string) : M Desk (option AddressAssociation * bool) :=
  hAccount ← LoadAccount chain account; mret (hAccount, true).
Definition signerExistsOnly (account : option AddressAssociation) : bool :=
  match account with
  | Some aa => bool_decide (aa_TomochainPublicKey aa = SignerPublicKey)
  | None => false
  end.

Fixpoint create_account (fuel : nat) (t : DepositTransaction) : M Desk bool :=
  match fuel with
  | O => mret false
  | S fuel =>
    if Enabled then
      r ← attempt (getAccount (dt_Chain t) (dt_AssociatedAddress t));
      match r with
      | inl _ => create_account fuel t
      | inr (_, true) => mret true
      | inr (_, false) =>
        r ← attempt (createAccountTransaction (dt_Chain t) (dt_AssociatedAddress t));
        match r with inl _ => create_account fuel t | inr _ => mret true end
      end
    else mret true
  end.
Fixpoint wait_for_signer (fuel : nat) (t : DepositTransaction) : M Desk bool :=
  match fuel with
  | O => mret false
  | S fuel =>
    if Enabled then
      r ← attempt (LoadAccount (dt_Chain t) (dt_AssociatedAddress t));
      match r with
      | inl _ => wait_for_signer fuel t
      | inr account => if signerExistsOnly account then mret true else wait_for_signer fuel t
      end
    else mret true
  end.

(** After the payment: the signer is removed, or its removal is scheduled. *)
Definition remove_signer (t : DepositTransaction) : M Desk unit :=
  if decide (LockUnixTimestamp = 0) then
    r ← attempt (removeTemporarySigner (dt_Chain t) (dt_AssociatedAddress t));
    match r with
    | inl _ => mret tt
    | inr _ => OnExchanged (dt_Chain t) (dt_AssociatedAddress t)
    end
  else
    r ← attempt (lift (buildUnlockAccountTransaction (dt_AssociatedAddress t)));
    match r with
    | inl _ => mret tt
    | inr unlock => OnExchangedTimelocked (dt_Chain t) (dt_AssociatedAddress t) unlock
    end.
Definition ConfigureAccount (fuel : nat) (t : DepositTransaction) : M Desk bool :=
  let account := dt_AssociatedAddress t in
  setAccountStatus account StatusCreatingAccount ;;
  created ← create_account fuel t;
  if negb created then mret false else
  OnTomochainAccountCreated (dt_Chain t) account ;;
  setAccountStatus account StatusWaitingForSigner ;;
  signer ← wait_for_signer fuel t;
  if negb signer then mret false else
  setAccountStatus account StatusConfiguringAccount ;;
  r ← attempt (configureAccountTransaction t);
  match r with
  | inl _ => mret tt
  | inr _ => setAccountStatus account StatusRemovingSigner ;; remove_signer t
  end ;;
  removeAccountStatus account ;;
  mret true.
End configurator.
