(* ===== verification/Listeners.v ===== *)
(** [swap/ethereum/listener.go] and [swap/bitcoin/listener.go]: reading the blocks
    of a chain one after another and handing their payments to a handler.

    The loops never end; [processBlocks fuel] is their first [fuel] iterations,
    an iteration that waits or fails being one too.  The nodes and the analysis of
    Bitcoin scripts are classes.  The pauses and the warnings are no state. *)
From S2P Require Import Prelude BigMath Types DepositTypes Mongo Json Orders MatchTypes OrderDao OrderStore Pairs TradeDao Rabbit Engine Ws Services OrderEndpoint Deposits AddressGenerator DepositService DepositEndpoint.

(** ** Ethereum *)
Record EthBlock := mkEthBlock {
  eb_Number : Z;
  eb_Transactions : list (string * Z * option Address)
}.
(** [ethclient]: a block by its number, or the latest. *)
Class IEthNode (XS : Type) := {
  NetworkID : M XS string;
  BlockByNumber : option Z → M XS EthBlock
}.

(** [uint64] arithmetic *)
Definition uint64 (n : Z) : Z := n `mod` 2 ^ 64.

Module EthListener.
Section listener.
Context {OS TS PS ES B CS AS XS : Type}.
Context `{IConfigDao CS, IEthNode XS, EthCommon}.
#[local] Abbreviation Desk := (Desk OS TS PS ES B CS AS XS).
(** The fields of the listener. *)
Variables (want_NetworkID : string) (ConfirmedBlockNumber : Z) (Enabled : bool).
Variable TransactionHandler : EthTransaction → M Desk unit.

(** A block that does not exist yet is nil. *)
Definition getBlock (blockNumber : Z) : M Desk (option EthBlock) :=
  r ← attempt (zoom desk_outside (BlockByNumber
        (if 0 <? blockNumber then Some (int64 blockNumber) else None)));
  match r with
  | inr block => mret (Some block)
  | inl e => if decide (e = "not found") then mret None
             else fail ("Error getting block from geth: " +:+ e)
  end.

(** A transaction without a recipient creates a contract. *)
Definition handle_transaction (t : string * Z * option Address) : M Desk unit :=
  let '(hash, value, to) := t in
  match to with
  | None => mret tt
  | Some to =>
    wrapping "Error processing transaction"
      (TransactionHandler (mkEthTransaction hash value (Address_Hex to)))
  end.
Definition processBlock (block : option EthBlock) : M Desk unit :=
  match block with
  | None => fail "Block is not found"
  | Some block => mforeach handle_transaction (eb_Transactions block)
  end.

(** One iteration: the number the next one starts from.  The error of the second
    call of [getBlock] is dropped, and the number of the nil block it leaves is
    logged. *)
Definition iteration (blockNumber : Z) : M Desk Z :=
  r ← attempt (getBlock (uint64 (blockNumber + ConfirmedBlockNumber)));
  match r with
  | inr (Some ahead) =>
    if decide (eb_Number ahead = 0) then mret blockNumber
    else
      r ← attempt (getBlock blockNumber);
      let block := match r with inr block => block | inl _ => None end in
      r ← attempt (processBlock block);
      match r with
      | inl _ => _ ← lift (deref block); mret blockNumber
      | inr _ =>
        log_error (SaveLastProcessedBlock ChainEthereum blockNumber) ;;
        block ← lift (deref block);
        mret (uint64 (eb_Number block + 1))
      end
  | _ => mret blockNumber
  end.
Fixpoint processBlocks (fuel : nat) (blockNumber : Z) : M Desk Z :=
  match fuel with
  | O => mret blockNumber
  | S fuel =>
    if Enabled then blockNumber ← iteration blockNumber; processBlocks fuel blockNumber
    else mret blockNumber
  end.

(** [Start] is what it checks, and the loop it starts. *)
Definition start_block : M Desk Z :=
  blockNumber ← wrapping "Error getting ethereum block to process from DB"
                  (GetBlockToProcess ChainEthereum);
  id ← wrapping "Error getting ethereum network ID" (zoom desk_outside NetworkID);
  if decide (id ≠ want_NetworkID)
  then fail ("Invalid network ID (have=" +:+ id +:+ ", want=" +:+ want_NetworkID +:+ ")")
  else mret blockNumber.
Definition Start (fuel : nat) : M Desk Z := blockNumber ← start_block; processBlocks fuel blockNumber.
End listener.
End EthListener.

(** ** Bitcoin *)

(** The classes of [txscript]; the scripts are its own. *)
Inductive ScriptClass := PubKeyTy | PubKeyHashTy | OtherTy.
#[export] Instance ScriptClass_eq_dec : EqDecision ScriptClass.
Proof. solve_decision. Defined.
Class Txscript := {
  Script : Type;
  ExtractPkScriptAddrs : Script → outcome (ScriptClass * list string);
  GenesisHash : string
}.
(** [wire.MsgBlock]: its transactions' hashes and outputs. *)
Record BtcBlock `{Txscript} := mkBtcBlock { bb_Transactions : list (string * list (Z * Script)) }.
(** [rpcclient] *)
Class IBtcNode (XS : Type) `{Txscript} := {
  GetBlockCount : M XS Z;
  GetBlockHash : Z → M XS string;
  GetBlock : string → M XS BtcBlock
}.

(** [strings.Contains] *)
Fixpoint Contains (s sub : string) : bool :=
  String.prefix sub s || match s with "" => false | String _ s' => Contains s' sub end.

Module BtcListener.
Section listener.
Context {OS TS PS ES B CS AS XS : Type}.
Context `{IConfigDao CS, IBtcNode XS}.
#[local] Abbreviation Desk := (Desk OS TS PS ES B CS AS XS).
Variable ConfirmedBlockNumber : Z.
Variable TransactionHandler : BtcTransaction → M Desk unit.

Definition getBlock (blockNumber : Z) : M Desk (option BtcBlock) :=
  r ← attempt (zoom desk_outside (GetBlockHash (int64 blockNumber)));
  match r with
  | inl e => if Contains e "Block height out of range" then mret None
             else fail ("Error getting block hash from bitcoin-core: " +:+ e)
  | inr blockHash =>
    block ← wrapping "Error getting block from bitcoin-core" (zoom desk_outside (GetBlock blockHash));
    mret (Some block)
  end.

(** Only outputs to one public key, or to the hash of one. *)
Definition handle_output (hash : string) (index : nat) (output : Z * Script) : M Desk unit :=
  match ExtractPkScriptAddrs output.2 with
  | Ok (class, [address]) =>
    if decide (class = OtherTy) then mret tt
    else
      wrapping "Error processing transaction"
        (TransactionHandler (mkBtcTransaction hash (Z.of_nat index) output.1 address))
  | Panic => crash
  | _ => mret tt
  end.
Fixpoint handle_outputs (hash : string) (index : nat) (outputs : list (Z * Script)) : M Desk unit :=
  match outputs with
  | [] => mret tt
  | output :: outputs => handle_output hash index output ;; handle_outputs hash (S index) outputs
  end.
Definition processBlock (block : BtcBlock) : M Desk unit :=
  mforeach (λ t, handle_outputs t.1 0 t.2) (bb_Transactions block).

(** The block that is processed is the one ahead. *)
Definition iteration (blockNumber : Z) : M Desk Z :=
  r ← attempt (getBlock (uint64 (blockNumber + ConfirmedBlockNumber)));
  match r with
  | inr (Some block) =>
    r ← attempt (processBlock block);
    match r with
    | inl _ => mret blockNumber
    | inr _ =>
      log_error (SaveLastProcessedBlock ChainBitcoin blockNumber) ;;
      mret (uint64 (blockNumber + 1))
    end
  | _ => mret blockNumber
  end.
Fixpoint processBlocks (fuel : nat) (blockNumber : Z) : M Desk Z :=
  match fuel with
  | O => mret blockNumber
  | S fuel => blockNumber ← iteration blockNumber; processBlocks fuel blockNumber
  end.

Definition check_genesis : M Desk unit :=
  genesisBlockHash ← wrapping "Error getting genesis block" (zoom desk_outside (GetBlockHash 0));
  if decide (genesisBlockHash ≠ GenesisHash) then fail "Invalid genesis hash" else mret tt.
Definition stored_block : M Desk Z :=
  blockNumber ← wrapping "Error getting bitcoin block to process from DB"
                  (GetBlockToProcess ChainBitcoin);
  if decide (blockNumber = 0)
  then n ← wrapping "Error getting the block count from bitcoin-core" (zoom desk_outside GetBlockCount);
       mret (uint64 n)
  else mret blockNumber.
Definition start_block : M Desk Z := check_genesis ;; stored_block.
Definition Start (fuel : nat) : M Desk Z := blockNumber ← start_block; processBlocks fuel blockNumber.
End listener.
End BtcListener.
