(* ===== verification/SwapEngine.v ===== *)
(** [swap/main.go], [swap/config/main.go] and [NewDepositService]
    ([services/deposit.go]): how the deposit swap is configured and started.

    The clients of the chains are the nodes of [Listeners]; reading a master key and
    connecting to a node are parameters.  [os.Exit] ends the process as a panic does. *)
From S2P Require Import Prelude BigMath Bytes Types DepositTypes Mongo Json Orders MatchTypes OrderDao OrderStore Pairs TradeDao Rabbit Engine Ws Services Wallets OrderEndpoint Deposits AddressGenerator DepositService DepositEndpoint Configurator Listeners.

(** ** swap/config/main.go *)
Record EthereumConfig := mkEthereumConfig {
  ec_NetworkID : string;
  ec_MasterPublicKey : string;
  ec_MinimumValueEth : string;
  ec_TokenPrice : string;
  ec_RpcServer : string;
  ec_ConfirmedBlockNumber : Z
}.
Record BitcoinConfig := mkBitcoinConfig {
  bc_MasterPublicKey : string;
  bc_MinimumValueBtc : string;
  bc_TokenPrice : string;
  bc_RpcServer : string;
  bc_ConfirmedBlockNumber : Z;
  bc_Testnet : bool
}.
Record TomochainConfig := mkTomochainConfig {
  tc_TokenAssetCode : string;
  tc_IssuerPublicKey : string;
  tc_DistributionPublicKey : string;
  tc_SignerPrivateKey : string;
  tc_StartingBalance : string;
  tc_LockUnixTimestamp : Z
}.
Record Config := mkConfig {
  cfg_Ethereum : option EthereumConfig;
  cfg_Bitcoin : option BitcoinConfig;
  cfg_Tomochain : option TomochainConfig
}.

(** [common.FromHex], [crypto.ToECDSA]; [bip32.B58Deserialize] and whether the key is
    private; whether a connection can be made. *)
Class SwapLibraries `{Bip32} := {
  FromHex : string → list Z;
  ToECDSA : list Z → outcome Z;
  B58Deserialize : string → outcome (Key * bool);
  EthDial : string → bool;
  BtcConnect : string → bool
}.

(** ** The parts of the engine, as they are set *)
Record EthListening := mkEthListening {
  el_Enabled : bool;
  el_NetworkID : string;
  el_ConfirmedBlockNumber : Z;
  el_Storage : bool;
  el_TransactionHandler : bool
}.
Record BtcListening := mkBtcListening {
  bl_Enabled : bool;
  bl_Testnet : bool;
  bl_ConfirmedBlockNumber : Z;
  bl_Storage : bool;
  bl_TransactionHandler : bool
}.
Record AccountConfigurator := mkAccountConfigurator {
  ac_Enabled : bool;
  ac_IssuerPublicKey : string;
  ac_DistributionPublicKey : string;
  ac_LockUnixTimestamp : Z;
  ac_TokenAssetCode : string;
  ac_TokenPriceBTC : string;
  ac_TokenPriceETH : string;
  ac_StartingBalance : string;
  ac_Handlers : bool;
  ac_signerPublicKey : Address;
  ac_signerPrivateKey : option Z
}.
Record SwapEngine `{Bip32} := mkSwapEngine {
  sw_Config : Config;
  sw_ethereumListener : option EthListening;
  sw_ethereumAddressGenerator : option Key;
  sw_bitcoinListener : option BtcListening;
  sw_bitcoinAddressGenerator : option Key;
  sw_configurator : option AccountConfigurator;
  sw_queue : bool;
  sw_minimumValueEth : string;
  sw_minimumValueBtc : string;
  sw_minimumValueWei : option Z;
  sw_minimumValueSat : Z;
  sw_signerPublicKey : Address
}.
Arguments mkSwapEngine {_}.

(** ** Amounts, swap/ethereum/main.go and swap/bitcoin/main.go *)
Definition in_units `{OtherRat} (unit : Z) (message s : string) : outcome Z :=
  match Rat_SetString s with
  | None => Err "Could not convert to *big.Rat"
  | Some (n, d) => if decide ((n * unit) `mod` d = 0) then Ok (n * unit / d) else Err message
  end.
Definition EthToWei `{OtherRat} : string → outcome Z :=
  in_units (10 ^ 18) "Invalid precision, is value smaller than 1 Wei?".
Definition BtcToSat `{OtherRat} (btc : string) : outcome Z :=
  int64 <$> in_units (10 ^ 8) "Invalid precision, is value smaller than 1 satoshi?" btc.

Section config.
Context `{EthCommon, Crypto, SwapLibraries}.

(** The error is dropped. *)
Definition GetPrivateKey (c : TomochainConfig) : option Z :=
  match ToECDSA (FromHex (tc_SignerPrivateKey c)) with Ok d => Some d | _ => None end.
Definition GetPublicKey (c : option TomochainConfig) : Address :=
  match c with
  | None => HexToAddress "0x0"
  | Some c =>
    match GetPrivateKey c with None => HexToAddress "0x0" | Some d => PubkeyToAddress d end
  end.
Definition NewAddressGenerator (masterPublicKeyString : string) : outcome Key :=
  '(key, private) ← Wrap "Error deserializing master public key" (B58Deserialize masterPublicKeyString);
  if (private : bool) then Err "Key is not a master public key" else Ok key.
Definition NewAccountConfigurator (c : TomochainConfig) : AccountConfigurator :=
  mkAccountConfigurator false (tc_IssuerPublicKey c) (tc_DistributionPublicKey c) (tc_LockUnixTimestamp c)
    (tc_TokenAssetCode c) "" "" (tc_StartingBalance c) false (GetPublicKey (Some c)) (GetPrivateKey c).

(** ** swap/main.go: the configuration *)
Definition configEthereum (e : SwapEngine) : outcome SwapEngine :=
  match cfg_Ethereum (sw_Config e) with
  | None => Ok e
  | Some c =>
    if decide (ec_MasterPublicKey c = "") then Ok e
    else if negb (EthDial (ec_RpcServer c)) then Panic
    else
      match NewAddressGenerator (ec_MasterPublicKey c) with
      | Ok key =>
        Ok (mkSwapEngine (sw_Config e)
          (Some (mkEthListening true (ec_NetworkID c) (ec_ConfirmedBlockNumber c) false false)) (Some key)
          (sw_bitcoinListener e) (sw_bitcoinAddressGenerator e) (sw_configurator e) (sw_queue e)
          (ec_MinimumValueEth c) (sw_minimumValueBtc e) (sw_minimumValueWei e) (sw_minimumValueSat e)
          (sw_signerPublicKey e))
      | _ => Panic
      end
  end.
Definition configBitcoin (e : SwapEngine) : outcome SwapEngine :=
  match cfg_Bitcoin (sw_Config e) with
  | None => Ok e
  | Some c =>
    if decide (bc_MasterPublicKey c = "") then Ok e
    else if negb (BtcConnect (bc_RpcServer c)) then Panic
    else
      match NewAddressGenerator (bc_MasterPublicKey c) with
      | Ok key =>
        Ok (mkSwapEngine (sw_Config e) (sw_ethereumListener e) (sw_ethereumAddressGenerator e)
          (Some (mkBtcListening true (bc_Testnet c) (bc_ConfirmedBlockNumber c) false false)) (Some key)
          (sw_configurator e) (sw_queue e) (sw_minimumValueEth e) (bc_MinimumValueBtc c)
          (sw_minimumValueWei e) (sw_minimumValueSat e) (sw_signerPublicKey e))
      | _ => Panic
      end
  end.
Definition configTomochain (e : SwapEngine) : SwapEngine :=
  match cfg_Tomochain (sw_Config e) with
  | None => e
  | Some c =>
    let ac := NewAccountConfigurator c in
    mkSwapEngine (sw_Config e) (sw_ethereumListener e) (sw_ethereumAddressGenerator e)
      (sw_bitcoinListener e) (sw_bitcoinAddressGenerator e)
      (Some (mkAccountConfigurator true (ac_IssuerPublicKey ac) (ac_DistributionPublicKey ac)
        (ac_LockUnixTimestamp ac) (ac_TokenAssetCode ac)
        (match cfg_Bitcoin (sw_Config e) with Some b => bc_TokenPrice b | None => ac_TokenPriceBTC ac end)
        (match cfg_Ethereum (sw_Config e) with Some b => ec_TokenPrice b | None => ac_TokenPriceETH ac end)
        (if decide (tc_StartingBalance c = "") then "100.00" else ac_StartingBalance ac)
        (ac_Handlers ac) (ac_signerPublicKey ac) (ac_signerPrivateKey ac)))
      (sw_queue e) (sw_minimumValueEth e) (sw_minimumValueBtc e) (sw_minimumValueWei e)
      (sw_minimumValueSat e) (GetPublicKey (Some c))
  end.
Definition NewSwapEngine (cfg : Config) : outcome SwapEngine :=
  e ← configEthereum (mkSwapEngine cfg None None None None None false "" "" None 0 0);
  e ← configBitcoin e;
  Ok (configTomochain e).
End config.

(** ** swap/main.go: the start *)

(** The goroutines that were started. *)
Inductive activity := RunEthereum (blockNumber : Z) | RunBitcoin (blockNumber : Z) | PoolQueue.
#[export] Instance activity_eq_dec : EqDecision activity.
Proof. solve_decision. Defined.

Section start.
Context {OS TS PS ES B CS AS XS : Type}.
Context `{IConfigDao CS, Txscript, IEthNode XS, !IBtcNode XS, EthCommon, SwapLibraries, OtherRat}.
#[local] Abbreviation Desk := (Desk OS TS PS ES B CS AS XS).

Record Swap := mkSwap { sp_engine : SwapEngine; sp_desk : Desk; sp_running : list activity }.
Definition swap_engine : lens Swap SwapEngine :=
  Lens sp_engine (λ e s, mkSwap e (sp_desk s) (sp_running s)).
Definition swap_desk : lens Swap Desk := Lens sp_desk (λ w s, mkSwap (sp_engine s) w (sp_running s)).
Definition run (a : activity) : M Swap unit :=
  modify (λ s, mkSwap (sp_engine s) (sp_desk s) (sp_running s ++ [a])).

Definition set_listeners (eth : option EthListening) (btc : option BtcListening) (e : SwapEngine) :
    SwapEngine :=
  mkSwapEngine (sw_Config e) eth (sw_ethereumAddressGenerator e) btc (sw_bitcoinAddressGenerator e)
    (sw_configurator e) (sw_queue e) (sw_minimumValueEth e) (sw_minimumValueBtc e)
    (sw_minimumValueWei e) (sw_minimumValueSat e) (sw_signerPublicKey e).
Definition set_configurator (ac : option AccountConfigurator) (queue : bool) (e : SwapEngine) : SwapEngine :=
  mkSwapEngine (sw_Config e) (sw_ethereumListener e) (sw_ethereumAddressGenerator e)
    (sw_bitcoinListener e) (sw_bitcoinAddressGenerator e) ac queue (sw_minimumValueEth e)
    (sw_minimumValueBtc e) (sw_minimumValueWei e) (sw_minimumValueSat e) (sw_signerPublicKey e).
Definition set_minimums (wei : option Z) (sat : Z) (e : SwapEngine) : SwapEngine :=
  mkSwapEngine (sw_Config e) (sw_ethereumListener e) (sw_ethereumAddressGenerator e)
    (sw_bitcoinListener e) (sw_bitcoinAddressGenerator e) (sw_configurator e) (sw_queue e)
    (sw_minimumValueEth e) (sw_minimumValueBtc e) wei sat (sw_signerPublicKey e).

Definition SetStorage (e : SwapEngine) : SwapEngine :=
  set_listeners
    ((λ l, mkEthListening (el_Enabled l) (el_NetworkID l) (el_ConfirmedBlockNumber l) true
       (el_TransactionHandler l)) <$> sw_ethereumListener e)
    ((λ l, mkBtcListening (bl_Enabled l) (bl_Testnet l) (bl_ConfirmedBlockNumber l) true
       (bl_TransactionHandler l)) <$> sw_bitcoinListener e) e.
Definition SetQueue (e : SwapEngine) : SwapEngine := set_configurator (sw_configurator e) true e.
(** A configurator that is nil panics. *)
Definition with_handlers (ac : AccountConfigurator) : AccountConfigurator :=
  mkAccountConfigurator (ac_Enabled ac) (ac_IssuerPublicKey ac) (ac_DistributionPublicKey ac)
    (ac_LockUnixTimestamp ac) (ac_TokenAssetCode ac) (ac_TokenPriceBTC ac) (ac_TokenPriceETH ac)
    (ac_StartingBalance ac) true (ac_signerPublicKey ac) (ac_signerPrivateKey ac).
Definition SetDelegate : M Swap unit :=
  zoom swap_engine (modify (λ e, set_listeners
    ((λ l, mkEthListening (el_Enabled l) (el_NetworkID l) (el_ConfirmedBlockNumber l) (el_Storage l) true)
       <$> sw_ethereumListener e)
    ((λ l, mkBtcListening (bl_Enabled l) (bl_Testnet l) (bl_ConfirmedBlockNumber l) (bl_Storage l) true)
       <$> sw_bitcoinListener e) e)) ;;
  e ← zoom swap_engine get;
  ac ← lift (deref (sw_configurator e));
  zoom swap_engine (modify (set_configurator (Some (with_handlers ac)) (sw_queue e))).

(** The listeners' [Start]: a storage that is nil panics. *)
Definition start_ethereum (l : EthListening) : M Swap unit :=
  if el_Storage l then
    blockNumber ← zoom swap_desk (EthListener.start_block (el_NetworkID l));
    run (RunEthereum blockNumber)
  else crash.
Definition start_bitcoin (l : BtcListening) : M Swap unit :=
  zoom swap_desk BtcListener.check_genesis ;;
  if bl_Storage l then
    blockNumber ← zoom swap_desk BtcListener.stored_block;
    run (RunBitcoin blockNumber)
  else crash.

(** [AccountConfigurator.Start] and [Stop] *)
Definition start_configurator : M Swap unit :=
  e ← zoom swap_engine get;
  ac ← lift (deref (sw_configurator e));
  if negb (IsHexAddress (ac_IssuerPublicKey ac)) then fail "Invalid IssuerPublicKey"
  else if negb (IsHexAddress (ac_DistributionPublicKey ac)) then fail "Invalid DistributionPublicKey"
  else zoom swap_desk (modify (set_accountStatus (λ _, ∅))).

(** The two halves of [Start] that read a minimum and start a listener. *)
Definition start_with_wei (l : EthListening) : M Swap unit :=
  e ← zoom swap_engine get;
  let r := EthToWei (sw_minimumValueEth e) in
  zoom swap_engine (modify (set_minimums (match r with Ok m => Some m | _ => None end) (sw_minimumValueSat e))) ;;
  m ← lift (Wrap ("Invalid minimum accepted Ethereum transaction value: " +:+ sw_minimumValueEth e) r);
  if decide (m = 0) then fail "Minimum accepted Ethereum transaction value must be larger than 0"
  else wrapping "Error starting EthereumListener" (start_ethereum l).
(** The value is part of the format, which misses its argument. *)
Definition start_with_sat (l : BtcListening) : M Swap unit :=
  e ← zoom swap_engine get;
  let r := BtcToSat (sw_minimumValueBtc e) in
  zoom swap_engine (modify (set_minimums (sw_minimumValueWei e) (match r with Ok m => m | _ => 0 end))) ;;
  m ← lift (Wrap ("Invalid minimum accepted Bitcoin transaction value: %!s(MISSING)" +:+ sw_minimumValueBtc e) r);
  if decide (m = 0) then fail "Minimum accepted Bitcoin transaction value must be larger than 0"
  else wrapping "Error starting BitcoinListener" (start_bitcoin l).

(** A listener that is nil or not enabled is left out. *)
Definition eth_enabled (e : SwapEngine) : option EthListening :=
  l ← sw_ethereumListener e; if el_Enabled l then Some l else None.
Definition btc_enabled (e : SwapEngine) : option BtcListening :=
  l ← sw_bitcoinListener e; if bl_Enabled l then Some l else None.
Definition when_some {A} (x : option A) (m : A → M Swap unit) : M Swap unit :=
  match x with Some a => m a | None => mret tt end.
Definition Start : M Swap unit :=
  e ← zoom swap_engine get;
  if negb (bool_decide (is_Some (eth_enabled e)) || bool_decide (is_Some (btc_enabled e))) then
    fail "At least one listener (BitcoinListener or EthereumListener) must be enabled"
  else
    when_some (eth_enabled e) start_with_wei ;;
    when_some (btc_enabled e) start_with_sat ;;
    wrapping "Error starting TomochainAccountConfigurator" start_configurator ;;
    run PoolQueue.

(** A listener that is nil panics, and the one of Bitcoin is not stopped. *)
Definition shutdown : M Swap unit :=
  e ← zoom swap_engine get;
  l ← lift (deref (sw_ethereumListener e));
  zoom swap_engine (modify (set_listeners (Some (mkEthListening false (el_NetworkID l)
    (el_ConfirmedBlockNumber l) (el_Storage l) (el_TransactionHandler l))) (sw_bitcoinListener e))) ;;
  ac ← lift (deref (sw_configurator e));
  zoom swap_engine (modify (set_configurator (Some (mkAccountConfigurator false (ac_IssuerPublicKey ac)
    (ac_DistributionPublicKey ac) (ac_LockUnixTimestamp ac) (ac_TokenAssetCode ac) (ac_TokenPriceBTC ac)
    (ac_TokenPriceETH ac) (ac_StartingBalance ac) (ac_Handlers ac) (ac_signerPublicKey ac)
    (ac_signerPrivateKey ac))) (sw_queue e))).
(** The transactions that are configured, a goroutine each, of the messages the queue
    gives before the process is interrupted. *)
Definition poolTransactionsQueue (pooled : error + list json) : M Swap (list DepositTransaction) :=
  e ← zoom swap_engine get;
  if sw_queue e then
    match pooled with
    | inl _ => shutdown ;; mret []
    | inr msgs => mret (QueuePoolDepositTransactions msgs)
    end
  else crash.

(** ** services/deposit.go: the error of [Start] is dropped *)
Definition NewDepositService : M Swap unit :=
  zoom swap_engine (modify (SetQueue ∘ SetStorage)) ;; log_error Start.
(** The handler of the Ethereum listener: nil until [SetDelegate]. *)
Definition eth_handler (e : SwapEngine) (h : EthTransaction → M Desk unit) : EthTransaction → M Desk unit :=
  match sw_ethereumListener e with
  | Some l => if el_TransactionHandler l then h else λ _, crash
  | None => λ _, crash
  end.
End start.

(** ** What the start promises *)

(** An amount is converted exactly or refused. *)
Lemma in_units_ok `{OtherRat} unit message s v n d :
  Rat_SetString s = Some (n, d) → 0 < d → in_units unit message s = Ok v ↔ n * unit = v * d.
Proof.
  intros Hs Hd. unfold in_units. rewrite Hs. pose proof (Z.div_mod (n * unit) d) as Hdm. case_decide as Hm.
  - split; [intros [= <-]; lia|]. intros E. f_equal. rewrite E. by apply Z.div_mul; lia.
  - split; [done|]. intros E. destruct Hm. rewrite E. by apply Z.mod_mul; lia.
Qed.

(** The decimal [s] is exactly [v] times the [unit]-th part of one. *)
Definition exactly `{OtherRat} (unit : Z) (s : string) (v : Z) : Prop :=
  ∃ n d, Rat_SetString s = Some (n, d) ∧ d ≠ 0 ∧ n * unit = v * d.
Lemma in_units_exact `{OtherRat} unit message s v :
  in_units unit message s = Ok v → v ≠ 0 → exactly unit s v.
Proof.
  unfold in_units, exactly. destruct (Rat_SetString s) as [[n d]|]; [|done]. case_decide as Hm; [|done].
  intros [= <-] Hv. exists n, d. assert (d ≠ 0) as Hd by (intros ->; by rewrite Zdiv_0_r in Hv).
  split_and!; [done..|]. rewrite (Z.mul_comm _ d). by apply Z.div_exact.
Qed.
Lemma BtcToSat_exact `{OtherRat} s v : BtcToSat s = Ok v → v ≠ 0 →
  ∃ z, exactly (10 ^ 8) s z ∧ v = int64 z ∧ (- 2 ^ 63 ≤ z < 2 ^ 63 → v = z).
Proof.
  unfold BtcToSat. destruct (in_units _ _ s) as [z|e|] eqn:Hz; [|done..]. intros [= <-] Hv.
  exists z. split; [|split; [done|]].
  - eapply in_units_exact; [exact Hz|]. by intros ->.
  - intros Hb. unfold int64. rewrite Z.mod_small by lia. lia.
Qed.
(** The conversion to [int64] wraps. *)
Example BtcToSat_wraps `{OtherRat} : BtcToSat "184467440737.09551617" = Ok 1.
Proof. vm_compute. reflexivity. Qed.

Section props.
Context {OS TS PS ES B CS AS XS : Type}.
Context `{IConfigDao CS, Txscript, IEthNode XS, !IBtcNode XS, EthCommon, Crypto, SwapLibraries, OtherRat}.
#[local] Abbreviation Desk := (Desk OS TS PS ES B CS AS XS).
#[local] Abbreviation Swap := (Swap (OS:=OS) (TS:=TS) (PS:=PS) (ES:=ES) (B:=B) (CS:=CS) (AS:=AS) (XS:=XS)).
Implicit Types s : Swap.

(** Steps on the desk leave the engine and the goroutines alone. *)
Definition keeps (s s' : Swap) : Prop := sp_engine s' = sp_engine s ∧ sp_running s' = sp_running s.
Lemma wp_desk {A} (m : M Desk A) (Q : outcome A → Swap → Prop) s :
  (∀ r s', keeps s s' → Q r s') → wp (zoom swap_desk m) Q s.
Proof. intros HQ. unfold wp, zoom. destruct (m (lget swap_desk s)) as [r w]. by apply HQ. Qed.

Lemma wp_engine Q s : Q (Ok (sp_engine s)) s → wp (zoom swap_engine get) Q s.
Proof. by destruct s. Qed.

(** The one goroutine that a half of the start adds when it succeeds. *)
Definition starts (f : Z → activity) (s : Swap) (r : outcome unit) (s' : Swap) : Prop :=
  sp_engine s' = sp_engine s ∧
  match r with
  | Ok _ => ∃ n, sp_running s' = sp_running s ++ [f n]
  | _ => sp_running s' = sp_running s
  end.
Lemma start_ethereum_ok l s : wp (start_ethereum l) (starts RunEthereum s) s.
Proof.
  unfold start_ethereum. destruct (el_Storage l); [|by split].
  apply wp_bind, wp_desk. intros [n|e|] s' [He Hr]; [|by split..].
  split; [done|]. exists n. cbn. by rewrite Hr.
Qed.
Lemma start_bitcoin_ok l s : wp (start_bitcoin l) (starts RunBitcoin s) s.
Proof.
  unfold start_bitcoin. apply wp_bind, wp_desk. intros [[]|e|] s1 [He1 Hr1]; [|by split..].
  simpl. destruct (bl_Storage l); [|by split]. apply wp_bind, wp_desk. intros [n|e|] s2 [He2 Hr2].
  - split; [cbn; congruence|]. exists n. cbn. congruence.
  - split; congruence.
  - split; congruence.
Qed.

(** A half of the start: the listener runs only with the minimum of the configuration,
    which is exact and is not zero. *)
Definition half (read : option Z → Z → Prop) (f : Z → activity) (s : Swap) (r : outcome unit) (s' : Swap) : Prop :=
  (∃ wei sat, sp_engine s' = set_minimums wei sat (sp_engine s) ∧ (r = Ok tt → read wei sat)) ∧
  match r with
  | Ok _ => ∃ n, sp_running s' = sp_running s ++ [f n]
  | _ => sp_running s' = sp_running s
  end.
Definition wei_read (e : SwapEngine) (wei : option Z) (sat : Z) : Prop :=
  ∃ m, wei = Some m ∧ exactly (10 ^ 18) (sw_minimumValueEth e) m ∧ m ≠ 0 ∧ sat = sw_minimumValueSat e.
Definition sat_read (e : SwapEngine) (wei : option Z) (sat : Z) : Prop :=
  (∃ z, exactly (10 ^ 8) (sw_minimumValueBtc e) z ∧ sat = int64 z ∧ (- 2 ^ 63 ≤ z < 2 ^ 63 → sat = z)) ∧
  sat ≠ 0 ∧ wei = sw_minimumValueWei e.
Lemma start_with_wei_ok l s : wp (start_with_wei l) (half (wei_read (sp_engine s)) RunEthereum s) s.
Proof.
  unfold start_with_wei. apply wp_bind. cbn. apply wp_bind. cbn. apply wp_bind, wp_lift.
  destruct (EthToWei _) as [m|e|] eqn:Hm; [|by split; [eexists _, _; split|]..].
  cbn. case_decide; [by split; [eexists _, _; split|]|].
  apply wp_wrapping. eapply wp_mono; [|apply start_ethereum_ok].
  intros r s' [He Hr]. split; [|by destruct r].
  exists (Some m), (sw_minimumValueSat (sp_engine s)). split; [exact He|]. intros _. exists m.
  split_and!; [done|by eapply in_units_exact|done..].
Qed.
Lemma start_with_sat_ok l s : wp (start_with_sat l) (half (sat_read (sp_engine s)) RunBitcoin s) s.
Proof.
  unfold start_with_sat. apply wp_bind. cbn. apply wp_bind. cbn. apply wp_bind, wp_lift.
  destruct (BtcToSat _) as [m|e|] eqn:Hm; [|by split; [eexists _, _; split|]..].
  cbn. case_decide; [by split; [eexists _, _; split|]|].
  apply wp_wrapping. eapply wp_mono; [|apply start_bitcoin_ok].
  intros r s' [He Hr]. split; [|by destruct r].
  exists (sw_minimumValueWei (sp_engine s)), m. split; [done|]. intros _. by split; [apply BtcToSat_exact|].
Qed.

(** What is started of a listener: nothing, or the goroutine that reads its chain. *)
Definition runs {A} (f : Z → activity) (enabled : option A) (l : list activity) : Prop :=
  match enabled with Some _ => ∃ n, l = [f n] | None => l = [] end.
Lemma when_half {A} (enabled : option A) m read f s :
  (∀ a, f a ≠ PoolQueue) → (∀ a, wp (m a) (half read f s) s) →
  wp (when_some enabled m) (λ r s', ∃ wei sat l,
    sp_engine s' = set_minimums wei sat (sp_engine s) ∧ sp_running s' = sp_running s ++ l ∧ PoolQueue ∉ l ∧
    (r = Ok tt → runs f enabled l ∧
       match enabled with
       | Some _ => read wei sat
       | None => wei = sw_minimumValueWei (sp_engine s) ∧ sat = sw_minimumValueSat (sp_engine s)
       end)) s.
Proof.
  intros Hf Hm. destruct enabled as [a|]; cbn [when_some].
  - eapply wp_mono; [|apply Hm]. intros r s' [(wei & sat & Hs & Hr) Hrun]. exists wei, sat. destruct r as [[]|e|].
    + destruct Hrun as [n Hn]. exists [f n]. split_and!; [done..| |].
      * intros [E|E%elem_of_nil]%elem_of_cons; [by apply (Hf n)|done].
      * intros _. split; [by exists n|by apply Hr].
    + exists []. rewrite app_nil_r. split_and!; [done..|by apply not_elem_of_nil|done].
    + exists []. rewrite app_nil_r. split_and!; [done..|by apply not_elem_of_nil|done].
  - apply wp_ret.
    exists (sw_minimumValueWei (sp_engine s)), (sw_minimumValueSat (sp_engine s)), []. rewrite app_nil_r.
    split_and!; [by destruct s as [[]]|done|by apply not_elem_of_nil|done].
Qed.

(** C24: when the swap starts, each listener that is enabled runs, from one block, with
    the minimum of its configuration, which is not zero: the decimal that is configured
    is exactly that many wei, or exactly a number of satoshi which is the minimum when an
    [int64] holds it, and of which the minimum is the low 64 bits otherwise.  The two
    addresses are well formed and the queue is consumed.  When the start fails the queue
    is not consumed, whichever listeners have been started. *)
Theorem Start_starts s :
  let e := sp_engine s in
  wp Start (λ r s', ∃ l, sp_running s' = sp_running s ++ l ∧
    match r with
    | Ok _ => ∃ le lb ac, l = le ++ lb ++ [PoolQueue] ∧
        runs RunEthereum (eth_enabled e) le ∧ runs RunBitcoin (btc_enabled e) lb ∧ le ++ lb ≠ [] ∧
        (is_Some (eth_enabled e) → ∃ m, exactly (10 ^ 18) (sw_minimumValueEth e) m ∧ m ≠ 0 ∧
           sw_minimumValueWei (sp_engine s') = Some m) ∧
        (is_Some (btc_enabled e) → sw_minimumValueSat (sp_engine s') ≠ 0 ∧
           ∃ z, exactly (10 ^ 8) (sw_minimumValueBtc e) z ∧ sw_minimumValueSat (sp_engine s') = int64 z ∧
             (- 2 ^ 63 ≤ z < 2 ^ 63 → sw_minimumValueSat (sp_engine s') = z)) ∧
        sw_configurator e = Some ac ∧ IsHexAddress (ac_IssuerPublicKey ac) = true ∧
        IsHexAddress (ac_DistributionPublicKey ac) = true ∧ accountStatus (sp_desk s') = ∅
    | _ => PoolQueue ∉ l
    end) s.
Proof.
  intros e. unfold Start. apply wp_bind, wp_engine. cbn [wp_next]. change (sp_engine s) with e.
  destruct (negb _) eqn:Hen; [exists []; rewrite app_nil_r; split; [done|by apply not_elem_of_nil]|].
  apply negb_false_iff, orb_true_iff in Hen. rewrite !bool_decide_eq_true in Hen.
  apply wp_bind. eapply wp_mono; [|apply (when_half (eth_enabled e) start_with_wei (wei_read e) RunEthereum s);
    [done|intros l; apply start_with_wei_ok]].
  intros r s1 (wei & sat & le & He1 & Hr1 & Hn1 & Hok1). destruct r as [[]|err|]; [|by exists le..].
  destruct (Hok1 eq_refl) as [Hle Hwei]. cbn [wp_next]. apply wp_bind.
  eapply wp_mono; [|apply (when_half (btc_enabled e) start_with_sat (sat_read (sp_engine s1)) RunBitcoin s1);
    [done|intros l; apply start_with_sat_ok]].
  intros r s2 (wei' & sat' & lb & He2 & Hr2 & Hn2 & Hok2).
  assert (sp_running s2 = sp_running s ++ le ++ lb) as Hr by (by rewrite Hr2, Hr1, app_assoc).
  assert (PoolQueue ∉ le ++ lb) as Hn by (rewrite elem_of_app; tauto).
  destruct r as [[]|err|]; [|by exists (le ++ lb)..].
  destruct (Hok2 eq_refl) as [Hlb Hsat]. cbn [wp_next]. apply wp_bind, wp_wrapping.
  unfold start_configurator. apply wp_bind, wp_engine. cbn [wp_next]. apply wp_bind, wp_lift. rewrite He2, He1.
  change (sw_configurator (set_minimums wei' sat' (set_minimums wei sat (sp_engine s)))) with (sw_configurator e).
  destruct (sw_configurator e) as [ac|] eqn:Hac; [|by exists (le ++ lb)]. cbn.
  destruct (IsHexAddress (ac_IssuerPublicKey ac)) eqn:Hi; [|by exists (le ++ lb)]. cbn.
  destruct (IsHexAddress (ac_DistributionPublicKey ac)) eqn:Hd; [|by exists (le ++ lb)]. cbn.
  exists (le ++ lb ++ [PoolQueue]). cbn. rewrite Hr, <-!app_assoc. split; [done|].
  exists le, lb, ac. split_and!; [done..| | | |done|exact Hi|exact Hd|done].
  - destruct Hen as [[l Hl]|[l Hl]]; rewrite Hl in *; [destruct Hle as [n ->]; done|].
    destruct Hlb as [n ->]. by destruct le.
  - intros [l Hl]. rewrite Hl in Hwei. destruct Hwei as (m & -> & Hm & Hm0 & _). exists m.
    split_and!; [done..|]. rewrite He2. cbn. destruct (btc_enabled e); [destruct Hsat as (_ & _ & ->)|destruct Hsat as [-> _]];
      by rewrite He1.
  - intros [l Hl]. rewrite Hl in Hsat. destruct Hsat as (Hs & Hs0 & _). rewrite He2. cbn.
    rewrite He1 in Hs. by split.
Qed.

(** ** A start without handlers *)

(** No handler is set by the configuration. *)
Definition unhandled (e : SwapEngine) : Prop :=
  (∀ l, sw_ethereumListener e = Some l → el_TransactionHandler l = false) ∧
  (∀ l, sw_bitcoinListener e = Some l → bl_TransactionHandler l = false).
Lemma NewSwapEngine_unhandled cfg e : NewSwapEngine cfg = Ok e → unhandled e.
Proof.
  unfold NewSwapEngine. intros He.
  set (e0 := mkSwapEngine cfg None None None None None false "" "" None 0 0) in *.
  assert (unhandled e0) as H0' by (by split).
  destruct (configEthereum e0) as [e1|err|] eqn:He1; [|done..].
  assert (unhandled e1) as Hu1.
  { revert He1. unfold configEthereum. destruct (cfg_Ethereum (sw_Config e0)); [|by intros [= <-]].
    case_decide; [by intros [= <-]|]. destruct (EthDial _); [|done]. cbn.
    destruct (NewAddressGenerator _); [|done..]. intros [= <-]. split; [by intros l [= <-]|done]. }
  cbn in He. destruct (configBitcoin e1) as [e2|err|] eqn:He2; [|done..].
  assert (unhandled e2) as Hu2.
  { revert He2. unfold configBitcoin. destruct (cfg_Bitcoin (sw_Config e1)); [|by intros [= <-]].
    case_decide; [by intros [= <-]|]. destruct (BtcConnect _); [|done]. cbn.
    destruct (NewAddressGenerator _); [|done..]. intros [= <-]. split; [apply Hu1|by intros l [= <-]]. }
  injection He as <-. unfold configTomochain. by destruct (cfg_Tomochain (sw_Config e2)).
Qed.

Definition same_listeners s (_ : outcome unit) s' : Prop :=
  sw_ethereumListener (sp_engine s') = sw_ethereumListener (sp_engine s) ∧
  sw_bitcoinListener (sp_engine s') = sw_bitcoinListener (sp_engine s).
Lemma same_then (m m' : M Swap unit) s :
  (∀ s, wp m (same_listeners s) s) → (∀ s, wp m' (same_listeners s) s) → wp (m ;; m') (same_listeners s) s.
Proof.
  intros Hm Hm'. apply wp_bind. eapply wp_mono; [|apply Hm]. intros [[]|e|] s1 [He1 Hb1]; [|done..].
  eapply wp_mono; [|apply Hm']. intros r s2 [He2 Hb2]. split; congruence.
Qed.
Lemma when_same {A} (enabled : option A) m read f s :
  (∀ a s, wp (m a) (half (read s) f s) s) → wp (when_some enabled m) (same_listeners s) s.
Proof.
  intros Hm. destruct enabled as [a|]; cbn; [|by apply wp_ret].
  eapply wp_mono; [|apply Hm]. intros r s' [(wei & sat & Hs & _) _]. unfold same_listeners. by rewrite Hs.
Qed.
Lemma Start_listeners s : wp Start (same_listeners s) s.
Proof.
  unfold Start. apply wp_bind, wp_engine. cbn [wp_next]. destruct (negb _); [done|].
  apply same_then; [intros s'; apply (when_same _ _ (wei_read ∘ sp_engine) RunEthereum), start_with_wei_ok|].
  intros s1. apply same_then; [intros s'; apply (when_same _ _ (sat_read ∘ sp_engine) RunBitcoin), start_with_sat_ok|].
  intros s2. apply same_then; [|done]. intros s3. apply wp_wrapping. unfold start_configurator.
  apply wp_bind, wp_engine. cbn [wp_next]. apply wp_bind, wp_lift.
  destruct (sw_configurator (sp_engine s3)) as [ac|]; [|done]. cbn.
  by destruct (IsHexAddress (ac_IssuerPublicKey ac)), (IsHexAddress (ac_DistributionPublicKey ac)).
Qed.

(** A nil handler panics at the first payment of a block. *)
Lemma crash_payments (l : list (string * Z * option Address)) (w : Desk) :
  (∃ hash value to, (hash, value, Some to) ∈ l) →
  (mforeach (EthListener.handle_transaction (λ _, crash)) l w).1 = Panic.
Proof.
  intros (hash & value & to & Hin). induction l as [|[[hash' value'] [to'|]] l IH]; [by apply elem_of_nil in Hin|done|].
  apply elem_of_cons in Hin as [?|Hin]; [done|]. exact (IH Hin).
Qed.

(** The swap is started before its handlers are set: whatever the outcome of the
    start, the listeners that run are without them when the service has been made, and
    the first block with a payment then panics. *)
Theorem started_without_handlers cfg e (w : Desk) (h : EthTransaction → M Desk unit) : NewSwapEngine cfg = Ok e →
  wp NewDepositService (λ r s', ∀ (b : EthBlock) (w' : Desk), (∃ hash value to, (hash, value, Some to) ∈ eb_Transactions b) →
    (EthListener.processBlock (eth_handler (sp_engine s') h) (Some b) w').1 = Panic) (mkSwap e w []).
Proof.
  intros [He _]%NewSwapEngine_unhandled. unfold NewDepositService. apply wp_bind. cbn.
  apply wp_log_error. eapply wp_mono; [|apply Start_listeners].
  intros r s' [Hs _]. assert (eth_handler (sp_engine s') h = λ _, crash) as Hh.
  { unfold eth_handler. rewrite Hs. cbn. destruct (sw_ethereumListener e) as [l|]; [|done].
    cbn. by rewrite (He l). }
  rewrite Hh. destruct r; intros b w' Hb; by apply crash_payments.
Qed.
End props.
