(* ===== verification/DepositProps.v ===== *)
(** The deposit swap: which payments are queued, and what a queued payment pays
    out. *)
From S2P Require Import Prelude BigMath Types Mongo Json DepositTypes Orders MatchTypes OrderDao Pairs OrderStore TradeDao Rabbit Engine Ws Services OrderEndpoint Deposits AddressGenerator DepositService DepositEndpoint Configurator.

Section props.
Context {OS TS PS ES B CS AS XS : Type}.
Context `{IOrderDao OS, IPairDao PS, AmqpLaws B, ConfigDaoSpec CS}.
Context `{AddressKeyLaws} `{!IAssociationDao AS, !AssociationDaoSpec AS}.
Context `{ITokenLaws XS, !ITicker XS, !ITickerLaws XS}.
Context `{!Codecs, SwapConfig, !Rlp, !OtherRat, !Big.Undefined}.
#[local] Abbreviation Desk := (Desk OS TS PS ES B CS AS XS).
Implicit Types (w : Desk) (x : AddressAssociationRecord).

(** The messages that were published, the transfers that were made and the
    associations there are. *)
Definition queued w : list (string * json) := sent (s_broker (k_services w)).
Definition paid w : list (Address * Address * Z) := transfers (k_outside w).
Definition holds_associations w (l : list AddressAssociationRecord) : Prop :=
  associations (k_associations w) l.

Definition deposit_of (t : EthTransaction) x : DepositTransaction :=
  mkDepositTransaction ChainEthereum (et_Hash t) AssetCodeETH (ar_PairName x)
    (Big.String_Z (et_ValueWei t)) (ar_AssociatedAddress x).
Definition deposit_message (t : EthTransaction) x : string * json :=
  ("deposit", DepositTransaction_json (deposit_of t x)).
(** A payment to the address of [x], which is not done with. *)
Definition deposits (t : EthTransaction) x : Prop :=
  MinimumValueWei <= et_ValueWei t ∧ paid_to ChainEthereum (HexToAddress (et_To t)) x ∧
  ar_Status x ≠ SUCCESS.

Lemma paid_to_unique c a l x y :
  NoDup ((λ x, (ar_Chain x, ar_Address x)) <$> l) → x ∈ l → y ∈ l →
  paid_to c a x → paid_to c a y → x = y.
Proof.
  intros Hn [i Hi]%list_elem_of_lookup [j Hj]%list_elem_of_lookup [Hcx Hax] [Hcy Hay].
  assert (i = j) as ->; [|congruence].
  eapply (NoDup_lookup _ i j _ Hn); rewrite list_lookup_fmap; [by rewrite Hi|].
  rewrite Hj. simpl. by rewrite Hcx, Hax, Hcy, Hay.
Qed.
Lemma paid_to_own c a x : paid_to c a x → HexToAddress (ar_Address x) = a.
Proof. intros [_ ->]. apply HexToAddress_key. Qed.

(** Marking the association of a payment as pending. *)
Lemma processTransaction_ok c a x w l : holds_associations w l → x ∈ l → paid_to c a x →
  wp (processTransaction x) (λ r w', ∃ s l', w' = lset desk_associations s w ∧ associations s l' ∧
    match r with
    | Ok _ => ∃ rest, l ≡ₚ x :: rest ∧ l' ≡ₚ set_ar_Status PENDING x :: rest
    | Err _ => l' = l ∨ ∃ rest, l ≡ₚ x :: rest ∧ l' ≡ₚ set_ar_Status PENDING x :: rest
    | Panic => False
    end) w.
Proof.
  intros Hl Hx Hp. pose proof (associations_addresses _ _ Hl) as Hn.
  assert (∀ l', one_updated (paid_to (ar_Chain x) a) (set_ar_Status PENDING) l l' →
    ∃ rest, l ≡ₚ x :: rest ∧ l' ≡ₚ set_ar_Status PENDING x :: rest) as Hone.
  { intros l' (y & rest & Hy & Hpy & Hl'). assert (y = x) as ->; [|eauto].
    apply (paid_to_unique c a l); [done|rewrite Hy; by left|done| |done].
    destruct Hp as [<- _]. exact Hpy. }
  unfold processTransaction, SaveAssociationStatusByChainAddress.
  rewrite decide_False, decide_False by naive_solver. apply wp_bind, wp_ret.
  rewrite (paid_to_own c a x Hp). cbn [wp_next]. apply wp_zoom.
  eapply wp_mono; [|by apply SaveAssociationStatus_spec]. intros r s (l' & Hs & Hr).
  exists s, l'. split; [done|]. split; [done|]. destruct r as [[]|e|]; [auto| |done].
  destruct Hr as [->|Hr]; auto.
Qed.
Lemma QueueAdd_ok (t : DepositTransaction) w :
  wp (QueueAdd t) (λ r w', (∃ b, w' = lset desk_services (lset on_broker b (k_services w)) w) ∧
    match r with
    | Ok _ => queued w' = queued w ++ [("deposit", DepositTransaction_json t)]
    | _ => queued w' = queued w
    end) w.
Proof.
  apply wp_zoom, wp_zoom. eapply wp_mono; [|apply publish_on_ok].
  intros r b Hb. split; [by exists b|]. exact Hb.
Qed.

(** ** Payments that were seen *)

(** What a payment may do: nothing; or mark the one association it pays as
    pending, and then queue one message for it, or fail to. *)
Definition one_payment (t : EthTransaction) (l l' : list AddressAssociationRecord)
    (m : list (string * json)) : Prop :=
  (m = [] ∧ l' = l) ∨
  ∃ x rest, l ≡ₚ x :: rest ∧ l' ≡ₚ set_ar_Status PENDING x :: rest ∧ deposits t x ∧
    (m = [] ∨ m = [deposit_message t x]).
Definition payment_handled (answered : Prop) (t : EthTransaction) w l (r : outcome unit) w' : Prop :=
  paid w' = paid w ∧ k_config w' = k_config w ∧
  ∃ l' m, holds_associations w' l' ∧ queued w' = queued w ++ m ∧ one_payment t l l' m ∧
    (answered → r = Ok tt →
     ∀ x, x ∈ l → deposits t x → m = [deposit_message t x]).

(** The lookup of the association answers. *)
Definition lookup_answers (t : EthTransaction) w : Prop :=
  ∀ e, (GetAssociationByChainAddress ChainEthereum (HexToAddress (et_To t)) w).1 ≠ Err e.

Lemma payment_nothing P t l w0 w : paid w = paid w0 → k_config w = k_config w0 →
  queued w = queued w0 → holds_associations w l →
  (∀ x, x ∈ l → ¬ deposits t x) → payment_handled P t w0 l (Ok tt) w.
Proof.
  intros Hp Hc Hq Hl Hno. split_and!; [done..|]. exists l, []. rewrite Hq, app_nil_r.
  split_and!; [done..|by left|]. intros _ _ x Hx Hd. by destruct (Hno x Hx).
Qed.

Lemma processNewTransaction_ok t x w l : holds_associations w l → x ∈ l →
  MinimumValueWei <= et_ValueWei t → paid_to ChainEthereum (HexToAddress (et_To t)) x →
  wp (processNewTransaction (deposit_of t x) x) (payment_handled True t w l) w.
Proof.
  intros Hl Hx Hv Hp. pose proof (associations_addresses _ _ Hl) as Hn.
  assert (∀ y, y ∈ l → deposits t y → y = x) as Hu.
  { intros y Hy (_ & Hpy & _). by eapply paid_to_unique. }
  unfold processNewTransaction. destruct (decide _) as [Hs|Hs].
  { apply wp_ret, payment_nothing; [done..|]. intros y Hy Hd. pose proof (Hu y Hy Hd) as ->.
    destruct Hd as (_ & _ & Hd). by apply Hd. }
  apply wp_bind. eapply wp_mono; [|by eapply processTransaction_ok].
  intros r w1 (s & l' & -> & Hl' & Hr).
  assert (deposits t x) as Hd by exact (conj Hv (conj Hp Hs)).
  destruct r as [[]|e|]; cbn [wp_next]; [| |done].
  - destruct Hr as (rest & Hrest & Hset). unfold wrapping.
    pose proof (QueueAdd_ok (deposit_of t x) (lset desk_associations s w)) as Hq.
    revert Hq. unfold wp. destruct (QueueAdd _ _) as [r w2]. cbn. intros [(b & ->) Hq].
    split; [done|]. split; [done|]. exists l'. destruct r as [[]|e|]; cbn in Hq |- *.
    + exists [deposit_message t x]. split_and!; [done..|right; eauto 10|].
      intros _ _ y Hy Hdy. by rewrite (Hu y Hy Hdy).
    + exists []. rewrite app_nil_r. split_and!; [done..|right; eauto 10|done].
    + exists []. rewrite app_nil_r. split_and!; [done..|right; eauto 10|done].
  - split; [done|]. split; [done|]. exists l', []. rewrite app_nil_r. split_and!; [done..| |done].
    destruct Hr as [->|(rest & Hrest & Hset)]; [by left|right; eauto 10].
Qed.
Lemma OnNewEthereumTransaction_ok t w l : holds_associations w l →
  wp (OnNewEthereumTransaction t) (payment_handled (lookup_answers t w) t w l) w.
Proof.
  intros Hl. unfold OnNewEthereumTransaction. destruct (Z.ltb_spec (et_ValueWei t) MinimumValueWei).
  { apply wp_ret, payment_nothing; [done..|]. intros y _ (? & _). lia. }
  apply wp_bind, wp_attempt. unfold GetAssociationByChainAddress. apply wp_zoom.
  eapply wp_mono; [|apply wp_and; [apply wp_self|by apply GetByChainAddress_spec]].
  intros r s [[Hr _] [Hs Hf]].
  destruct r as [[x|]|e|]; cbn [wp_next]; [| | |done].
  - destruct Hf as [Hx Hp]. eapply wp_mono; [|by apply (processNewTransaction_ok t x _ l)].
    intros r' w' (Hpd & Hc & l' & m & Hl' & Hm & Hpay & Hall). split; [done|]. split; [done|].
    exists l', m. split_and!; [done..|]. intros _ Hok. by apply Hall.
  - apply wp_ret, payment_nothing; [done..|]. intros y Hy (_ & Hp & _).
    rewrite Forall_forall in Hf. by apply (Hf y).
  - apply wp_ret. split; [done|]. split; [done|]. exists l, []. rewrite app_nil_r.
    split_and!; [done..|by left|]. intros Hno. destruct (Hno e). unfold GetAssociationByChainAddress, zoom.
    cbn. rewrite (surjective_pairing (as_GetByChainAddress _ _ _)). cbn. by rewrite Hr.
Qed.

(** C15: handling an Ethereum payment transfers nothing, and queues nothing or one
    message: that of the one association the payment pays, if it pays the minimum
    and the association has not succeeded, whose status is then PENDING.  When
    the lookup answers and the handler succeeds, the message is queued. *)
Theorem deposit_queued t w l r w' :
  holds_associations w l → OnNewEthereumTransaction t w = (r, w') →
  paid w' = paid w ∧
  ∃ l' m, holds_associations w' l' ∧ queued w' = queued w ++ m ∧ one_payment t l l' m ∧
    (lookup_answers t w → r = Ok tt → ∀ x, x ∈ l → deposits t x → m = [deposit_message t x]).
Proof.
  intros Hl Hrun. destruct (wp_run _ _ _ _ _ Hrun (OnNewEthereumTransaction_ok t w l Hl)) as (Hp & _ & H').
  by split.
Qed.

(** A payment that is seen again, as a listener that starts again or repeats a
    block sees it, is queued again while its association is pending: two messages
    are there to be paid out. *)
Theorem deposit_queued_again t x w l w1 w2 :
  holds_associations w l → x ∈ l → deposits t x → lookup_answers t w → lookup_answers t w1 →
  OnNewEthereumTransaction t w = (Ok tt, w1) → OnNewEthereumTransaction t w1 = (Ok tt, w2) →
  queued w2 = queued w ++ [deposit_message t x; deposit_message t x].
Proof.
  intros Hl Hx Hd Ha1 Ha2 Hrun1 Hrun2.
  destruct (wp_run _ _ _ _ _ Hrun1 (OnNewEthereumTransaction_ok t w l Hl))
    as (_ & _ & l1 & m & Hl1 & Hq1 & Hone & Hall).
  rewrite (Hall Ha1 eq_refl x Hx Hd) in Hq1, Hone.
  destruct Hone as [[? _]|(y & rest & Hy & Hl1' & Hdy & _)]; [done|].
  assert (y = x) as ->.
  { eapply (paid_to_unique ChainEthereum _ l); [by eapply associations_addresses|rewrite Hy; by left|done|apply Hdy|apply Hd]. }
  destruct (wp_run _ _ _ _ _ Hrun2 (OnNewEthereumTransaction_ok t w1 l1 Hl1))
    as (_ & _ & l2 & m2 & _ & Hq2 & _ & Hall2).
  rewrite Hq2, Hq1, (Hall2 Ha2 eq_refl (set_ar_Status PENDING x)), <-app_assoc; [done|rewrite Hl1'; by left|].
  by destruct Hd as (? & ? & _).
Qed.

(** ** Paying out *)

(** What transfers nothing. *)
Definition pays_nothing {A} (m : M Desk A) : Prop := ∀ w, wp m (λ _ w', paid w' = paid w) w.

Lemma pays_zoom_services {A} (m : M (Services OS TS PS ES B) A) : pays_nothing (zoom desk_services m).
Proof. intros w. apply wp_zoom. unfold wp. done. Qed.
Lemma pays_zoom_config {A} (m : M CS A) : pays_nothing (zoom desk_config m).
Proof. intros w. apply wp_zoom. unfold wp. done. Qed.
Lemma pays_zoom_associations {A} (m : M AS A) : pays_nothing (zoom desk_associations m).
Proof. intros w. apply wp_zoom. unfold wp. done. Qed.
Lemma pays_zoom_outside {A} (m : M XS A) : no_transfer m → pays_nothing (zoom desk_outside m).
Proof. intros Hm w. apply wp_zoom. apply Hm. Qed.
Lemma pays_bind {A C} (m : M Desk A) (f : A → M Desk C) :
  pays_nothing m → (∀ a, pays_nothing (f a)) → pays_nothing (m ≫= f).
Proof.
  intros Hm Hf w. apply wp_bind. eapply wp_mono; [|apply Hm].
  intros [a|e|] w1 E; cbn [wp_next]; [|done..]. eapply wp_mono; [|apply Hf]. by intros ?? ->.
Qed.
Lemma pays_attempt {A} (m : M Desk A) : pays_nothing m → pays_nothing (attempt m).
Proof. intros Hm w. apply wp_attempt. eapply wp_mono; [|apply Hm]. by intros [] ?. Qed.
Lemma pays_log_error {A} (m : M Desk A) : pays_nothing m → pays_nothing (log_error m).
Proof. intros Hm w. apply wp_log_error. eapply wp_mono; [|apply Hm]. by intros [] ?. Qed.
Lemma pays_wrapping {A} e (m : M Desk A) : pays_nothing m → pays_nothing (wrapping e m).
Proof. intros Hm w. specialize (Hm w). unfold wp, wrapping in *. by destruct (m w). Qed.
Lemma pays_saying {A} e (m : M Desk A) : pays_nothing m → pays_nothing (saying e m).
Proof. intros Hm w. specialize (Hm w). unfold wp, saying in *. by destruct (m w). Qed.
Lemma pays_lift {A} (r : outcome A) : pays_nothing (lift r).
Proof. done. Qed.
Lemma pays_ret {A} (a : A) : pays_nothing (mret a).
Proof. done. Qed.
Lemma pays_fail {A} e : pays_nothing (fail e : M Desk A).
Proof. done. Qed.
Lemma pays_crash {A} : pays_nothing (crash : M Desk A).
Proof. done. Qed.
Lemma pays_status f : pays_nothing (modify (set_accountStatus f)).
Proof. done. Qed.
#[local] Hint Resolve pays_zoom_services pays_zoom_config pays_zoom_associations pays_lift pays_ret
  pays_fail pays_crash pays_status : swap.
#[local] Hint Extern 1 (pays_nothing (zoom desk_outside (NewToken _))) =>
  apply pays_zoom_outside, NewToken_ok : swap.
#[local] Hint Extern 1 (pays_nothing (zoom desk_outside (ListenToTransferEvents _))) =>
  apply pays_zoom_outside, ListenToTransferEvents_ok : swap.
#[local] Hint Extern 1 (pays_nothing (zoom desk_outside (TransferEvents _))) =>
  apply pays_zoom_outside, TransferEvents_ok : swap.

Ltac pays :=
  intros; first [contradiction | solve [auto with swap nocore]
    | apply pays_bind | apply pays_attempt | apply pays_log_error | apply pays_wrapping | apply pays_saying
    | match goal with |- pays_nothing (match ?x with _ => _ end) => destruct x end].
Lemma GetLastPrice_pays b q : pays_nothing (zoom desk_outside (GetLastPrice b q)).
Proof.
  apply pays_zoom_outside. intros s. apply wp_bind. eapply wp_mono; [|apply Ticker_ok].
  by intros [a|e|] s1 E.
Qed.
#[local] Hint Resolve GetLastPrice_pays : swap.
Lemma GetBaseTokenAmount_pays pair q : pays_nothing (GetBaseTokenAmount pair q).
Proof. unfold GetBaseTokenAmount, getTokenAmountFromOracle. repeat pays.
Qed.
Lemma mark_pays x st : pays_nothing (mark x st).
Proof. unfold mark, SaveAssociationStatusByChainAddress. repeat pays. Qed.
#[local] Hint Resolve GetBaseTokenAmount_pays mark_pays : swap.
Lemma or_failed_pays {A} x (m : M Desk A) : pays_nothing m → pays_nothing (or_failed x m).
Proof. unfold or_failed. repeat pays. Qed.
#[local] Hint Resolve or_failed_pays : swap.
Lemma OnSubmitTransaction_pays chain destination t :
  at_TransactionType t ≠ CreateOffer → pays_nothing (OnSubmitTransaction chain destination t).
Proof.
  intros Ht. unfold OnSubmitTransaction, SaveDepositTransaction, GetAssociationByChainAssociatedAddress.
  repeat pays.
Qed.

(** Paying out makes at most one transfer: of the amount of the base token, to the
    association's user, and exactly one when it succeeds. *)
Definition amount_of x (quoteAmount amount : Z) : Prop :=
  ∃ w, (GetBaseTokenAmount (ar_PairName x) quoteAmount w).1 = Ok amount.
Definition payout x (quoteAmount : Z) (p : list (Address * Address * Z)) : Prop :=
  ∃ amount, amount_of x quoteAmount amount ∧
    p = [(HexToAddress (ar_BaseTokenAddress x), HexToAddress (ar_AssociatedAddress x), amount)].
Lemma pays_wp {A} (m : M Desk A) (Q : outcome A → Desk → Prop) w :
  pays_nothing m → (∀ r w', r = (m w).1 → paid w' = paid w → Q r w') → wp m Q w.
Proof. intros Hm HQ. apply HQ; [done|apply Hm]. Qed.
Lemma Transfer_paid c a n w : wp (zoom desk_outside (Transfer c a n)) (λ r w', match r with
  | Ok _ => paid w' = paid w ++ [(c, a, n)] | _ => paid w' = paid w end) w.
Proof. apply wp_zoom. apply Transfer_ok. Qed.
Lemma processTokenTransaction_ok x q w :
  wp (processTokenTransaction x q) (λ r w', match r with
    | Ok _ => ∃ p, payout x q p ∧ paid w' = paid w ++ p
    | _ => paid w' = paid w ∨ ∃ p, payout x q p ∧ paid w' = paid w ++ p
    end) w.
Proof.
  unfold processTokenTransaction. apply wp_bind, pays_wp; [repeat pays|].
  intros [?|e|] w1 _ E1; cbn [wp_next]; [|by left..].
  apply wp_bind, pays_wp; [repeat pays|]. intros r w2 Hr E2.
  destruct r as [amount|e|]; cbn [wp_next]; [|left; congruence..].
  assert (amount_of x q amount) as Ha.
  { exists w1. unfold wrapping in Hr. destruct (GetBaseTokenAmount _ _ w1) as [[]]; cbn in *; congruence. }
  apply wp_bind, pays_wp; [repeat pays|]. intros [?|e|] w3 _ E3; cbn [wp_next]; [|left; congruence..].
  apply wp_bind, wp_wrapping. eapply wp_mono; [|apply Transfer_paid].
  intros [[]|e|] w4 E4; cbn [Wrap wp_next]; [|left; congruence..].
  assert (∃ p, payout x q p ∧ paid w4 = paid w ++ p) as (p & Hp & E).
  { eexists. split; [by exists amount|]. congruence. }
  clear - Hp E H9. apply wp_bind, pays_wp; [repeat pays|]. intros r w5 _ E5.
  assert (∃ p, payout x q p ∧ paid w5 = paid w ++ p) as H' by (exists p; split; congruence).
  destruct r as [[|[to value] [|? ?]]|e|]; cbn [wp_next]; [by right| | |by right..].
  - destruct (decide _); [by right|]. by destruct (decide _); [right|].
  - by right.
Qed.

(** The transfer that an offer for a user stands for. *)
Definition settles (chain : string) (user : Address) (l : list AddressAssociationRecord) (t : AssociationTransaction)
    (p : list (Address * Address * Z)) : Prop :=
  at_TransactionType t = CreateOffer ∧ ∃ x amount quoteAmount, x ∈ l ∧
    of_user chain (AssociationDao.getAddressKey user) x ∧
    head (at_Params t) = Some amount ∧ Big.SetString amount = Some quoteAmount ∧
    payout x quoteAmount p.
Lemma submit_settles chain destination t w l : holds_associations w l →
  wp (OnSubmitTransaction chain destination t) (λ r w',
    (paid w' = paid w ∧ (r = Ok tt → at_TransactionType t ≠ CreateOffer)) ∨
    ∃ p, settles chain (HexToAddress destination) l t p ∧ paid w' = paid w ++ p) w.
Proof.
  intros Hl. destruct (decide (at_TransactionType t = CreateOffer)) as [Ht|Ht].
  2:{ apply pays_wp; [by apply OnSubmitTransaction_pays|]. by left. }
  unfold OnSubmitTransaction, GetAssociationByChainAssociatedAddress. apply wp_bind, wp_zoom.
  eapply wp_mono; [|by apply GetByChainAssociatedAddress_spec]. intros r s [_ Hf].
  set (w1 := lset desk_associations s w). assert (paid w1 = paid w) as E1 by done. clearbody w1.
  destruct r as [[x|]|e|]; cbn [wp_next]; [|by left..]. destruct Hf as [Hx Hu].
  apply wp_bind, wp_lift. cbn [deref wp_next].
  apply wp_bind, pays_wp; [repeat pays|]. intros [bytes|e|] w2 _ E2; cbn [wp_next]; [|by left; split; [congruence|]..].
  apply wp_bind, pays_wp; [unfold SaveDepositTransaction; repeat pays|].
  intros [?|e|] w3 _ E3; cbn [wp_next]; [|by left; split; [congruence|]..].
  rewrite decide_True by done. apply wp_bind, wp_lift.
  destruct (head (at_Params t)) as [amount|] eqn:Ha; cbn [deref wp_next]; [|by left; split; [congruence|]].
  destruct (Big.SetString amount) as [q|] eqn:Hq.
  2:{ apply pays_wp; [repeat pays|]. intros r w4 Hr E4. left. split; [congruence|]. intros ->.
    revert Hr. unfold mbind, M_bind. by destruct (mark _ _ _) as [[]]. }
  assert (∀ p, payout x q p → settles chain (HexToAddress destination) l t p) as Hs.
  { intros p Hp. split; [done|]. by exists x, amount, q. }
  apply wp_bind, wp_bind, wp_attempt. eapply wp_mono; [|apply processTokenTransaction_ok].
  intros [[]|e|] w4 E4; cbn [wp_next].
  - apply wp_ret. cbn [wp_next]. apply pays_wp; [repeat pays|]. intros r w5 _ E5. right.
    destruct E4 as (p & Hp & E4). exists p. split; [auto|congruence].
  - apply wp_bind, pays_wp; [repeat pays|].
    intros r w5 _ E5. destruct r; cbn [wp_next]; [apply wp_fail; cbn [wp_next]|..];
      (destruct E4 as [E4|(p & Hp & E4)]; [left; split; [congruence|done]|right; exists p; split; [auto|congruence]]).
  - destruct E4 as [E4|(p & Hp & E4)]; [left; split; [congruence|done]|right; exists p; split; [auto|congruence]].
Qed.

(** ** The configurator *)
Context `{!ConfiguratorConfig}.

(** What only looks at the associations. *)
Definition only_looks l {A} (m : M Desk A) : Prop :=
  ∀ w, holds_associations w l → wp m (λ _ w', holds_associations w' l ∧ paid w' = paid w) w.
Lemma looks_bind l {A C} (m : M Desk A) (f : A → M Desk C) :
  only_looks l m → (∀ a, only_looks l (f a)) → only_looks l (m ≫= f).
Proof.
  intros Hm Hf w Hl. apply wp_bind. eapply wp_mono; [|by apply Hm].
  intros [a|e|] w1 [Hl1 E1]; cbn [wp_next]; [|done..].
  eapply wp_mono; [|by apply Hf]. intros ? ? [? ->]. done.
Qed.
Lemma looks_attempt l {A} (m : M Desk A) : only_looks l m → only_looks l (attempt m).
Proof. intros Hm w Hl. apply wp_attempt. eapply wp_mono; [|by apply Hm]. by intros []. Qed.
Lemma looks_log_error l {A} (m : M Desk A) : only_looks l m → only_looks l (log_error m).
Proof. intros Hm w Hl. apply wp_log_error. eapply wp_mono; [|by apply Hm]. by intros []. Qed.
Lemma looks_ret l {A} (a : A) : only_looks l (mret a).
Proof. done. Qed.
Lemma looks_LoadAccount l chain account : only_looks l (LoadAccount chain account).
Proof.
  apply looks_bind; [|done]. intros w Hl. apply wp_zoom.
  eapply wp_mono; [|by apply GetByChainAssociatedAddress_spec]. by intros r s [Hs _].
Qed.
Lemma looks_status l f : only_looks l (modify (set_accountStatus f)).
Proof. done. Qed.

Lemma looks_then l {A C} (m : M Desk A) (f : A → M Desk C) (P : list (Address * Address * Z) → Prop) w :
  only_looks l m → holds_associations w l → P (paid w) →
  (∀ a w', holds_associations w' l → paid w' = paid w → wp (f a) (λ _ w', P (paid w')) w') →
  wp (m ≫= f) (λ _ w', P (paid w')) w.
Proof.
  intros Hm Hl HP Hf. apply wp_bind. eapply wp_mono; [|by apply Hm].
  intros [a|e|] w1 [Hl1 E]; cbn [wp_next]; [by apply Hf|by rewrite E..].
Qed.

(** Every account exists, so that none is created. *)
Lemma looks_create_account l fuel t : only_looks l (create_account fuel t).
Proof.
  induction fuel as [|fuel IH]; [done|]. simpl. destruct Enabled; [|done].
  intros w Hl. apply wp_bind, wp_attempt. apply wp_bind.
  eapply wp_mono; [|by apply looks_LoadAccount]. intros [aa|e|] w1 [Hl1 E1]; cbn [wp_next].
  - done.
  - eapply wp_mono; [|by apply IH]. intros ? ? [? ->]. done.
  - done.
Qed.
Lemma looks_wait_for_signer l fuel t : only_looks l (wait_for_signer fuel t).
Proof.
  induction fuel as [|fuel IH]; [done|]. simpl. destruct Enabled; [|done].
  apply looks_bind; [apply looks_attempt, looks_LoadAccount|].
  intros [e|aa]; [done|]. by destruct (signerExistsOnly aa).
Qed.
Lemma buildTransaction_type source type params t :
  buildTransaction source type params = Ok t → at_TransactionType t = type ∧ at_Params t = params.
Proof. unfold buildTransaction. intros Hb. go_inv. done. Qed.
Lemma build_and_submit_pays e chain destination source type params :
  type ≠ CreateOffer → pays_nothing (build_and_submit e chain destination source type params).
Proof.
  intros Ht w. unfold build_and_submit. apply wp_bind, wp_wrapping, wp_lift.
  destruct (buildTransaction source type params) as [t|e'|] eqn:Hb; cbn [Wrap wp_next]; [|done..].
  apply buildTransaction_type in Hb as [<- _].
  apply pays_wrapping, pays_wrapping. by apply OnSubmitTransaction_pays.
Qed.
Lemma remove_signer_pays t : pays_nothing (remove_signer t).
Proof.
  unfold remove_signer, OnExchanged, OnExchangedTimelocked, getAssociationByUserAddress,
    SaveDepositTransaction, GetAssociationByChainAssociatedAddress.
  pose proof (build_and_submit_pays "Error building a transaction" (dt_Chain t) (dt_AssociatedAddress t)
    (dt_AssociatedAddress t) RemoveSigner [] ltac:(done)) as Hr.
  unfold removeTemporarySigner. repeat pays.
Qed.

Lemma configure_settles t w l : holds_associations w l →
  wp (configureAccountTransaction t) (λ _ w', paid w' = paid w ∨
    ∃ o p, at_Params o = [dt_Amount t; TokenPriceETH; dt_PairName t] ∧ dt_AssetCode t = AssetCodeETH ∧
      settles (dt_Chain t) (HexToAddress (dt_AssociatedAddress t)) l o p ∧ paid w' = paid w ++ p) w.
Proof.
  intros Hl. unfold configureAccountTransaction. destruct (decide _) as [He|He]; [|by left].
  unfold build_and_submit. apply wp_bind, wp_wrapping, wp_lift.
  destruct (buildTransaction _ _ _) as [o|e'|] eqn:Hb; cbn [Wrap wp_next]; [|by left..].
  apply buildTransaction_type in Hb as [Ht Hp]. apply wp_wrapping, wp_wrapping.
  eapply wp_mono; [|by apply submit_settles]. intros r w' [[? _]|(p & Hs & Hp')]; [by left|right].
  exists o, p. by split_and!.
Qed.

(** The payments a configuration may end with, [p0] being those it starts with. *)
Definition paid_once (t : DepositTransaction) (l : list AddressAssociationRecord)
    (p0 p : list (Address * Address * Z)) : Prop :=
  p = p0 ∨
  dt_AssetCode t = AssetCodeETH ∧ ∃ x quoteAmount amount,
    x ∈ l ∧ of_user (dt_Chain t) (AssociationDao.getAddressKey (HexToAddress (dt_AssociatedAddress t))) x ∧
    Big.SetString (dt_Amount t) = Some quoteAmount ∧ amount_of x quoteAmount amount ∧
    p = p0 ++ [(HexToAddress (ar_BaseTokenAddress x), HexToAddress (dt_AssociatedAddress t), amount)].
Lemma configure_pays_once t w l : holds_associations w l →
  wp (configureAccountTransaction t) (λ _ w', paid_once t l (paid w) (paid w')) w.
Proof.
  intros Hl. eapply wp_mono; [|by apply configure_settles].
  intros _ w' [?|(o & p & Hps & He & (Ho & x & a & q & Hx & Hu & Ha & Hq & amount & Hamt & ->) & Hp)]; [by left|].
  right. split; [done|]. exists x, q, amount. rewrite Hps in Ha. injection Ha as <-.
  split_and!; [done..|]. destruct Hu as [_ Hu]. by rewrite Hp, Hu, HexToAddress_key.
Qed.
Lemma ConfigureAccount_once fuel t w l : holds_associations w l →
  wp (ConfigureAccount fuel t) (λ _ w', paid_once t l (paid w) (paid w')) w.
Proof.
  intros Hl. assert (paid_once t l (paid w) (paid w)) as HP by by left. unfold ConfigureAccount.
  eapply looks_then; [apply looks_status|done..|]. intros _ w1 Hl1 E1.
  eapply looks_then; [apply looks_create_account|done|by rewrite E1|]. intros [] w2 Hl2 E2;
    cbn [negb]; [|apply wp_ret; by rewrite E2, E1].
  eapply looks_then; [apply looks_log_error, looks_LoadAccount|done|by rewrite E2, E1|]. intros _ w3 Hl3 E3.
  eapply looks_then; [apply looks_status|done|by rewrite E3, E2, E1|]. intros _ w4 Hl4 E4.
  eapply looks_then; [apply looks_wait_for_signer|done|by rewrite E4, E3, E2, E1|]. intros [] w5 Hl5 E5;
    cbn [negb]; [|apply wp_ret; by rewrite E5, E4, E3, E2, E1].
  eapply looks_then; [apply looks_status|done|by rewrite E5, E4, E3, E2, E1|]. intros _ w6 Hl6 E6.
  assert (paid w6 = paid w) as E by congruence. rewrite <-E.
  apply wp_bind, wp_attempt. eapply wp_mono; [|by apply configure_pays_once].
  intros r w7 Hp. destruct r as [a|e|]; cbn [wp_next]; [| |done];
    (apply pays_wp; [|intros _ w8 _ ->; done]);
    unfold setAccountStatus, removeAccountStatus; repeat first [progress intros | apply remove_signer_pays | pays].
Qed.

(** C14: taking a queued payment through its states, however long it waits, makes at
    most one transfer: for a payment in ether, to the user it names, in the base
    token of the user's association, of what the payment's amount converts to.
    A payment in bitcoin is never paid out. *)
Theorem ConfigureAccount_pays fuel t w l r w' :
  holds_associations w l → ConfigureAccount fuel t w = (r, w') →
  paid w' = paid w ∨
  dt_AssetCode t = AssetCodeETH ∧ ∃ x quoteAmount amount,
    x ∈ l ∧ of_user (dt_Chain t) (AssociationDao.getAddressKey (HexToAddress (dt_AssociatedAddress t))) x ∧
    Big.SetString (dt_Amount t) = Some quoteAmount ∧ amount_of x quoteAmount amount ∧
    paid w' = paid w ++ [(HexToAddress (ar_BaseTokenAddress x), HexToAddress (dt_AssociatedAddress t), amount)].
Proof.
  intros Hl Hrun. exact (wp_run _ _ _ _ _ Hrun (ConfigureAccount_once fuel t w l Hl)).
Qed.

End props.

(** * Which address a user is given to pay to *)

Section props.
Context {OS TS PS ES B CS AS XS : Type}.
Context `{IOrderDao OS, IPairDao PS, AmqpLaws B, ConfigDaoSpec CS}.
Context `{AddressKeyLaws} `{!IAssociationDao AS, !AssociationDaoSpec AS}.
Context `{ITokenLaws XS, !ITicker XS, !ITickerLaws XS}.
Context `{!Codecs, SwapConfig, !Rlp, !OtherRat, !Big.Undefined}.
#[local] Abbreviation Desk := (Desk OS TS PS ES B CS AS XS).
Implicit Types (w : Desk) (x : AddressAssociationRecord).

(** ** The address a user is to pay to *)
Definition holds_counters w (m : gmap string Z) : Prop := counters (k_config w) m.
Definition index_key (chain : string) : outcome string := ConfigDao.getAddressIndexKey chain.

(** The counter is one more, and nothing else differs. *)
Lemma next_index_ok chain w m : holds_counters w m →
  wp (next_index chain) (λ r w', ∃ c m', w' = lset desk_config c w ∧ counters c m' ∧ match r with
    | Ok _ => ∃ k z, index_key chain = Ok k ∧ m !! k = Some z ∧ m' = <[k := z + 1]> m
    | Err _ => True | Panic => False end) w.
Proof.
  intros Hm. apply wp_zoom. eapply wp_mono; [|by apply cf_IncrementAddressIndex_spec].
  intros r c (m' & Hc & Hr). exists c, m'. split_and!; [done..|]. by destruct r.
Qed.
Lemma address_at_index_ok chain w m : holds_counters w m →
  wp (address_at_index chain) (λ r w', ∃ c, w' = lset desk_config c w ∧ counters c m ∧ match r with
    | Ok (a, i) => ∃ k z, index_key chain = Ok k ∧ m !! k = Some z ∧ i = z `mod` 2 ^ 64 ∧
        Generate masterPublicKey i = Ok a
    | _ => True end) w.
Proof.
  intros Hm. apply wp_bind, wp_zoom. eapply wp_mono; [|by apply cf_GetAddressIndex_spec].
  intros [i|e|] c [Hc Hr]; cbn [wp_next]; [|by exists c..].
  destruct Hr as (k & z & Hk & Hz & ->). apply wp_bind, wp_lift.
  destruct (Generate _ _) as [a|e|] eqn:Hg; cbn [wp_next]; [|by exists c..].
  apply wp_ret. exists c. split_and!; [done..|]. by exists k, z.
Qed.
(** A new address is that of the counter's next value. *)
Definition next_address (chain : string) (m m' : gmap string Z) (a : Address) (i : Z) : Prop :=
  ∃ k z, index_key chain = Ok k ∧ m !! k = Some z ∧ m' = <[k := z + 1]> m ∧
    i = (z + 1) `mod` 2 ^ 64 ∧ Generate masterPublicKey i = Ok a.
Lemma GenerateAddress_ok chain w m : holds_counters w m →
  wp (GenerateAddress chain) (λ r w', ∃ c, w' = lset desk_config c w ∧ match r with
    | Ok (a, i) => ∃ m', counters c m' ∧ next_address chain m m' a i
    | _ => True end) w.
Proof.
  intros Hm. apply wp_bind. eapply wp_mono; [|by apply next_index_ok].
  intros [[]|e|] w1 (c & m' & -> & Hc & Hr); cbn [wp_next]; [|by exists c|done].
  destruct Hr as (k & z & Hk & Hz & ->).
  eapply wp_mono; [|by eapply address_at_index_ok].
  intros [[a i]|e|] w2 (c2 & -> & Hc2 & Hr); [|by exists c2..].
  destruct Hr as (k' & z' & Hk' & Hz' & Hi & Hg). exists c2. split; [done|]. exists (<[k := z + 1]> m).
  split; [done|]. rewrite Hk in Hk'. injection Hk' as <-. rewrite lookup_insert_eq in Hz'.
  injection Hz' as <-. exists k, z. by rewrite <-Hi.
Qed.

(** Two requests for an address whose two steps interleave: both count, then both
    read. *)
Definition interleaved_requests (chain : string) : M Desk (Address * Address) :=
  next_index chain ;; next_index chain ;;
  '(a, _) ← address_at_index chain; '(b, _) ← address_at_index chain; mret (a, b).

(** C38: the counter is incremented and read in two steps, so that of two requests
    that interleave both are given the address of the second index, and nobody
    that of the first. *)
Theorem interleaved_same_address chain w m a b w' :
  holds_counters w m → interleaved_requests chain w = (Ok (a, b), w') →
  a = b ∧ ∃ k z, index_key chain = Ok k ∧ m !! k = Some z ∧ holds_counters w' (<[k := z + 2]> m) ∧
    Generate masterPublicKey ((z + 2) `mod` 2 ^ 64) = Ok a.
Proof.
  intros Hm Hrun. pattern a, b, w'.
  apply (wp_run _ (λ r w', match r with Ok (a, b) => _ a b w' | _ => True end) _ _ _ Hrun).
  apply wp_bind. eapply wp_mono; [|by apply next_index_ok].
  intros [[]|e|] w1 (c1 & m1 & -> & Hc1 & Hr1); cbn [wp_next]; [|done..].
  destruct Hr1 as (k & z & Hk & Hz & ->).
  apply wp_bind. eapply wp_mono; [|by apply (next_index_ok _ _ (<[k := z + 1]> m))].
  intros [[]|e|] w2 (c2 & m2 & -> & Hc2 & Hr2); cbn [wp_next]; [|done..].
  destruct Hr2 as (k2 & z2 & Hk2 & Hz2 & ->). rewrite Hk in Hk2. injection Hk2 as <-.
  rewrite lookup_insert_eq in Hz2. injection Hz2 as <-. rewrite insert_insert_eq in Hc2.
  replace (z + 1 + 1) with (z + 2) in Hc2 by lia.
  apply wp_bind. eapply wp_mono; [|by apply (address_at_index_ok _ _ (<[k := z + 2]> m))].
  intros [[a1 i1]|e|] w3 (c3 & -> & Hc3 & Hr3); cbn [wp_next]; [|done..].
  apply wp_bind. eapply wp_mono; [|by apply (address_at_index_ok _ _ (<[k := z + 2]> m))].
  intros [[a2 i2]|e|] w4 (c4 & -> & Hc4 & Hr4); cbn [wp_next]; [|done..].
  destruct Hr3 as (k3 & z3 & Hk3 & Hz3 & -> & Hg3). destruct Hr4 as (k4 & z4 & Hk4 & Hz4 & -> & Hg4).
  rewrite Hk in Hk3, Hk4. injection Hk3 as <-. injection Hk4 as <-.
  rewrite lookup_insert_eq in Hz3, Hz4. injection Hz3 as <-. injection Hz4 as <-.
  apply wp_ret. split; [congruence|]. by exists k, z.
Qed.

(** What a request for an address is answered with: the address that waits for the
    user's payment, or that of the counter's next value, for which an association
    is saved. *)
Definition address_waits (chain : string) (user : Address) (l : list AddressAssociationRecord)
    (a : string) : Prop :=
  ∃ x, x ∈ l ∧ of_user chain (AssociationDao.getAddressKey user) x ∧ ar_Status x = PENDING ∧
    a = ar_Address x.
Definition association_saved (r : AddressAssociationRecord) (l l' : list AddressAssociationRecord) : Prop :=
  let user := of_user (ar_Chain r) (ToLower (ar_AssociatedAddress r)) in
  one_updated user (overwritten r) l l' ∨
  Forall (λ x, ¬ user x) l ∧ ∃ id, l' ≡ₚ overwritten r (blank_association id) :: l.

Lemma new_address_ok chain user pairs gen sav w l m : holds_associations w l → holds_counters w m →
  wp (new_address chain user pairs gen sav) (λ r w', match r with
    | Ok a => ∃ l' m' address i p, pairs = Some p ∧ a = Address_Hex address ∧ holds_counters w' m' ∧
        next_address chain m m' address i ∧ holds_associations w' l' ∧
        association_saved (new_association chain address i user p) l l'
    | _ => True end) w.
Proof.
  intros Hl Hm. unfold new_address. apply wp_bind, wp_attempt.
  eapply wp_mono; [|by apply GenerateAddress_ok]. intros [[a i]|e|] w1 (c & -> & Hr); cbn [wp_next]; [|done..].
  destruct Hr as (m' & Hc & Hn). unfold SaveAssociationByChainAddress.
  apply wp_bind, wp_attempt, wp_bind, wp_lift. destruct pairs as [p|]; cbn [deref wp_next]; [|done].
  apply wp_zoom. eapply wp_mono; [|apply SaveAssociation_spec; [exact Hl|]].
  - intros [?|e|] s (l' & Hl' & Hs); cbn [wp_next]; [|done..]. apply wp_ret.
    by exists l', m', a, i, p.
  - destruct Hn as (k & z & _ & _ & _ & -> & _). by apply Z.mod_pos_bound.
Qed.

End props.
