(* ===== verification/ListenerProps.v ===== *)
(** The Ethereum listener: what it hands to its handler, and what of it reaches the
    queue when the handler is that of [endpoints/deposit.go]. *)
From S2P Require Import Prelude BigMath Types DepositTypes Mongo Json Orders MatchTypes OrderDao OrderStore Pairs TradeDao Rabbit Engine Ws Services OrderEndpoint Deposits AddressGenerator DepositService DepositEndpoint Configurator Listeners DepositProps.

(** A node that follows one chain: the block of a number does not change.  It may
    fail, and may not have the block yet. *)
Class EthNodeLaws (XS : Type) `{IEthNode XS} := {
  chain : Z → EthBlock;
  chain_Number n : eb_Number (chain n) = n;
  BlockByNumber_ok n s : wp (BlockByNumber (Some n)) (λ r _,
    match r with Ok b => b = chain n | Err _ => True | Panic => False end) s
}.

Section listener.
Context {OS TS PS ES B CS AS XS : Type}.
Context `{ConfigDaoSpec CS, EthNodeLaws XS, EthCommon}.
#[local] Abbreviation Desk := (Desk OS TS PS ES B CS AS XS).
Implicit Types w : Desk.
Import EthListener.

(** The transactions of a block the handler is given. *)
Definition payments (b : EthBlock) : list EthTransaction :=
  omap (λ '(hash, value, to), mkEthTransaction hash value ∘ Address_Hex <$> to) (eb_Transactions b).

(** What a handler keeps, [I], and what it has done, which is not undone. *)
Record watches (handler : EthTransaction → M Desk unit) (I : Desk → Prop)
    (handled : EthTransaction → Desk → Prop) : Prop := {
  watches_handler t w : I w → wp (handler t) (λ r w',
    I w' ∧ k_config w' = k_config w ∧ (∀ t', handled t' w → handled t' w') ∧
    (r = Ok tt → handled t w')) w;
  watches_outside w xs : I w →
    I (lset desk_outside xs w) ∧ ∀ t, handled t w → handled t (lset desk_outside xs w);
  watches_config w c : I w →
    I (lset desk_config c w) ∧ ∀ t, handled t w → handled t (lset desk_config c w)
}.

Section loop.
Context (handler : EthTransaction → M Desk unit) (I : Desk → Prop)
  (handled : EthTransaction → Desk → Prop) (Hh : watches handler I handled).
(** The last block the node is known to answer, and whether the handler succeeds. *)
Context (available : Z → Prop) (succeeds : Prop).
Hypothesis node_answers : ∀ n (s : XS), available n → (BlockByNumber (Some n) s).1 = Ok (chain n).
Hypothesis handler_succeeds : succeeds → ∀ t w, I w → (handler t w).1 = Ok tt.

Definition keeps_on w w' : Prop :=
  I w' ∧ (∃ m, counters (k_config w') m) ∧ ∀ t, handled t w → handled t w'.
Definition at_work w : Prop := I w ∧ ∃ m, counters (k_config w) m.

Lemma keeps_on_refl w : at_work w → keeps_on w w.
Proof. by intros []. Qed.
Lemma keeps_on_trans w w1 w2 : keeps_on w w1 → keeps_on w1 w2 → keeps_on w w2.
Proof. intros (_ & _ & H') (? & ? & ?). split_and!; auto. Qed.
Lemma keeps_on_at_work w w' : keeps_on w w' → at_work w'.
Proof. by intros (? & ? & _). Qed.

Lemma getBlock_ok n w : 0 < n < 2 ^ 63 → at_work w →
  wp (getBlock n) (λ r w', keeps_on w w' ∧ (available n → r = Ok (Some (chain n))) ∧
    match r with
    | Ok (Some b) => b = chain n
    | Panic => False
    | _ => True
    end) w.
Proof.
  intros Hn [HI Hc]. unfold getBlock. rewrite (proj2 (Z.ltb_lt _ _)) by lia.
  assert (int64 n = n) as ->.
  { unfold int64. rewrite Z.mod_small; lia. }
  apply wp_bind, wp_attempt, wp_zoom.
  eapply wp_mono; [|apply wp_and; [apply wp_self|apply (BlockByNumber_ok n)]].
  intros r s [[Hr _] Hb].
  assert (keeps_on w (lset desk_outside s w)) as Hk.
  { destruct (watches_outside _ _ _ Hh w s HI) as [? ?]. by split_and!. }
  destruct r as [b|e|]; cbn [wp_next]; [| |done].
  - apply wp_ret. subst b. by split_and!.
  - assert (available n → False) as Hna.
    { intros Ha. pose proof (node_answers n (lget desk_outside w) Ha). congruence. }
    destruct (decide _); (apply wp_ret || apply wp_fail); split_and!; try done; intros Ha; by destruct Hna.
Qed.

Lemma handle_transaction_ok t w : at_work w →
  wp (handle_transaction handler t) (λ r w', keeps_on w w' ∧ (succeeds → r = Ok tt) ∧
    (r = Ok tt → ∀ p, p ∈ payments (mkEthBlock 0 [t]) → handled p w')) w.
Proof.
  intros [HI Hc]. destruct t as [[hash value] [to|]]; cbn.
  2:{ apply wp_ret. split_and!; [by apply keeps_on_refl|done|]. intros _ p Hp. by apply elem_of_nil in Hp. }
  apply wp_wrapping. set (t := mkEthTransaction _ _ _).
  eapply wp_mono; [|apply wp_and; [apply wp_self|by apply (watches_handler _ _ _ Hh)]].
  intros r w' [[Hr _] (HI' & Hcfg & Hg & Hd)]. split_and!; [split_and!; [done|by rewrite Hcfg|done]|..].
  - intros Hs. pose proof (handler_succeeds Hs t w HI) as E. by rewrite Hr, E.
  - intros Hok p ->%list_elem_of_singleton. apply Hd. by destruct r.
Qed.

Lemma payments_cons t ts p : p ∈ payments (mkEthBlock 0 (t :: ts)) →
  p ∈ payments (mkEthBlock 0 [t]) ∨ p ∈ payments (mkEthBlock 0 ts).
Proof.
  unfold payments. simpl. destruct t as [[hash value] [to|]]; simpl; [|by right].
  intros [->|?]%elem_of_cons; [left; by left|by right].
Qed.
Lemma transactions_ok ts w : at_work w →
  wp (mforeach (handle_transaction handler) ts) (λ r w', keeps_on w w' ∧ (succeeds → r = Ok tt) ∧
    (r = Ok tt → ∀ p, p ∈ payments (mkEthBlock 0 ts) → handled p w')) w.
Proof.
  revert w. induction ts as [|t ts IH]; intros w Hw.
  { apply wp_ret. split_and!; [by apply keeps_on_refl|done|]. intros _ p Hp. by apply elem_of_nil in Hp. }
  apply wp_bind. eapply wp_mono; [|by apply handle_transaction_ok].
  intros r w1 (Hk & Hs & Hd). destruct r as [[]|e|]; cbn [wp_next].
  - eapply wp_mono; [|apply IH; by eapply keeps_on_at_work]. intros r w2 (Hk2 & Hs2 & Hd2).
    split_and!; [by eapply keeps_on_trans|done|]. intros Hok p [Hp|Hp]%payments_cons; [|auto].
    destruct Hk2 as (_ & _ & Hg). auto.
  - split_and!; [done| |done]. intros Hs'. by specialize (Hs Hs').
  - split_and!; [done| |done]. intros Hs'. by specialize (Hs Hs').
Qed.
Lemma processBlock_ok b w : at_work w →
  wp (processBlock handler (Some b)) (λ r w', keeps_on w w' ∧ (succeeds → r = Ok tt) ∧
    (r = Ok tt → ∀ p, p ∈ payments b → handled p w')) w.
Proof. by apply transactions_ok. Qed.

Lemma SaveLastProcessedBlock_ok n w : 0 <= n → at_work w →
  wp (log_error (SaveLastProcessedBlock ChainEthereum n)) (λ r w', keeps_on w w' ∧ r = Ok tt) w.
Proof.
  intros Hn [HI [m Hm]]. apply wp_log_error, wp_zoom.
  eapply wp_mono; [|by apply cf_SaveLastProcessedBlock_spec]. intros r c (m' & Hc & Hr).
  assert (keeps_on w (lset desk_config c w)) as Hk.
  { destruct (watches_config _ _ _ Hh w c HI) as [? ?]. split_and!; [done| |done]. by exists m'. }
  by destruct r.
Qed.

(** What is done with the block of the current number. *)
Definition advanced n w w' (r : outcome Z) : Prop :=
  keeps_on w w' ∧ match r with
  | Ok n' => n' = n ∨ n' = n + 1 ∧ ∀ p, p ∈ payments (chain n) → handled p w'
  | _ => True
  end.
Lemma current_block_ok n w block : 0 < n → n + 1 < 2 ^ 64 → at_work w → block = None ∨ block = Some (chain n) →
  wp (r ← attempt (processBlock handler block);
      match r with
      | inl _ => _ ← lift (deref block); mret n
      | inr _ =>
        log_error (SaveLastProcessedBlock ChainEthereum n) ;;
        block ← lift (deref block);
        mret (uint64 (eb_Number block + 1))
      end) (λ r w', advanced n w w' r ∧ (succeeds → block = Some (chain n) → r = Ok (n + 1))) w.
Proof.
  intros Hn Hmax Hw [->| ->].
  { by split; [split; [apply keeps_on_refl|]|]. }
  apply wp_bind, wp_attempt. eapply wp_mono; [|by apply processBlock_ok].
  intros r w1 (Hk & Hs & Hd). destruct r as [[]|e|]; cbn [wp_next].
  - apply wp_bind. eapply wp_mono; [|apply (SaveLastProcessedBlock_ok n); [lia|by eapply keeps_on_at_work]].
    intros r w2 [Hk2 ->]. cbn [wp_next]. apply wp_bind, wp_lift. cbn [deref wp_next]. apply wp_ret.
    rewrite chain_Number. assert (uint64 (n + 1) = n + 1) as -> by (apply Z.mod_small; lia).
    split; [|done]. split; [by eapply keeps_on_trans|]. right. split; [done|].
    intros p Hp. destruct Hk2 as (_ & _ & Hg). auto.
  - apply wp_bind, wp_lift. cbn [deref wp_next]. apply wp_ret. split; [by split; [|left]|].
    intros Hs'. by specialize (Hs Hs').
  - split; [by split|]. intros Hs'. by specialize (Hs Hs').
Qed.

(** One iteration stays where it is or goes on by one block, all of whose payments
    are handled then. *)
Lemma iteration_ok conf n w : 0 < n → 0 <= conf → n + conf < 2 ^ 63 → at_work w →
  wp (iteration conf handler n) (λ r w', advanced n w w' r ∧
    (succeeds → available n → available (n + conf) → r = Ok (n + 1))) w.
Proof.
  intros Hn Hc Hmax Hw. unfold iteration.
  assert (uint64 (n + conf) = n + conf) as -> by (apply Z.mod_small; lia).
  apply wp_bind, wp_attempt. eapply wp_mono; [|apply (getBlock_ok (n + conf)); [lia|done]].
  intros r w1 (Hk1 & Ha1 & Hb1).
  destruct r as [[ahead|]|e|]; cbn [wp_next]; [subst ahead; clear Ha1| | |done].
  2,3: apply wp_ret; split; [by split; [|left]|]; intros _ _ Ha; by specialize (Ha1 Ha).
  rewrite chain_Number, decide_False by lia. apply wp_bind, wp_attempt.
  eapply wp_mono; [|apply (getBlock_ok n); [lia|by eapply keeps_on_at_work]].
  intros r w2 (Hk2 & Ha2 & Hb2). pose proof (keeps_on_trans _ _ _ Hk1 Hk2) as Hk. clear Hk1 Hk2 w1.
  pose proof (keeps_on_at_work _ _ Hk) as Hw2.
  assert (∀ r0 w0, advanced n w2 w0 r0 → advanced n w w0 r0) as Hadv.
  { intros r0 w0 [Hk0 ?]. split; [by eapply keeps_on_trans|done]. }
  destruct r as [block|e|]; cbn [wp_next]; [| |done].
  - eapply wp_mono; [|apply (current_block_ok n w2 block); [lia..|done|]].
    + intros r w3 [? Hs]. split; [auto|]. intros Hs' Ha _. apply Hs; [done|].
      specialize (Ha2 Ha). by injection Ha2.
    + destruct block; [right; by f_equal|by left].
  - eapply wp_mono; [|apply (current_block_ok n w2 None); [lia..|done|by left]].
    intros r w3 [? _]. split; [auto|]. intros _ Ha. by specialize (Ha2 Ha).
Qed.

Lemma processBlocks_ok conf fuel n w : 0 < n → 0 <= conf → n + Z.of_nat fuel + conf < 2 ^ 63 → at_work w →
  wp (processBlocks conf true handler fuel n) (λ r w', keeps_on w w' ∧
    (succeeds → (∀ k, n <= k < n + Z.of_nat fuel + conf → available k) → r = Ok (n + Z.of_nat fuel)) ∧
    match r with
    | Ok n' => n <= n' <= n + Z.of_nat fuel ∧
        ∀ k p, n <= k < n' → p ∈ payments (chain k) → handled p w'
    | _ => True
    end) w.
Proof.
  revert n w. induction fuel as [|fuel IH]; intros n w Hn Hc Hmax Hw; simpl.
  { apply wp_ret. split; [by apply keeps_on_refl|]. split; [intros; f_equal; lia|].
    split; [lia|]. intros; lia. }
  apply wp_bind. eapply wp_mono; [|apply iteration_ok; [lia..|done]].
  intros r w1 [[Hk Hr] Hs]. destruct r as [n'|e|]; cbn [wp_next].
  - assert (n' = n ∨ n' = n + 1) as Hn' by (destruct Hr as [?|[? _]]; auto).
    eapply wp_mono; [|apply (IH n'); [lia..|by eapply keeps_on_at_work]].
    intros r w2 (Hk2 & Hs2 & Hr2). split; [by eapply keeps_on_trans|]. split.
    + intros Hs' Ha. specialize (Hs Hs' (Ha n ltac:(lia)) (Ha (n + conf) ltac:(lia))).
      injection Hs as ->. rewrite Hs2; [f_equal; lia|done|]. intros k Hkr. apply Ha. lia.
    + destruct r as [n2|e|]; [|done..]. destruct Hr2 as [Hle Hd]. split; [lia|].
      intros k p Hkr Hp. destruct (decide (n' <= k)); [apply (Hd k p); [lia|done]|].
      destruct Hr as [->|[-> Hd1]]; [lia|]. assert (k = n) as -> by lia.
      destruct Hk2 as (_ & _ & Hg). auto.
  - split; [done|]. split; [|done]. intros Hs' Ha.
    by specialize (Hs Hs' (Ha n ltac:(lia)) (Ha (n + conf) ltac:(lia))).
  - split; [done|]. split; [|done]. intros Hs' Ha.
    by specialize (Hs Hs' (Ha n ltac:(lia)) (Ha (n + conf) ltac:(lia))).
Qed.
End loop.

(** C37: when the node answers every block from [n] to the last one that is needed and
    the handler never fails, each iteration goes on by one block: after [fuel] of
    them the listener is at [n + fuel], and every payment of the blocks between was
    given to the handler. *)
Theorem listener_advances handler I handled conf fuel n w :
  watches handler I handled → I w → (∃ m, counters (k_config w) m) →
  0 < n → 0 <= conf → n + Z.of_nat fuel + conf < 2 ^ 63 →
  (∀ k (s : XS), n <= k < n + Z.of_nat fuel + conf → (BlockByNumber (Some k) s).1 = Ok (chain k)) →
  (∀ t w, I w → (handler t w).1 = Ok tt) →
  ∃ w', processBlocks conf true handler fuel n w = (Ok (n + Z.of_nat fuel), w') ∧
    ∀ k p, n <= k < n + Z.of_nat fuel → p ∈ payments (chain k) → handled p w'.
Proof.
  intros Hh HI Hc Hn Hconf Hmax Hnode Hok.
  destruct (processBlocks_ok handler I handled Hh (λ k, n <= k < n + Z.of_nat fuel + conf) True
    ltac:(auto) ltac:(auto) conf fuel n w) as (_ & Hs & Hr); [lia..|by split|].
  rewrite (surjective_pairing (processBlocks _ _ _ _ _ _)). rewrite Hs in * by auto.
  eexists. split; [done|]. apply Hr.
Qed.
End listener.

(** ** The listener with the handler of the deposit swap *)
Section deposits.
Context {OS TS PS ES B CS AS XS : Type}.
Context `{IOrderDao OS, IPairDao PS, AmqpLaws B, ConfigDaoSpec CS}.
Context `{AddressKeyLaws} `{!IAssociationDao AS, !AssociationDaoSpec AS}.
Context `{ITokenLaws XS, !ITicker XS, !ITickerLaws XS, !IEthNode XS, !EthNodeLaws XS}.
Context `{!Codecs, SwapConfig, !Rlp, !OtherRat, !Big.Undefined}.
#[local] Abbreviation Desk := (Desk OS TS PS ES B CS AS XS).
Implicit Types (w : Desk) (x : AddressAssociationRecord).

(** The lookups of the associations do not fail. *)
Definition lookups_answer : Prop :=
  ∀ c a (s : AS) l e, associations s l → (as_GetByChainAddress c a s).1 ≠ Err e.

Section watched.
Context (l : list AddressAssociationRecord).
Definition same_but_status x y : Prop := set_ar_Status "" x = set_ar_Status "" y ∧ ar_Status y ≠ SUCCESS.
(** The associations there were and that had not succeeded are still there. *)
Definition still_associated w : Prop := ∃ lw, holds_associations w lw ∧
  ∀ x, x ∈ l → ar_Status x ≠ SUCCESS → ∃ y, y ∈ lw ∧ same_but_status x y.
Definition all_queued (t : EthTransaction) w : Prop :=
  ∀ x, x ∈ l → deposits t x → deposit_message t x ∈ queued w.

Lemma same_deposit t x y : same_but_status x y → deposits t x → deposits t y ∧ deposit_message t y = deposit_message t x.
Proof.
  intros [E Hy] (Hv & [Hc Ha] & _). destruct x, y. unfold set_ar_Status in E. simpl in *. injection E as -> -> -> -> -> -> -> -> -> -> ->.
  by split.
Qed.
Lemma swap_watches : lookups_answer → watches OnNewEthereumTransaction still_associated all_queued.
Proof.
  intros Hans. split.
  - intros t w (lw & Hlw & Hst). eapply wp_mono; [|by apply (OnNewEthereumTransaction_ok t w lw)].
    intros r w' (_ & Hc & l' & m & Hl' & Hq & Hone & Hall).
    assert (∀ t', all_queued t' w → all_queued t' w') as Hg.
    { intros t' Ht' x Hx Hd. rewrite Hq. apply elem_of_app. left. auto. }
    split_and!; [|done..|].
    + exists l'. split; [done|]. intros x Hx Hs. destruct (Hst x Hx Hs) as (y & Hy & E & Hys).
      destruct Hone as [[_ ->]|(z & rest & Hlz & Hl'z & Hd & _)]; [by exists y|].
      rewrite Hlz in Hy. apply elem_of_cons in Hy as [->|Hy].
      * exists (set_ar_Status PENDING z). rewrite Hl'z. split; [by left|]. by split.
      * exists y. rewrite Hl'z. split; [by right|]. by split.
    + intros -> x Hx Hd. destruct (Hst x Hx) as (y & Hy & E); [apply Hd|].
      destruct (same_deposit t x y E Hd) as [Hdy Hm]. assert (lookup_answers t w) as Hlook.
      { intros e. unfold GetAssociationByChainAddress, zoom.
        rewrite (surjective_pairing (as_GetByChainAddress _ _ _)). cbn. by eapply Hans. }
      rewrite Hq, (Hall Hlook eq_refl y Hy Hdy), Hm.
      apply elem_of_app. right. by left.
  - intros w xs Hw. by split.
  - intros w c Hw. by split.
Qed.
End watched.

(** C13: as long as the lookups of associations answer, no deposit is missed: when the
    listener, started at a block [n] after the first, has come to block [n'], whatever it
    met on its way, every payment of at least the minimum in the blocks between to an
    address that was given to a user, and whose association had not succeeded, has its
    message in the queue.  (A lookup that fails is swallowed, and its payment is lost; the
    block numbers are those an [int64] holds, and the counters of the configuration can
    be read.) *)
Theorem no_deposit_missed conf fuel n n' w l w' :
  lookups_answer → holds_associations w l → (∃ m, counters (k_config w) m) →
  0 < n → 0 <= conf → n + Z.of_nat fuel + conf < 2 ^ 63 →
  EthListener.processBlocks conf true OnNewEthereumTransaction fuel n w = (Ok n', w') →
  ∀ k t x, n <= k < n' → t ∈ payments (chain k) → x ∈ l → deposits t x →
    deposit_message t x ∈ queued w'.
Proof.
  intros Hans Hl Hc Hn Hconf Hmax Hrun.
  assert (still_associated l w) as HI by (exists l; split; [done|]; intros x Hx Hs; by exists x).
  destruct (wp_run _ _ _ _ _ Hrun (processBlocks_ok _ _ _ (swap_watches l Hans) (λ _, False) False
    ltac:(done) ltac:(done) conf fuel n w Hn Hconf Hmax (conj HI Hc))) as (_ & _ & _ & Hd).
  intros k t x Hk Ht Hx Hdx. by apply (Hd k t).
Qed.
End deposits.
