(* ===== verification/DepositWitness.v ===== *)
(** The deposit swap at work: the server of [ServiceWitness] with collections of
    associations and counters, a token contract that keeps what it is told, and a
    chain of which one block pays a user's address. *)
From S2P Require Import Prelude BigMath Types DepositTypes Mongo ListMongo Json Fixtures Orders OrderCancels MatchTypes OrderCodec TradeCodec OrderDao Collection Pairs OrderStore OrderDaoRefine TradeDao Rabbit Engine Toy EngineSpec EngineProps EngineWitness Ws WsProps Services Validator OrderService OrderServiceProps ServiceWitness OrderEndpoint Deposits DepositDaoProps AddressGenerator DepositService DepositEndpoint Configurator Listeners DepositProps ListenerProps.
Import Running.

(** ** The libraries *)
Lemma ToLower_uint d : ToLower (DecimalString.NilEmpty.string_of_uint d) = DecimalString.NilEmpty.string_of_uint d.
Proof. induction d; simpl; by f_equal. Qed.
Lemma ToLower_String_Z a : ToLower (Big.String_Z a) = Big.String_Z a.
Proof.
  unfold Big.String_Z, DecimalString.NilZero.string_of_int, DecimalString.NilZero.string_of_uint.
  destruct (Z.to_int a) as [d|d]; destruct d; simpl; rewrite ?ToLower_uint; done.
Qed.

(** A hash has twelve bytes more than an address. *)
Definition deposit_eth : EthCommon := {|
  Address_Hex a := "0x" +:+ Big.String_Z a;
  HexToAddress := @HexToAddress toy_eth;
  Hash_Hex := @Hash_Hex toy_eth;
  HexToHash := @HexToHash toy_eth;
  IsHexAddress := @IsHexAddress toy_eth;
  Address_Bytes a := [a];
  Hash_Bytes h := replicate 12 0 ++ [h];
  BigToHash := @BigToHash toy_eth;
  Keccak256 := @Keccak256 toy_eth;
  Ecrecover := @Ecrecover toy_eth
|}.
#[export] Existing Instance deposit_eth.
#[export] Instance toy_hex : HexCommon := {|
  Bytes2Hex l := match l with [a] => Big.String_Z a | _ => "" end;
  Hex2Bytes s := [toy_of_string s];
  BytesToAddress l := default 0 (head l);
  Address_UnmarshalText s := Ok (toy_of_string (drop_0x s))
|}.
#[export] Instance toy_key_laws : AddressKeyLaws deposit_eth toy_hex.
Proof.
  split; intros a; unfold AssociationDao.getAddressKey; cbn -[drop_0x String.append].
  - change ("0x" +:+ ToLower (Big.String_Z a) = "0x" +:+ Big.String_Z a). by rewrite ToLower_String_Z.
  - unfold toy_of_string. by rewrite drop_0x_ok, SetString_String_Z.
Defined.
#[export] Instance toy_bip32 : Bip32 := {|
  Key := Z; NewChildKey k i := Ok (k + i); DecompressPubkey k := (k, k + 1)
|}.
#[export] Instance toy_swap : SwapConfig := {|
  masterPublicKey := Some (1000 : Z); SignerPublicKey := 77; MinimumValueWei := 10; MinimumValueSat := 5
|}.
#[export] Instance toy_rlp : Rlp := {|
  EncodeToBytes t := Ok [Z.of_nat (length (at_Params t))]; DecodeBytes _ := Err "rlp: expected List"
|}.
#[export] Instance toy_rat : OtherRat := λ _, None.
#[export] Instance toy_configurator : ConfiguratorConfig := {|
  Enabled := true; LockUnixTimestamp := 0; TokenPriceETH := "1"; StartingBalance := "20"; Sign h := Ok h
|}.

(** ** The world outside: the transfers that were made *)
Abbreviation toy_outside := (list (Address * Address * Z)).
#[export] Instance toy_token : IToken toy_outside := {|
  NewToken _ := mret tt;
  ListenToTransferEvents _ := mret tt;
  Transfer t a n s := (Ok tt, s ++ [(t, a, n)]);
  TransferEvents _ s := (Ok (match last s with Some (_, a, n) => [(a, n)] | None => [] end), s);
  transfers s := s
|}.
#[export] Instance toy_token_laws : ITokenLaws toy_outside.
Proof. by split. Defined.
#[export] Instance toy_ticker : ITicker toy_outside := mret [("lastPrice", JStr "2")].
#[export] Instance toy_ticker_laws : ITickerLaws toy_outside.
Proof. done. Defined.
(** Block 7 pays 50 to the address of user 9 and creates a contract. *)
Definition toy_chain (deposit_to n : Z) : EthBlock :=
  mkEthBlock n (if decide (n = 7) then [("0xaa", 50, Some deposit_to); ("0xbb", 60, None)] else []).
(** ** The collections *)
#[export] Instance toy_association_dao : IAssociationDao coll :=
  association_dao (Mongo0 := ListMongo AssociationDao.unique_index).
#[export] Instance toy_association_spec : AssociationDaoSpec coll :=
  association_dao_spec (Mongo0 := ListMongo AssociationDao.unique_index)
    (MongoLaws0 := ListMongo_laws AssociationDao.unique_index) eq_refl.
#[export] Instance toy_config_dao : IConfigDao coll :=
  config_dao (Mongo0 := ListMongo ConfigDao.unique_index).
#[export] Instance toy_config_spec : ConfigDaoSpec coll :=
  config_dao_spec (Mongo0 := ListMongo ConfigDao.unique_index)
    (MongoLaws0 := ListMongo_laws ConfigDao.unique_index) eq_refl.
Abbreviation toy_desk := (Desk coll coll coll nat (list (string * json)) coll coll toy_outside).

(** ** An address for user 9 *)
Definition config0 : coll :=
  Coll [[("key", BStr ConfigDao.ethereumAddressIndexKey); ("value", BInt 5)];
        [("key", BStr ConfigDao.ethereumLastBlockKey); ("value", BInt 6)]] 0 0.
Definition counters0 : gmap string Z :=
  list_to_map [(ConfigDao.ethereumAddressIndexKey, 5); (ConfigDao.ethereumLastBlockKey, 6)].
Lemma config0_ok : counters config0 counters0.
Proof.
  split; [apply (bool_decide_unpack _); vm_compute; exact I|].
  eexists. split; [|reflexivity]. repeat constructor.
Defined.
Definition desk0 : toy_desk := mkDesk server0 config0 (Coll [] 0 0) [] ∅.
Lemma desk0_associations : holds_associations desk0 [].
Proof. split; [constructor|apply (bool_decide_unpack _); vm_compute; exact I]. Defined.

Definition tomo_eth : PairAddresses := mkPairAddresses "tomo/eth" 11 12.
Definition asked : outcome string * toy_desk := deposit_address ChainEthereum 9 (Some tomo_eth) id id desk0.
Definition address9 : string := match asked.1 with Ok a => a | _ => "" end.
Definition desk1 : toy_desk := asked.2.
Lemma asked_run : deposit_address ChainEthereum 9 (Some tomo_eth) id id desk0 = (Ok address9, desk1).
Proof. vm_compute. reflexivity. Defined.

Definition associations_of (w : toy_desk) : list AddressAssociationRecord :=
  record_of <$> c_docs (k_associations w).
Definition stringb (k : string) (d : doc) : bool :=
  match field k d with Some (BStr _) => true | _ => false end.
Definition fresh_docb (d : doc) : bool :=
  stringb "chain" d && stringb "address" d && stringb "associatedAddress" d &&
  match field "txEnvelopes" d with None => true | _ => false end.
Lemma stringb_ok k d : stringb k d = true → is_string k d.
Proof. unfold stringb, is_string. destruct (field k d) as [[]|]; [|naive_solver..]. done. Qed.
Lemma stored_associations (w : toy_desk) :
  forallb fresh_docb (c_docs (k_associations w)) &&
    bool_decide (unique_ok AssociationDao.unique_index (c_docs (k_associations w))) = true →
  holds_associations w (associations_of w).
Proof.
  intros [Hd Hu]%andb_prop. split; [|exact (bool_decide_eq_true_1 _ Hu)]. unfold associations_of.
  change (docs (k_associations w)) with (c_docs (k_associations w)). clear Hu.
  induction (c_docs (k_associations w)) as [|d ds IH]; [constructor|]. simpl in Hd.
  apply andb_prop in Hd as [H1 Hd]. constructor; [|by apply IH]. split; [done|].
  unfold fresh_docb in H1. apply andb_prop in H1 as [[[Hc Ha]%andb_prop Hu]%andb_prop He].
  split; [by apply stringb_ok|]. split; [by apply stringb_ok|]. split; [by apply stringb_ok|].
  left. by destruct (field "txEnvelopes" d).
Qed.
Lemma desk1_associations : holds_associations desk1 (associations_of desk1).
Proof. apply stored_associations. vm_compute. reflexivity. Qed.
Lemma desk1_counters : ∃ m, counters (k_config desk1) m.
Proof.
  eexists. split; [apply (bool_decide_unpack _); vm_compute; exact I|].
  exists [(ConfigDao.ethereumAddressIndexKey, 6); (ConfigDao.ethereumLastBlockKey, 6)].
  split; [|reflexivity]. apply Forall2_cons; split; [split; vm_compute; reflexivity|].
  apply Forall2_cons; split; [split; vm_compute; reflexivity|constructor].
Defined.


Definition interleaved : outcome (Address * Address) * toy_desk := interleaved_requests ChainEthereum desk0.
Definition given : Address := match interleaved.1 with Ok (a, _) => a | _ => 0 end.
Definition given' : Address := match interleaved.1 with Ok (_, b) => b | _ => 0 end.
Lemma interleaved_run : interleaved_requests ChainEthereum desk0 = (Ok (given, given'), interleaved.2).
Proof. vm_compute. reflexivity. Defined.
Lemma interleaved_same_address_witness :
  given = given' ∧ Generate masterPublicKey ((5 + 2) `mod` 2 ^ 64) = Ok given.
Proof.
  destruct (interleaved_same_address ChainEthereum desk0 counters0 _ _ _ config0_ok interleaved_run)
    as (He & k & z & Hk & Hz & _ & Hg).
  split; [exact He|]. injection Hk as <-. vm_compute in Hz. injection Hz as <-. exact Hg.
Defined.

(** ** A payment to it *)
Definition x9 : AddressAssociationRecord :=
  default (blank_association "") (head (associations_of desk1)).
Definition payment9 : EthTransaction := mkEthTransaction "0xaa" 50 address9.
Lemma payment9_deposits : deposits payment9 x9.
Proof. split; [vm_compute; discriminate|]. split; [split; vm_compute; reflexivity|vm_compute; discriminate]. Defined.
Lemma x9_in : x9 ∈ associations_of desk1.
Proof. left. Defined.
Lemma toy_lookups_answer : lookups_answer (AS := coll).
Proof.
  intros c a s l e _. cbn [as_GetByChainAddress toy_association_dao association_dao].
  unfold AssociationDao.GetAssociationByChainAddress, or_none, attempt, mbind, M_bind.
  cbn [FindOne ListMongo]. destruct (take_first _ _) as [[d r]|]; [|done].
  unfold lift. by rewrite association_of_record.
Defined.

Definition paid_in : outcome unit * toy_desk := OnNewEthereumTransaction payment9 desk1.
Definition desk2 : toy_desk := paid_in.2.
Lemma paid_in_run : OnNewEthereumTransaction payment9 desk1 = (Ok tt, desk2).
Proof. vm_compute. reflexivity. Defined.
Lemma toy_lookup t (w : toy_desk) l : holds_associations w l → lookup_answers t w.
Proof.
  intros Hl e. unfold GetAssociationByChainAddress, zoom.
  pose proof (toy_lookups_answer ChainEthereum (HexToAddress (et_To t)) _ l e Hl) as Hno.
  by destruct (as_GetByChainAddress _ _ _).
Qed.

Lemma deposit_queued_witness : paid desk2 = [] ∧ queued desk2 = [deposit_message payment9 x9].
Proof.
  destruct (deposit_queued payment9 desk1 (associations_of desk1) _ _ desk1_associations paid_in_run)
    as (Hp & l' & m & _ & Hq & _ & Hall).
  split; [exact Hp|]. rewrite Hq, (Hall (toy_lookup _ _ _ desk1_associations) eq_refl x9 x9_in payment9_deposits).
  reflexivity.
Defined.

Definition paid_again : outcome unit * toy_desk := OnNewEthereumTransaction payment9 desk2.
Lemma paid_again_run : OnNewEthereumTransaction payment9 desk2 = (Ok tt, paid_again.2).
Proof. vm_compute. reflexivity. Defined.
Lemma desk2_associations : holds_associations desk2 (associations_of desk2).
Proof. apply stored_associations. vm_compute. reflexivity. Qed.
Lemma deposit_queued_again_witness :
  queued paid_again.2 = [deposit_message payment9 x9; deposit_message payment9 x9].
Proof.
  rewrite (deposit_queued_again payment9 x9 desk1 (associations_of desk1) desk2 _ desk1_associations x9_in
    payment9_deposits (toy_lookup _ _ _ desk1_associations) (toy_lookup _ _ _ desk2_associations)
    paid_in_run paid_again_run).
  reflexivity.
Defined.

(** ** Paying it out *)
Definition deposit9 : DepositTransaction := deposit_of payment9 x9.
Definition configured : outcome bool * toy_desk := ConfigureAccount 3 deposit9 desk2.
Lemma configured_run : ConfigureAccount 3 deposit9 desk2 = (Ok true, configured.2).
Proof. vm_compute. reflexivity. Defined.
(** The pair is registered and has no bids, so that the price server's 2 counts. *)
Example configured_paid : paid configured.2 = [(11, 9, 100)].
Proof. vm_compute. reflexivity. Qed.
Lemma ConfigureAccount_pays_witness : ∃ x quoteAmount amount,
  Big.SetString (dt_Amount deposit9) = Some quoteAmount ∧ amount_of (OS := coll) (TS := coll) (PS := coll) (ES := nat) (B := list (string * json))
    (CS := coll) (AS := coll) (XS := toy_outside) x quoteAmount amount ∧
  paid configured.2 = [(HexToAddress (ar_BaseTokenAddress x), 9, amount)].
Proof.
  destruct (ConfigureAccount_pays 3 deposit9 desk2 (associations_of desk2) _ _ desk2_associations configured_run)
    as [Hp|(_ & x & q & a & _ & _ & Hq & Ha & Hp)].
  - exfalso. vm_compute in Hp. discriminate Hp.
  - exists x, q, a. split; [exact Hq|]. split; [exact Ha|]. rewrite Hp. reflexivity.
Defined.

(** ** The chain *)
Definition toy_node (last : Z) : IEthNode toy_outside := {|
  NetworkID := mret "1";
  BlockByNumber o := match o with
    | Some n => if n <=? last then mret (toy_chain (HexToAddress address9) n) else fail "not found"
    | None => mret (toy_chain (HexToAddress address9) last)
    end
|}.
Definition toy_node_laws (last : Z) : @EthNodeLaws toy_outside (toy_node last).
Proof.
  refine {| chain := toy_chain (HexToAddress address9) |}; [done|].
  intros n s. unfold wp. cbn. by destruct (n <=? last).
Defined.
#[export] Instance short_node : IEthNode toy_outside := toy_node 9.
#[export] Instance short_node_laws : EthNodeLaws toy_outside := toy_node_laws 9.

(** Of four iterations two find the block ahead. *)
Definition listened : outcome Z * toy_desk :=
  EthListener.processBlocks 2 true OnNewEthereumTransaction 4 6 desk1.
Lemma listened_run :
  EthListener.processBlocks 2 true OnNewEthereumTransaction 4 6 desk1 = (Ok 8, listened.2).
Proof. vm_compute. reflexivity. Defined.
Lemma no_deposit_missed_witness : deposit_message payment9 x9 ∈ queued listened.2.
Proof.
  apply (no_deposit_missed 2 4 6 8 desk1 (associations_of desk1) listened.2 toy_lookups_answer
    desk1_associations desk1_counters eq_refl ltac:(lia) ltac:(lia) listened_run 7 payment9 x9).
  - lia.
  - left.
  - exact x9_in.
  - exact payment9_deposits.
Defined.

(** A handler that notes what it is given, and which never fails. *)
Definition note (t : EthTransaction) : M toy_desk unit := modify (set_accountStatus <[et_Hash t := et_To t]>).
Definition noted (t : EthTransaction) (w : toy_desk) : Prop := is_Some (accountStatus w !! et_Hash t).
Lemma note_watches : watches note (λ _, True) noted.
Proof.
  split; [|by split..]. intros t w _. unfold note, wp. cbn. split_and!; [done|done|..].
  - intros t' Ht'. unfold noted. cbn. apply lookup_insert_is_Some. destruct (decide (et_Hash t = et_Hash t')); auto.
  - intros _. unfold noted. cbn. by rewrite lookup_insert_eq.
Qed.
Lemma listener_advances_witness : ∃ w',
  EthListener.processBlocks 1 true note 3 6 desk1 = (Ok 9, w') ∧ noted payment9 w'.
Proof.
  destruct (listener_advances note (λ _, True) noted 1 3 6 desk1 note_watches I desk1_counters
    eq_refl ltac:(lia) ltac:(lia)) as (w' & Hr & Hd).
  - intros k s Hk. cbn. by rewrite (proj2 (Z.leb_le k 9)) by lia.
  - done.
  - exists w'. split; [exact Hr|]. apply (Hd 7); [lia|left].
Defined.
